(** * Resumable multipart transfers of the OSS Go SDK

    A shallow embedding of the upload and copy coordinators of package [oss]
    (upload.go, multicopy.go, with the calls they make into multipart.go) and
    the properties of their checkpoint store, progress events and error
    paths.

    Go code is embedded as functions in a small state-and-trace monad: the
    state is the local file system that holds the checkpoint files, the trace
    lists the calls the coordinator makes to the outside (remote service,
    file system, progress listener, goroutines). The select loop of a
    coordinator reads the messages its workers deliver from a list. *)

From Stdlib Require Import ZArith Lia List String Ascii.
From stdpp Require Import base gmap strings list.

Open Scope Z_scope.

(** ** Machine integers and slices *)

(** [int64] arithmetic wraps around (two's complement). *)
Definition wrap64 (z : Z) : Z := (z + 2 ^ 63) mod 2 ^ 64 - 2 ^ 63.

Definition add64 (a b : Z) : Z := wrap64 (a + b).
Definition sub64 (a b : Z) : Z := wrap64 (a - b).

Definition int64_range (z : Z) : Prop := - 2 ^ 63 <= z < 2 ^ 63.

(** [len(s)] of a slice. *)
Definition len {A} (s : list A) : Z := Z.of_nat (length s).

(** [s[i]] for an [int] index: [None] is Go's index-out-of-range panic. *)
Definition index {A} (s : list A) (i : Z) : option A :=
  if i <? 0 then None else s !! Z.to_nat i.

(** [s[i] = x]: [None] is the index-out-of-range panic. *)
Definition store {A} (s : list A) (i : Z) (x : A) : option (list A) :=
  match index s i with
  | Some _ => Some (<[Z.to_nat i := x]> s)
  | None => None
  end.

(** Go's [error] values; [None] is [nil]. *)
Definition error := string.

(** ** Data model *)

(** [FileChunk]: a part of the local file, as the workers of upload.go read it
    ([chunk.Number], [chunk.Offset], [chunk.Size]). *)
Record FileChunk := mkFileChunk {
  fc_Number : Z;
  fc_Offset : Z;
  fc_Size : Z
}.

(** [UploadPart]: the token the service returns for a part. *)
Record UploadPart := mkUploadPart {
  PartNumber : Z;
  ETag : string
}.

(** The zero value of [UploadPart], as [make([]UploadPart, n)] fills a slice. *)
Definition zeroUploadPart : UploadPart := mkUploadPart 0 "".

Record InitiateMultipartUploadResult := mkIMUR {
  imur_Bucket : string;
  imur_Key : string;
  imur_UploadID : string
}.

(** [cpStat]; a [time.Time] is kept as its instant in nanoseconds. *)
Record cpStat := mkCpStat {
  st_Size : Z;
  st_LastModified : Z;
  st_MD5 : string
}.

Record cpPart := mkCpPart {
  Chunk : FileChunk;
  Part : UploadPart;
  IsCompleted : bool
}.

Record uploadCheckpoint := mkUploadCheckpoint {
  u_Magic : string;
  u_MD5 : string;
  u_FilePath : string;
  u_FileStat : cpStat;
  u_ObjectKey : string;
  u_UploadID : string;
  u_Parts : list cpPart
}.

Record copyPart := mkCopyPart {
  cp_Number : Z;
  cp_Start : Z;
  cp_End : Z
}.

(** [objectStat], with the fields multicopy.go reads and writes. *)
Record objectStat := mkObjectStat {
  os_Size : Z;
  os_LastModified : string;
  os_Etag : string
}.

Record copyCheckpoint := mkCopyCheckpoint {
  c_Magic : string;
  c_MD5 : string;
  c_SrcBucketName : string;
  c_SrcObjectKey : string;
  c_DestBucketName : string;
  c_DestObjectKey : string;
  c_CopyID : string;
  c_ObjStat : objectStat;
  c_Parts : list copyPart;
  c_CopyParts : list UploadPart;
  c_PartStat : list bool
}.

(** [cpConfig], the value of the [Checkpoint] option. *)
Record cpConfig := mkCpConfig {
  IsEnable : bool;
  FilePath : string
}.

Definition uploadCpMagic : string := "FE8BB4EA-B593-4FAC-AD7A-2459A36E2E62".
Definition copyCpMagic : string := "84F1F18C-FF1D-403B-A1D8-9DEB5F65910A".

(** Modelled from the spec: the lower bound of a part size, 100 KiB (the
    constant [MinPartSize] is declared outside upload.go and multicopy.go). *)
Definition MinPartSize : Z := 100 * 1024.

(** Modelled from the spec: the upper bound of a part size, 5 GiB (the
    constant [MaxPartSize] is declared outside upload.go and multicopy.go). *)
Definition MaxPartSize : Z := 5 * 1024 * 1024 * 1024.

(** Modelled from the spec: the suffix of a default checkpoint path
    ([CheckpointFileSuffix]); the tests load [fileName + .cp]. *)
Definition CheckpointFileSuffix : string := ".cp".

(** Progress events ([newProgressEvent]). *)
Inductive ProgressEventType :=
  | TransferStartedEvent
  | TransferDataEvent
  | TransferCompletedEvent
  | TransferFailedEvent.

Record ProgressEvent := newProgressEvent {
  EventType : ProgressEventType;
  ConsumedBytes : Z;
  TotalBytes : Z
}.

(** What a worker delivers to the coordinator: a part on [results] or an
    error on [failed]. *)
Inductive Msg :=
  | OnResults (part : UploadPart)
  | OnFailed (err : error).

(** ** The outside world *)

Definition FileMode := Z.

(** The calls a coordinator makes, in the order it makes them. [Sync] and
    [Rename] are the file-system calls of an atomic replace. *)
Inductive Action :=
  | ReadFile (path : string)
  | WriteFile (path data : string) (perm : FileMode)
  | Sync (path : string)
  | Rename (oldpath newpath : string)
  | Remove (path : string)
  | Open (path : string)
  | GetObjectDetailedMeta (bucket key : string)
  | InitiateMultipartUpload (bucket key : string)
  | CompleteMultipartUpload (bucket : string)
      (imur : InitiateMultipartUploadResult) (parts : list UploadPart)
  | AbortMultipartUpload (bucket : string) (imur : InitiateMultipartUploadResult)
  | publishProgress (event : ProgressEvent)
  | go_worker (w : Z) (imur : InitiateMultipartUploadResult)
  | go_copyWorker (w : Z) (imur : InitiateMultipartUploadResult)
  | go_scheduler (chunks : list FileChunk)
  | go_copyScheduler (parts : list copyPart)
  | close_die.

(** [encoding/json] on the type of a checkpoint. [Unmarshal] fills the record
    it is given and returns it with the error. *)
Class Json (T : Type) := {
  json_Marshal : T -> option string;
  json_Unmarshal : string -> T -> T * option error
}.

(** [crypto/md5] and [encoding/base64]. *)
Class Digest := {
  md5_Sum : string -> string;
  base64_EncodeToString : string -> string
}.

(** The parts of package [oss] that upload.go and multicopy.go use and that
    are declared in other files: the options and their lookup, the magic of
    a download checkpoint, the mode of the files the package writes and the
    end of a copy range. *)
Class Package := {
  Option : Type;
  (** [findOption(options, checkpointConfig, nil)] *)
  findOption_checkpointConfig : list Option -> option cpConfig * option error;
  (** [findOption(options, routineNum, nil)] *)
  findOption_routineNum : list Option -> option Z * option error;
  downloadCpMagic : string;
  FilePermMode : FileMode;
  GetPartEnd : Z -> Z -> Z -> Z
}.

(** The outcome of [ioutil.WriteFile]: the file is written whole, or it
    cannot be opened (and is left as it was), or the write stops with an
    error after [n] bytes of the truncated file. *)
Inductive WriteOutcome :=
  | WriteOk
  | OpenFails (err : error)
  | WriteFailsAfter (n : nat) (err : error).

Record FileInfo := mkFileInfo {
  fi_Size : Z;
  fi_ModTime : Z
}.

(** The headers of an object that multicopy.go reads, with the result of
    [strconv.ParseInt] on Content-Length. *)
Record Meta := mkMeta {
  ContentLength : Z + error;
  LastModified : string;
  Etag : string
}.

(** The answers of the host and of the remote service;
    [SplitFileByPartSize] is the package's splitting of a local file. *)
Class World `{Package} := {
  writeOutcome : string -> string -> WriteOutcome;
  os_Open : string -> option error;
  fd_Stat : string -> FileInfo + error;
  SplitFileByPartSize : string -> Z -> list FileChunk + error;
  remote_Initiate :
    string -> string -> list Option -> InitiateMultipartUploadResult + error;
  remote_Complete :
    string -> InitiateMultipartUploadResult -> list UploadPart -> option error;
  remote_Meta : string -> string -> Meta + error
}.

(** ** The monad of coordinator code *)

Inductive Res (A : Type) :=
  | Val (a : A)
  | Panic
  | Blocked.
Arguments Val {A} a.
Arguments Panic {A}.
Arguments Blocked {A}.

Definition Files := gmap string string.

Definition Go (A : Type) : Type := Files -> Res A * Files * list Action.

Definition ret {A} (a : A) : Go A := fun fs => (Val a, fs, []).

Definition bind {A B} (m : Go A) (k : A -> Go B) : Go B :=
  fun fs =>
    match m fs with
    | (Val a, fs1, t1) =>
        match k a fs1 with
        | (r, fs2, t2) => (r, fs2, t1 ++ t2)
        end
    | (Panic, fs1, t1) => (Panic, fs1, t1)
    | (Blocked, fs1, t1) => (Blocked, fs1, t1)
    end.

Notation "x <~ m ;; k" := (bind m (fun x => k))
  (at level 62, m at next level, right associativity).
Notation "m ;;; k" := (bind m (fun _ => k))
  (at level 62, right associativity).

Definition emit (a : Action) : Go unit := fun fs => (Val tt, fs, [a]).
Definition panic {A} : Go A := fun fs => (Panic, fs, []).
Definition block {A} : Go A := fun fs => (Blocked, fs, []).

(** A slice access inside coordinator code. *)
Definition at_index {A} (s : list A) (i : Z) : Go A :=
  match index s i with
  | Some x => ret x
  | None => panic
  end.

Definition result {A} (r : Res A * Files * list Action) : Res A := r.1.1.
Definition files_after {A} (r : Res A * Files * list Action) : Files := r.1.2.
Definition trace {A} (r : Res A * Files * list Action) : list Action := r.2.

(** ** The file system calls *)

Definition ioutil_ReadFile (path : string) : Go (string + error) :=
  fun fs =>
    match fs !! path with
    | Some data => (Val (inl data), fs, [ReadFile path])
    | None => (Val (inr "open: no such file or directory"), fs, [ReadFile path])
    end.

Definition ioutil_WriteFile `{World} (path data : string) (perm : FileMode)
  : Go (option error) :=
  fun fs =>
    match writeOutcome path data with
    | WriteOk => (Val None, <[path := data]> fs, [WriteFile path data perm])
    | OpenFails e => (Val (Some e), fs, [WriteFile path data perm])
    | WriteFailsAfter n e =>
        (Val (Some e), <[path := String.substring 0 n data]> fs,
         [WriteFile path data perm])
    end.

Definition os_Remove (path : string) : Go unit :=
  fun fs => (Val tt, delete path fs, [Remove path]).

(** [path/filepath.Base] with the separator of Unix: the last element of the
    path, after the trailing slashes are dropped. *)
Definition isPathSeparator (c : ascii) : bool := Ascii.eqb c "/"%char.

Fixpoint dropSeparators (cs : list ascii) : list ascii :=
  match cs with
  | c :: cs' => if isPathSeparator c then dropSeparators cs' else cs
  | [] => []
  end.

Fixpoint takeElement (cs : list ascii) : list ascii :=
  match cs with
  | c :: cs' => if isPathSeparator c then [] else c :: takeElement cs'
  | [] => []
  end.

Definition filepath_Base (path : string) : string :=
  if String.eqb path "" then "."
  else
    let stripped := dropSeparators (rev (list_ascii_of_string path)) in
    let element := rev (takeElement stripped) in
    match element with
    | [] => "/"
    | _ => string_of_list_ascii element
    end.

(** ** Options (upload.go) *)

Section Options.
Context `{Package}.

(** [getCpConfig]. The default path is written through the pointer the
    option holds; the value returned to the one caller is what is modelled. *)
Definition getCpConfig (options : list Option) (filePath : string)
  : cpConfig * option error :=
  let cpc := mkCpConfig false "" in
  match findOption_checkpointConfig options with
  | (_, Some err) => (cpc, Some err)
  | (None, None) => (cpc, None)
  | (Some cpcOpt, None) =>
      if IsEnable cpcOpt && String.eqb (FilePath cpcOpt) ""
      then (mkCpConfig (IsEnable cpcOpt) (filePath +:+ CheckpointFileSuffix), None)
      else (cpcOpt, None)
  end.

Definition getRoutines (options : list Option) : Z :=
  match findOption_routineNum options with
  | (_, Some _) => 1
  | (None, None) => 1
  | (Some rs, None) =>
      if rs <? 1 then 1
      else if rs >? 100 then 100
      else rs
  end.
End Options.

(** ** The select loop of a coordinator *)

(** The variables a coordinator's loop updates: the count of finished parts,
    the tokens gathered so far (a slice, or the checkpoint) and the bytes
    done. *)
Record LoopState (X : Type) := mkLoop {
  l_completed : Z;
  l_gathered : X;
  l_completedBytes : Z
}.
Arguments mkLoop {X} _ _ _.
Arguments l_completed {X} _.
Arguments l_gathered {X} _.
Arguments l_completedBytes {X} _.

(** How the loop ends: it falls through to the code after it, or the failed
    case returns its error from the function. *)
Inductive LoopExit (X : Type) :=
  | FellThrough (s : LoopState X)
  | Returned (err : error).
Arguments FellThrough {X} s.
Arguments Returned {X} err.

(** [for completed < n { select { case part := <-results: ...; case err :=
    <-failed: ...; return err }; if completed >= n { break } }]. With no
    message left the coordinator waits on its channels. *)
Fixpoint select_loop {X} (n : Z)
    (case_results : UploadPart -> LoopState X -> Go (LoopState X))
    (case_failed : error -> LoopState X -> Go unit)
    (msgs : list Msg) (s : LoopState X) : Go (LoopExit X) :=
  if l_completed s <? n then
    match msgs with
    | [] => block
    | OnResults part :: msgs' =>
        s' <~ case_results part s ;;
        if l_completed s' >=? n then ret (FellThrough s')
        else select_loop n case_results case_failed msgs' s'
    | OnFailed err :: _ =>
        case_failed err s ;;;
        ret (Returned err)
    end
  else ret (FellThrough s).

(** [for w := 1; w <= routines; w++ { go worker(w, arg, ...) }], with
    [worker] or [copyWorker] for [go_w]. *)
Definition start_workers (go_w : Z -> InitiateMultipartUploadResult -> Action)
    (routines : Z) (imur : InitiateMultipartUploadResult) : Go unit :=
  fun fs => (Val tt, fs, (fun w => go_w w imur) <$> seqZ 1 routines).

Section Coordinators.
Context `{World} `{Digest}.
Context `{Json uploadCheckpoint} `{Json copyCheckpoint}.

(** *** Calls into multipart.go and bucket.go *)

Definition bucket_InitiateMultipartUpload (bucket objectKey : string)
    (options : list Option) : Go (InitiateMultipartUploadResult + error) :=
  emit (InitiateMultipartUpload bucket objectKey) ;;;
  ret (remote_Initiate bucket objectKey options).

Definition bucket_CompleteMultipartUpload (bucket : string)
    (imur : InitiateMultipartUploadResult) (parts : list UploadPart)
  : Go (option error) :=
  emit (CompleteMultipartUpload bucket imur parts) ;;;
  ret (remote_Complete bucket imur parts).

Definition bucket_AbortMultipartUpload (bucket : string)
    (imur : InitiateMultipartUploadResult) : Go unit :=
  emit (AbortMultipartUpload bucket imur).

Definition bucket_GetObjectDetailedMeta (bucket objectKey : string)
  : Go (Meta + error) :=
  emit (GetObjectDetailedMeta bucket objectKey) ;;;
  ret (remote_Meta bucket objectKey).

(** *** upload.go: concurrent upload without checkpoint *)

Definition getTotalBytes (chunks : list FileChunk) : Z :=
  fold_left (fun tb chunk => add64 tb (fc_Size chunk)) chunks 0.

Definition uploadFile_results (chunks : list FileChunk) (part : UploadPart)
    (s : LoopState (list UploadPart)) : Go (LoopState (list UploadPart)) :=
  let completed := l_completed s + 1 in
  match store (l_gathered s) (PartNumber part - 1) part with
  | None => panic
  | Some parts =>
      chunk <~ at_index chunks (PartNumber part - 1) ;;
      let completedBytes := add64 (l_completedBytes s) (fc_Size chunk) in
      emit (publishProgress
              (newProgressEvent TransferDataEvent completedBytes
                 (getTotalBytes chunks))) ;;;
      ret (mkLoop completed parts completedBytes)
  end.

Definition uploadFile_failed (bucket : string)
    (imur : InitiateMultipartUploadResult) (totalBytes : Z) (err : error)
    (s : LoopState (list UploadPart)) : Go unit :=
  emit close_die ;;;
  emit (publishProgress
          (newProgressEvent TransferFailedEvent (l_completedBytes s) totalBytes)) ;;;
  bucket_AbortMultipartUpload bucket imur.

Definition uploadFile (bucket objectKey filePath : string) (partSize : Z)
    (options : list Option) (routines : Z) (msgs : list Msg)
  : Go (option error) :=
  match SplitFileByPartSize filePath partSize with
  | inr err => ret (Some err)
  | inl chunks =>
      r <~ bucket_InitiateMultipartUpload bucket objectKey options ;;
      match r with
      | inr err => ret (Some err)
      | inl imur =>
          let totalBytes := getTotalBytes chunks in
          emit (publishProgress
                  (newProgressEvent TransferStartedEvent 0 totalBytes)) ;;;
          start_workers go_worker routines imur ;;;
          emit (go_scheduler chunks) ;;;
          exit <~ select_loop (len chunks) (uploadFile_results chunks)
                    (uploadFile_failed bucket imur totalBytes) msgs
                    (mkLoop 0 (replicate (length chunks) zeroUploadPart) 0) ;;
          match exit with
          | Returned err => ret (Some err)
          | FellThrough s =>
              emit (publishProgress
                      (newProgressEvent TransferStartedEvent
                         (l_completedBytes s) totalBytes)) ;;;
              cerr <~ bucket_CompleteMultipartUpload bucket imur (l_gathered s) ;;
              match cerr with
              | Some err =>
                  bucket_AbortMultipartUpload bucket imur ;;;
                  ret (Some err)
              | None => ret None
              end
          end
      end
  end.

(** *** upload.go: the upload checkpoint *)

Definition set_u_MD5 (md5 : string) (cp : uploadCheckpoint) : uploadCheckpoint :=
  mkUploadCheckpoint (u_Magic cp) md5 (u_FilePath cp) (u_FileStat cp)
    (u_ObjectKey cp) (u_UploadID cp) (u_Parts cp).

Definition set_u_Parts (parts : list cpPart) (cp : uploadCheckpoint)
  : uploadCheckpoint :=
  mkUploadCheckpoint (u_Magic cp) (u_MD5 cp) (u_FilePath cp) (u_FileStat cp)
    (u_ObjectKey cp) (u_UploadID cp) parts.

Definition zeroUploadCheckpoint : uploadCheckpoint :=
  mkUploadCheckpoint "" "" "" (mkCpStat 0 0 "") "" "" [].

(** The text [isValid] hashes: the record is marshalled with the MD5 field
    blank, and the error of [json.Marshal] is dropped ([js, _ :=]), which
    leaves [js] nil. *)
Definition marshal_or_nil {T} `{Json T} (cp : T) : string :=
  default "" (json_Marshal cp).

Definition calcFileMD5 (filePath : string) : string * option error :=
  ("", None).

Definition uploadCheckpoint_isValid (cp : uploadCheckpoint) (filePath : string)
  : Go (bool * option error) :=
  let cpb := set_u_MD5 "" cp in
  let js := marshal_or_nil cpb in
  let sum := md5_Sum js in
  let b64 := base64_EncodeToString sum in
  if negb (String.eqb (u_Magic cp) uploadCpMagic)
     || negb (String.eqb b64 (u_MD5 cp))
  then ret (false, None)
  else
    emit (Open filePath) ;;;
    match os_Open filePath with
    | Some err => ret (false, Some err)
    | None =>
        match fd_Stat filePath with
        | inr err => ret (false, Some err)
        | inl st =>
            match calcFileMD5 filePath with
            | (_, Some err) => ret (false, Some err)
            | (md, None) =>
                if negb (st_Size (u_FileStat cp) =? fi_Size st)
                   || negb (st_LastModified (u_FileStat cp) =? fi_ModTime st)
                   || negb (String.eqb (st_MD5 (u_FileStat cp)) md)
                then ret (false, None)
                else ret (true, None)
            end
        end
    end.

Definition uploadCheckpoint_load (cp : uploadCheckpoint) (filePath : string)
  : Go (uploadCheckpoint * option error) :=
  r <~ ioutil_ReadFile filePath ;;
  match r with
  | inr err => ret (cp, Some err)
  | inl contents => ret (json_Unmarshal contents cp)
  end.

Definition uploadCheckpoint_dump (cp : uploadCheckpoint) (filePath : string)
  : Go (option error) :=
  let bcp := set_u_MD5 "" cp in
  match json_Marshal bcp with
  | None => ret (Some "json: error calling MarshalJSON")
  | Some js =>
      let sum := md5_Sum js in
      let b64 := base64_EncodeToString sum in
      let bcp := set_u_MD5 b64 bcp in
      match json_Marshal bcp with
      | None => ret (Some "json: error calling MarshalJSON")
      | Some js => ioutil_WriteFile filePath js FilePermMode
      end
  end.

Definition uploadCheckpoint_updatePart (cp : uploadCheckpoint)
    (part : UploadPart) : Go uploadCheckpoint :=
  p <~ at_index (u_Parts cp) (PartNumber part - 1) ;;
  let parts :=
    <[Z.to_nat (PartNumber part - 1) := mkCpPart (Chunk p) part true]>
      (u_Parts cp) in
  ret (set_u_Parts parts cp).

Definition uploadCheckpoint_todoParts (cp : uploadCheckpoint) : list FileChunk :=
  fold_left
    (fun fcs part => if negb (IsCompleted part) then fcs ++ [Chunk part] else fcs)
    (u_Parts cp) [].

Definition uploadCheckpoint_allParts (cp : uploadCheckpoint) : list UploadPart :=
  fold_left (fun ps part => ps ++ [Part part]) (u_Parts cp) [].

Definition uploadCheckpoint_getCompletedBytes (cp : uploadCheckpoint) : Z :=
  fold_left
    (fun completedBytes part =>
       if IsCompleted part then add64 completedBytes (fc_Size (Chunk part))
       else completedBytes)
    (u_Parts cp) 0.

(** *** upload.go: concurrent upload with checkpoint *)

Definition prepare (cp : uploadCheckpoint) (objectKey filePath : string)
    (partSize : Z) (bucket : string) (options : list Option)
  : Go (uploadCheckpoint * option error) :=
  let cp := mkUploadCheckpoint uploadCpMagic (u_MD5 cp) filePath (u_FileStat cp)
              objectKey (u_UploadID cp) (u_Parts cp) in
  emit (Open filePath) ;;;
  match os_Open filePath with
  | Some err => ret (cp, Some err)
  | None =>
      match fd_Stat filePath with
      | inr err => ret (cp, Some err)
      | inl st =>
          let with_stat md :=
            mkUploadCheckpoint (u_Magic cp) (u_MD5 cp) (u_FilePath cp)
              (mkCpStat (fi_Size st) (fi_ModTime st) md)
              (u_ObjectKey cp) (u_UploadID cp) (u_Parts cp) in
          match calcFileMD5 filePath with
          | (_, Some err) => ret (with_stat (st_MD5 (u_FileStat cp)), Some err)
          | (md, None) =>
              let cp := with_stat md in
              match SplitFileByPartSize filePath partSize with
              | inr err => ret (cp, Some err)
              | inl parts =>
                  let cp :=
                    set_u_Parts
                      ((fun part => mkCpPart part zeroUploadPart false) <$> parts)
                      cp in
                  r <~ bucket_InitiateMultipartUpload bucket objectKey options ;;
                  match r with
                  | inr err => ret (cp, Some err)
                  | inl imur =>
                      ret (mkUploadCheckpoint (u_Magic cp) (u_MD5 cp)
                             (u_FilePath cp) (u_FileStat cp) (u_ObjectKey cp)
                             (imur_UploadID imur) (u_Parts cp), None)
                  end
              end
          end
      end
  end.

Definition complete (cp : uploadCheckpoint) (bucket : string)
    (parts : list UploadPart) (cpFilePath : string) : Go (option error) :=
  let imur := mkIMUR bucket (u_ObjectKey cp) (u_UploadID cp) in
  cerr <~ bucket_CompleteMultipartUpload bucket imur parts ;;
  match cerr with
  | Some err => ret (Some err)
  | None => os_Remove cpFilePath ;;; ret None
  end.

Definition uploadFileWithCp_results (cpFilePath : string) (part : UploadPart)
    (s : LoopState uploadCheckpoint) : Go (LoopState uploadCheckpoint) :=
  let completed := l_completed s + 1 in
  ucp <~ uploadCheckpoint_updatePart (l_gathered s) part ;;
  uploadCheckpoint_dump ucp cpFilePath ;;;
  p <~ at_index (u_Parts ucp) (PartNumber part - 1) ;;
  let completedBytes := add64 (l_completedBytes s) (fc_Size (Chunk p)) in
  emit (publishProgress
          (newProgressEvent TransferDataEvent completedBytes
             (st_Size (u_FileStat ucp)))) ;;;
  ret (mkLoop completed ucp completedBytes).

Definition uploadFileWithCp_failed (err : error)
    (s : LoopState uploadCheckpoint) : Go unit :=
  emit close_die ;;;
  emit (publishProgress
          (newProgressEvent TransferFailedEvent (l_completedBytes s)
             (st_Size (u_FileStat (l_gathered s))))).

(** The code of [uploadFileWithCp] from [chunks := ucp.todoParts()] on. *)
Definition uploadFileWithCp_run (bucket objectKey : string)
    (cpFilePath : string) (routines : Z) (msgs : list Msg)
    (ucp : uploadCheckpoint) : Go (option error) :=
  let chunks := uploadCheckpoint_todoParts ucp in
  let imur := mkIMUR bucket objectKey (u_UploadID ucp) in
  let completedBytes := uploadCheckpoint_getCompletedBytes ucp in
  emit (publishProgress
          (newProgressEvent TransferStartedEvent completedBytes
             (st_Size (u_FileStat ucp)))) ;;;
  start_workers go_worker routines imur ;;;
  emit (go_scheduler chunks) ;;;
  exit <~ select_loop (len chunks) (uploadFileWithCp_results cpFilePath)
            uploadFileWithCp_failed msgs (mkLoop 0 ucp completedBytes) ;;
  match exit with
  | Returned err => ret (Some err)
  | FellThrough s =>
      let ucp := l_gathered s in
      emit (publishProgress
              (newProgressEvent TransferCompletedEvent (l_completedBytes s)
                 (st_Size (u_FileStat ucp)))) ;;;
      complete ucp bucket (uploadCheckpoint_allParts ucp) cpFilePath
  end.

Definition uploadFileWithCp (bucket objectKey filePath : string)
    (partSize : Z) (options : list Option) (cpFilePath : string)
    (routines : Z) (msgs : list Msg) : Go (option error) :=
  l <~ uploadCheckpoint_load zeroUploadCheckpoint cpFilePath ;;
  let '(ucp, err) := l in
  (match err with
   | Some _ => os_Remove cpFilePath
   | None => ret tt
   end) ;;;
  v <~ uploadCheckpoint_isValid ucp filePath ;;
  match v with
  | (true, None) =>
      uploadFileWithCp_run bucket objectKey cpFilePath routines msgs ucp
  | _ =>
      p <~ prepare ucp objectKey filePath partSize bucket options ;;
      match p with
      | (_, Some err) => ret (Some err)
      | (ucp, None) =>
          os_Remove cpFilePath ;;;
          uploadFileWithCp_run bucket objectKey cpFilePath routines msgs ucp
      end
  end.

(** [Bucket.UploadFile] *)
Definition UploadFile (bucket objectKey filePath : string) (partSize : Z)
    (options : list Option) (msgs : list Msg) : Go (option error) :=
  if (partSize <? MinPartSize) || (partSize >? MaxPartSize) then
    ret (Some "oss: part size invalid range (1024KB, 5GB]")
  else
    match getCpConfig options filePath with
    | (_, Some err) => ret (Some err)
    | (cpConf, None) =>
        let routines := getRoutines options in
        if IsEnable cpConf then
          uploadFileWithCp bucket objectKey filePath partSize options
            (FilePath cpConf) routines msgs
        else uploadFile bucket objectKey filePath partSize options routines msgs
    end.

(** *** multicopy.go: concurrent copy without checkpoint *)

(** The loop of [getCopyParts], [for offset := int64(0); offset < objectSize;
    offset += partSize]; [None] when it is not over after [fuel] rounds. *)
Fixpoint getCopyParts_loop (fuel : nat) (i offset objectSize partSize : Z)
  : option (list copyPart) :=
  if offset <? objectSize then
    match fuel with
    | O => None
    | S fuel' =>
        let part :=
          mkCopyPart (i + 1) offset (GetPartEnd offset objectSize partSize) in
        cons part <$>
          getCopyParts_loop fuel' (i + 1) (add64 offset partSize)
            objectSize partSize
    end
  else Some [].

(** [getCopyParts]; the loop is given [objectSize] rounds, which are enough
    when [partSize >= 1] and the offsets stay in [int64]; the model waits
    forever when the loop needs more. *)
Definition getCopyParts (bucket objectKey : string) (partSize : Z)
  : Go (list copyPart + error) :=
  m <~ bucket_GetObjectDetailedMeta bucket objectKey ;;
  match m with
  | inr err => ret (inr err)
  | inl meta =>
      match ContentLength meta with
      | inr err => ret (inr err)
      | inl objectSize =>
          match getCopyParts_loop (Z.to_nat objectSize) 0 0 objectSize partSize with
          | Some parts => ret (inl parts)
          | None => block
          end
      end
  end.

Definition partBytes (part : copyPart) : Z :=
  add64 (sub64 (cp_End part) (cp_Start part)) 1.

Definition getSrcObjectBytes (parts : list copyPart) : Z :=
  fold_left (fun ob part => add64 ob (partBytes part)) parts 0.

Definition copyFile_results (parts : list copyPart) (totalBytes : Z)
    (part : UploadPart) (s : LoopState (list UploadPart))
  : Go (LoopState (list UploadPart)) :=
  let completed := l_completed s + 1 in
  match store (l_gathered s) (PartNumber part - 1) part with
  | None => panic
  | Some ups =>
      p <~ at_index parts (PartNumber part - 1) ;;
      let completedBytes := add64 (l_completedBytes s) (partBytes p) in
      emit (publishProgress
              (newProgressEvent TransferDataEvent completedBytes totalBytes)) ;;;
      ret (mkLoop completed ups completedBytes)
  end.

Definition copyFile_failed (descBucket : string)
    (imur : InitiateMultipartUploadResult) (totalBytes : Z) (err : error)
    (s : LoopState (list UploadPart)) : Go unit :=
  emit close_die ;;;
  bucket_AbortMultipartUpload descBucket imur ;;;
  emit (publishProgress
          (newProgressEvent TransferFailedEvent (l_completedBytes s) totalBytes)).

Definition copyFile (bucket srcBucketName srcObjectKey destBucketName
    destObjectKey : string) (partSize : Z) (options : list Option)
    (routines : Z) (msgs : list Msg) : Go (option error) :=
  let descBucket := destBucketName in
  let srcBucket := srcBucketName in
  g <~ getCopyParts srcBucket srcObjectKey partSize ;;
  match g with
  | inr err => ret (Some err)
  | inl parts =>
      r <~ bucket_InitiateMultipartUpload descBucket destObjectKey options ;;
      match r with
      | inr err => ret (Some err)
      | inl imur =>
          let totalBytes := getSrcObjectBytes parts in
          emit (publishProgress
                  (newProgressEvent TransferStartedEvent 0 totalBytes)) ;;;
          start_workers go_copyWorker routines imur ;;;
          emit (go_copyScheduler parts) ;;;
          exit <~ select_loop (len parts) (copyFile_results parts totalBytes)
                    (copyFile_failed descBucket imur totalBytes) msgs
                    (mkLoop 0 (replicate (length parts) zeroUploadPart) 0) ;;
          match exit with
          | Returned err => ret (Some err)
          | FellThrough s =>
              emit (publishProgress
                      (newProgressEvent TransferCompletedEvent
                         (l_completedBytes s) totalBytes)) ;;;
              cerr <~ bucket_CompleteMultipartUpload descBucket imur
                        (l_gathered s) ;;
              match cerr with
              | Some err =>
                  bucket_AbortMultipartUpload bucket imur ;;;
                  ret (Some err)
              | None => ret None
              end
          end
      end
  end.

(** *** multicopy.go: the copy checkpoint *)

Definition set_c_MD5 (md5 : string) (cp : copyCheckpoint) : copyCheckpoint :=
  mkCopyCheckpoint (c_Magic cp) md5 (c_SrcBucketName cp) (c_SrcObjectKey cp)
    (c_DestBucketName cp) (c_DestObjectKey cp) (c_CopyID cp) (c_ObjStat cp)
    (c_Parts cp) (c_CopyParts cp) (c_PartStat cp).

Definition zeroCopyCheckpoint : copyCheckpoint :=
  mkCopyCheckpoint "" "" "" "" "" "" "" (mkObjectStat 0 "" "") [] [] [].

Definition copyCheckpoint_isValid (cp : copyCheckpoint)
    (bucket objectKey : string) : Go (bool * option error) :=
  let cpb := set_c_MD5 "" cp in
  let js := marshal_or_nil cpb in
  let sum := md5_Sum js in
  let b64 := base64_EncodeToString sum in
  if negb (String.eqb (c_Magic cp) downloadCpMagic)
     || negb (String.eqb b64 (c_MD5 cp))
  then ret (false, None)
  else
    m <~ bucket_GetObjectDetailedMeta bucket objectKey ;;
    match m with
    | inr err => ret (false, Some err)
    | inl meta =>
        match ContentLength meta with
        | inr err => ret (false, Some err)
        | inl objectSize =>
            if negb (os_Size (c_ObjStat cp) =? objectSize)
               || negb (String.eqb (os_LastModified (c_ObjStat cp))
                          (LastModified meta))
               || negb (String.eqb (os_Etag (c_ObjStat cp)) (Etag meta))
            then ret (false, None)
            else ret (true, None)
        end
    end.

Definition copyCheckpoint_load (cp : copyCheckpoint) (filePath : string)
  : Go (copyCheckpoint * option error) :=
  r <~ ioutil_ReadFile filePath ;;
  match r with
  | inr err => ret (cp, Some err)
  | inl contents => ret (json_Unmarshal contents cp)
  end.

Definition copyCheckpoint_update (cp : copyCheckpoint) (part : UploadPart)
  : Go copyCheckpoint :=
  match store (c_CopyParts cp) (PartNumber part - 1) part with
  | None => panic
  | Some copyParts =>
      match store (c_PartStat cp) (PartNumber part - 1) true with
      | None => panic
      | Some partStat =>
          ret (mkCopyCheckpoint (c_Magic cp) (c_MD5 cp) (c_SrcBucketName cp)
                 (c_SrcObjectKey cp) (c_DestBucketName cp) (c_DestObjectKey cp)
                 (c_CopyID cp) (c_ObjStat cp) (c_Parts cp) copyParts partStat)
      end
  end.

Definition copyCheckpoint_dump (cp : copyCheckpoint) (filePath : string)
  : Go (option error) :=
  let bcp := set_c_MD5 "" cp in
  match json_Marshal bcp with
  | None => ret (Some "json: error calling MarshalJSON")
  | Some js =>
      let sum := md5_Sum js in
      let b64 := base64_EncodeToString sum in
      let bcp := set_c_MD5 b64 bcp in
      match json_Marshal bcp with
      | None => ret (Some "json: error calling MarshalJSON")
      | Some js => ioutil_WriteFile filePath js FilePermMode
      end
  end.

(** [for i, ps := range cp.PartStat { if !ps { dps = append(dps,
    cp.Parts[i]) } }]; [None] is the panic of [cp.Parts[i]]. *)
Fixpoint todoParts_range (parts : list copyPart) (i : Z) (partStat : list bool)
    (dps : list copyPart) : option (list copyPart) :=
  match partStat with
  | [] => Some dps
  | ps :: partStat' =>
      if negb ps then
        match index parts i with
        | Some p => todoParts_range parts (i + 1) partStat' (dps ++ [p])
        | None => None
        end
      else todoParts_range parts (i + 1) partStat' dps
  end.

Definition copyCheckpoint_todoParts (cp : copyCheckpoint) : Go (list copyPart) :=
  match todoParts_range (c_Parts cp) 0 (c_PartStat cp) [] with
  | Some dps => ret dps
  | None => panic
  end.

(** [for i, part := range cp.Parts { if cp.PartStat[i] { completedBytes +=
    part.End - part.Start + 1 } }] *)
Fixpoint getCompletedBytes_range (partStat : list bool) (i : Z)
    (parts : list copyPart) (completedBytes : Z) : option Z :=
  match parts with
  | [] => Some completedBytes
  | part :: parts' =>
      match index partStat i with
      | Some true =>
          getCompletedBytes_range partStat (i + 1) parts'
            (add64 completedBytes (partBytes part))
      | Some false => getCompletedBytes_range partStat (i + 1) parts' completedBytes
      | None => None
      end
  end.

Definition copyCheckpoint_getCompletedBytes (cp : copyCheckpoint) : Go Z :=
  match getCompletedBytes_range (c_PartStat cp) 0 (c_Parts cp) 0 with
  | Some completedBytes => ret completedBytes
  | None => panic
  end.

(** *** multicopy.go: concurrent copy with checkpoint *)

Definition copyCheckpoint_prepare (cp : copyCheckpoint)
    (srcBucket srcObjectKey destBucket destObjectKey : string) (partSize : Z)
    (options : list Option) : Go (copyCheckpoint * option error) :=
  let cp := mkCopyCheckpoint copyCpMagic (c_MD5 cp) srcBucket srcObjectKey
              destBucket destObjectKey (c_CopyID cp) (c_ObjStat cp)
              (c_Parts cp) (c_CopyParts cp) (c_PartStat cp) in
  m <~ bucket_GetObjectDetailedMeta srcBucket srcObjectKey ;;
  match m with
  | inr err => ret (cp, Some err)
  | inl meta =>
      match ContentLength meta with
      | inr err => ret (cp, Some err)
      | inl objectSize =>
          let with_parts parts copyParts partStat :=
            mkCopyCheckpoint (c_Magic cp) (c_MD5 cp) (c_SrcBucketName cp)
              (c_SrcObjectKey cp) (c_DestBucketName cp) (c_DestObjectKey cp)
              (c_CopyID cp)
              (mkObjectStat objectSize (LastModified meta) (Etag meta))
              parts copyParts partStat in
          g <~ getCopyParts srcBucket srcObjectKey partSize ;;
          match g with
          | inr err => ret (with_parts [] (c_CopyParts cp) (c_PartStat cp), Some err)
          | inl parts =>
              let cp :=
                with_parts parts (replicate (length parts) zeroUploadPart)
                  (replicate (length parts) false) in
              r <~ bucket_InitiateMultipartUpload destBucket destObjectKey options ;;
              match r with
              | inr err => ret (cp, Some err)
              | inl imur =>
                  ret (mkCopyCheckpoint (c_Magic cp) (c_MD5 cp)
                         (c_SrcBucketName cp) (c_SrcObjectKey cp)
                         (c_DestBucketName cp) (c_DestObjectKey cp)
                         (imur_UploadID imur) (c_ObjStat cp) (c_Parts cp)
                         (c_CopyParts cp) (c_PartStat cp), None)
              end
          end
      end
  end.

Definition copyCheckpoint_complete (cp : copyCheckpoint) (bucket : string)
    (parts : list UploadPart) (cpFilePath : string) : Go (option error) :=
  let imur := mkIMUR (c_DestBucketName cp) (c_DestObjectKey cp) (c_CopyID cp) in
  cerr <~ bucket_CompleteMultipartUpload bucket imur parts ;;
  match cerr with
  | Some err => ret (Some err)
  | None => os_Remove cpFilePath ;;; ret None
  end.

(** [parts] is the slice of the unfinished parts, [ccp.todoParts()]. *)
Definition copyFileWithCp_results (cpFilePath : string) (parts : list copyPart)
    (part : UploadPart) (s : LoopState copyCheckpoint)
  : Go (LoopState copyCheckpoint) :=
  let completed := l_completed s + 1 in
  ccp <~ copyCheckpoint_update (l_gathered s) part ;;
  copyCheckpoint_dump ccp cpFilePath ;;;
  p <~ at_index parts (PartNumber part - 1) ;;
  let completedBytes := add64 (l_completedBytes s) (partBytes p) in
  emit (publishProgress
          (newProgressEvent TransferDataEvent completedBytes
             (os_Size (c_ObjStat ccp)))) ;;;
  ret (mkLoop completed ccp completedBytes).

Definition copyFileWithCp_failed (err : error) (s : LoopState copyCheckpoint)
  : Go unit :=
  emit close_die ;;;
  emit (publishProgress
          (newProgressEvent TransferFailedEvent (l_completedBytes s)
             (os_Size (c_ObjStat (l_gathered s))))).

(** The code of [copyFileWithCp] from [parts := ccp.todoParts()] on. *)
Definition copyFileWithCp_run (destBucketName destObjectKey : string)
    (cpFilePath : string) (routines : Z) (msgs : list Msg)
    (ccp : copyCheckpoint) : Go (option error) :=
  let descBucket := destBucketName in
  parts <~ copyCheckpoint_todoParts ccp ;;
  let imur := mkIMUR destBucketName destObjectKey (c_CopyID ccp) in
  completedBytes <~ copyCheckpoint_getCompletedBytes ccp ;;
  emit (publishProgress
          (newProgressEvent TransferStartedEvent completedBytes
             (os_Size (c_ObjStat ccp)))) ;;;
  start_workers go_copyWorker routines imur ;;;
  emit (go_copyScheduler parts) ;;;
  exit <~ select_loop (len parts) (copyFileWithCp_results cpFilePath parts)
            copyFileWithCp_failed msgs (mkLoop 0 ccp completedBytes) ;;
  match exit with
  | Returned err => ret (Some err)
  | FellThrough s =>
      let ccp := l_gathered s in
      emit (publishProgress
              (newProgressEvent TransferCompletedEvent (l_completedBytes s)
                 (os_Size (c_ObjStat ccp)))) ;;;
      copyCheckpoint_complete ccp descBucket (c_CopyParts ccp) cpFilePath
  end.

Definition copyFileWithCp (srcBucketName srcObjectKey destBucketName
    destObjectKey : string) (partSize : Z) (options : list Option)
    (cpFilePath : string) (routines : Z) (msgs : list Msg)
  : Go (option error) :=
  let descBucket := destBucketName in
  let srcBucket := srcBucketName in
  l <~ copyCheckpoint_load zeroCopyCheckpoint cpFilePath ;;
  let '(ccp, err) := l in
  (match err with
   | Some _ => os_Remove cpFilePath
   | None => ret tt
   end) ;;;
  v <~ copyCheckpoint_isValid ccp srcBucket srcObjectKey ;;
  match v with
  | (true, None) =>
      copyFileWithCp_run destBucketName destObjectKey cpFilePath routines msgs ccp
  | _ =>
      p <~ copyCheckpoint_prepare ccp srcBucket srcObjectKey descBucket
             destObjectKey partSize options ;;
      match p with
      | (_, Some err) => ret (Some err)
      | (ccp, None) =>
          os_Remove cpFilePath ;;;
          copyFileWithCp_run destBucketName destObjectKey cpFilePath routines
            msgs ccp
      end
  end.

(** [Bucket.CopyFile]; [bucket] is the name of the receiver, the destination
    bucket. *)
Definition CopyFile (bucket srcBucketName srcObjectKey destObjectKey : string)
    (partSize : Z) (options : list Option) (msgs : list Msg)
  : Go (option error) :=
  let destBucketName := bucket in
  if (partSize <? MinPartSize) || (partSize >? MaxPartSize) then
    ret (Some "oss: part size invalid range (1024KB, 5GB]")
  else
    match getCpConfig options (filepath_Base destObjectKey) with
    | (_, Some err) => ret (Some err)
    | (cpConf, None) =>
        let routines := getRoutines options in
        if IsEnable cpConf then
          copyFileWithCp srcBucketName srcObjectKey destBucketName
            destObjectKey partSize options (FilePath cpConf) routines msgs
        else
          copyFile bucket srcBucketName srcObjectKey destBucketName
            destObjectKey partSize options routines msgs
    end.
End Coordinators.

(** ** The workers (upload.go, multicopy.go) and their calls into multipart.go *)

(** The connection of a bucket and the test hooks of the workers.
    [do_UploadPart] is [bucket.do("PUT", key, {partNumber, uploadId},
    [ContentLength(partSize)], reader, listener)] on the reader of
    [partSize] bytes of the file from [startPosition]; [do_UploadPartCopy] is
    [bucket.do("PUT", key, {partNumber, uploadId}, [CopySource,
    CopySourceRange, options...], nil, nil)]. *)
Class Conn `{Package} := {
  Response : Type;
  Headers_Get_Etag : Response -> string;
  do_UploadPart : string -> string -> Z -> string -> Z -> Z -> Response + error;
  IsEnableCRC : bool;
  checkCRC : Response -> string -> option error;
  do_UploadPartCopy :
    string -> string -> Z -> string -> string -> Z -> Z -> list Option ->
    Response + error;
  (** [xmlUnmarshal(resp.Body, &out)], then [out.ETag] *)
  xmlUnmarshal_ETag : Response -> string + error;
  uploadPartHooker : Z -> FileChunk -> option error;
  copyPartHooker : copyPart -> option error
}.

Section WorkerCode.
Context `{World} `{!Conn}.

(** [Bucket.DoUploadPart]: the part it returns and the error. *)
Definition DoUploadPart (imur : InitiateMultipartUploadResult)
    (filePath : string) (startPosition partSize partNumber : Z)
  : UploadPart * option error :=
  match do_UploadPart (imur_Key imur) (imur_UploadID imur) partNumber filePath
          startPosition partSize with
  | inr err => (zeroUploadPart, Some err)
  | inl resp =>
      let part := mkUploadPart partNumber (Headers_Get_Etag resp) in
      if IsEnableCRC then
        match checkCRC resp "DoUploadPart" with
        | Some err => (part, Some err)
        | None => (part, None)
        end
      else (part, None)
  end.

(** [Bucket.UploadPartFromFile] *)
Definition UploadPartFromFile (imur : InitiateMultipartUploadResult)
    (filePath : string) (startPosition partSize partNumber : Z)
  : UploadPart * option error :=
  let part := zeroUploadPart in
  match os_Open filePath with
  | Some err => (part, Some err)
  | None => DoUploadPart imur filePath startPosition partSize partNumber
  end.

(** [Bucket.UploadPartCopy] *)
Definition UploadPartCopy (imur : InitiateMultipartUploadResult)
    (srcBucketName srcObjectKey : string) (startPosition partSize partNumber : Z)
    (options : list Option) : UploadPart * option error :=
  let part := zeroUploadPart in
  match do_UploadPartCopy (imur_Key imur) (imur_UploadID imur) partNumber
          srcBucketName srcObjectKey startPosition partSize options with
  | inr err => (part, Some err)
  | inl resp =>
      match xmlUnmarshal_ETag resp with
      | inr err => (part, Some err)
      | inl etag => (mkUploadPart partNumber etag, None)
      end
  end.

(** [worker]: what it sends, in order, for the chunks it takes from [jobs];
    [die k] tells whether it finds [die] closed at the check it makes after
    the upload of its chunk number [k]. *)
Fixpoint worker (id : Z) (imur : InitiateMultipartUploadResult)
    (filePath : string) (die : nat -> bool) (k : nat) (jobs : list FileChunk)
  : list Msg :=
  match jobs with
  | [] => []
  | chunk :: jobs' =>
      match uploadPartHooker id chunk with
      | Some err => [OnFailed err]
      | None =>
          match UploadPartFromFile imur filePath (fc_Offset chunk)
                  (fc_Size chunk) (fc_Number chunk) with
          | (_, Some err) => [OnFailed err]
          | (part, None) =>
              if die k then []
              else OnResults part :: worker id imur filePath die (S k) jobs'
          end
      end
  end.

(** [copyWorker] *)
Fixpoint copyWorker (id : Z) (imur : InitiateMultipartUploadResult)
    (srcBucketName srcObjectKey : string) (options : list Option)
    (die : nat -> bool) (k : nat) (jobs : list copyPart) : list Msg :=
  match jobs with
  | [] => []
  | chunk :: jobs' =>
      match copyPartHooker chunk with
      | Some err => [OnFailed err]
      | None =>
          let chunkSize := add64 (sub64 (cp_End chunk) (cp_Start chunk)) 1 in
          match UploadPartCopy imur srcBucketName srcObjectKey (cp_Start chunk)
                  chunkSize (cp_Number chunk) options with
          | (_, Some err) => [OnFailed err]
          | (part, None) =>
              if die k then []
              else OnResults part
                   :: copyWorker id imur srcBucketName srcObjectKey options die
                        (S k) jobs'
          end
      end
  end.

End WorkerCode.

(** ** A sample instance

    A concrete package, host and service on which the statements below are
    exercised: the file of upload_test.go (482048 bytes, five parts of
    100 KiB), a stand-in encoder and digest, and a service that answers every
    call. *)

Module Sample.

Inductive SampleOption :=
  | Routines (n : Z)
  | Checkpoint (isEnable : bool) (filePath : string)
  | Meta (key value : string).

Fixpoint lookup_checkpoint (options : list SampleOption) (found : option cpConfig)
  : option cpConfig :=
  match options with
  | [] => found
  | Checkpoint e p :: options' => lookup_checkpoint options' (Some (mkCpConfig e p))
  | _ :: options' => lookup_checkpoint options' found
  end.

Fixpoint lookup_routines (options : list SampleOption) (found : option Z)
  : option Z :=
  match options with
  | [] => found
  | Routines n :: options' => lookup_routines options' (Some n)
  | _ :: options' => lookup_routines options' found
  end.

Definition package : Package := {|
  Option := SampleOption;
  findOption_checkpointConfig := fun options => (lookup_checkpoint options None, None);
  findOption_routineNum := fun options => (lookup_routines options None, None);
  downloadCpMagic := "92611BED-89E2-46B6-89E5-72F273D4B0A3";
  FilePermMode := 436;
  GetPartEnd := fun begin total per =>
    if begin + per >? total then total - 1 else begin + per - 1
|}.

Definition chunks : list FileChunk :=
  [mkFileChunk 1 0 102400; mkFileChunk 2 102400 102400;
   mkFileChunk 3 204800 102400; mkFileChunk 4 307200 102400;
   mkFileChunk 5 409600 72448].

Definition modTime : Z := 1446886800000000000.

(** [badCp]: a path that cannot be opened for writing; [badKey]: an object
    whose multipart upload the service refuses to complete. *)
Definition badCp : string := "missing-dir/upload.cp".
Definition badKey : string := "refused".

Definition world : @World package := {|
  writeOutcome := fun path data =>
    if String.eqb path badCp then OpenFails "open: no such file or directory"
    else if String.eqb path "short.cp" then WriteFailsAfter 10 "write: no space left on device"
    else WriteOk;
  os_Open := fun _ => None;
  fd_Stat := fun _ => inl (mkFileInfo 482048 modTime);
  SplitFileByPartSize := fun _ _ => inl chunks;
  remote_Initiate := fun bucket key _ => inl (mkIMUR bucket key "3F79722737D1469980DACEDCA325BB52");
  remote_Complete := fun _ imur _ =>
    if String.eqb (imur_Key imur) badKey then Some "CompleteMultipartUpload: 500"
    else None;
  remote_Meta := fun _ _ =>
    inl (mkMeta (inl 482048) "Sat, 07 Nov 2015 09:00:00 GMT" "2351E662233817A7AE974D8C5B0876DD-5")
|}.

Definition digest : Digest := {|
  md5_Sum := fun js => js;
  base64_EncodeToString := fun sum => sum
|}.

(** The stand-in encoder writes the fields in order; the decoder knows the
    records of a list and answers with the one whose encoding it reads. *)
Fixpoint digits (fuel : nat) (n : N) (acc : string) : string :=
  match fuel with
  | O => acc
  | S fuel' =>
      let acc' := String (ascii_of_N (48 + n mod 10)) acc in
      if (n / 10 =? 0)%N then acc' else digits fuel' (n / 10)%N acc'
  end.

Definition encZ (z : Z) : string :=
  (if z <? 0 then "-" else "") +:+ digits 20 (Z.abs_N z) "".

Definition encBool (b : bool) : string := if b then "true" else "false".

Definition encUploadPart (p : UploadPart) : string :=
  encZ (PartNumber p) +:+ ":" +:+ ETag p.

Definition encCpPart (p : cpPart) : string :=
  "{" +:+ encZ (fc_Number (Chunk p)) +:+ "," +:+ encZ (fc_Offset (Chunk p))
  +:+ "," +:+ encZ (fc_Size (Chunk p)) +:+ ";" +:+ encUploadPart (Part p)
  +:+ ";" +:+ encBool (IsCompleted p) +:+ "}".

Definition encList {A} (enc : A -> string) (l : list A) : string :=
  "[" +:+ fold_right (fun x s => enc x +:+ " " +:+ s) "]" l.

Definition encUpload (cp : uploadCheckpoint) : string :=
  u_Magic cp +:+ "|" +:+ u_MD5 cp +:+ "|" +:+ u_FilePath cp +:+ "|"
  +:+ encZ (st_Size (u_FileStat cp)) +:+ ","
  +:+ encZ (st_LastModified (u_FileStat cp)) +:+ ","
  +:+ st_MD5 (u_FileStat cp) +:+ "|" +:+ u_ObjectKey cp +:+ "|"
  +:+ u_UploadID cp +:+ "|" +:+ encList encCpPart (u_Parts cp).

Definition encCopyPart (p : copyPart) : string :=
  encZ (cp_Number p) +:+ "," +:+ encZ (cp_Start p) +:+ "," +:+ encZ (cp_End p).

Definition encCopy (cp : copyCheckpoint) : string :=
  c_Magic cp +:+ "|" +:+ c_MD5 cp +:+ "|" +:+ c_SrcBucketName cp +:+ "|"
  +:+ c_SrcObjectKey cp +:+ "|" +:+ c_DestBucketName cp +:+ "|"
  +:+ c_DestObjectKey cp +:+ "|" +:+ c_CopyID cp +:+ "|"
  +:+ encZ (os_Size (c_ObjStat cp)) +:+ "," +:+ os_LastModified (c_ObjStat cp)
  +:+ "," +:+ os_Etag (c_ObjStat cp) +:+ "|"
  +:+ encList encCopyPart (c_Parts cp) +:+ encList encUploadPart (c_CopyParts cp)
  +:+ encList encBool (c_PartStat cp).

Definition decode {T} (enc : T -> string) (known : list T) (data : string)
    (cp : T) : T * option error :=
  match List.find (fun c => String.eqb (enc c) data) known with
  | Some c => (c, None)
  | None => (cp, Some "invalid character")
  end.

(** The upload checkpoint of the interrupted run of upload_test.go: parts 1
    to 4 are done, part 5 is not. *)
Definition doneParts : list cpPart :=
  [mkCpPart (mkFileChunk 1 0 102400) (mkUploadPart 1 "etag-1") true;
   mkCpPart (mkFileChunk 2 102400 102400) (mkUploadPart 2 "etag-2") true;
   mkCpPart (mkFileChunk 3 204800 102400) (mkUploadPart 3 "etag-3") true;
   mkCpPart (mkFileChunk 4 307200 102400) (mkUploadPart 4 "etag-4") true;
   mkCpPart (mkFileChunk 5 409600 72448) zeroUploadPart false].

Definition ucp0 : uploadCheckpoint :=
  mkUploadCheckpoint uploadCpMagic "" "BingWallpaper-2015-11-07.jpg"
    (mkCpStat 482048 modTime "") "turtr" "3F79722737D1469980DACEDCA325BB52"
    doneParts.

Definition seal_upload (cp : uploadCheckpoint) : uploadCheckpoint :=
  mkUploadCheckpoint (u_Magic cp) (encUpload cp) (u_FilePath cp) (u_FileStat cp)
    (u_ObjectKey cp) (u_UploadID cp) (u_Parts cp).

Definition ucp : uploadCheckpoint := seal_upload ucp0.

Definition jsonUpload : Json uploadCheckpoint := {|
  json_Marshal := fun cp => Some (encUpload cp);
  json_Unmarshal := decode encUpload [ucp]
|}.

(** Copy checkpoints of the object of multicopy_test.go (five parts): one in
    which only part 2 is done, one in which only part 1 is. *)
Definition copyParts : list copyPart :=
  [mkCopyPart 1 0 102399; mkCopyPart 2 102400 204799;
   mkCopyPart 3 204800 307199; mkCopyPart 4 307200 409599;
   mkCopyPart 5 409600 482047].

Definition ccp_with (magic : string) (tokens : list UploadPart)
    (partStat : list bool) : copyCheckpoint :=
  mkCopyCheckpoint magic "" "src-bucket" "tcrtr" "dest-bucket" "tcrtr-copy"
    "3F79722737D1469980DACEDCA325BB52"
    (mkObjectStat 482048 "Sat, 07 Nov 2015 09:00:00 GMT"
       "2351E662233817A7AE974D8C5B0876DD-5")
    copyParts tokens partStat.

Definition ccp_second_done : copyCheckpoint :=
  ccp_with copyCpMagic
    [zeroUploadPart; mkUploadPart 2 "etag-2"; zeroUploadPart; zeroUploadPart;
     zeroUploadPart]
    [false; true; false; false; false].

Definition ccp_first_done : copyCheckpoint :=
  ccp_with copyCpMagic
    [mkUploadPart 1 "etag-1"; zeroUploadPart; zeroUploadPart; zeroUploadPart;
     zeroUploadPart]
    [true; false; false; false; false].

Definition seal_copy (cp : copyCheckpoint) : copyCheckpoint :=
  mkCopyCheckpoint (c_Magic cp) (encCopy cp) (c_SrcBucketName cp)
    (c_SrcObjectKey cp) (c_DestBucketName cp) (c_DestObjectKey cp) (c_CopyID cp)
    (c_ObjStat cp) (c_Parts cp) (c_CopyParts cp) (c_PartStat cp).

Definition jsonCopy : Json copyCheckpoint := {|
  json_Marshal := fun cp => Some (encCopy cp);
  json_Unmarshal := decode encCopy [seal_copy ccp_second_done; seal_copy ccp_first_done]
|}.

(** The five parts of the sample file as the workers deliver them. *)
Definition allResults : list Msg :=
  [OnResults (mkUploadPart 2 "etag-2"); OnResults (mkUploadPart 1 "etag-1");
   OnResults (mkUploadPart 3 "etag-3"); OnResults (mkUploadPart 5 "etag-5");
   OnResults (mkUploadPart 4 "etag-4")].

End Sample.

(** ** Further sample instances *)

(** A host on which the local file cannot be read and a service that has no
    such source object. *)
Definition unreadable : @World Sample.package := {|
  writeOutcome := fun _ _ => WriteOk;
  os_Open := fun _ => Some "open: permission denied";
  fd_Stat := fun _ => inr "stat: permission denied";
  SplitFileByPartSize := fun _ _ => inr "open: permission denied";
  remote_Initiate := fun bucket key _ => inl (mkIMUR bucket key "0004B9894A22E5B1888A1E29F8236E2D");
  remote_Complete := fun _ _ _ => None;
  remote_Meta := fun _ _ => inr "oss: service returned error: StatusCode=404"
|}.

(** A connection that answers every request with the ETag of the part, and
    a copy hook that fails on part 4, as the hook of multicopy_test.go
    does. *)
Definition sampleConn : @Conn Sample.package := {|
  Response := string;
  Headers_Get_Etag := fun resp => resp;
  do_UploadPart := fun _ _ partNumber _ _ _ =>
    inl ("etag-" +:+ Sample.encZ partNumber);
  IsEnableCRC := true;
  checkCRC := fun _ _ => None;
  do_UploadPartCopy := fun _ _ partNumber _ _ _ _ _ =>
    inl ("etag-" +:+ Sample.encZ partNumber);
  xmlUnmarshal_ETag := fun resp => inl resp;
  uploadPartHooker := fun _ _ => None;
  copyPartHooker := fun part =>
    if cp_Number part =? 4 then Some "ErrorHooker" else None
|}.

(** * The vocabulary of the properties *)

(** The shape of what the select loop does: the cases of [results] that ran
    emitted only actions of [R] and kept the invariant [I]; the loop then
    fell through, or stopped in a panic or waiting, or ran the case of
    [failed] once, last, on a message of the list. *)
Inductive LoopShape {X} (R : Action -> Prop) (I : LoopState X -> Prop)
    (n : Z) (case_failed : error -> LoopState X -> Go unit) (msgs : list Msg)
  : Res (LoopExit X) * Files * list Action -> Prop :=
  | shape_through s' fs' t :
      I s' -> n <= l_completed s' -> Forall R t ->
      LoopShape R I n case_failed msgs (Val (FellThrough s'), fs', t)
  | shape_panic fs' t :
      Forall R t -> LoopShape R I n case_failed msgs (Panic, fs', t)
  | shape_blocked fs' t :
      Forall R t -> LoopShape R I n case_failed msgs (Blocked, fs', t)
  | shape_failed err s1 fs1 t0 r1 fs' t1 :
      In (OnFailed err) msgs -> I s1 -> l_completed s1 < n -> Forall R t0 ->
      case_failed err s1 fs1 = (r1, fs', t1) ->
      LoopShape R I n case_failed msgs
        (match r1 with
         | Val _ => Val (Returned err)
         | Panic => Panic
         | Blocked => Blocked
         end, fs', t0 ++ t1).

Definition noSeparator (s : string) : Prop :=
  Forall (fun c => isPathSeparator c = false) (list_ascii_of_string s).

Definition isEvent (ty : ProgressEventType) (a : Action) : Prop :=
  exists consumed total, a = publishProgress (newProgressEvent ty consumed total).

Definition isCheckpointWrite (cpFilePath : string) (a : Action) : Prop :=
  exists data perm, a = WriteFile cpFilePath data perm.

(** What the case of [results] may do: publish a Data event, and, with a
    checkpoint at [cpFilePath], write that file. *)
Definition isDataStep (cpFilePath : option string) (a : Action) : Prop :=
  isEvent TransferDataEvent a
  \/ exists path, cpFilePath = Some path /\ isCheckpointWrite path a.

(** The trace of a coordinator from its select loop on: the steps of the
    parts that came in, and then the case of [failed] ([Fail]) with the
    error returned, or the code after the loop ([Post]), or a panic, or a
    wait that never ends. *)
Inductive RunTail (cpFilePath : option string) (msgs : list Msg)
    (Fail : list Action -> Prop)
    (Post : Res (option error) -> list Action -> Prop)
  : Res (option error) -> list Action -> Prop :=
  | tail_failed err t0 tf :
      In (OnFailed err) msgs -> Forall (isDataStep cpFilePath) t0 -> Fail tf ->
      RunTail cpFilePath msgs Fail Post (Val (Some err)) (t0 ++ tf)
  | tail_post r t0 tp :
      Forall (isDataStep cpFilePath) t0 -> Post r tp ->
      RunTail cpFilePath msgs Fail Post r (t0 ++ tp)
  | tail_panic t0 :
      Forall (isDataStep cpFilePath) t0 ->
      RunTail cpFilePath msgs Fail Post Panic t0
  | tail_blocked t0 :
      Forall (isDataStep cpFilePath) t0 ->
      RunTail cpFilePath msgs Fail Post Blocked t0.

Definition isAbort (a : Action) : Prop :=
  exists bucket imur, a = AbortMultipartUpload bucket imur.

Definition isComplete (a : Action) : Prop :=
  exists bucket imur parts, a = CompleteMultipartUpload bucket imur parts.

(** What a coordinator does before it publishes Started: it reads and
    removes the checkpoint file, stats the local file, asks for the headers
    of the source object, initiates the multipart upload. *)
Definition isSetupStep (a : Action) : Prop :=
  match a with
  | ReadFile _ | Remove _ | Open _ | GetObjectDetailedMeta _ _
  | InitiateMultipartUpload _ _ => True
  | _ => False
  end.

(** The case of [failed]: the calls [suffix] makes around the Failed event. *)
Definition FailedCase (suffix : Action -> list Action) (tf : list Action) : Prop :=
  exists consumed total,
    tf = suffix (publishProgress
                   (newProgressEvent TransferFailedEvent consumed total)).

(** The code after the loop: an event of type [ty], the call of
    CompleteMultipartUpload, and what follows its failure or its success. *)
Definition PostCase (ty : ProgressEventType) (bucket : string)
    (uploadID : string) (on_err on_ok : list Action)
    (r : Res (option error)) (tp : list Action) : Prop :=
  exists consumed total imur parts,
    imur_UploadID imur = uploadID /\
    let announce :=
      [publishProgress (newProgressEvent ty consumed total);
       CompleteMultipartUpload bucket imur parts] in
    ((exists err, r = Val (Some err)) /\ tp = announce ++ on_err)
    \/ (r = Val None /\ tp = announce ++ on_ok).

(** The events a trace publishes, in order. *)
Fixpoint published (t : list Action) : list ProgressEvent :=
  match t with
  | [] => []
  | publishProgress e :: t' => e :: published t'
  | _ :: t' => published t'
  end.

Definition isSchedule (a : Action) : Prop :=
  (exists chunks, a = go_scheduler chunks) \/ (exists parts, a = go_copyScheduler parts).

(** The shape of every run of a coordinator: it stops during the setup
    without success, or it publishes Started, starts [routines] workers and
    the scheduler, and goes on as [RunTail] says. The calls around the Failed
    event ([suffix]) and after a refused completion ([on_err]) depend on the
    multipart upload [imur]. *)
Definition RunShape (cpFilePath : option string) (msgs : list Msg)
    (go_w : Z -> InitiateMultipartUploadResult -> Action) (routines : Z)
    (suffix : InitiateMultipartUploadResult -> Action -> list Action)
    (ty : ProgressEventType) (bucket : string)
    (on_err : InitiateMultipartUploadResult -> list Action) (on_ok : list Action)
    (r : Res (option error) * Files * list Action) : Prop :=
  (Forall isSetupStep (trace r) /\ result r <> Val None)
  \/ exists t0 e0 imur sched tl,
       Forall isSetupStep t0 /\ isEvent TransferStartedEvent e0 /\ isSchedule sched
       /\ trace r = t0 ++ e0 :: ((fun w => go_w w imur) <$> seqZ 1 routines)
                     ++ sched :: tl
       /\ RunTail cpFilePath msgs (FailedCase (suffix imur))
            (PostCase ty bucket (imur_UploadID imur) (on_err imur) on_ok)
            (result r) tl.

Definition isWorker (go_w : Z -> InitiateMultipartUploadResult -> Action) : Prop :=
  go_w = go_worker \/ go_w = go_copyWorker.

(** Closes a goal [~ isAbort a], [~ isEvent ty a] or [~ isComplete a] on an
    action whose constructor or event type tells. *)
Ltac other_action :=
  let E := fresh "E" in
  intros E; unfold isAbort, isEvent, isComplete in E;
  repeat (match type of E with
          | ex _ => let x := fresh in destruct E as [x E]
          end);
  first [discriminate E | inversion E; congruence].

Ltac each_action tac :=
  repeat (apply Forall_cons; split; [tac|]); try apply Forall_nil_2.

Ltac find_in_trace := vm_compute; repeat (first [left; reflexivity | right]).

(** Started is the first event a run publishes, and it publishes no other
    Started event. *)
Definition StartedOnce (t : list Action) : Prop :=
  published t = []
  \/ exists e0 evs,
       published t = e0 :: evs /\ EventType e0 = TransferStartedEvent
       /\ Forall (fun e => EventType e <> TransferStartedEvent) evs.

(** Every call of CompleteMultipartUpload comes right after a Completed
    event, with no event after it, and every Completed event is followed at
    once by that call. *)
Definition CompletedAnnouncesComplete (t : list Action) : Prop :=
  (forall a, In a t -> isComplete a ->
     exists t0 consumed total rest,
       t = t0 ++ [publishProgress
                    (newProgressEvent TransferCompletedEvent consumed total); a]
              ++ rest
       /\ published rest = [])
  /\ (forall e, In e t -> isEvent TransferCompletedEvent e ->
        exists t0 call rest, isComplete call /\ t = t0 ++ [e; call] ++ rest).

(** The events of a run in their order: Started first, then Data events that
    carry the total Started announced, then at most one last event, Failed or
    Completed, which carries that total and the consumed bytes of the event
    published before it. *)
Definition EventsInOrder (t : list Action) : Prop :=
  published t = []
  \/ exists e0 ds fin,
       published t = e0 :: ds ++ fin
       /\ EventType e0 = TransferStartedEvent
       /\ Forall (fun e => EventType e = TransferDataEvent
                           /\ TotalBytes e = TotalBytes e0) ds
       /\ (fin = []
           \/ exists e,
                fin = [e]
                /\ (EventType e = TransferFailedEvent
                    \/ EventType e = TransferCompletedEvent)
                /\ ConsumedBytes e = ConsumedBytes (List.last ds e0)
                /\ TotalBytes e = TotalBytes e0).

Definition isInitiate (a : Action) : Prop :=
  exists bucket key, a = InitiateMultipartUpload bucket key.

(** What a run has not done when it reaches the case of [failed]: called
    CompleteMultipartUpload or AbortMultipartUpload, closed the die channel,
    or published a Failed or a Completed event. *)
Definition beforeFailure (a : Action) : Prop :=
  ~ isComplete a /\ ~ isAbort a /\ a <> close_die
  /\ ~ isEvent TransferFailedEvent a /\ ~ isEvent TransferCompletedEvent a.

Definition sumZ (l : list Z) : Z := fold_right Z.add 0 l.

(** The parts of a checkpoint that are still to do, and the sizes of those
    that are done. *)
Definition pendingChunks (cp : uploadCheckpoint) : list FileChunk :=
  Chunk <$> List.filter (fun p => negb (IsCompleted p)) (u_Parts cp).

Definition doneSizes (cp : uploadCheckpoint) : list Z :=
  (fun p => fc_Size (Chunk p)) <$> List.filter IsCompleted (u_Parts cp).

(** An atomic replace of [path]: the data goes to another file, which is
    synced and renamed over [path]. *)
Definition AtomicReplace (path data : string) (t : list Action) : Prop :=
  exists tmp perm,
    tmp <> path /\ t = [WriteFile tmp data perm; Sync tmp; Rename tmp path].

Section Sealing.
Context `{Digest} `{Json uploadCheckpoint} `{Json copyCheckpoint}.

(** The record [dump] writes: the MD5 field holds the digest of the record
    marshalled with the field blank. *)
Definition sealed_upload (cp : uploadCheckpoint) : option uploadCheckpoint :=
  match json_Marshal (set_u_MD5 "" cp) with
  | Some js =>
      Some (set_u_MD5 (base64_EncodeToString (md5_Sum js)) (set_u_MD5 "" cp))
  | None => None
  end.

Definition sealed_copy (cp : copyCheckpoint) : option copyCheckpoint :=
  match json_Marshal (set_c_MD5 "" cp) with
  | Some js =>
      Some (set_c_MD5 (base64_EncodeToString (md5_Sum js)) (set_c_MD5 "" cp))
  | None => None
  end.

End Sealing.

(** The parts whose flag is false, in the order of the plan. *)
Fixpoint pendingParts (parts : list copyPart) (partStat : list bool)
  : list copyPart :=
  match parts, partStat with
  | p :: parts', ps :: partStat' =>
      if ps then pendingParts parts' partStat'
      else p :: pendingParts parts' partStat'
  | _, _ => []
  end.

(** The parts of a plan are numbered from 1, as getCopyParts numbers them. *)
Definition numbered (parts : list copyPart) : Prop :=
  forall i p, parts !! i = Some p -> cp_Number p = Z.of_nat i + 1.

(** The numbers of the workers a trace starts, in order. *)
Fixpoint workers_started (t : list Action) : list Z :=
  match t with
  | [] => []
  | go_worker w _ :: t' => w :: workers_started t'
  | go_copyWorker w _ :: t' => w :: workers_started t'
  | _ :: t' => workers_started t'
  end.

Definition startsNoWorker (a : Action) : Prop :=
  match a with
  | go_worker _ _ | go_copyWorker _ _ => False
  | _ => True
  end.

(** Every run of [m] relates the file system before it, its trace and the
    file system after it by [Q]. *)
Definition Keeps {A} (Q : Files -> list Action -> Files -> Prop) (m : Go A)
  : Prop :=
  forall fs, Q fs (trace (m fs)) (files_after (m fs)).

(** The actions that are no access to a local file by its path. *)
Definition noFileAction (a : Action) : Prop :=
  match a with
  | ReadFile _ | WriteFile _ _ _ | Sync _ | Rename _ _ | Remove _ => False
  | _ => True
  end.

(** The actions on local files are on [path] only. *)
Definition onlyFile (path : string) (a : Action) : Prop :=
  match a with
  | ReadFile p | WriteFile p _ _ | Remove p => p = path
  | Sync _ | Rename _ _ => False
  | _ => True
  end.

(** Two file systems hold the same files except, maybe, [path]. *)
Definition sameOff (path : string) (fs fs' : Files) : Prop :=
  forall p, p <> path -> fs' !! p = fs !! p.

(** What an action of a trace does to the local files. *)
Definition replay_action `{World} (fs : Files) (a : Action) : Files :=
  match a with
  | WriteFile path data _ =>
      match writeOutcome path data with
      | WriteOk => <[path := data]> fs
      | OpenFails _ => fs
      | WriteFailsAfter n _ => <[path := String.substring 0 n data]> fs
      end
  | Remove path => delete path fs
  | _ => fs
  end.

Definition replay `{World} (t : list Action) (fs : Files) : Files :=
  fold_left replay_action t fs.

(** The record after [updatePart] has stored the token [part], and after it
    has stored the tokens of a list one by one. *)
Definition markPart (cp : uploadCheckpoint) (part : UploadPart)
  : uploadCheckpoint :=
  set_u_Parts
    (alter (fun q => mkCpPart (Chunk q) part true)
       (Z.to_nat (PartNumber part - 1)) (u_Parts cp))
    cp.

Definition markParts (cp : uploadCheckpoint) (parts : list UploadPart)
  : uploadCheckpoint :=
  fold_left markPart parts cp.

(** The Data events a trace publishes. *)
Definition isData (e : ProgressEvent) : bool :=
  match EventType e with
  | TransferDataEvent => true
  | _ => false
  end.

Definition dataEvents (t : list Action) : list ProgressEvent :=
  List.filter isData (published t).

(** [parts[p.PartNumber-1] = p] on a slice long enough. *)
Definition place (parts : list UploadPart) (p : UploadPart) : list UploadPart :=
  <[Z.to_nat (PartNumber p - 1) := p]> parts.

(** The sizes the loop adds for the tokens of [ps], read in the plan at the
    index of their part number. *)
Definition sizesOf (sizes : list Z) (ps : list UploadPart) : list Z :=
  (fun p => default 0 (sizes !! Z.to_nat (PartNumber p - 1))) <$> ps.

(** Every character of [s] is a separator. *)
Definition allSeparators (s : string) : Prop :=
  Forall (fun c => isPathSeparator c = true) (list_ascii_of_string s).

(** The tokens among the messages of a worker. *)
Fixpoint tokens (msgs : list Msg) : list UploadPart :=
  match msgs with
  | [] => []
  | OnResults part :: msgs' => part :: tokens msgs'
  | OnFailed _ :: msgs' => tokens msgs'
  end.

(** * Properties *)

(** ** Arithmetic and slices *)

Lemma wrap64_id z : int64_range z -> wrap64 z = z.
Proof.
  unfold int64_range, wrap64. intros Hz.
  rewrite Z.mod_small by lia. lia.
Qed.

Lemma wrap64_add_l a b : wrap64 (wrap64 a + b) = wrap64 (a + b).
Proof.
  unfold wrap64.
  replace ((a + 2 ^ 63) mod 2 ^ 64 - 2 ^ 63 + b + 2 ^ 63)
    with ((a + 2 ^ 63) mod 2 ^ 64 + b) by lia.
  rewrite Zplus_mod_idemp_l. do 2 f_equal. lia.
Qed.

Lemma index_Some {A} (s : list A) i x :
  index s i = Some x <-> 0 <= i /\ s !! Z.to_nat i = Some x.
Proof.
  unfold index. destruct (Z.ltb_spec i 0); split.
  - discriminate.
  - intros [? _]. lia.
  - intros Hx. split; [lia | exact Hx].
  - intros [_ Hx]. exact Hx.
Qed.

Lemma index_None {A} (s : list A) i : index s i = None <-> i < 0 \/ len s <= i.
Proof.
  unfold index, len. destruct (Z.ltb_spec i 0).
  - split; auto.
  - rewrite lookup_ge_None. lia.
Qed.

(** ** Runs of monadic code *)

Lemma bind_Val {A B} (m : Go A) (k : A -> Go B) fs a fs1 t1 :
  m fs = (Val a, fs1, t1) ->
  bind m k fs = (result (k a fs1), files_after (k a fs1), t1 ++ trace (k a fs1)).
Proof.
  intros E. unfold bind, result, files_after, trace. rewrite E.
  destruct (k a fs1) as [[r fs2] t2]. reflexivity.
Qed.

Lemma bind_inv {A B} (m : Go A) (k : A -> Go B) fs r fs' t :
  bind m k fs = (r, fs', t) ->
  (exists a fs1 t1 t2,
      m fs = (Val a, fs1, t1) /\ k a fs1 = (r, fs', t2) /\ t = t1 ++ t2)
  \/ (m fs = (Panic, fs', t) /\ r = Panic)
  \/ (m fs = (Blocked, fs', t) /\ r = Blocked).
Proof.
  unfold bind. destruct (m fs) as [[[a| |] fs1] t1].
  - destruct (k a fs1) as [[r2 fs2] t2] eqn:E. intros [= <- <- <-].
    left. exists a, fs1, t1, t2. auto.
  - intros [= <- <- <-]. auto.
  - intros [= <- <- <-]. auto.
Qed.

Lemma LoopShape_more {X} R I n cf (m : Msg) msgs
    (r : Res (LoopExit X)) fs t t0 :
  Forall R t0 ->
  LoopShape R I n cf msgs (r, fs, t) ->
  LoopShape R I n cf (m :: msgs) (r, fs, t0 ++ t).
Proof.
  intros Ht0 Hs. inversion Hs; subst.
  - apply shape_through; auto. apply Forall_app; auto.
  - apply shape_panic. apply Forall_app; auto.
  - apply shape_blocked. apply Forall_app; auto.
  - rewrite app_assoc. eapply shape_failed; eauto.
    + right; assumption.
    + apply Forall_app; auto.
Qed.

Lemma select_loop_shape {X} (R : Action -> Prop) (I : LoopState X -> Prop) n
    (case_results : UploadPart -> LoopState X -> Go (LoopState X))
    (case_failed : error -> LoopState X -> Go unit) :
  (forall part s fs, I s ->
     Forall R (trace (case_results part s fs)) /\
     forall s', result (case_results part s fs) = Val s' -> I s') ->
  forall msgs s fs, I s ->
    LoopShape R I n case_failed msgs
      (select_loop n case_results case_failed msgs s fs).
Proof.
  intros Hcr msgs. induction msgs as [|m msgs IH]; intros s fs Hs; simpl.
  - destruct (Z.ltb_spec (l_completed s) n).
    + apply shape_blocked. constructor.
    + apply shape_through; auto.
  - destruct (Z.ltb_spec (l_completed s) n) as [Hlt|Hge].
    2: { apply shape_through; auto. }
    destruct m as [part|err].
    + destruct (Hcr part s fs Hs) as [HR HI].
      unfold bind. unfold trace, result in HR, HI.
      destruct (case_results part s fs) as [[[s'| |] fs1] t1]; simpl in *.
      * specialize (HI s' eq_refl).
        destruct (Z.geb_spec (l_completed s') n) as [Hdone|Hmore].
        -- unfold ret. rewrite app_nil_r. apply shape_through; auto; lia.
        -- specialize (IH s' fs1 HI).
           destruct (select_loop n case_results case_failed msgs s' fs1)
             as [[r2 fs2] t2].
           apply LoopShape_more; auto.
      * apply shape_panic; auto.
      * apply shape_blocked; auto.
    + unfold bind, ret.
      destruct (case_failed err s fs) as [[r1 fs1] t1] eqn:E.
      pose proof (@shape_failed X R I n case_failed (OnFailed err :: msgs)
                    err s fs [] r1 fs1 t1) as Hsh.
      simpl in Hsh. destruct r1; simpl; rewrite ?app_nil_r;
        apply Hsh; auto.
Qed.

(** ** Part sizes and default checkpoint paths *)

Lemma takeElement_noSeparator cs :
  Forall (fun c => isPathSeparator c = false) cs -> takeElement cs = cs.
Proof.
  induction 1 as [|c cs Hc _ IH]; simpl; [reflexivity|].
  rewrite Hc, IH. reflexivity.
Qed.

Lemma dropSeparators_noSeparator cs :
  Forall (fun c => isPathSeparator c = false) cs -> dropSeparators cs = cs.
Proof. destruct 1 as [|c cs Hc _]; simpl; [reflexivity|]. rewrite Hc. reflexivity. Qed.

Lemma filepath_Base_plain (key : string) :
  key <> "" -> noSeparator key -> filepath_Base key = key.
Proof.
  intros Hne Hns. unfold filepath_Base.
  destruct (String.eqb_spec key "") as [->|_]; [congruence|].
  assert (Hrev : Forall (fun c => isPathSeparator c = false)
                   (rev (list_ascii_of_string key))).
  { apply Forall_rev. exact Hns. }
  rewrite (dropSeparators_noSeparator _ Hrev), (takeElement_noSeparator _ Hrev).
  rewrite rev_involutive.
  destruct (list_ascii_of_string key) as [|c cs] eqn:E.
  - destruct key; [congruence | discriminate].
  - rewrite <- E. apply string_of_list_ascii_of_string.
Qed.

Section PartSizeAndPath.
Context `{World} `{Digest}.
Context `{Json uploadCheckpoint} `{Json copyCheckpoint}.

(** C8. A part size below MinPartSize or above MaxPartSize makes UploadFile
    and CopyFile return the invalid-range error at once: the file system is
    untouched and the trace is empty, so no remote call is made. *)
Theorem invalid_part_size_is_refused
    (bucket objectKey filePath srcBucketName srcObjectKey destObjectKey : string)
    (partSize : Z) (options : list Option) (msgs : list Msg) (fs : Files) :
  partSize < MinPartSize \/ MaxPartSize < partSize ->
  UploadFile bucket objectKey filePath partSize options msgs fs =
    (Val (Some "oss: part size invalid range (1024KB, 5GB]"), fs, [])
  /\ CopyFile bucket srcBucketName srcObjectKey destObjectKey partSize options
       msgs fs =
    (Val (Some "oss: part size invalid range (1024KB, 5GB]"), fs, []).
Proof.
  intros Hbad. unfold UploadFile, CopyFile.
  assert (Hc : (partSize <? MinPartSize) || (partSize >? MaxPartSize) = true).
  { apply orb_true_iff. destruct Hbad; [left; apply Z.ltb_lt | right; apply Z.gtb_lt];
      lia. }
  rewrite Hc. split; reflexivity.
Qed.

(** C9, as the code has it. With checkpointing enabled and no path given,
    UploadFile keeps its checkpoint in the local file path with the suffix
    appended, and CopyFile in the base name (the last path element) of the
    destination key with the suffix appended; the base name is the key
    itself when the key is not empty and has no slash. *)
Theorem default_checkpoint_path
    (bucket objectKey filePath srcBucketName srcObjectKey destObjectKey : string)
    (partSize : Z) (options : list Option) (msgs : list Msg) :
  MinPartSize <= partSize <= MaxPartSize ->
  findOption_checkpointConfig options = (Some (mkCpConfig true ""), None) ->
  UploadFile bucket objectKey filePath partSize options msgs =
    uploadFileWithCp bucket objectKey filePath partSize options
      (filePath +:+ ".cp") (getRoutines options) msgs
  /\ CopyFile bucket srcBucketName srcObjectKey destObjectKey partSize options
       msgs =
     copyFileWithCp srcBucketName srcObjectKey bucket destObjectKey partSize
       options (filepath_Base destObjectKey +:+ ".cp") (getRoutines options) msgs
  /\ (destObjectKey <> "" -> noSeparator destObjectKey ->
      filepath_Base destObjectKey +:+ ".cp" = destObjectKey +:+ ".cp").
Proof.
  intros Hsize Hopt. unfold UploadFile, CopyFile, getCpConfig.
  assert (Hc : (partSize <? MinPartSize) || (partSize >? MaxPartSize) = false).
  { apply orb_false_iff. split; [apply Z.ltb_ge; lia|].
    rewrite Z.gtb_ltb. apply Z.ltb_ge. lia. }
  rewrite Hc, Hopt. simpl. repeat split.
  intros Hne Hns. rewrite filepath_Base_plain; auto.
Qed.
End PartSizeAndPath.

Lemma invalid_part_size_is_refused_witness :
  (1024 < MinPartSize \/ MaxPartSize < 1024)
  /\ (107374182400 < MinPartSize \/ MaxPartSize < 107374182400)
  /\ @UploadFile Sample.package Sample.world Sample.digest Sample.jsonUpload
       "bucket" "key" "file.jpg" 1024 [Sample.Routines 2] [] ∅ =
     (Val (Some "oss: part size invalid range (1024KB, 5GB]"), ∅, [])
  /\ @CopyFile Sample.package Sample.world Sample.digest Sample.jsonCopy
       "bucket" "src" "key" "copy" 107374182400 [Sample.Routines 2] [] ∅ =
     (Val (Some "oss: part size invalid range (1024KB, 5GB]"), ∅, []).
Proof.
  assert (H1 : 1024 < MinPartSize \/ MaxPartSize < 1024)
    by (left; vm_compute; reflexivity).
  assert (H2 : 107374182400 < MinPartSize \/ MaxPartSize < 107374182400)
    by (right; vm_compute; reflexivity).
  split; [exact H1|]. split; [exact H2|]. split.
  - exact (proj1 (@invalid_part_size_is_refused Sample.package Sample.world
                    Sample.digest Sample.jsonUpload Sample.jsonCopy
                    "bucket" "key" "file.jpg" "src" "key" "copy" 1024
                    [Sample.Routines 2] [] ∅ H1)).
  - exact (proj2 (@invalid_part_size_is_refused Sample.package Sample.world
                    Sample.digest Sample.jsonUpload Sample.jsonCopy
                    "bucket" "key" "file.jpg" "src" "key" "copy" 107374182400
                    [Sample.Routines 2] [] ∅ H2)).
Defined.

(** ** The runs of the coordinators *)

Section Runs.
Context `{World} `{Digest}.
Context `{Json uploadCheckpoint} `{Json copyCheckpoint}.

Lemma at_index_run {A} (s : list A) i fs :
  at_index s i fs = match index s i with
                    | Some x => (Val x, fs, [])
                    | None => (Panic, fs, [])
                    end.
Proof. unfold at_index. destruct (index s i); reflexivity. Qed.

(** [dump] makes at most one call, the write of the checkpoint file. *)
Lemma uploadCheckpoint_dump_trace cp filePath fs :
  trace (uploadCheckpoint_dump cp filePath fs) = []
  \/ exists js, trace (uploadCheckpoint_dump cp filePath fs) =
                  [WriteFile filePath js FilePermMode].
Proof.
  unfold uploadCheckpoint_dump.
  destruct (json_Marshal (set_u_MD5 "" cp)) as [js1|]; [|left; reflexivity].
  destruct (json_Marshal _) as [js2|]; [|left; reflexivity].
  right. exists js2. unfold ioutil_WriteFile.
  destruct (writeOutcome filePath js2); reflexivity.
Qed.

Lemma copyCheckpoint_dump_trace cp filePath fs :
  trace (copyCheckpoint_dump cp filePath fs) = []
  \/ exists js, trace (copyCheckpoint_dump cp filePath fs) =
                  [WriteFile filePath js FilePermMode].
Proof.
  unfold copyCheckpoint_dump.
  destruct (json_Marshal (set_c_MD5 "" cp)) as [js1|]; [|left; reflexivity].
  destruct (json_Marshal _) as [js2|]; [|left; reflexivity].
  right. exists js2. unfold ioutil_WriteFile.
  destruct (writeOutcome filePath js2); reflexivity.
Qed.

Lemma dump_result_upload cp filePath fs :
  exists e, result (uploadCheckpoint_dump cp filePath fs) = Val e.
Proof.
  unfold uploadCheckpoint_dump.
  destruct (json_Marshal (set_u_MD5 "" cp)) as [js1|]; [|eexists; reflexivity].
  destruct (json_Marshal _) as [js2|]; [|eexists; reflexivity].
  unfold ioutil_WriteFile. destruct (writeOutcome filePath js2);
    eexists; reflexivity.
Qed.

Lemma dump_result_copy cp filePath fs :
  exists e, result (copyCheckpoint_dump cp filePath fs) = Val e.
Proof.
  unfold copyCheckpoint_dump.
  destruct (json_Marshal (set_c_MD5 "" cp)) as [js1|]; [|eexists; reflexivity].
  destruct (json_Marshal _) as [js2|]; [|eexists; reflexivity].
  unfold ioutil_WriteFile. destruct (writeOutcome filePath js2);
    eexists; reflexivity.
Qed.
End Runs.

Lemma isEvent_publish e : isEvent (EventType e) (publishProgress e).
Proof. exists (ConsumedBytes e), (TotalBytes e). destruct e. reflexivity. Qed.

Lemma isDataStep_not_event cp ty a :
  ty <> TransferDataEvent -> isDataStep cp a -> ~ isEvent ty a.
Proof.
  intros Hty [[c [t ->]]|[path [_ [d [p ->]]]]] [c' [t' E]];
    inversion E; congruence.
Qed.

Lemma isDataStep_not_abort cp a : isDataStep cp a -> ~ isAbort a.
Proof.
  intros [[c [t ->]]|[path [_ [d [p ->]]]]] [b [i E]]; inversion E.
Qed.

Lemma isDataStep_not_complete cp a : isDataStep cp a -> ~ isComplete a.
Proof.
  intros [[c [t ->]]|[path [_ [d [p ->]]]]] [b [i [ps E]]]; inversion E.
Qed.

Lemma isSetupStep_not_event ty a : isSetupStep a -> ~ isEvent ty a.
Proof. intros Hs [c [t ->]]. exact Hs. Qed.

Lemma isSetupStep_not_abort a : isSetupStep a -> ~ isAbort a.
Proof. intros Hs [b [i ->]]. exact Hs. Qed.

Lemma isSetupStep_not_complete a : isSetupStep a -> ~ isComplete a.
Proof. intros Hs [b [i [ps ->]]]. exact Hs. Qed.

Lemma Forall_not_In {A} (P Q : A -> Prop) (l : list A) a :
  (forall x, P x -> ~ Q x) -> Forall P l -> In a l -> Q a -> False.
Proof.
  intros HPQ Hl Hin HQ. rewrite Forall_forall in Hl.
  apply (HPQ a); auto. apply Hl. apply list_elem_of_In. exact Hin.
Qed.

(** A Failed event in the tail of a run is the one of the case of [failed],
    which ended the run with the error of a worker. *)
Lemma RunTail_failed_event cp msgs suffix ty bucket uid on_err on_ok r tl a :
  ty <> TransferFailedEvent ->
  (forall e x, In x (suffix e) -> isEvent TransferFailedEvent x -> x = e) ->
  (forall x, In x (on_err ++ on_ok) -> ~ isEvent TransferFailedEvent x) ->
  RunTail cp msgs (FailedCase suffix) (PostCase ty bucket uid on_err on_ok) r tl ->
  In a tl -> isEvent TransferFailedEvent a ->
  exists t0 err,
    In (OnFailed err) msgs /\ r = Val (Some err) /\ tl = t0 ++ suffix a
    /\ Forall (isDataStep cp) t0.
Proof.
  intros Hty Hsuf Hpost Htail Hin Hev.
  assert (Hdata : forall t0, Forall (isDataStep cp) t0 -> In a t0 -> False).
  { intros t0 Ht0 Hin0.
    assert (Hne : TransferFailedEvent <> TransferDataEvent) by discriminate.
    apply (Forall_not_In _ (isEvent TransferFailedEvent) t0 a
             (fun x => isDataStep_not_event cp TransferFailedEvent x Hne) Ht0);
      assumption. }
  inversion Htail as [err t0 tf Herr Ht0 Hf | r' t0 tp Ht0 Hp | t0 Ht0 | t0 Ht0];
    subst.
  - apply in_app_iff in Hin as [Hin|Hin]; [destruct (Hdata t0 Ht0 Hin)|].
    destruct Hf as [c [t ->]].
    rewrite (Hsuf _ a Hin Hev). exists t0, err. auto.
  - exfalso. apply in_app_iff in Hin as [Hin|Hin]; [exact (Hdata t0 Ht0 Hin)|].
    destruct Hp as [c [t [imur [parts [_ [[_ ->]|[_ ->]]]]]]].
    + simpl in Hin. destruct Hin as [<-|[<-|Hin]].
      * destruct Hev as [c' [t' E]]. inversion E. congruence.
      * destruct Hev as [c' [t' E]]. inversion E.
      * apply (Hpost a); auto. apply in_app_iff. auto.
    + simpl in Hin. destruct Hin as [<-|[<-|Hin]].
      * destruct Hev as [c' [t' E]]. inversion E. congruence.
      * destruct Hev as [c' [t' E]]. inversion E.
      * apply (Hpost a); auto. apply in_app_iff. auto.
  - destruct (Hdata tl Ht0 Hin).
  - destruct (Hdata tl Ht0 Hin).
Qed.

(** The tail of a run holds no event of a type that neither the loop nor the
    code after it publishes. *)
Lemma RunTail_no_event cp msgs suffix ty bucket uid on_err on_ok r tl ty' :
  ty' <> TransferDataEvent -> ty' <> TransferFailedEvent -> ty' <> ty ->
  (forall e x, In x (suffix e) -> x = e \/ ~ isEvent ty' x) ->
  (forall x, In x (on_err ++ on_ok) -> ~ isEvent ty' x) ->
  RunTail cp msgs (FailedCase suffix) (PostCase ty bucket uid on_err on_ok) r tl ->
  Forall (fun a => ~ isEvent ty' a) tl.
Proof.
  intros Hd Hf Hty Hsuf Hpost Htail.
  assert (Hdata : forall t0, Forall (isDataStep cp) t0 ->
                             Forall (fun a => ~ isEvent ty' a) t0).
  { intros t0 Ht0. eapply Forall_impl; [exact Ht0|].
    intros x Hx. apply (isDataStep_not_event cp); assumption. }
  inversion Htail as [err t0 tf Herr Ht0 Hfl | r' t0 tp Ht0 Hp | t0 Ht0 | t0 Ht0];
    subst; auto.
  - apply Forall_app. split; [auto|].
    destruct Hfl as [c [t ->]]. apply Forall_forall. intros x Hx.
    apply list_elem_of_In in Hx. destruct (Hsuf _ x Hx) as [->|Hn]; [|exact Hn].
    intros [c' [t' E]]. inversion E. congruence.
  - apply Forall_app. split; [auto|].
    destruct Hp as [c [t [imur [parts [_ [[_ ->]|[_ ->]]]]]]];
      (apply Forall_cons; split;
       [intros [c' [t' E]]; inversion E; congruence|];
       apply Forall_cons; split; [intros [c' [t' E]]; inversion E|];
       apply Forall_forall; intros x Hx; apply list_elem_of_In in Hx;
       apply Hpost; apply in_app_iff; auto).
Qed.

(** A call of CompleteMultipartUpload in the tail of a run comes right after
    the event of the code after the loop. *)
Lemma RunTail_complete cp msgs suffix ty bucket uid on_err on_ok r tl a :
  (forall e x, isEvent TransferFailedEvent e -> In x (suffix e) ->
     ~ isComplete x) ->
  (forall x, In x (on_err ++ on_ok) -> ~ isComplete x) ->
  RunTail cp msgs (FailedCase suffix) (PostCase ty bucket uid on_err on_ok) r tl ->
  In a tl -> isComplete a ->
  exists t0 consumed total rest,
    tl = t0 ++ [publishProgress (newProgressEvent ty consumed total); a] ++ rest
    /\ Forall (isDataStep cp) t0
    /\ ((exists err, r = Val (Some err)) /\ rest = on_err
        \/ r = Val None /\ rest = on_ok).
Proof.
  intros Hsuf Hpost Htail Hin Hc.
  assert (Hdata : forall t0, Forall (isDataStep cp) t0 -> In a t0 -> False).
  { intros t0 Ht0 Hin0.
    apply (Forall_not_In _ isComplete t0 a (isDataStep_not_complete cp) Ht0);
      assumption. }
  inversion Htail as [err t0 tf Herr Ht0 Hfl | r' t0 tp Ht0 Hp | t0 Ht0 | t0 Ht0];
    subst.
  - exfalso. apply in_app_iff in Hin as [Hin|Hin]; [exact (Hdata t0 Ht0 Hin)|].
    destruct Hfl as [c [t ->]].
    exact (Hsuf _ a (ex_intro _ c (ex_intro _ t eq_refl)) Hin Hc).
  - apply in_app_iff in Hin as [Hin|Hin]; [destruct (Hdata t0 Ht0 Hin)|].
    destruct Hp as [c [t [imur [parts [_ [[He ->]|[He ->]]]]]]].
    + simpl in Hin. destruct Hin as [<-|[<-|Hin]].
      * destruct Hc as [b [i [ps E]]]. inversion E.
      * exists t0, c, t, on_err. auto.
      * exfalso. apply (Hpost a); auto. apply in_app_iff. auto.
    + simpl in Hin. destruct Hin as [<-|[<-|Hin]].
      * destruct Hc as [b [i [ps E]]]. inversion E.
      * exists t0, c, t, on_ok. auto.
      * exfalso. apply (Hpost a); auto. apply in_app_iff. auto.
  - destruct (Hdata tl Ht0 Hin).
  - destruct (Hdata tl Ht0 Hin).
Qed.

Section RunTails.
Context `{World} `{Digest}.
Context `{Json uploadCheckpoint} `{Json copyCheckpoint}.

Lemma bind_emit {B} (a : Action) (k : unit -> Go B) fs :
bind (emit a) k fs =
  (result (k tt fs), files_after (k tt fs), a :: trace (k tt fs)).
Proof. apply (bind_Val (emit a) k fs tt fs [a]). reflexivity. Qed.

Lemma bind_ret {A B} (a : A) (k : A -> Go B) fs : bind (ret a) k fs = k a fs.
Proof.
rewrite (bind_Val (ret a) k fs a fs []) by reflexivity.
destruct (k a fs) as [[r fs'] t]. reflexivity.
Qed.

Lemma bind_start_workers {B} go_w routines imur (k : unit -> Go B) fs :
bind (start_workers go_w routines imur) k fs =
  (result (k tt fs), files_after (k tt fs),
   ((fun w => go_w w imur) <$> seqZ 1 routines) ++ trace (k tt fs)).
Proof. apply (bind_Val _ k fs tt fs). reflexivity. Qed.

(** The case of [results] of the checkpointed upload. *)
Lemma uploadFileWithCp_results_step cpFilePath part s fs :
Forall (isDataStep (Some cpFilePath))
  (trace (uploadFileWithCp_results cpFilePath part s fs))
/\ forall s', result (uploadFileWithCp_results cpFilePath part s fs) = Val s' ->
     u_UploadID (l_gathered s') = u_UploadID (l_gathered s)
     /\ u_ObjectKey (l_gathered s') = u_ObjectKey (l_gathered s)
     /\ l_completed s' = l_completed s + 1.
Proof.
remember (uploadFileWithCp_results cpFilePath part s fs) as X eqn:EX.
unfold uploadFileWithCp_results, uploadCheckpoint_updatePart, bind in EX.
rewrite at_index_run in EX.
destruct (index (u_Parts (l_gathered s)) (PartNumber part - 1)) as [p|].
2: { subst X. split; [constructor | discriminate]. }
unfold ret at 1 in EX. cbv beta iota in EX.
set (ucp := set_u_Parts _ (l_gathered s)) in EX.
destruct (dump_result_upload ucp cpFilePath fs) as [e He].
pose proof (uploadCheckpoint_dump_trace ucp cpFilePath fs) as Ht.
destruct (uploadCheckpoint_dump ucp cpFilePath fs) as [[r1 fs1] t1].
unfold result in He. unfold trace in Ht. simpl in He, Ht. subst r1.
assert (Ht1 : Forall (isDataStep (Some cpFilePath)) t1).
{ destruct Ht as [->|[js ->]]; [constructor|].
  apply Forall_cons; split; [|constructor].
  right. exists cpFilePath. split; [reflexivity|]. exists js, FilePermMode.
  reflexivity. }
rewrite at_index_run in EX.
destruct (index (u_Parts ucp) (PartNumber part - 1)) as [q|];
  simpl in EX; subst X; unfold trace, result; simpl.
2: { rewrite !app_nil_r. split; [exact Ht1 | discriminate]. }
split.
- apply Forall_app. split; [exact Ht1|].
  apply Forall_cons; split; [|constructor]. left. eexists _, _. reflexivity.
- intros s' [= <-]. simpl. auto.
Qed.

Lemma uploadFileWithCp_run_tail bucket objectKey cpFilePath routines msgs ucp fs :
exists tl,
  trace (uploadFileWithCp_run bucket objectKey cpFilePath routines msgs ucp fs) =
    publishProgress
      (newProgressEvent TransferStartedEvent
         (uploadCheckpoint_getCompletedBytes ucp) (st_Size (u_FileStat ucp)))
    :: ((fun w => go_worker w (mkIMUR bucket objectKey (u_UploadID ucp)))
          <$> seqZ 1 routines)
    ++ go_scheduler (uploadCheckpoint_todoParts ucp) :: tl
  /\ RunTail (Some cpFilePath) msgs (FailedCase (fun e => [close_die; e]))
       (PostCase TransferCompletedEvent bucket (u_UploadID ucp) []
          [Remove cpFilePath])
       (result (uploadFileWithCp_run bucket objectKey cpFilePath routines msgs
                  ucp fs)) tl.
Proof.
unfold uploadFileWithCp_run.
rewrite bind_emit, bind_start_workers, bind_emit.
unfold trace at 1, result at 1. simpl.
eexists. split; [reflexivity|].
set (I := fun s : LoopState uploadCheckpoint =>
            u_UploadID (l_gathered s) = u_UploadID ucp).
pose proof (select_loop_shape (isDataStep (Some cpFilePath)) I
              (len (uploadCheckpoint_todoParts ucp))
              (uploadFileWithCp_results cpFilePath) uploadFileWithCp_failed)
  as Hshape.
specialize (Hshape ltac:(intros part s fs' Hs;
  destruct (uploadFileWithCp_results_step cpFilePath part s fs') as [HR HI];
  split; [exact HR|]; intros s' Hs'; destruct (HI s' Hs') as [Hu _];
  unfold I in *; congruence)).
specialize (Hshape msgs (mkLoop 0 ucp (uploadCheckpoint_getCompletedBytes ucp))
              fs eq_refl).
unfold bind.
destruct (select_loop _ _ _ msgs _ fs) as [[r1 fs1] t1].
inversion Hshape as [s' fs' t HI Hn Ht | fs' t Ht | fs' t Ht
                    | err s1 fs0 t0 r0 fs' tf Hin HI Hlt Ht0 Hcf]; subst.
- unfold result, trace. simpl.
  unfold complete, bucket_CompleteMultipartUpload, bind, emit, ret, os_Remove.
  simpl.
  destruct (remote_Complete _ _ _) as [err|] eqn:Ec; simpl.
  + apply tail_post; [exact Ht|].
    exists (l_completedBytes s'), (st_Size (u_FileStat (l_gathered s'))),
      (mkIMUR bucket (u_ObjectKey (l_gathered s')) (u_UploadID (l_gathered s'))),
      (uploadCheckpoint_allParts (l_gathered s')).
    split; [exact HI|]. left. split; eauto.
  + apply tail_post; [exact Ht|].
    exists (l_completedBytes s'), (st_Size (u_FileStat (l_gathered s'))),
      (mkIMUR bucket (u_ObjectKey (l_gathered s')) (u_UploadID (l_gathered s'))),
      (uploadCheckpoint_allParts (l_gathered s')).
    split; [exact HI|]. right. split; eauto.
- unfold result, trace. simpl. apply tail_panic. exact Ht.
- unfold result, trace. simpl. apply tail_blocked. exact Ht.
- unfold uploadFileWithCp_failed, bind, emit in Hcf. simpl in Hcf.
  injection Hcf as <- <- <-. unfold result, trace. simpl.
  rewrite app_nil_r. apply tail_failed; auto.
  eexists _, _. reflexivity.
Qed.

(** The case of [results] of the checkpointed copy. *)
Lemma copyFileWithCp_results_step cpFilePath parts part s fs :
Forall (isDataStep (Some cpFilePath))
  (trace (copyFileWithCp_results cpFilePath parts part s fs))
/\ forall s', result (copyFileWithCp_results cpFilePath parts part s fs) = Val s' ->
     c_CopyID (l_gathered s') = c_CopyID (l_gathered s)
     /\ c_DestBucketName (l_gathered s') = c_DestBucketName (l_gathered s)
     /\ c_DestObjectKey (l_gathered s') = c_DestObjectKey (l_gathered s)
     /\ l_completed s' = l_completed s + 1.
Proof.
remember (copyFileWithCp_results cpFilePath parts part s fs) as X eqn:EX.
unfold copyFileWithCp_results, copyCheckpoint_update, bind in EX.
destruct (store (c_CopyParts (l_gathered s)) (PartNumber part - 1) part)
  as [copyParts|].
2: { subst X. split; [constructor | discriminate]. }
destruct (store (c_PartStat (l_gathered s)) (PartNumber part - 1) true)
  as [partStat|].
2: { subst X. split; [constructor | discriminate]. }
unfold ret at 1 in EX. cbv beta iota in EX.
set (ccp := mkCopyCheckpoint _ _ _ _ _ _ _ _ _ _ _) in EX.
destruct (dump_result_copy ccp cpFilePath fs) as [e He].
pose proof (copyCheckpoint_dump_trace ccp cpFilePath fs) as Ht.
destruct (copyCheckpoint_dump ccp cpFilePath fs) as [[r1 fs1] t1].
unfold result in He. unfold trace in Ht. simpl in He, Ht. subst r1.
assert (Ht1 : Forall (isDataStep (Some cpFilePath)) t1).
{ destruct Ht as [->|[js ->]]; [constructor|].
  apply Forall_cons; split; [|constructor].
  right. exists cpFilePath. split; [reflexivity|]. exists js, FilePermMode.
  reflexivity. }
rewrite at_index_run in EX.
destruct (index parts (PartNumber part - 1)) as [q|];
  simpl in EX; subst X; unfold trace, result; simpl.
2: { rewrite !app_nil_r. split; [exact Ht1 | discriminate]. }
split.
- apply Forall_app. split; [exact Ht1|].
  apply Forall_cons; split; [|constructor]. left. eexists _, _. reflexivity.
- intros s' [= <-]. simpl. auto.
Qed.

(** The cases of [results] of the runs without checkpoint. *)
Lemma uploadFile_results_step chunks part s fs :
Forall (isDataStep None) (trace (uploadFile_results chunks part s fs)).
Proof.
unfold uploadFile_results.
destruct (store (l_gathered s) (PartNumber part - 1) part) as [parts|];
  [|constructor].
unfold bind. rewrite at_index_run.
destruct (index chunks (PartNumber part - 1)) as [chunk|]; simpl;
  [|constructor].
apply Forall_cons; split; [|constructor]. left. eexists _, _. reflexivity.
Qed.

Lemma copyFile_results_step parts totalBytes part s fs :
Forall (isDataStep None) (trace (copyFile_results parts totalBytes part s fs)).
Proof.
unfold copyFile_results.
destruct (store (l_gathered s) (PartNumber part - 1) part) as [ups|];
  [|constructor].
unfold bind. rewrite at_index_run.
destruct (index parts (PartNumber part - 1)) as [p|]; simpl; [|constructor].
apply Forall_cons; split; [|constructor]. left. eexists _, _. reflexivity.
Qed.

Lemma copyFileWithCp_run_tail destBucketName destObjectKey cpFilePath routines
  msgs ccp fs :
let r := copyFileWithCp_run destBucketName destObjectKey cpFilePath routines
           msgs ccp fs in
(result r = Panic /\ trace r = [])
\/ exists parts completedBytes tl,
     todoParts_range (c_Parts ccp) 0 (c_PartStat ccp) [] = Some parts
     /\ getCompletedBytes_range (c_PartStat ccp) 0 (c_Parts ccp) 0 =
          Some completedBytes
     /\ trace r =
          publishProgress
            (newProgressEvent TransferStartedEvent completedBytes
               (os_Size (c_ObjStat ccp)))
          :: ((fun w => go_copyWorker w
                          (mkIMUR destBucketName destObjectKey (c_CopyID ccp)))
                <$> seqZ 1 routines)
          ++ go_copyScheduler parts :: tl
     /\ RunTail (Some cpFilePath) msgs (FailedCase (fun e => [close_die; e]))
          (PostCase TransferCompletedEvent destBucketName (c_CopyID ccp) []
             [Remove cpFilePath])
          (result r) tl.
Proof.
intros r. subst r. unfold copyFileWithCp_run, copyCheckpoint_todoParts,
  copyCheckpoint_getCompletedBytes.
destruct (todoParts_range (c_Parts ccp) 0 (c_PartStat ccp) []) as [parts|];
  [|left; split; reflexivity].
rewrite bind_ret.
destruct (getCompletedBytes_range (c_PartStat ccp) 0 (c_Parts ccp) 0)
  as [completedBytes|]; [|left; split; reflexivity].
rewrite bind_ret. right. exists parts, completedBytes.
rewrite bind_emit, bind_start_workers, bind_emit.
unfold trace at 1, result at 1. simpl.
eexists. split; [reflexivity|]. split; [reflexivity|].
split; [reflexivity|].
set (I := fun s : LoopState copyCheckpoint =>
            c_CopyID (l_gathered s) = c_CopyID ccp).
pose proof (select_loop_shape (isDataStep (Some cpFilePath)) I (len parts)
              (copyFileWithCp_results cpFilePath parts) copyFileWithCp_failed)
  as Hshape.
specialize (Hshape ltac:(intros part s fs' Hs;
  destruct (copyFileWithCp_results_step cpFilePath parts part s fs') as [HR HI];
  split; [exact HR|]; intros s' Hs'; destruct (HI s' Hs') as [Hu _];
  unfold I in *; congruence)).
specialize (Hshape msgs (mkLoop 0 ccp completedBytes) fs eq_refl).
unfold bind.
destruct (select_loop _ _ _ msgs _ fs) as [[r1 fs1] t1].
inversion Hshape as [s' fs' t HI Hn Ht | fs' t Ht | fs' t Ht
                    | err s1 fs0 t0 r0 fs' tf Hin HI Hlt Ht0 Hcf]; subst.
- unfold result, trace. simpl.
  unfold copyCheckpoint_complete, bucket_CompleteMultipartUpload, bind, emit,
    ret, os_Remove.
  simpl.
  destruct (remote_Complete _ _ _) as [err|] eqn:Ec; simpl.
  + apply tail_post; [exact Ht|].
    exists (l_completedBytes s'), (os_Size (c_ObjStat (l_gathered s'))),
      (mkIMUR (c_DestBucketName (l_gathered s'))
         (c_DestObjectKey (l_gathered s')) (c_CopyID (l_gathered s'))),
      (c_CopyParts (l_gathered s')).
    split; [exact HI|]. left. split; eauto.
  + apply tail_post; [exact Ht|].
    exists (l_completedBytes s'), (os_Size (c_ObjStat (l_gathered s'))),
      (mkIMUR (c_DestBucketName (l_gathered s'))
         (c_DestObjectKey (l_gathered s')) (c_CopyID (l_gathered s'))),
      (c_CopyParts (l_gathered s')).
    split; [exact HI|]. right. split; eauto.
- unfold result, trace. simpl. apply tail_panic. exact Ht.
- unfold result, trace. simpl. apply tail_blocked. exact Ht.
- unfold copyFileWithCp_failed, bind, emit in Hcf. simpl in Hcf.
  injection Hcf as <- <- <-. unfold result, trace. simpl.
  rewrite app_nil_r. apply tail_failed; auto.
  eexists _, _. reflexivity.
Qed.
End RunTails.

Lemma RunShape_prefix cp msgs go_w routines suffix ty bucket on_err on_ok r t0 :
  Forall isSetupStep t0 ->
  RunShape cp msgs go_w routines suffix ty bucket on_err on_ok r ->
  RunShape cp msgs go_w routines suffix ty bucket on_err on_ok
    (result r, files_after r, t0 ++ trace r).
Proof.
  intros Ht0 [[Hs Hr]|[t1 [e0 [imur [sched [tl [Ht1 [He [Hsch [Htr Htl]]]]]]]]]].
  - left. split; [|exact Hr]. apply Forall_app. auto.
  - right. exists (t0 ++ t1), e0, imur, sched, tl.
    split; [apply Forall_app; auto|]. split; [exact He|]. split; [exact Hsch|].
    split; [|exact Htl]. unfold trace at 1. simpl. rewrite Htr.
    rewrite <- app_assoc. reflexivity.
Qed.

Lemma RunShape_bind {A} cp msgs go_w routines suffix ty bucket on_err on_ok
    (m : Go A) (k : A -> Go (option error)) fs a fs1 t1 :
  m fs = (Val a, fs1, t1) -> Forall isSetupStep t1 ->
  RunShape cp msgs go_w routines suffix ty bucket on_err on_ok (k a fs1) ->
  RunShape cp msgs go_w routines suffix ty bucket on_err on_ok (bind m k fs).
Proof.
  intros Hm Ht1 Hk. rewrite (bind_Val m k fs a fs1 t1 Hm).
  apply RunShape_prefix; assumption.
Qed.

Lemma RunShape_error cp msgs go_w routines suffix ty bucket on_err on_ok err fs :
  RunShape cp msgs go_w routines suffix ty bucket on_err on_ok
    (ret (Some err) fs).
Proof. left. split; [constructor | discriminate]. Qed.

Section RunShapes.
Context `{World} `{Digest}.
Context `{Json uploadCheckpoint} `{Json copyCheckpoint}.

Lemma uploadCheckpoint_load_run cp filePath fs :
  exists l, uploadCheckpoint_load cp filePath fs = (Val l, fs, [ReadFile filePath]).
Proof.
  unfold uploadCheckpoint_load, ioutil_ReadFile, bind, ret.
  destruct (fs !! filePath); eexists; reflexivity.
Qed.

Lemma copyCheckpoint_load_run cp filePath fs :
  exists l, copyCheckpoint_load cp filePath fs = (Val l, fs, [ReadFile filePath]).
Proof.
  unfold copyCheckpoint_load, ioutil_ReadFile, bind, ret.
  destruct (fs !! filePath); eexists; reflexivity.
Qed.

Lemma uploadCheckpoint_isValid_run cp filePath fs :
  exists v t, uploadCheckpoint_isValid cp filePath fs = (Val v, fs, t)
              /\ Forall isSetupStep t.
Proof.
  unfold uploadCheckpoint_isValid.
  destruct (negb _ || negb _).
  { eexists _, _. split; [reflexivity | constructor]. }
  rewrite bind_emit.
  assert (Ht : Forall isSetupStep [Open filePath])
    by (apply Forall_cons; split; [exact Logic.I | constructor]).
  destruct (os_Open filePath); [eexists _, _; split; [reflexivity | exact Ht]|].
  destruct (fd_Stat filePath) as [st|e];
    [|eexists _, _; split; [reflexivity | exact Ht]].
  unfold calcFileMD5.
  destruct (negb _ || negb _ || negb _);
    eexists _, _; (split; [reflexivity | exact Ht]).
Qed.

Lemma copyCheckpoint_isValid_run cp bucket objectKey fs :
  exists v t, copyCheckpoint_isValid cp bucket objectKey fs = (Val v, fs, t)
              /\ Forall isSetupStep t.
Proof.
  unfold copyCheckpoint_isValid.
  destruct (negb _ || negb _).
  { eexists _, _. split; [reflexivity | constructor]. }
  unfold bucket_GetObjectDetailedMeta, bind, emit, ret. simpl.
  assert (Ht : Forall isSetupStep [GetObjectDetailedMeta bucket objectKey])
    by (apply Forall_cons; split; [exact Logic.I | constructor]).
  destruct (remote_Meta bucket objectKey) as [meta|e];
    [|eexists _, _; split; [reflexivity | exact Ht]].
  destruct (ContentLength meta) as [objectSize|e];
    [|eexists _, _; split; [reflexivity | exact Ht]].
  destruct (negb _ || negb _ || negb _);
    eexists _, _; (split; [reflexivity | exact Ht]).
Qed.

(** [prepare] returns an error, or a checkpoint with a fresh upload id. *)
Lemma prepare_run cp objectKey filePath partSize bucket options fs :
  exists p t, prepare cp objectKey filePath partSize bucket options fs =
                (Val p, fs, t)
              /\ Forall isSetupStep t.
Proof.
  unfold prepare. rewrite bind_emit.
  assert (Ht : Forall isSetupStep [Open filePath])
    by (apply Forall_cons; split; [exact Logic.I | constructor]).
  destruct (os_Open filePath); [eexists _, _; split; [reflexivity | exact Ht]|].
  destruct (fd_Stat filePath) as [st|e];
    [|eexists _, _; split; [reflexivity | exact Ht]].
  unfold calcFileMD5.
  destruct (SplitFileByPartSize filePath partSize) as [parts|e];
    [|eexists _, _; split; [reflexivity | exact Ht]].
  unfold bucket_InitiateMultipartUpload, bind, emit, ret. simpl.
  assert (Ht2 : Forall isSetupStep
                  [Open filePath; InitiateMultipartUpload bucket objectKey])
    by (repeat (apply Forall_cons; split; [exact Logic.I|]); constructor).
  destruct (remote_Initiate bucket objectKey options) as [imur|e];
    eexists _, _; (split; [reflexivity | exact Ht2]).
Qed.

Lemma getCopyParts_run bucket objectKey partSize fs :
  exists r, getCopyParts bucket objectKey partSize fs =
              (r, fs, [GetObjectDetailedMeta bucket objectKey])
            /\ r <> Panic.
Proof.
  unfold getCopyParts, bucket_GetObjectDetailedMeta, bind, emit, ret, block.
  simpl.
  destruct (remote_Meta bucket objectKey) as [meta|e];
    [|eexists; split; [reflexivity | discriminate]].
  destruct (ContentLength meta) as [objectSize|e];
    [|eexists; split; [reflexivity | discriminate]].
  destruct (getCopyParts_loop _ _ _ _ _);
    eexists; (split; [reflexivity | discriminate]).
Qed.

Lemma copyCheckpoint_prepare_run cp srcBucket srcObjectKey destBucket
    destObjectKey partSize options fs :
  exists r t, copyCheckpoint_prepare cp srcBucket srcObjectKey destBucket
                destObjectKey partSize options fs = (r, fs, t)
              /\ Forall isSetupStep t /\ r <> Panic.
Proof.
  unfold copyCheckpoint_prepare.
  unfold bucket_GetObjectDetailedMeta at 1. unfold bind at 1.
  unfold bind at 1. unfold emit at 1. unfold ret at 1. cbv beta iota.
  assert (Ht : Forall isSetupStep [GetObjectDetailedMeta srcBucket srcObjectKey])
    by (apply Forall_cons; split; [exact Logic.I | constructor]).
  destruct (remote_Meta srcBucket srcObjectKey) as [meta|e];
    [|eexists _, _; split; [reflexivity | split; [exact Ht | discriminate]]].
  destruct (ContentLength meta) as [objectSize|e];
    [|eexists _, _; split; [reflexivity | split; [exact Ht | discriminate]]].
  destruct (getCopyParts_run srcBucket srcObjectKey partSize fs) as [g [Hg Hgp]].
  unfold bind at 1. rewrite Hg.
  assert (Ht2 : Forall isSetupStep
                  ([] ++ [GetObjectDetailedMeta srcBucket srcObjectKey]
                   ++ [GetObjectDetailedMeta srcBucket srcObjectKey]))
    by (repeat (apply Forall_cons; split; [exact Logic.I|]); constructor).
  destruct g as [[parts|e]| |].
  - unfold bucket_InitiateMultipartUpload, bind, emit, ret. simpl.
    destruct (remote_Initiate destBucket destObjectKey options) as [imur|e];
      eexists _, _; (split; [reflexivity|]); (split; [|discriminate]);
      repeat (apply Forall_cons; split; [exact Logic.I|]); constructor.
  - eexists _, _. split; [reflexivity|]. split; [exact Ht2 | discriminate].
  - congruence.
  - eexists _, _. split; [reflexivity|]. split; [exact Ht2 | discriminate].
Qed.

Lemma uploadFileWithCp_run_shape bucket objectKey cpFilePath routines msgs ucp fs :
  RunShape (Some cpFilePath) msgs go_worker routines
    (fun _ e => [close_die; e]) TransferCompletedEvent bucket (fun _ => [])
    [Remove cpFilePath]
    (uploadFileWithCp_run bucket objectKey cpFilePath routines msgs ucp fs).
Proof.
  destruct (uploadFileWithCp_run_tail bucket objectKey cpFilePath routines msgs
              ucp fs) as [tl [Htr Htl]].
  right. eexists [], _, (mkIMUR bucket objectKey (u_UploadID ucp)), _, tl.
  split; [constructor|]. split; [eexists _, _; reflexivity|].
  split; [left; eexists; reflexivity|]. split; [exact Htr | exact Htl].
Qed.

Lemma copyFileWithCp_run_shape destBucketName destObjectKey cpFilePath routines
    msgs ccp fs :
  RunShape (Some cpFilePath) msgs go_copyWorker routines
    (fun _ e => [close_die; e]) TransferCompletedEvent destBucketName
    (fun _ => []) [Remove cpFilePath]
    (copyFileWithCp_run destBucketName destObjectKey cpFilePath routines msgs
       ccp fs).
Proof.
  destruct (copyFileWithCp_run_tail destBucketName destObjectKey cpFilePath
              routines msgs ccp fs)
    as [[Hr Ht]|[parts [cb [tl [_ [_ [Htr Htl]]]]]]].
  - left. rewrite Ht, Hr. split; [constructor | discriminate].
  - right. eexists [], _, (mkIMUR destBucketName destObjectKey (c_CopyID ccp)),
      _, tl.
    split; [constructor|]. split; [eexists _, _; reflexivity|].
    split; [right; eexists; reflexivity|]. split; [exact Htr | exact Htl].
Qed.

Lemma remove_if_unreadable_run (err : option error) cpFilePath fs :
  exists fs1 t1,
    (match err with
     | Some _ => os_Remove cpFilePath
     | None => ret tt
     end) fs = (Val tt, fs1, t1)
    /\ Forall isSetupStep t1.
Proof.
  destruct err; eexists _, _; (split; [reflexivity|]).
  - apply Forall_cons; split; [exact Logic.I | constructor].
  - constructor.
Qed.

Lemma uploadFileWithCp_shape bucket objectKey filePath partSize options
    cpFilePath routines msgs fs :
  RunShape (Some cpFilePath) msgs go_worker routines
    (fun _ e => [close_die; e]) TransferCompletedEvent bucket (fun _ => [])
    [Remove cpFilePath]
    (uploadFileWithCp bucket objectKey filePath partSize options cpFilePath
       routines msgs fs).
Proof.
  unfold uploadFileWithCp.
  destruct (uploadCheckpoint_load_run zeroUploadCheckpoint cpFilePath fs)
    as [[ucp err] Hl].
  eapply RunShape_bind; [exact Hl | |].
  { apply Forall_cons; split; [exact Logic.I | constructor]. }
  cbv beta iota.
  destruct (remove_if_unreadable_run err cpFilePath fs) as [fs1 [t1 [Hrm Ht1]]].
  eapply RunShape_bind; [exact Hrm | exact Ht1 |].
  destruct (uploadCheckpoint_isValid_run ucp filePath fs1) as [v [t [Hv Ht]]].
  eapply RunShape_bind; [exact Hv | exact Ht |].
  assert (Hprep :
    RunShape (Some cpFilePath) msgs go_worker routines
      (fun _ e => [close_die; e]) TransferCompletedEvent bucket (fun _ => [])
      [Remove cpFilePath]
      ((p <~ prepare ucp objectKey filePath partSize bucket options ;;
        match p with
        | (_, Some err) => ret (Some err)
        | (ucp, None) =>
            os_Remove cpFilePath ;;;
            uploadFileWithCp_run bucket objectKey cpFilePath routines msgs ucp
        end) fs1)).
  { destruct (prepare_run ucp objectKey filePath partSize bucket options fs1)
      as [[ucp' e] [tp [Hp Htp]]].
    eapply RunShape_bind; [exact Hp | exact Htp |].
    destruct e as [e|]; [apply RunShape_error|].
    eapply RunShape_bind; [reflexivity | |].
    { apply Forall_cons; split; [exact Logic.I | constructor]. }
    apply uploadFileWithCp_run_shape. }
  destruct v as [[|] [e|]]; try exact Hprep.
  apply uploadFileWithCp_run_shape.
Qed.

Lemma copyFileWithCp_shape srcBucketName srcObjectKey destBucketName
    destObjectKey partSize options cpFilePath routines msgs fs :
  RunShape (Some cpFilePath) msgs go_copyWorker routines
    (fun _ e => [close_die; e]) TransferCompletedEvent destBucketName
    (fun _ => []) [Remove cpFilePath]
    (copyFileWithCp srcBucketName srcObjectKey destBucketName destObjectKey
       partSize options cpFilePath routines msgs fs).
Proof.
  unfold copyFileWithCp. cbv zeta.
  destruct (copyCheckpoint_load_run zeroCopyCheckpoint cpFilePath fs)
    as [[ccp err] Hl].
  eapply RunShape_bind; [exact Hl | |].
  { apply Forall_cons; split; [exact Logic.I | constructor]. }
  cbv beta iota.
  destruct (remove_if_unreadable_run err cpFilePath fs) as [fs1 [t1 [Hrm Ht1]]].
  eapply RunShape_bind; [exact Hrm | exact Ht1 |].
  destruct (copyCheckpoint_isValid_run ccp srcBucketName srcObjectKey fs1)
    as [v [t [Hv Ht]]].
  eapply RunShape_bind; [exact Hv | exact Ht |].
  assert (Hprep :
    RunShape (Some cpFilePath) msgs go_copyWorker routines
      (fun _ e => [close_die; e]) TransferCompletedEvent destBucketName
      (fun _ => []) [Remove cpFilePath]
      ((p <~ copyCheckpoint_prepare ccp srcBucketName srcObjectKey
               destBucketName destObjectKey partSize options ;;
        match p with
        | (_, Some err) => ret (Some err)
        | (ccp, None) =>
            os_Remove cpFilePath ;;;
            copyFileWithCp_run destBucketName destObjectKey cpFilePath routines
              msgs ccp
        end) fs1)).
  { destruct (copyCheckpoint_prepare_run ccp srcBucketName srcObjectKey
                destBucketName destObjectKey partSize options fs1)
      as [rp [tp [Hp [Htp Hnp]]]].
    destruct rp as [[ccp' e]| |].
    - eapply RunShape_bind; [exact Hp | exact Htp |].
      destruct e as [e|]; [apply RunShape_error|].
      eapply RunShape_bind; [reflexivity | |].
      { apply Forall_cons; split; [exact Logic.I | constructor]. }
      apply copyFileWithCp_run_shape.
    - congruence.
    - left. unfold bind. rewrite Hp. split; [exact Htp | discriminate]. }
  destruct v as [[|] [e|]]; try exact Hprep.
  apply copyFileWithCp_run_shape.
Qed.

Lemma uploadFile_shape bucket objectKey filePath partSize options routines msgs fs :
  RunShape None msgs go_worker routines
    (fun imur e => [close_die; e; AbortMultipartUpload bucket imur])
    TransferStartedEvent bucket
    (fun imur => [AbortMultipartUpload bucket imur]) []
    (uploadFile bucket objectKey filePath partSize options routines msgs fs).
Proof.
  unfold uploadFile.
  destruct (SplitFileByPartSize filePath partSize) as [chunks|e];
    [|apply RunShape_error].
  eapply RunShape_bind; [reflexivity | |].
  { apply Forall_cons; split; [exact Logic.I | constructor]. }
  destruct (remote_Initiate bucket objectKey options) as [imur|e];
    [|apply RunShape_error].
  rewrite bind_emit, bind_start_workers, bind_emit.
  unfold trace at 1, result at 1, files_after at 1. simpl.
  right. eexists [], _, imur, _, _.
  split; [constructor|]. split; [eexists _, _; reflexivity|].
  split; [left; eexists; reflexivity|].
  unfold trace at 1, result at 1. simpl. split; [reflexivity|].
  pose proof (select_loop_shape (isDataStep None) (fun _ => True) (len chunks)
                (uploadFile_results chunks)
                (uploadFile_failed bucket imur (getTotalBytes chunks)))
    as Hshape.
  specialize (Hshape ltac:(intros part s fs' _; split;
    [apply uploadFile_results_step | auto])).
  specialize (Hshape msgs
                (mkLoop 0 (replicate (length chunks) zeroUploadPart) 0) fs Logic.I).
  unfold bind.
  destruct (select_loop _ _ _ msgs _ fs) as [[r1 fs1] t1].
  inversion Hshape as [s' fs' t HI Hn Ht | fs' t Ht | fs' t Ht
                      | err s1 fs0 t0 r0 fs' tf Hin HI Hlt Ht0 Hcf]; subst.
  - unfold result, trace. simpl.
    unfold bucket_CompleteMultipartUpload, bucket_AbortMultipartUpload, bind,
      emit, ret.
    simpl.
    destruct (remote_Complete _ _ _) as [err|] eqn:Ec; simpl.
    + apply tail_post; [exact Ht|].
      exists (l_completedBytes s'), (getTotalBytes chunks), imur, (l_gathered s').
      split; [reflexivity|]. left. split; eauto.
    + apply tail_post; [exact Ht|].
      exists (l_completedBytes s'), (getTotalBytes chunks), imur, (l_gathered s').
      split; [reflexivity|]. right. split; eauto.
  - unfold result, trace. simpl. apply tail_panic. exact Ht.
  - unfold result, trace. simpl. apply tail_blocked. exact Ht.
  - unfold uploadFile_failed, bucket_AbortMultipartUpload, bind, emit in Hcf.
    simpl in Hcf.
    injection Hcf as <- <- <-. unfold result, trace. simpl.
    rewrite app_nil_r. apply tail_failed; auto.
    eexists _, _. reflexivity.
Qed.

Lemma copyFile_shape bucket srcBucketName srcObjectKey destBucketName
    destObjectKey partSize options routines msgs fs :
  RunShape None msgs go_copyWorker routines
    (fun imur e => [close_die; AbortMultipartUpload destBucketName imur; e])
    TransferCompletedEvent destBucketName
    (fun imur => [AbortMultipartUpload bucket imur]) []
    (copyFile bucket srcBucketName srcObjectKey destBucketName destObjectKey
       partSize options routines msgs fs).
Proof.
  unfold copyFile. cbv zeta.
  destruct (getCopyParts_run srcBucketName srcObjectKey partSize fs)
    as [g [Hg Hgp]].
  assert (Hmeta : Forall isSetupStep
                    [GetObjectDetailedMeta srcBucketName srcObjectKey])
    by (apply Forall_cons; split; [exact Logic.I | constructor]).
  destruct g as [[parts|e]| |].
  2: { eapply RunShape_bind; [exact Hg | exact Hmeta | apply RunShape_error]. }
  2: { congruence. }
  2: { left. unfold bind. rewrite Hg. split; [exact Hmeta | discriminate]. }
  eapply RunShape_bind; [exact Hg | exact Hmeta |].
  eapply RunShape_bind; [reflexivity | |].
  { apply Forall_cons; split; [exact Logic.I | constructor]. }
  destruct (remote_Initiate destBucketName destObjectKey options) as [imur|e];
    [|apply RunShape_error].
  rewrite bind_emit, bind_start_workers, bind_emit.
  unfold trace at 1, result at 1, files_after at 1. simpl.
  right. eexists [], _, imur, _, _.
  split; [constructor|]. split; [eexists _, _; reflexivity|].
  split; [right; eexists; reflexivity|].
  unfold trace at 1, result at 1. simpl. split; [reflexivity|].
  pose proof (select_loop_shape (isDataStep None) (fun _ => True) (len parts)
                (copyFile_results parts (getSrcObjectBytes parts))
                (copyFile_failed destBucketName imur (getSrcObjectBytes parts)))
    as Hshape.
  specialize (Hshape ltac:(intros part s fs' _; split;
    [apply copyFile_results_step | auto])).
  specialize (Hshape msgs
                (mkLoop 0 (replicate (length parts) zeroUploadPart) 0) fs Logic.I).
  unfold bind.
  destruct (select_loop _ _ _ msgs _ fs) as [[r1 fs1] t1].
  inversion Hshape as [s' fs' t HI Hn Ht | fs' t Ht | fs' t Ht
                      | err s1 fs0 t0 r0 fs' tf Hin HI Hlt Ht0 Hcf]; subst.
  - unfold result, trace. simpl.
    unfold bucket_CompleteMultipartUpload, bucket_AbortMultipartUpload, bind,
      emit, ret.
    simpl.
    destruct (remote_Complete _ _ _) as [err|] eqn:Ec; simpl.
    + apply tail_post; [exact Ht|].
      exists (l_completedBytes s'), (getSrcObjectBytes parts), imur,
        (l_gathered s').
      split; [reflexivity|]. left. split; eauto.
    + apply tail_post; [exact Ht|].
      exists (l_completedBytes s'), (getSrcObjectBytes parts), imur,
        (l_gathered s').
      split; [reflexivity|]. right. split; eauto.
  - unfold result, trace. simpl. apply tail_panic. exact Ht.
  - unfold result, trace. simpl. apply tail_blocked. exact Ht.
  - unfold copyFile_failed, bucket_AbortMultipartUpload, bind, emit in Hcf.
    simpl in Hcf.
    injection Hcf as <- <- <-. unfold result, trace. simpl.
    rewrite app_nil_r. apply tail_failed; auto.
    eexists _, _. reflexivity.
Qed.
End RunShapes.

(** A property of every step of a run's tail holds of the tail. *)
Lemma RunTail_Forall (Q : Action -> Prop) cp msgs suffix ty bucket uid on_err
    on_ok r tl :
  (forall x, isDataStep cp x -> Q x) ->
  (forall e, isEvent TransferFailedEvent e -> Forall Q (suffix e)) ->
  (forall e imur parts, isEvent ty e -> imur_UploadID imur = uid ->
     Forall Q ([e; CompleteMultipartUpload bucket imur parts] ++ on_err)
     /\ Forall Q ([e; CompleteMultipartUpload bucket imur parts] ++ on_ok)) ->
  RunTail cp msgs (FailedCase suffix) (PostCase ty bucket uid on_err on_ok) r tl ->
  Forall Q tl.
Proof.
  intros Hdata Hsuf Hpost Htail.
  assert (Hd : forall t0, Forall (isDataStep cp) t0 -> Forall Q t0).
  { intros t0 Ht0. eapply Forall_impl; [exact Ht0 | exact Hdata]. }
  inversion Htail as [err t0 tf Herr Ht0 Hfl | r' t0 tp Ht0 Hp | t0 Ht0 | t0 Ht0];
    subst; auto.
  - apply Forall_app. split; [auto|].
    destruct Hfl as [c [t ->]]. apply Hsuf. eexists _, _. reflexivity.
  - apply Forall_app. split; [auto|].
    destruct Hp as [c [t [imur [parts [Hid [[_ ->]|[_ ->]]]]]]];
      apply (Hpost _ imur parts (ex_intro _ c (ex_intro _ t eq_refl)) Hid).
Qed.

(** A property of every step of a run holds of its trace. *)
Lemma RunShape_Forall (Q : Action -> Prop) cp msgs go_w routines suffix ty
    bucket on_err on_ok r :
  (forall x, isSetupStep x -> Q x) ->
  (forall x, isEvent TransferStartedEvent x -> Q x) ->
  (forall w imur, Q (go_w w imur)) ->
  (forall x, isSchedule x -> Q x) ->
  (forall x, isDataStep cp x -> Q x) ->
  (forall imur e, isEvent TransferFailedEvent e -> Forall Q (suffix imur e)) ->
  (forall e imur imur' parts, isEvent ty e ->
     Forall Q ([e; CompleteMultipartUpload bucket imur' parts] ++ on_err imur)
     /\ Forall Q ([e; CompleteMultipartUpload bucket imur' parts] ++ on_ok)) ->
  RunShape cp msgs go_w routines suffix ty bucket on_err on_ok r ->
  Forall Q (trace r).
Proof.
  intros Hset Hst Hw Hsch Hdata Hsuf Hpost
    [[Hs _]|[t0 [e0 [imur [sched [tl [Ht0 [He [Hsc [Htr Htl]]]]]]]]]].
  - eapply Forall_impl; [exact Hs | exact Hset].
  - rewrite Htr. apply Forall_app. split.
    { eapply Forall_impl; [exact Ht0 | exact Hset]. }
    apply Forall_cons. split; [apply Hst; exact He|].
    apply Forall_app. split.
    { apply Forall_fmap. apply Forall_forall. intros w _. apply Hw. }
    apply Forall_cons. split; [apply Hsch; exact Hsc|].
    eapply RunTail_Forall; [exact Hdata | apply Hsuf | | exact Htl].
    intros e i parts Hev _. apply Hpost. exact Hev.
Qed.

(** A Failed event of a run is the one of the case of [failed], which ended
    the run with the error of a worker; before it the run made only steps of
    the setup, of the start and of the parts that came in. *)
Lemma RunShape_failed_event (Q : Action -> Prop) cp msgs go_w routines suffix
    ty bucket on_err on_ok r a :
  isWorker go_w -> ty <> TransferFailedEvent ->
  (forall imur e x, In x (suffix imur e) -> isEvent TransferFailedEvent x -> x = e) ->
  (forall imur x, In x (on_err imur ++ on_ok) -> ~ isEvent TransferFailedEvent x) ->
  (forall x, isSetupStep x -> Q x) ->
  (forall x, isEvent TransferStartedEvent x -> Q x) ->
  (forall w imur, Q (go_w w imur)) ->
  (forall x, isSchedule x -> Q x) ->
  (forall x, isDataStep cp x -> Q x) ->
  RunShape cp msgs go_w routines suffix ty bucket on_err on_ok r ->
  In a (trace r) -> isEvent TransferFailedEvent a ->
  exists t0 imur err,
    In (OnFailed err) msgs /\ result r = Val (Some err)
    /\ trace r = t0 ++ suffix imur a /\ Forall Q t0.
Proof.
  intros Hw Hty Hsuf Hpost Qset Qst Qw Qsch Qdata
    [[Hs _]|[t0 [e0 [imur [sched [tl [Ht0 [He [Hsc [Htr Htl]]]]]]]]]] Hin Hev.
  - exfalso.
    apply (Forall_not_In _ (isEvent TransferFailedEvent) _ a
             (isSetupStep_not_event TransferFailedEvent) Hs); assumption.
  - rewrite Htr in Hin. apply in_app_iff in Hin as [Hin|Hin].
    { exfalso.
      apply (Forall_not_In _ (isEvent TransferFailedEvent) _ a
               (isSetupStep_not_event TransferFailedEvent) Ht0); assumption. }
    destruct Hin as [<-|Hin].
    { exfalso. destruct He as [c [t ->]]. destruct Hev as [c' [t' E]].
      inversion E. }
    apply in_app_iff in Hin as [Hin|Hin].
    { exfalso. apply list_elem_of_In, list_elem_of_fmap in Hin as [w [-> _]].
      destruct Hev as [c' [t' E]]. destruct Hw as [-> | ->]; inversion E. }
    destruct Hin as [<-|Hin].
    { exfalso. destruct Hev as [c' [t' E]].
      destruct Hsc as [[x ->]|[x ->]]; inversion E. }
    destruct (RunTail_failed_event cp msgs (suffix imur) ty bucket
                (imur_UploadID imur) (on_err imur) on_ok (result r) tl a Hty
                (Hsuf imur) (Hpost imur) Htl Hin Hev)
      as [t1 [err [Herr [Hr [Htl' Ht1]]]]].
    exists (t0 ++ e0 :: ((fun w => go_w w imur) <$> seqZ 1 routines)
               ++ sched :: t1), imur, err.
    split; [exact Herr|]. split; [exact Hr|]. split.
    + rewrite Htr, Htl'. rewrite <- !app_assoc. simpl.
      rewrite <- !app_assoc. reflexivity.
    + apply Forall_app. split.
      { eapply Forall_impl; [exact Ht0 | exact Qset]. }
      apply Forall_cons. split; [apply Qst; exact He|].
      apply Forall_app. split.
      { apply Forall_fmap. apply Forall_forall. intros w _. apply Qw. }
      apply Forall_cons. split; [apply Qsch; exact Hsc|].
      eapply Forall_impl; [exact Ht1 | exact Qdata].
Qed.

(** The steps of the setup, of the start and of the parts that came in are
    none of the calls of the case of [failed] or of the code after the
    loop. *)
Lemma isSetupStep_beforeFailure x : isSetupStep x -> beforeFailure x.
Proof.
  intros Hx. unfold beforeFailure.
  split; [exact (isSetupStep_not_complete x Hx)|].
  split; [exact (isSetupStep_not_abort x Hx)|].
  split; [intros ->; exact Hx|].
  split; apply isSetupStep_not_event; exact Hx.
Qed.

Lemma isDataStep_beforeFailure cp x : isDataStep cp x -> beforeFailure x.
Proof.
  intros Hx. unfold beforeFailure.
  split; [exact (isDataStep_not_complete cp x Hx)|].
  split; [exact (isDataStep_not_abort cp x Hx)|].
  split.
  { intros ->. destruct Hx as [[c [t E]]|[path [_ [d [p E]]]]]; discriminate E. }
  split; apply (isDataStep_not_event cp); try exact Hx; discriminate.
Qed.

Lemma start_beforeFailure x :
  isEvent TransferStartedEvent x \/ isSchedule x
  \/ (exists w imur, x = go_worker w imur \/ x = go_copyWorker w imur) ->
  beforeFailure x.
Proof.
  intros [[c [t ->]]|[[[c ->]|[c ->]]|[w [imur [-> | ->]]]]];
    (split; [other_action|]; split; [other_action|];
     split; [discriminate|]; split; other_action).
Qed.

Section FailedParts.
Context `{World} `{Digest}.
Context `{Json uploadCheckpoint} `{Json copyCheckpoint}.

Lemma select_loop_failed {X} n
    (case_results : UploadPart -> LoopState X -> Go (LoopState X))
    (case_failed : error -> LoopState X -> Go unit) err msgs s fs :
  l_completed s < n ->
  select_loop n case_results case_failed (OnFailed err :: msgs) s fs =
    (case_failed err s ;;; ret (Returned err)) fs.
Proof.
  intros Hlt. simpl. destruct (Z.ltb_spec (l_completed s) n); [reflexivity | lia].
Qed.

Lemma UploadFile_cases bucket objectKey filePath partSize options msgs fs :
  (exists err, UploadFile bucket objectKey filePath partSize options msgs fs =
                 (Val (Some err), fs, []))
  \/ (IsEnable (getCpConfig options filePath).1 = true
      /\ UploadFile bucket objectKey filePath partSize options msgs fs =
         uploadFileWithCp bucket objectKey filePath partSize options
           (FilePath (getCpConfig options filePath).1) (getRoutines options)
           msgs fs)
  \/ (IsEnable (getCpConfig options filePath).1 = false
      /\ UploadFile bucket objectKey filePath partSize options msgs fs =
         uploadFile bucket objectKey filePath partSize options
           (getRoutines options) msgs fs).
Proof.
  unfold UploadFile.
  destruct ((partSize <? MinPartSize) || (partSize >? MaxPartSize));
    [left; eexists; reflexivity|].
  destruct (getCpConfig options filePath) as [cpConf [e|]];
    [left; eexists; reflexivity|].
  simpl. destruct (IsEnable cpConf); [right; left | right; right]; auto.
Qed.

Lemma CopyFile_cases bucket srcBucketName srcObjectKey destObjectKey partSize
    options msgs fs :
  let cpConf := (getCpConfig options (filepath_Base destObjectKey)).1 in
  (exists err, CopyFile bucket srcBucketName srcObjectKey destObjectKey partSize
                 options msgs fs = (Val (Some err), fs, []))
  \/ (IsEnable cpConf = true
      /\ CopyFile bucket srcBucketName srcObjectKey destObjectKey partSize
           options msgs fs =
         copyFileWithCp srcBucketName srcObjectKey bucket destObjectKey partSize
           options (FilePath cpConf) (getRoutines options) msgs fs)
  \/ (IsEnable cpConf = false
      /\ CopyFile bucket srcBucketName srcObjectKey destObjectKey partSize
           options msgs fs =
         copyFile bucket srcBucketName srcObjectKey bucket destObjectKey
           partSize options (getRoutines options) msgs fs).
Proof.
  unfold CopyFile. cbv zeta.
  destruct ((partSize <? MinPartSize) || (partSize >? MaxPartSize));
    [left; eexists; reflexivity|].
  destruct (getCpConfig options (filepath_Base destObjectKey)) as [cpConf [e|]];
    [left; eexists; reflexivity|].
  simpl. destruct (IsEnable cpConf); [right; left | right; right]; auto.
Qed.

(** A checkpointed run makes no call of AbortMultipartUpload. *)
Lemma checkpointed_run_never_aborts cp msgs go_w routines bucket r :
  isWorker go_w ->
  RunShape (Some cp) msgs go_w routines (fun _ e => [close_die; e])
    TransferCompletedEvent bucket (fun _ => []) [Remove cp] r ->
  Forall (fun a => ~ isAbort a) (trace r).
Proof.
  intros Hw Hr.
  eapply (RunShape_Forall (fun a => ~ isAbort a)); [..|exact Hr].
  - apply isSetupStep_not_abort.
  - intros x [c [t ->]]. other_action.
  - intros w imur. destruct Hw as [-> | ->]; other_action.
  - intros x [[c ->]|[c ->]]; other_action.
  - apply isDataStep_not_abort.
  - intros _ e [c [t ->]]. each_action other_action.
  - intros e imur imur' parts [c [t ->]].
    split; simpl; each_action other_action.
Qed.

Lemma checkpointed_run_failed_event cp msgs go_w routines bucket r a :
  isWorker go_w ->
  RunShape (Some cp) msgs go_w routines (fun _ e => [close_die; e])
    TransferCompletedEvent bucket (fun _ => []) [Remove cp] r ->
  In a (trace r) -> isEvent TransferFailedEvent a ->
  exists t0 err,
    In (OnFailed err) msgs /\ result r = Val (Some err)
    /\ trace r = t0 ++ [close_die; a] /\ Forall beforeFailure t0.
Proof.
  intros Hw Hr Hin Hev.
  pose proof (RunShape_failed_event beforeFailure (Some cp) msgs go_w routines
                (fun _ e => [close_die; e]) TransferCompletedEvent bucket
                (fun _ => []) [Remove cp] r a Hw) as L.
  destruct L as [t0 [imur [err L]]]; try assumption.
  - discriminate.
  - intros imur e x [<-|[<-|[]]]; [other_action | reflexivity].
  - intros imur x [<-|[]]. other_action.
  - apply isSetupStep_beforeFailure.
  - intros x Hx. apply start_beforeFailure. auto.
  - intros w imur. apply start_beforeFailure. right. right.
    exists w, imur. destruct Hw as [-> | ->]; auto.
  - intros x Hx. apply start_beforeFailure. auto.
  - apply isDataStep_beforeFailure.
  - exists t0, err. exact L.
Qed.

Lemma uploadFile_failed_event bucket msgs routines r a :
  RunShape None msgs go_worker routines
    (fun imur e => [close_die; e; AbortMultipartUpload bucket imur])
    TransferStartedEvent bucket
    (fun imur => [AbortMultipartUpload bucket imur]) [] r ->
  In a (trace r) -> isEvent TransferFailedEvent a ->
  exists t0 imur err,
    In (OnFailed err) msgs /\ result r = Val (Some err)
    /\ trace r = t0 ++ [close_die; a; AbortMultipartUpload bucket imur]
    /\ Forall beforeFailure t0.
Proof.
  intros Hr Hin Hev.
  pose proof (RunShape_failed_event beforeFailure None msgs go_worker routines
                (fun imur e => [close_die; e; AbortMultipartUpload bucket imur])
                TransferStartedEvent bucket
                (fun imur => [AbortMultipartUpload bucket imur]) [] r a
                (or_introl eq_refl)) as L.
  destruct L as [t0 [imur [err L]]]; try assumption.
  - discriminate.
  - intros imur e x [<-|[<-|[<-|[]]]];
      [other_action | reflexivity | other_action].
  - intros imur x [<-|[]]. other_action.
  - apply isSetupStep_beforeFailure.
  - intros x Hx. apply start_beforeFailure. auto.
  - intros w imur. apply start_beforeFailure. right. right.
    exists w, imur. auto.
  - intros x Hx. apply start_beforeFailure. auto.
  - apply isDataStep_beforeFailure.
  - exists t0, imur, err. exact L.
Qed.

Lemma copyFile_failed_event bucket destBucketName msgs routines r a :
  RunShape None msgs go_copyWorker routines
    (fun imur e => [close_die; AbortMultipartUpload destBucketName imur; e])
    TransferCompletedEvent destBucketName
    (fun imur => [AbortMultipartUpload bucket imur]) [] r ->
  In a (trace r) -> isEvent TransferFailedEvent a ->
  exists t0 imur err,
    In (OnFailed err) msgs /\ result r = Val (Some err)
    /\ trace r = t0 ++ [close_die; AbortMultipartUpload destBucketName imur; a]
    /\ Forall beforeFailure t0.
Proof.
  intros Hr Hin Hev.
  pose proof (RunShape_failed_event beforeFailure None msgs go_copyWorker
                routines
                (fun imur e => [close_die; AbortMultipartUpload destBucketName imur; e])
                TransferCompletedEvent destBucketName
                (fun imur => [AbortMultipartUpload bucket imur]) [] r a
                (or_intror eq_refl)) as L.
  destruct L as [t0 [imur [err L]]]; try assumption.
  - discriminate.
  - intros imur e x [<-|[<-|[<-|[]]]];
      [other_action | other_action | reflexivity].
  - intros imur x [<-|[]]. other_action.
  - apply isSetupStep_beforeFailure.
  - intros x Hx. apply start_beforeFailure. auto.
  - intros w imur. apply start_beforeFailure. right. right.
    exists w, imur. auto.
  - intros x Hx. apply start_beforeFailure. auto.
  - apply isDataStep_beforeFailure.
  - exists t0, imur, err. exact L.
Qed.

(** C5. The error path of the four coordinators. (1) The case of [failed]
    of the select loop, taken while parts are outstanding, closes the die
    channel and returns the error of the worker. In between, uploadFile
    publishes Failed and then calls AbortMultipartUpload, and the two
    checkpointed coordinators publish Failed and make no other call; copyFile
    alone calls AbortMultipartUpload first and publishes Failed after it.
    (2) Whenever a run of UploadFile or CopyFile publishes a Failed event,
    these calls are the last of the run, the run returns the error of a
    worker, and before them it made no call of CompleteMultipartUpload or
    AbortMultipartUpload, did not close die and published no other Failed and
    no Completed event; a checkpointed run never calls
    AbortMultipartUpload. *)
Theorem failed_part_ends_run
    (bucket objectKey filePath srcBucketName srcObjectKey destObjectKey : string)
    (partSize : Z) (options : list Option) (msgs : list Msg) (fs : Files)
    (ev : Action) :
  isEvent TransferFailedEvent ev ->
  let up := UploadFile bucket objectKey filePath partSize options msgs fs in
  let cp := CopyFile bucket srcBucketName srcObjectKey destObjectKey partSize
              options msgs fs in
  (forall n chunks parts imur total cpFilePath err rest fs'
          (s : LoopState (list UploadPart))
          (su : LoopState uploadCheckpoint) (sc : LoopState copyCheckpoint),
      l_completed s < n -> l_completed su < n -> l_completed sc < n ->
      select_loop n (uploadFile_results chunks)
        (uploadFile_failed bucket imur total) (OnFailed err :: rest) s fs' =
        (Val (Returned err), fs',
         [close_die;
          publishProgress
            (newProgressEvent TransferFailedEvent (l_completedBytes s) total);
          AbortMultipartUpload bucket imur])
      /\ select_loop n (copyFile_results parts total)
           (copyFile_failed bucket imur total) (OnFailed err :: rest) s fs' =
           (Val (Returned err), fs',
            [close_die;
             AbortMultipartUpload bucket imur;
             publishProgress
               (newProgressEvent TransferFailedEvent (l_completedBytes s) total)])
      /\ select_loop n (uploadFileWithCp_results cpFilePath)
           uploadFileWithCp_failed (OnFailed err :: rest) su fs' =
           (Val (Returned err), fs',
            [close_die;
             publishProgress
               (newProgressEvent TransferFailedEvent (l_completedBytes su)
                  (st_Size (u_FileStat (l_gathered su))))])
      /\ select_loop n (copyFileWithCp_results cpFilePath parts)
           copyFileWithCp_failed (OnFailed err :: rest) sc fs' =
           (Val (Returned err), fs',
            [close_die;
             publishProgress
               (newProgressEvent TransferFailedEvent (l_completedBytes sc)
                  (os_Size (c_ObjStat (l_gathered sc))))]))
  /\ (In ev (trace up) ->
      exists t0 err,
        In (OnFailed err) msgs /\ result up = Val (Some err)
        /\ Forall beforeFailure t0
        /\ if IsEnable (getCpConfig options filePath).1
           then trace up = t0 ++ [close_die; ev]
                /\ Forall (fun a => ~ isAbort a) (trace up)
           else exists imur,
                  trace up = t0 ++ [close_die; ev; AbortMultipartUpload bucket imur])
  /\ (In ev (trace cp) ->
      exists t0 err,
        In (OnFailed err) msgs /\ result cp = Val (Some err)
        /\ Forall beforeFailure t0
        /\ if IsEnable (getCpConfig options (filepath_Base destObjectKey)).1
           then trace cp = t0 ++ [close_die; ev]
                /\ Forall (fun a => ~ isAbort a) (trace cp)
           else exists imur,
                  trace cp = t0 ++ [close_die; AbortMultipartUpload bucket imur; ev]).
Proof.
  intros Hev up cp. split; [|split].
  - intros n chunks parts imur total cpFilePath err rest fs' s su sc Hs Hsu Hsc.
    rewrite !select_loop_failed by assumption.
    repeat split; reflexivity.
  - intros Hin. subst up.
    destruct (UploadFile_cases bucket objectKey filePath partSize options msgs fs)
      as [[e He]|[[Hen Heq]|[Hen Heq]]].
    + rewrite He in Hin. destruct Hin.
    + rewrite Heq in *. rewrite Hen.
      pose proof (uploadFileWithCp_shape bucket objectKey filePath partSize
                    options (FilePath (getCpConfig options filePath).1)
                    (getRoutines options) msgs fs) as Hshape.
      destruct (checkpointed_run_failed_event _ _ _ _ _ _ ev
                  (or_introl eq_refl) Hshape Hin Hev)
        as [t0 [err [Herr [Hr [Htr Hbf]]]]].
      exists t0, err. split; [exact Herr|]. split; [exact Hr|].
      split; [exact Hbf|]. split; [exact Htr|].
      eapply checkpointed_run_never_aborts; [left; reflexivity | exact Hshape].
    + rewrite Heq in *. rewrite Hen.
      pose proof (uploadFile_shape bucket objectKey filePath partSize options
                    (getRoutines options) msgs fs) as Hshape.
      destruct (uploadFile_failed_event _ _ _ _ ev Hshape Hin Hev)
        as [t0 [imur [err [Herr [Hr [Htr Hbf]]]]]].
      exists t0, err. split; [exact Herr|]. split; [exact Hr|].
      split; [exact Hbf|]. exists imur. exact Htr.
  - intros Hin. subst cp.
    destruct (CopyFile_cases bucket srcBucketName srcObjectKey destObjectKey
                partSize options msgs fs) as [[e He]|[[Hen Heq]|[Hen Heq]]].
    + rewrite He in Hin. destruct Hin.
    + rewrite Heq in *. rewrite Hen.
      pose proof (copyFileWithCp_shape srcBucketName srcObjectKey bucket
                    destObjectKey partSize options
                    (FilePath (getCpConfig options (filepath_Base destObjectKey)).1)
                    (getRoutines options) msgs fs) as Hshape.
      destruct (checkpointed_run_failed_event _ _ _ _ _ _ ev
                  (or_intror eq_refl) Hshape Hin Hev)
        as [t0 [err [Herr [Hr [Htr Hbf]]]]].
      exists t0, err. split; [exact Herr|]. split; [exact Hr|].
      split; [exact Hbf|]. split; [exact Htr|].
      eapply checkpointed_run_never_aborts; [right; reflexivity | exact Hshape].
    + rewrite Heq in *. rewrite Hen.
      pose proof (copyFile_shape bucket srcBucketName srcObjectKey bucket
                    destObjectKey partSize options (getRoutines options) msgs fs)
        as Hshape.
      destruct (copyFile_failed_event _ _ _ _ _ ev Hshape Hin Hev)
        as [t0 [imur [err [Herr [Hr [Htr Hbf]]]]]].
      exists t0, err. split; [exact Herr|]. split; [exact Hr|].
      split; [exact Hbf|]. exists imur. exact Htr.
Qed.
End FailedParts.

Lemma failed_part_ends_run_witness :
  let ev := publishProgress (newProgressEvent TransferFailedEvent 0 482048) in
  let up := @UploadFile Sample.package Sample.world Sample.digest
              Sample.jsonUpload "bucket" "turtr" "BingWallpaper-2015-11-07.jpg"
              102400 [Sample.Routines 2] [OnFailed "ErrorHooker"] ∅ in
  let cp := @CopyFile Sample.package Sample.world Sample.digest Sample.jsonCopy
              "bucket" "src-bucket" "tcrtr" "tcrtr-copy" 102400
              [Sample.Routines 2] [OnFailed "ErrorHooker"] ∅ in
  isEvent TransferFailedEvent ev /\ In ev (trace up) /\ In ev (trace cp)
  /\ (exists t0 imur,
        Forall beforeFailure t0
        /\ trace up = t0 ++ [close_die; ev; AbortMultipartUpload "bucket" imur])
  /\ (exists t0 imur,
        Forall beforeFailure t0
        /\ trace cp = t0 ++ [close_die; AbortMultipartUpload "bucket" imur; ev]).
Proof.
  intros ev up cp.
  assert (Hev : isEvent TransferFailedEvent ev) by (eexists _, _; reflexivity).
  assert (Hin : In ev (trace up)) by find_in_trace.
  assert (Hin' : In ev (trace cp)) by find_in_trace.
  split; [exact Hev|]. split; [exact Hin|]. split; [exact Hin'|].
  destruct (@failed_part_ends_run Sample.package Sample.world Sample.digest
              Sample.jsonUpload Sample.jsonCopy "bucket" "turtr"
              "BingWallpaper-2015-11-07.jpg" "src-bucket" "tcrtr" "tcrtr-copy"
              102400 [Sample.Routines 2] [OnFailed "ErrorHooker"] ∅ ev Hev)
    as [_ [Hup Hcp]].
  destruct (Hup Hin) as [t0 [err [_ [_ [Hbf [imur Hshape]]]]]].
  destruct (Hcp Hin') as [t0' [err' [_ [_ [Hbf' [imur' Hshape']]]]]].
  split; [exists t0, imur | exists t0', imur']; split; assumption.
Defined.

(** The run of CopyFile without checkpoint on which C5 fails: a worker
    reports an error while all five parts are outstanding, and the
    coordinator aborts the multipart upload before it publishes the Failed
    event. *)
Lemma copyFile_aborts_before_failed_event :
  @CopyFile Sample.package Sample.world Sample.digest Sample.jsonCopy
    "dest-bucket" "src-bucket" "tcrtr" "tcrtr-copy" 102400 [Sample.Routines 2]
    [OnFailed "ErrorHooker"] ∅ =
  let imur := mkIMUR "dest-bucket" "tcrtr-copy" "3F79722737D1469980DACEDCA325BB52" in
  (Val (Some "ErrorHooker"), ∅,
   [GetObjectDetailedMeta "src-bucket" "tcrtr";
    InitiateMultipartUpload "dest-bucket" "tcrtr-copy";
    publishProgress (newProgressEvent TransferStartedEvent 0 482048);
    go_copyWorker 1 imur; go_copyWorker 2 imur;
    go_copyScheduler Sample.copyParts;
    close_die;
    AbortMultipartUpload "dest-bucket" imur;
    publishProgress (newProgressEvent TransferFailedEvent 0 482048)]).
Proof. vm_compute. reflexivity. Qed.

(** The same failure in UploadFile without checkpoint: the Failed event
    comes first, the abort after it. *)
Example uploadFile_aborts_after_failed_event :
  @UploadFile Sample.package Sample.world Sample.digest Sample.jsonUpload
    "bucket" "turtr" "BingWallpaper-2015-11-07.jpg" 102400 [Sample.Routines 2]
    [OnFailed "ErrorHooker"] ∅ =
  let imur := mkIMUR "bucket" "turtr" "3F79722737D1469980DACEDCA325BB52" in
  (Val (Some "ErrorHooker"), ∅,
   [InitiateMultipartUpload "bucket" "turtr";
    publishProgress (newProgressEvent TransferStartedEvent 0 482048);
    go_worker 1 imur; go_worker 2 imur;
    go_scheduler Sample.chunks;
    close_die;
    publishProgress (newProgressEvent TransferFailedEvent 0 482048);
    AbortMultipartUpload "bucket" imur]).
Proof. vm_compute. reflexivity. Qed.

(** ** Lifecycle events *)

Lemma published_app t1 t2 : published (t1 ++ t2) = published t1 ++ published t2.
Proof.
  induction t1 as [|a t1 IH]; [reflexivity|].
  destruct a; simpl; rewrite IH; reflexivity.
Qed.

Lemma published_none t :
  Forall (fun a => forall e, a <> publishProgress e) t -> published t = [].
Proof.
  induction 1 as [|a t Ha _ IH]; [reflexivity|].
  destruct a; simpl; try exact IH. destruct (Ha event eq_refl).
Qed.

Lemma published_Forall (P : ProgressEvent -> Prop) t :
  Forall (fun a => forall e, a = publishProgress e -> P e) t ->
  Forall P (published t).
Proof.
  induction 1 as [|a t Ha _ IH]; [constructor|].
  destruct a; simpl; try exact IH.
  apply Forall_cons. split; [apply Ha; reflexivity | exact IH].
Qed.

(** An action that the setup, the start of the workers and the scheduler do
    not make is an action of the tail of the run. *)
Lemma RunShape_In_tail (P : Action -> Prop) cp msgs go_w routines suffix ty
    bucket on_err on_ok r a :
  isWorker go_w ->
  (forall x, isSetupStep x -> ~ P x) ->
  (forall x, isEvent TransferStartedEvent x -> ~ P x) ->
  (forall w imur, ~ P (go_worker w imur) /\ ~ P (go_copyWorker w imur)) ->
  (forall x, isSchedule x -> ~ P x) ->
  RunShape cp msgs go_w routines suffix ty bucket on_err on_ok r ->
  In a (trace r) -> P a ->
  exists pre e0 imur tl,
    trace r = pre ++ tl /\ In a tl
    /\ published pre = [e0] /\ EventType e0 = TransferStartedEvent
    /\ RunTail cp msgs (FailedCase (suffix imur))
         (PostCase ty bucket (imur_UploadID imur) (on_err imur) on_ok)
         (result r) tl.
Proof.
  intros Hw Hset Hst Hwk Hsch
    [[Hs _]|[t0 [e0 [imur [sched [tl [Ht0 [He [Hsc [Htr Htl]]]]]]]]]] Hin HP.
  - exfalso. apply (Forall_not_In _ P _ a Hset Hs); assumption.
  - rewrite Htr in Hin. apply in_app_iff in Hin as [Hin|Hin].
    { exfalso. apply (Forall_not_In _ P _ a Hset Ht0); assumption. }
    destruct Hin as [<-|Hin]; [destruct (Hst _ He HP)|].
    apply in_app_iff in Hin as [Hin|Hin].
    { exfalso. apply list_elem_of_In, list_elem_of_fmap in Hin as [w [-> _]].
      destruct (Hwk w imur) as [H1 H2]. destruct Hw as [-> | ->]; auto. }
    destruct Hin as [<-|Hin]; [destruct (Hsch _ Hsc HP)|].
    destruct He as [c0 [tot0 ->]].
    exists (t0 ++ publishProgress (newProgressEvent TransferStartedEvent c0 tot0)
               :: ((fun w => go_w w imur) <$> seqZ 1 routines) ++ [sched]),
      (newProgressEvent TransferStartedEvent c0 tot0), imur, tl.
    split; [rewrite Htr; rewrite <- !app_assoc; simpl;
            rewrite <- !app_assoc; reflexivity|].
    split; [exact Hin|]. split; [|split; [reflexivity | exact Htl]].
    rewrite published_app. rewrite (published_none t0).
    2: { eapply Forall_impl; [exact Ht0|]. intros x Hx e ->. exact Hx. }
    change (published (publishProgress ?e :: ?t)) with (e :: published t).
    rewrite published_app. rewrite (published_none (_ <$> _)).
    2: { apply Forall_fmap, Forall_forall. intros w _ e.
         destruct Hw as [-> | ->]; discriminate. }
    destruct Hsc as [[x ->]|[x ->]]; reflexivity.
Qed.

(** An event of the code after the loop is followed at once by the call of
    CompleteMultipartUpload. *)
Lemma RunTail_post_event cp msgs suffix ty bucket uid on_err on_ok r tl a :
  ty <> TransferDataEvent -> ty <> TransferFailedEvent ->
  (forall e x, In x (suffix e) -> x = e \/ ~ isEvent ty x) ->
  (forall x, In x (on_err ++ on_ok) -> ~ isEvent ty x) ->
  RunTail cp msgs (FailedCase suffix) (PostCase ty bucket uid on_err on_ok) r tl ->
  In a tl -> isEvent ty a ->
  exists t0 call rest, isComplete call /\ tl = t0 ++ [a; call] ++ rest.
Proof.
  intros Hd Hf Hsuf Hpost Htail Hin Hev.
  assert (Hdata : forall t0, Forall (isDataStep cp) t0 -> In a t0 -> False).
  { intros t0 Ht0 Hin0.
    apply (Forall_not_In _ (isEvent ty) t0 a
             (fun x => isDataStep_not_event cp ty x Hd) Ht0); assumption. }
  inversion Htail as [err t0 tf Herr Ht0 Hfl | r' t0 tp Ht0 Hp | t0 Ht0 | t0 Ht0];
    subst.
  - exfalso. apply in_app_iff in Hin as [Hin|Hin]; [exact (Hdata t0 Ht0 Hin)|].
    destruct Hfl as [c [t ->]].
    destruct (Hsuf _ a Hin) as [->|Hn]; [|exact (Hn Hev)].
    destruct Hev as [c' [t' E]]. inversion E. congruence.
  - apply in_app_iff in Hin as [Hin|Hin]; [destruct (Hdata t0 Ht0 Hin)|].
    destruct Hp as [c [t [imur [parts [_ [[_ ->]|[_ ->]]]]]]];
      (simpl in Hin; destruct Hin as [<-|[<-|Hin]];
       [eexists t0, _, _; split; [eexists _, _, _; reflexivity | reflexivity]
       | destruct Hev as [c' [t' E]]; inversion E
       | exfalso; apply (Hpost a); auto; apply in_app_iff; auto]).
  - destruct (Hdata tl Ht0 Hin).
  - destruct (Hdata tl Ht0 Hin).
Qed.

Lemma RunShape_lifecycle cp msgs go_w routines suffix bucket on_err on_ok r :
  isWorker go_w ->
  (forall imur e x, In x (suffix imur e) -> x = e \/ x = close_die \/ isAbort x) ->
  (forall imur x, In x (on_err imur ++ on_ok) ->
     isAbort x \/ exists path, x = Remove path) ->
  RunShape cp msgs go_w routines suffix TransferCompletedEvent bucket on_err
    on_ok r ->
  StartedOnce (trace r) /\ CompletedAnnouncesComplete (trace r).
Proof.
  intros Hw Hsuf Hrest Hr.
  assert (Hrest_ev : forall ty imur x, In x (on_err imur ++ on_ok) ->
                                       ~ isEvent ty x).
  { intros ty imur x Hx. destruct (Hrest imur x Hx) as [[b [i ->]]|[p ->]];
      other_action. }
  assert (Hrest_c : forall imur x, In x (on_err imur ++ on_ok) -> ~ isComplete x).
  { intros imur x Hx. destruct (Hrest imur x Hx) as [[b [i ->]]|[p ->]];
      other_action. }
  split; [|split].
  - destruct Hr as [[Hs _]|[t0 [e0 [imur [sched [tl [Ht0 [He [Hsc [Htr Htl]]]]]]]]]].
    + left. apply published_none. eapply Forall_impl; [exact Hs|].
      intros x Hx e ->. exact Hx.
    + right. destruct He as [c0 [tot0 ->]].
      exists (newProgressEvent TransferStartedEvent c0 tot0), (published tl).
      split; [|split; [reflexivity|]].
      * rewrite Htr, published_app. rewrite (published_none t0).
        2: { eapply Forall_impl; [exact Ht0|]. intros x Hx e ->. exact Hx. }
        change (published (publishProgress ?e :: ?t)) with (e :: published t).
        rewrite published_app. rewrite (published_none (_ <$> _)).
        2: { apply Forall_fmap, Forall_forall. intros w _ e.
             destruct Hw as [-> | ->]; discriminate. }
        destruct Hsc as [[x ->]|[x ->]]; reflexivity.
      * apply published_Forall.
        eapply RunTail_Forall; [| | |exact Htl].
        -- intros x [[c [t ->]]|[path [_ [d [p ->]]]]] e [= <-]; discriminate.
        -- intros e [c [t ->]]. apply Forall_forall. intros x Hx e' ->.
           apply list_elem_of_In in Hx.
           destruct (Hsuf imur _ _ Hx) as [E|[E|[b [i E]]]];
             [injection E as ->; discriminate | discriminate E | discriminate E].
        -- intros e i parts [c [t ->]] _.
           split; apply Forall_forall; intros x Hx e' ->;
             apply list_elem_of_In in Hx; simpl in Hx;
             (destruct Hx as [E|[E|Hx]];
              [injection E as <-; discriminate | discriminate E|]);
             exfalso;
             apply (Hrest_ev (EventType e') imur (publishProgress e'));
             [apply in_app_iff; auto | apply isEvent_publish
             | apply in_app_iff; auto | apply isEvent_publish].
  - intros a Hin Hc.
    destruct (RunShape_In_tail isComplete cp msgs go_w routines suffix
                TransferCompletedEvent bucket on_err on_ok r a Hw
                isSetupStep_not_complete)
      as [pre [e0 [imur [tl [Htr [Hin' [_ [_ Htl]]]]]]]]; try assumption.
    + intros x [c [t ->]]. other_action.
    + intros w imur. split; other_action.
    + intros x [[c ->]|[c ->]]; other_action.
    + destruct (RunTail_complete cp msgs (suffix imur) TransferCompletedEvent
                  bucket (imur_UploadID imur) (on_err imur) on_ok (result r)
                  tl a) as [t1 [c [tot [rest [Htl' [_ Hrest']]]]]];
        try assumption.
      * intros e x [c [t ->]] Hx.
        destruct (Hsuf imur _ x Hx) as [->|[->|[b [i ->]]]]; other_action.
      * apply Hrest_c.
      * exists (pre ++ t1), c, tot, rest. split.
        -- rewrite Htr, Htl'. rewrite <- app_assoc. reflexivity.
        -- apply published_none. apply Forall_forall. intros x Hx e ->.
           apply list_elem_of_In in Hx.
           apply (Hrest_ev (EventType e) imur (publishProgress e)).
           ++ apply in_app_iff. destruct Hrest' as [[_ ->]|[_ ->]]; auto.
           ++ apply isEvent_publish.
  - intros e Hin Hev.
    destruct (RunShape_In_tail (isEvent TransferCompletedEvent) cp msgs go_w
                routines suffix TransferCompletedEvent bucket on_err on_ok r e
                Hw (isSetupStep_not_event TransferCompletedEvent))
      as [pre [e0 [imur [tl [Htr [Hin' [_ [_ Htl]]]]]]]]; try assumption.
    + intros x [c [t ->]]. other_action.
    + intros w imur. split; other_action.
    + intros x [[c ->]|[c ->]]; other_action.
    + destruct (RunTail_post_event cp msgs (suffix imur) TransferCompletedEvent
                  bucket (imur_UploadID imur) (on_err imur) on_ok (result r)
                  tl e) as [t1 [call [rest [Hcall Htl']]]]; try assumption.
      * discriminate.
      * discriminate.
      * intros e1 x Hx.
        destruct (Hsuf imur e1 x Hx) as [->|[->|[b [i ->]]]];
          [left; reflexivity | right; other_action | right; other_action].
      * apply Hrest_ev.
      * exists (pre ++ t1), call, rest. split; [exact Hcall|].
        rewrite Htr, Htl'. rewrite <- app_assoc. reflexivity.
Qed.

(** ** The byte counts of the events *)

Lemma last_nonempty {A} (a : A) l d d' :
  List.last (a :: l) d = List.last (a :: l) d'.
Proof.
  revert a. induction l as [|b l IH]; intros a; [reflexivity|].
  change (List.last (b :: l) d = List.last (b :: l) d'). apply IH.
Qed.

Lemma last_cons_default {A} (a d : A) l : List.last (a :: l) d = List.last l a.
Proof.
  destruct l as [|b l]; [reflexivity|].
  change (List.last (b :: l) d = List.last (b :: l) a). apply last_nonempty.
Qed.

(** The events of the select loop: one Data event for each part it counted,
    each with the bytes counted so far, and a Failed event with the same
    count when the case of [failed] ends the loop. *)
Lemma select_loop_events {X} (tot : Z) (I : LoopState X -> Prop) n
    (case_results : UploadPart -> LoopState X -> Go (LoopState X))
    (case_failed : error -> LoopState X -> Go unit) :
  (forall part s fs, I s ->
     match result (case_results part s fs) with
     | Val s' =>
         I s'
         /\ published (trace (case_results part s fs)) =
              [newProgressEvent TransferDataEvent (l_completedBytes s') tot]
     | _ => published (trace (case_results part s fs)) = []
     end) ->
  (forall err s fs, I s ->
     result (case_failed err s fs) = Val tt
     /\ published (trace (case_failed err s fs)) =
          [newProgressEvent TransferFailedEvent (l_completedBytes s) tot]) ->
  forall msgs s fs e0, I s -> ConsumedBytes e0 = l_completedBytes s ->
  let r := select_loop n case_results case_failed msgs s fs in
  exists ds,
    Forall (fun e => EventType e = TransferDataEvent /\ TotalBytes e = tot) ds
    /\ match result r with
       | Val (FellThrough s') =>
           published (trace r) = ds /\ I s'
           /\ l_completedBytes s' = ConsumedBytes (List.last ds e0)
       | Val (Returned _) =>
           published (trace r) =
             ds ++ [newProgressEvent TransferFailedEvent
                      (ConsumedBytes (List.last ds e0)) tot]
       | _ => published (trace r) = ds
       end.
Proof.
  intros Hres Hfail msgs.
  induction msgs as [|m msgs IH]; intros s fs e0 HI Hc; cbv zeta; simpl.
  - destruct (l_completed s <? n); exists []; (split; [constructor|]);
      simpl; auto.
  - destruct (l_completed s <? n).
    2: { exists []. split; [constructor|]. simpl. auto. }
    destruct m as [part|err].
    + specialize (Hres part s fs HI). unfold bind.
      destruct (case_results part s fs) as [[[s1| |] fs1] t1];
        unfold result, trace in Hres; simpl in Hres.
      * destruct Hres as [HI1 Ht1].
        destruct (l_completed s1 >=? n).
        -- exists [newProgressEvent TransferDataEvent (l_completedBytes s1) tot].
           split; [repeat constructor|]. unfold result, trace. simpl.
           rewrite app_nil_r. auto.
        -- destruct (IH s1 fs1
                       (newProgressEvent TransferDataEvent (l_completedBytes s1) tot)
                       HI1 eq_refl) as [ds [Hds Hr]].
           exists (newProgressEvent TransferDataEvent (l_completedBytes s1) tot
                   :: ds).
           split; [apply Forall_cons; split; [split; reflexivity | exact Hds]|].
           destruct (select_loop n case_results case_failed msgs s1 fs1)
             as [[r2 fs2] t2].
           unfold result, trace in *. cbn [fst snd] in *.
           rewrite published_app, Ht1, last_cons_default.
           change ([?d] ++ ?l) with (d :: l).
           destruct r2 as [[s2|e2]| |]; try (rewrite Hr; reflexivity).
           destruct Hr as [-> [HI2 Hc2]]. auto.
      * exists []. split; [constructor|]. exact Hres.
      * exists []. split; [constructor|]. exact Hres.
    + destruct (Hfail err s fs HI) as [Hr Ht]. unfold bind.
      destruct (case_failed err s fs) as [[r1 fs1] t1].
      unfold result, trace in *. simpl in *. subst r1. simpl.
      exists []. split; [constructor|]. simpl. rewrite app_nil_r, Ht, Hc.
      reflexivity.
Qed.

Section EventCounts.
Context `{World} `{Digest}.
Context `{Json uploadCheckpoint} `{Json copyCheckpoint}.

Lemma uploadCheckpoint_dump_events cp filePath fs :
  published (trace (uploadCheckpoint_dump cp filePath fs)) = [].
Proof.
  destruct (uploadCheckpoint_dump_trace cp filePath fs) as [->|[js ->]];
    reflexivity.
Qed.

Lemma copyCheckpoint_dump_events cp filePath fs :
  published (trace (copyCheckpoint_dump cp filePath fs)) = [].
Proof.
  destruct (copyCheckpoint_dump_trace cp filePath fs) as [->|[js ->]];
    reflexivity.
Qed.

Lemma uploadFileWithCp_results_publishes cpFilePath tot part s fs :
  st_Size (u_FileStat (l_gathered s)) = tot ->
  match result (uploadFileWithCp_results cpFilePath part s fs) with
  | Val s' =>
      st_Size (u_FileStat (l_gathered s')) = tot
      /\ published (trace (uploadFileWithCp_results cpFilePath part s fs)) =
           [newProgressEvent TransferDataEvent (l_completedBytes s') tot]
  | _ => published (trace (uploadFileWithCp_results cpFilePath part s fs)) = []
  end.
Proof.
  intros Htot.
  remember (uploadFileWithCp_results cpFilePath part s fs) as X eqn:EX.
  unfold uploadFileWithCp_results, uploadCheckpoint_updatePart, bind in EX.
  rewrite at_index_run in EX.
  destruct (index (u_Parts (l_gathered s)) (PartNumber part - 1)) as [p|].
  2: { subst X. reflexivity. }
  unfold ret at 1 in EX. cbv beta iota in EX.
  set (ucp := set_u_Parts _ (l_gathered s)) in EX.
  destruct (dump_result_upload ucp cpFilePath fs) as [e He].
  pose proof (uploadCheckpoint_dump_events ucp cpFilePath fs) as Ht.
  destruct (uploadCheckpoint_dump ucp cpFilePath fs) as [[r1 fs1] t1].
  unfold result in He. unfold trace in Ht. simpl in He, Ht. subst r1.
  rewrite at_index_run in EX.
  destruct (index (u_Parts ucp) (PartNumber part - 1)) as [q|];
    simpl in EX; subst X; unfold trace, result; simpl.
  2: { rewrite !app_nil_r. exact Ht. }
  rewrite !published_app, Ht. simpl. rewrite Htot. auto.
Qed.

Lemma uploadFileWithCp_failed_publishes tot err
    (s : LoopState uploadCheckpoint) fs :
  st_Size (u_FileStat (l_gathered s)) = tot ->
  result (uploadFileWithCp_failed err s fs) = Val tt
  /\ published (trace (uploadFileWithCp_failed err s fs)) =
       [newProgressEvent TransferFailedEvent (l_completedBytes s) tot].
Proof. intros <-. split; reflexivity. Qed.

Lemma copyFileWithCp_results_publishes cpFilePath parts tot part s fs :
  os_Size (c_ObjStat (l_gathered s)) = tot ->
  match result (copyFileWithCp_results cpFilePath parts part s fs) with
  | Val s' =>
      os_Size (c_ObjStat (l_gathered s')) = tot
      /\ published (trace (copyFileWithCp_results cpFilePath parts part s fs)) =
           [newProgressEvent TransferDataEvent (l_completedBytes s') tot]
  | _ => published (trace (copyFileWithCp_results cpFilePath parts part s fs)) = []
  end.
Proof.
  intros Htot.
  remember (copyFileWithCp_results cpFilePath parts part s fs) as X eqn:EX.
  unfold copyFileWithCp_results, copyCheckpoint_update, bind in EX.
  destruct (store (c_CopyParts (l_gathered s)) (PartNumber part - 1) part)
    as [copyParts|].
  2: { subst X. reflexivity. }
  destruct (store (c_PartStat (l_gathered s)) (PartNumber part - 1) true)
    as [partStat|].
  2: { subst X. reflexivity. }
  unfold ret at 1 in EX. cbv beta iota in EX.
  set (ccp := mkCopyCheckpoint _ _ _ _ _ _ _ _ _ _ _) in EX.
  destruct (dump_result_copy ccp cpFilePath fs) as [e He].
  pose proof (copyCheckpoint_dump_events ccp cpFilePath fs) as Ht.
  destruct (copyCheckpoint_dump ccp cpFilePath fs) as [[r1 fs1] t1].
  unfold result in He. unfold trace in Ht. simpl in He, Ht. subst r1.
  rewrite at_index_run in EX.
  destruct (index parts (PartNumber part - 1)) as [q|];
    simpl in EX; subst X; unfold trace, result; simpl.
  2: { rewrite !app_nil_r. exact Ht. }
  rewrite !published_app, Ht. simpl. rewrite Htot. auto.
Qed.

Lemma copyFileWithCp_failed_publishes tot err (s : LoopState copyCheckpoint)
    fs :
  os_Size (c_ObjStat (l_gathered s)) = tot ->
  result (copyFileWithCp_failed err s fs) = Val tt
  /\ published (trace (copyFileWithCp_failed err s fs)) =
       [newProgressEvent TransferFailedEvent (l_completedBytes s) tot].
Proof. intros <-. split; reflexivity. Qed.

Lemma copyFile_results_publishes parts tot part s fs :
  match result (copyFile_results parts tot part s fs) with
  | Val s' =>
      published (trace (copyFile_results parts tot part s fs)) =
        [newProgressEvent TransferDataEvent (l_completedBytes s') tot]
  | _ => published (trace (copyFile_results parts tot part s fs)) = []
  end.
Proof.
  unfold copyFile_results.
  destruct (store (l_gathered s) (PartNumber part - 1) part) as [ups|];
    [|reflexivity].
  unfold bind. rewrite at_index_run.
  destruct (index parts (PartNumber part - 1)) as [q|]; reflexivity.
Qed.

Lemma copyFile_failed_publishes bucket imur tot err
    (s : LoopState (list UploadPart)) fs :
  result (copyFile_failed bucket imur tot err s fs) = Val tt
  /\ published (trace (copyFile_failed bucket imur tot err s fs)) =
       [newProgressEvent TransferFailedEvent (l_completedBytes s) tot].
Proof. split; reflexivity. Qed.

End EventCounts.

Lemma setup_publishes_nothing t : Forall isSetupStep t -> published t = [].
Proof.
  intros Ht. apply published_none. eapply Forall_impl; [exact Ht|].
  intros x Hx e ->. exact Hx.
Qed.

Lemma EventsInOrder_prefix t0 t :
  published t0 = [] -> EventsInOrder t -> EventsInOrder (t0 ++ t).
Proof.
  intros Ht0 Ht. unfold EventsInOrder. rewrite published_app, Ht0. exact Ht.
Qed.

Lemma EventsInOrder_bind {A} (m : Go A) (k : A -> Go (option error)) fs :
  published (trace (m fs)) = [] ->
  (forall a fs1, EventsInOrder (trace (k a fs1))) ->
  EventsInOrder (trace (bind m k fs)).
Proof.
  intros Hm Hk. unfold bind.
  destruct (m fs) as [[[a| |] fs1] t1]; unfold trace in Hm; simpl in Hm;
    try (left; exact Hm).
  specialize (Hk a fs1). destruct (k a fs1) as [[r2 fs2] t2].
  apply EventsInOrder_prefix; assumption.
Qed.

Lemma EventsInOrder_silent {A} (r : Res A * Files * list Action) :
  trace r = [] -> EventsInOrder (trace r).
Proof. intros ->. left. reflexivity. Qed.

(** The events of a coordinator from its Started event on, when its loop
    keeps the total and the code after the loop publishes one event,
    Completed, with the bytes the loop counted. *)
Lemma run_events {X} (tot : Z) (I : LoopState X -> Prop) n
    (case_results : UploadPart -> LoopState X -> Go (LoopState X))
    (case_failed : error -> LoopState X -> Go unit)
    (post : LoopState X -> Go (option error)) go_w routines imur sched msgs s0 fs :
  (forall part s fs, I s ->
     match result (case_results part s fs) with
     | Val s' =>
         I s'
         /\ published (trace (case_results part s fs)) =
              [newProgressEvent TransferDataEvent (l_completedBytes s') tot]
     | _ => published (trace (case_results part s fs)) = []
     end) ->
  (forall err s fs, I s ->
     result (case_failed err s fs) = Val tt
     /\ published (trace (case_failed err s fs)) =
          [newProgressEvent TransferFailedEvent (l_completedBytes s) tot]) ->
  (forall s fs, I s ->
     published (trace (post s fs)) =
       [newProgressEvent TransferCompletedEvent (l_completedBytes s) tot]) ->
  isWorker go_w -> isSchedule sched -> I s0 ->
  EventsInOrder
    (trace
       ((emit (publishProgress
                 (newProgressEvent TransferStartedEvent (l_completedBytes s0)
                    tot)) ;;;
         start_workers go_w routines imur ;;;
         emit sched ;;;
         exit <~ select_loop n case_results case_failed msgs s0 ;;
         match exit with
         | Returned err => ret (Some err)
         | FellThrough s => post s
         end) fs)).
Proof.
  intros Hres Hfail Hpost Hw Hsch HI.
  rewrite bind_emit, bind_start_workers, bind_emit.
  unfold trace at 1 2 3. cbn [snd].
  set (e0 := newProgressEvent TransferStartedEvent (l_completedBytes s0) tot).
  destruct (select_loop_events tot I n case_results case_failed Hres Hfail msgs
              s0 fs e0 HI eq_refl) as [ds [Hds Hr]].
  cbv zeta in Hr. unfold bind.
  destruct (select_loop n case_results case_failed msgs s0 fs)
    as [[r1 fs1] t1].
  unfold result, trace in Hr. cbn [fst snd] in Hr.
  assert (Hstart : forall tl,
            published
              (publishProgress e0
               :: ((fun w => go_w w imur) <$> seqZ 1 routines) ++ sched :: tl) =
            e0 :: published tl).
  { intros tl. change (published (publishProgress ?e :: ?t)) with (e :: published t).
    rewrite published_app. rewrite (published_none (_ <$> _)).
    2: { apply Forall_fmap, Forall_forall. intros w _ e.
         destruct Hw as [-> | ->]; discriminate. }
    destruct Hsch as [[x ->]|[x ->]]; reflexivity. }
  right. exists e0, ds.
  destruct r1 as [[s1|err]| |].
  - destruct Hr as [Ht1 [HI1 Hc1]]. specialize (Hpost s1 fs1 HI1).
    destruct (post s1 fs1) as [[r2 fs2] t2]. unfold trace in *. cbn [snd] in *.
    exists [newProgressEvent TransferCompletedEvent (l_completedBytes s1) tot].
    split; [rewrite Hstart, published_app, Ht1, Hpost; reflexivity|].
    split; [reflexivity|]. split; [exact Hds|].
    right. eexists. split; [reflexivity|]. split; [right; reflexivity|].
    split; [exact Hc1 | reflexivity].
  - unfold ret, trace. cbn [snd].
    exists [newProgressEvent TransferFailedEvent (ConsumedBytes (List.last ds e0))
              tot].
    split; [rewrite Hstart, app_nil_r, Hr; reflexivity|].
    split; [reflexivity|]. split; [exact Hds|].
    right. eexists. split; [reflexivity|]. split; [left; reflexivity|].
    split; reflexivity.
  - unfold trace. cbn [snd]. exists [].
    split; [rewrite Hstart, Hr, app_nil_r; reflexivity|].
    split; [reflexivity|]. split; [exact Hds | left; reflexivity].
  - unfold trace. cbn [snd]. exists [].
    split; [rewrite Hstart, Hr, app_nil_r; reflexivity|].
    split; [reflexivity|]. split; [exact Hds | left; reflexivity].
Qed.

Section EventOrder.
Context `{World} `{Digest}.
Context `{Json uploadCheckpoint} `{Json copyCheckpoint}.

Lemma complete_publishes_nothing cp bucket parts cpFilePath fs :
  published (trace (complete cp bucket parts cpFilePath fs)) = [].
Proof.
  unfold complete, bucket_CompleteMultipartUpload, os_Remove, bind, emit, ret.
  simpl. destruct (remote_Complete _ _ _); reflexivity.
Qed.

Lemma copyCheckpoint_complete_publishes_nothing cp bucket parts cpFilePath fs :
  published (trace (copyCheckpoint_complete cp bucket parts cpFilePath fs)) = [].
Proof.
  unfold copyCheckpoint_complete, bucket_CompleteMultipartUpload, os_Remove,
    bind, emit, ret.
  simpl. destruct (remote_Complete _ _ _); reflexivity.
Qed.

Lemma uploadFileWithCp_run_events bucket objectKey cpFilePath routines msgs ucp
    fs :
  EventsInOrder
    (trace (uploadFileWithCp_run bucket objectKey cpFilePath routines msgs ucp
              fs)).
Proof.
  unfold uploadFileWithCp_run. cbv zeta.
  refine (run_events (st_Size (u_FileStat ucp))
            (fun s => st_Size (u_FileStat (l_gathered s)) =
                      st_Size (u_FileStat ucp))
            _ (uploadFileWithCp_results cpFilePath) uploadFileWithCp_failed
            (fun s =>
               emit (publishProgress
                       (newProgressEvent TransferCompletedEvent
                          (l_completedBytes s)
                          (st_Size (u_FileStat (l_gathered s))))) ;;;
               complete (l_gathered s) bucket
                 (uploadCheckpoint_allParts (l_gathered s)) cpFilePath)
            go_worker routines _ (go_scheduler _) msgs
            (mkLoop 0 ucp (uploadCheckpoint_getCompletedBytes ucp)) fs
            _ _ _ (or_introl eq_refl) _ eq_refl).
  - intros part s fs'. apply uploadFileWithCp_results_publishes.
  - intros err s fs'. apply uploadFileWithCp_failed_publishes.
  - intros s fs' Hs. rewrite bind_emit. unfold trace at 1. cbn [snd].
    change (published (publishProgress ?e :: ?t)) with (e :: published t).
    rewrite complete_publishes_nothing, Hs. reflexivity.
  - left. eexists. reflexivity.
Qed.

Lemma copyFileWithCp_run_events destBucketName destObjectKey cpFilePath routines
    msgs ccp fs :
  EventsInOrder
    (trace (copyFileWithCp_run destBucketName destObjectKey cpFilePath routines
              msgs ccp fs)).
Proof.
  unfold copyFileWithCp_run, copyCheckpoint_todoParts,
    copyCheckpoint_getCompletedBytes. cbv zeta.
  destruct (todoParts_range (c_Parts ccp) 0 (c_PartStat ccp) []) as [parts|];
    [|left; reflexivity].
  rewrite bind_ret.
  destruct (getCompletedBytes_range (c_PartStat ccp) 0 (c_Parts ccp) 0)
    as [completedBytes|]; [|left; reflexivity].
  rewrite bind_ret.
  refine (run_events (os_Size (c_ObjStat ccp))
            (fun s => os_Size (c_ObjStat (l_gathered s)) =
                      os_Size (c_ObjStat ccp))
            _ (copyFileWithCp_results cpFilePath parts) copyFileWithCp_failed
            (fun s =>
               emit (publishProgress
                       (newProgressEvent TransferCompletedEvent
                          (l_completedBytes s)
                          (os_Size (c_ObjStat (l_gathered s))))) ;;;
               copyCheckpoint_complete (l_gathered s) destBucketName
                 (c_CopyParts (l_gathered s)) cpFilePath)
            go_copyWorker routines _ (go_copyScheduler _) msgs
            (mkLoop 0 ccp completedBytes) fs
            _ _ _ (or_intror eq_refl) _ eq_refl).
  - intros part s fs'. apply copyFileWithCp_results_publishes.
  - intros err s fs'. apply copyFileWithCp_failed_publishes.
  - intros s fs' Hs. rewrite bind_emit. unfold trace at 1. cbn [snd].
    change (published (publishProgress ?e :: ?t)) with (e :: published t).
    rewrite copyCheckpoint_complete_publishes_nothing, Hs. reflexivity.
  - right. eexists. reflexivity.
Qed.

Lemma copyFile_events bucket srcBucketName srcObjectKey destBucketName
    destObjectKey partSize options routines msgs fs :
  EventsInOrder
    (trace (copyFile bucket srcBucketName srcObjectKey destBucketName
              destObjectKey partSize options routines msgs fs)).
Proof.
  unfold copyFile. cbv zeta.
  apply EventsInOrder_bind.
  { destruct (getCopyParts_run srcBucketName srcObjectKey partSize fs)
      as [g [-> _]]. reflexivity. }
  intros [parts|e] fs1; [|left; reflexivity].
  apply EventsInOrder_bind; [reflexivity|].
  intros [imur|e] fs2; [|left; reflexivity].
  refine (run_events (getSrcObjectBytes parts) (fun _ => True)
            _ (copyFile_results parts (getSrcObjectBytes parts))
            (copyFile_failed destBucketName imur (getSrcObjectBytes parts))
            (fun s =>
               emit (publishProgress
                       (newProgressEvent TransferCompletedEvent
                          (l_completedBytes s) (getSrcObjectBytes parts))) ;;;
               cerr <~ bucket_CompleteMultipartUpload destBucketName imur
                         (l_gathered s) ;;
               match cerr with
               | Some err =>
                   bucket_AbortMultipartUpload bucket imur ;;;
                   ret (Some err)
               | None => ret None
               end)
            go_copyWorker routines _ (go_copyScheduler _) msgs
            (mkLoop 0 (replicate (length parts) zeroUploadPart) 0) fs2
            _ _ _ (or_intror eq_refl) _ Logic.I).
  - intros part s fs' _.
    pose proof (copyFile_results_publishes parts (getSrcObjectBytes parts) part
                  s fs') as L.
    destruct (result (copyFile_results _ _ part s fs')); auto.
  - intros err s fs' _. apply copyFile_failed_publishes.
  - intros s fs' _. rewrite bind_emit. unfold trace at 1. cbn [snd].
    unfold bucket_CompleteMultipartUpload, bucket_AbortMultipartUpload, bind,
      emit, ret. simpl.
    destruct (remote_Complete _ _ _); reflexivity.
  - right. eexists. reflexivity.
Qed.

Lemma remove_if_unreadable_publishes_nothing (err : option error) cpFilePath
    fs :
  published
    (trace ((match err with
             | Some _ => os_Remove cpFilePath
             | None => ret tt
             end) fs)) = [].
Proof. destruct err; reflexivity. Qed.

Lemma uploadFileWithCp_events bucket objectKey filePath partSize options
    cpFilePath routines msgs fs :
  EventsInOrder
    (trace (uploadFileWithCp bucket objectKey filePath partSize options
              cpFilePath routines msgs fs)).
Proof.
  unfold uploadFileWithCp.
  apply EventsInOrder_bind.
  { destruct (uploadCheckpoint_load_run zeroUploadCheckpoint cpFilePath fs)
      as [l ->]. reflexivity. }
  intros [ucp err] fs1.
  apply EventsInOrder_bind; [apply remove_if_unreadable_publishes_nothing|].
  intros _ fs2.
  apply EventsInOrder_bind.
  { destruct (uploadCheckpoint_isValid_run ucp filePath fs2)
      as [v [t [-> Ht]]]. apply setup_publishes_nothing. exact Ht. }
  intros v fs3.
  assert (Hprep :
    EventsInOrder
      (trace
         ((p <~ prepare ucp objectKey filePath partSize bucket options ;;
           match p with
           | (_, Some err) => ret (Some err)
           | (ucp, None) =>
               os_Remove cpFilePath ;;;
               uploadFileWithCp_run bucket objectKey cpFilePath routines msgs
                 ucp
           end) fs3))).
  { apply EventsInOrder_bind.
    { destruct (prepare_run ucp objectKey filePath partSize bucket options fs3)
        as [p [t [-> Ht]]]. apply setup_publishes_nothing. exact Ht. }
    intros [ucp' [e|]] fs4; [left; reflexivity|].
    apply EventsInOrder_bind; [reflexivity|].
    intros _ fs5. apply uploadFileWithCp_run_events. }
  destruct v as [[|] [e|]]; try exact Hprep.
  apply uploadFileWithCp_run_events.
Qed.

Lemma copyFileWithCp_events srcBucketName srcObjectKey destBucketName
    destObjectKey partSize options cpFilePath routines msgs fs :
  EventsInOrder
    (trace (copyFileWithCp srcBucketName srcObjectKey destBucketName
              destObjectKey partSize options cpFilePath routines msgs fs)).
Proof.
  unfold copyFileWithCp. cbv zeta.
  apply EventsInOrder_bind.
  { destruct (copyCheckpoint_load_run zeroCopyCheckpoint cpFilePath fs)
      as [l ->]. reflexivity. }
  intros [ccp err] fs1.
  apply EventsInOrder_bind; [apply remove_if_unreadable_publishes_nothing|].
  intros _ fs2.
  apply EventsInOrder_bind.
  { destruct (copyCheckpoint_isValid_run ccp srcBucketName srcObjectKey fs2)
      as [v [t [-> Ht]]]. apply setup_publishes_nothing. exact Ht. }
  intros v fs3.
  assert (Hprep :
    EventsInOrder
      (trace
         ((p <~ copyCheckpoint_prepare ccp srcBucketName srcObjectKey
                  destBucketName destObjectKey partSize options ;;
           match p with
           | (_, Some err) => ret (Some err)
           | (ccp, None) =>
               os_Remove cpFilePath ;;;
               copyFileWithCp_run destBucketName destObjectKey cpFilePath
                 routines msgs ccp
           end) fs3))).
  { apply EventsInOrder_bind.
    { destruct (copyCheckpoint_prepare_run ccp srcBucketName srcObjectKey
                  destBucketName destObjectKey partSize options fs3)
        as [p [t [-> [Ht _]]]]. apply setup_publishes_nothing. exact Ht. }
    intros [ccp' [e|]] fs4; [left; reflexivity|].
    apply EventsInOrder_bind; [reflexivity|].
    intros _ fs5. apply copyFileWithCp_run_events. }
  destruct v as [[|] [e|]]; try exact Hprep.
  apply copyFileWithCp_run_events.
Qed.

End EventOrder.

Section Lifecycle.
Context `{World} `{Digest}.
Context `{Json uploadCheckpoint} `{Json copyCheckpoint}.

Lemma no_run_lifecycle (r : Res (option error) * Files * list Action) :
  trace r = [] -> StartedOnce (trace r) /\ CompletedAnnouncesComplete (trace r).
Proof.
  intros ->. split; [left; reflexivity|]. split; intros a [].
Qed.

(** C6, as the code has it. In every run of CopyFile, and in every run of
    UploadFile with a checkpoint, Started is the first event published and is
    published once; the events after it are Data events that carry the total
    Started announced, and then at most one last event, Failed or Completed,
    never both, which carries that total and the consumed bytes of the event
    before it. Completed is published right before the call of
    CompleteMultipartUpload, whatever that call then returns: every such call
    follows a Completed event at once, every Completed event is followed at
    once by the call, and no event is published after the call. *)
Theorem started_once_completed_before_complete
    (bucket objectKey filePath srcBucketName srcObjectKey destObjectKey : string)
    (partSize : Z) (options : list Option) (msgs : list Msg) (fs : Files)
    (r : Res (option error) * Files * list Action) :
  r = CopyFile bucket srcBucketName srcObjectKey destObjectKey partSize options
        msgs fs
  \/ (IsEnable (getCpConfig options filePath).1 = true
      /\ r = UploadFile bucket objectKey filePath partSize options msgs fs) ->
  StartedOnce (trace r) /\ CompletedAnnouncesComplete (trace r)
  /\ EventsInOrder (trace r).
Proof.
  intros Hr.
  assert (Hev : EventsInOrder (trace r)).
  { destruct Hr as [->|[Hen ->]].
    - destruct (CopyFile_cases bucket srcBucketName srcObjectKey destObjectKey
                  partSize options msgs fs) as [[e ->]|[[_ ->]|[_ ->]]].
      + left. reflexivity.
      + apply copyFileWithCp_events.
      + apply copyFile_events.
    - destruct (UploadFile_cases bucket objectKey filePath partSize options msgs
                  fs) as [[e ->]|[[_ ->]|[Hdis _]]].
      + left. reflexivity.
      + apply uploadFileWithCp_events.
      + congruence. }
  enough (Hl : StartedOnce (trace r) /\ CompletedAnnouncesComplete (trace r))
    by (destruct Hl; auto).
  clear Hev.
  destruct Hr as [->|[Hen ->]].
  - destruct (CopyFile_cases bucket srcBucketName srcObjectKey destObjectKey
                partSize options msgs fs) as [[e He]|[[_ Heq]|[_ Heq]]].
    + apply no_run_lifecycle. rewrite He. reflexivity.
    + rewrite Heq.
      eapply RunShape_lifecycle; [right; reflexivity | | |
                                  apply copyFileWithCp_shape].
      * intros imur e x [<-|[<-|[]]]; auto.
      * intros imur x [<-|[]]. right. eexists. reflexivity.
    + rewrite Heq.
      eapply RunShape_lifecycle; [right; reflexivity | | |
                                  apply copyFile_shape].
      * intros imur e x [<-|[<-|[<-|[]]]]; auto.
        right. right. eexists _, _. reflexivity.
      * intros imur x [<-|[]]. left. eexists _, _. reflexivity.
  - destruct (UploadFile_cases bucket objectKey filePath partSize options msgs fs)
      as [[e He]|[[_ Heq]|[Hdis _]]].
    + apply no_run_lifecycle. rewrite He. reflexivity.
    + rewrite Heq.
      eapply RunShape_lifecycle; [left; reflexivity | | |
                                  apply uploadFileWithCp_shape].
      * intros imur e x [<-|[<-|[]]]; auto.
      * intros imur x [<-|[]]. right. eexists. reflexivity.
    + congruence.
Qed.
End Lifecycle.

Lemma started_once_completed_before_complete_witness :
  let r := @UploadFile Sample.package Sample.world Sample.digest
             Sample.jsonUpload "bucket" "turtr" "BingWallpaper-2015-11-07.jpg"
             102400 [Sample.Checkpoint true ""] Sample.allResults ∅ in
  IsEnable (@getCpConfig Sample.package [Sample.Checkpoint true ""]
              "BingWallpaper-2015-11-07.jpg").1 = true
  /\ StartedOnce (trace r) /\ CompletedAnnouncesComplete (trace r)
  /\ EventsInOrder (trace r).
Proof.
  intros r. split; [reflexivity|].
  apply (@started_once_completed_before_complete Sample.package Sample.world
           Sample.digest Sample.jsonUpload Sample.jsonCopy "bucket" "turtr"
           "BingWallpaper-2015-11-07.jpg" "src-bucket" "tcrtr" "tcrtr-copy"
           102400 [Sample.Checkpoint true ""] Sample.allResults ∅ r).
  right. split; reflexivity.
Defined.

(** C6 as stated fails: the checkpointed upload publishes Completed before it
    calls CompleteMultipartUpload, here in a run whose call is refused and
    which returns the error of the service. *)
Lemma completed_event_before_refused_complete :
  let r := @UploadFile Sample.package Sample.world Sample.digest
             Sample.jsonUpload "bucket" Sample.badKey
             "BingWallpaper-2015-11-07.jpg" 102400
             [Sample.Checkpoint true "upload.cp"] Sample.allResults ∅ in
  result r = Val (Some "CompleteMultipartUpload: 500")
  /\ exists t0,
       trace r =
         t0 ++ [publishProgress
                  (newProgressEvent TransferCompletedEvent 482048 482048);
                CompleteMultipartUpload "bucket"
                  (mkIMUR "bucket" Sample.badKey
                     "3F79722737D1469980DACEDCA325BB52")
                  [mkUploadPart 1 "etag-1"; mkUploadPart 2 "etag-2";
                   mkUploadPart 3 "etag-3"; mkUploadPart 4 "etag-4";
                   mkUploadPart 5 "etag-5"]].
Proof.
  intros r. split; [vm_compute; reflexivity|].
  exists (firstn 18 (trace r)). vm_compute. reflexivity.
Qed.

(** A token that comes in twice is counted twice: with five tokens for part
    1 the checkpointed upload publishes Completed with more bytes consumed
    than the file has. *)
Example completed_event_counts_a_part_twice :
  published
    (trace (@UploadFile Sample.package Sample.world Sample.digest
              Sample.jsonUpload "bucket" "turtr" "BingWallpaper-2015-11-07.jpg"
              102400 [Sample.Checkpoint true ""]
              (replicate 5 (OnResults (mkUploadPart 1 "etag-1"))) ∅)) =
    [newProgressEvent TransferStartedEvent 0 482048;
     newProgressEvent TransferDataEvent 102400 482048;
     newProgressEvent TransferDataEvent 204800 482048;
     newProgressEvent TransferDataEvent 307200 482048;
     newProgressEvent TransferDataEvent 409600 482048;
     newProgressEvent TransferDataEvent 512000 482048;
     newProgressEvent TransferCompletedEvent 512000 482048].
Proof. vm_compute. reflexivity. Qed.

(** ** Resuming from a checkpoint *)

Lemma wrap64_idem z : wrap64 (wrap64 z) = wrap64 z.
Proof.
  pose proof (wrap64_add_l z 0) as E. rewrite !Z.add_0_r in E. exact E.
Qed.

Lemma todoParts_fold parts fcs :
  fold_left
    (fun fcs part => if negb (IsCompleted part) then fcs ++ [Chunk part] else fcs)
    parts fcs =
  fcs ++ (Chunk <$> List.filter (fun p => negb (IsCompleted p)) parts).
Proof.
  revert fcs. induction parts as [|p parts IH]; intros fcs; simpl.
  - rewrite app_nil_r. reflexivity.
  - rewrite IH. destruct (negb (IsCompleted p)); simpl; [|reflexivity].
    rewrite <- app_assoc. reflexivity.
Qed.

Lemma uploadCheckpoint_todoParts_pending cp :
  uploadCheckpoint_todoParts cp = pendingChunks cp.
Proof. unfold uploadCheckpoint_todoParts. apply todoParts_fold. Qed.

Lemma getCompletedBytes_fold parts acc :
  fold_left
    (fun completedBytes part =>
       if IsCompleted part then add64 completedBytes (fc_Size (Chunk part))
       else completedBytes)
    parts (wrap64 acc) =
  wrap64 (acc + sumZ ((fun p => fc_Size (Chunk p)) <$> List.filter IsCompleted parts)).
Proof.
  revert acc. induction parts as [|p parts IH]; intros acc; simpl.
  - rewrite Z.add_0_r. reflexivity.
  - destruct (IsCompleted p); [|apply IH].
    unfold add64. rewrite wrap64_add_l, IH. rewrite fmap_cons.
    unfold sumZ at 2. simpl. fold (sumZ ((fun p => fc_Size (Chunk p)) <$>
                                           List.filter IsCompleted parts)).
    f_equal. lia.
Qed.

Lemma uploadCheckpoint_getCompletedBytes_sum cp :
  uploadCheckpoint_getCompletedBytes cp = wrap64 (sumZ (doneSizes cp)).
Proof.
  unfold uploadCheckpoint_getCompletedBytes.
  change 0 with (wrap64 0) at 1. rewrite getCompletedBytes_fold. reflexivity.
Qed.

Section Resume.
Context `{World} `{Digest}.
Context `{Json uploadCheckpoint} `{Json copyCheckpoint}.

Lemma uploadCheckpoint_isValid_trace cp filePath fs :
  trace (uploadCheckpoint_isValid cp filePath fs) = []
  \/ trace (uploadCheckpoint_isValid cp filePath fs) = [Open filePath].
Proof.
  unfold uploadCheckpoint_isValid.
  destruct (negb _ || negb _); [left; reflexivity|].
  rewrite bind_emit. right.
  destruct (os_Open filePath); [reflexivity|].
  destruct (fd_Stat filePath) as [st|e]; [|reflexivity].
  unfold calcFileMD5. destruct (negb _ || negb _ || negb _); reflexivity.
Qed.

(** C7. When the checkpoint file loads and the record validates,
    uploadFileWithCp goes on with that record: it schedules the parts whose
    flag is false, in the order of the plan; the Started event carries the
    sum of the sizes of the parts whose flag is true (in int64, so the sum
    itself when it fits); the workers get the upload id of the record, every
    call of CompleteMultipartUpload carries it, and the run makes no call of
    InitiateMultipartUpload. *)
Theorem resume_from_valid_checkpoint
    (bucket objectKey filePath cpFilePath : string) (partSize routines : Z)
    (options : list Option) (msgs : list Msg) (fs : Files)
    (ucp : uploadCheckpoint) (tv : list Action) :
  uploadCheckpoint_load zeroUploadCheckpoint cpFilePath fs =
    (Val (ucp, None), fs, [ReadFile cpFilePath]) ->
  uploadCheckpoint_isValid ucp filePath fs = (Val (true, None), fs, tv) ->
  let r := uploadFileWithCp bucket objectKey filePath partSize options
             cpFilePath routines msgs fs in
  let imur := mkIMUR bucket objectKey (u_UploadID ucp) in
  (exists tl,
     trace r =
       ReadFile cpFilePath :: tv
       ++ publishProgress
            (newProgressEvent TransferStartedEvent (wrap64 (sumZ (doneSizes ucp)))
               (st_Size (u_FileStat ucp)))
          :: ((fun w => go_worker w imur) <$> seqZ 1 routines)
       ++ go_scheduler (pendingChunks ucp) :: tl
     /\ Forall (fun a => forall b i ps, a = CompleteMultipartUpload b i ps ->
                                        imur_UploadID i = u_UploadID ucp) tl)
  /\ Forall (fun a => ~ isInitiate a) (trace r)
  /\ (int64_range (sumZ (doneSizes ucp)) ->
      wrap64 (sumZ (doneSizes ucp)) = sumZ (doneSizes ucp)).
Proof.
  intros Hload Hvalid r imur.
  assert (Hr : r = (result (uploadFileWithCp_run bucket objectKey cpFilePath
                              routines msgs ucp fs),
                    files_after (uploadFileWithCp_run bucket objectKey cpFilePath
                                   routines msgs ucp fs),
                    ReadFile cpFilePath :: tv
                    ++ trace (uploadFileWithCp_run bucket objectKey cpFilePath
                                routines msgs ucp fs))).
  { subst r. unfold uploadFileWithCp.
    rewrite (bind_Val _ _ _ _ _ _ Hload). cbv beta iota.
    rewrite bind_ret. rewrite (bind_Val _ _ _ _ _ _ Hvalid).
    unfold result, files_after, trace. simpl. reflexivity. }
  destruct (uploadFileWithCp_run_tail bucket objectKey cpFilePath routines msgs
              ucp fs) as [tl [Htr Htl]].
  rewrite uploadCheckpoint_getCompletedBytes_sum,
    uploadCheckpoint_todoParts_pending in Htr.
  assert (Htv : tv = [] \/ tv = [Open filePath]).
  { pose proof (uploadCheckpoint_isValid_trace ucp filePath fs) as Ht.
    rewrite Hvalid in Ht. exact Ht. }
  split; [|split].
  - exists tl. split.
    + rewrite Hr. unfold trace at 1. simpl. rewrite Htr. reflexivity.
    + eapply RunTail_Forall; [| | |exact Htl].
      * intros x [[c [t ->]]|[path [_ [d [p ->]]]]] b i ps E; discriminate E.
      * intros e [c [t ->]]. each_action ltac:(intros b i ps E; discriminate E).
      * intros e i parts [c [t ->]] Hid. split; simpl;
          each_action ltac:(intros b i' ps E; first [discriminate E
                                                 | injection E as _ <- _; exact Hid]).
  - rewrite Hr. unfold trace at 1. simpl. rewrite Htr.
    apply Forall_cons. split; [intros [b [k E]]; discriminate E|].
    apply Forall_app. split.
    { destruct Htv as [-> | ->]; each_action ltac:(intros [b [k E]]; discriminate E). }
    apply Forall_cons. split; [intros [b [k E]]; discriminate E|].
    apply Forall_app. split.
    { apply Forall_fmap, Forall_forall. intros w _ [b [k E]]. discriminate E. }
    apply Forall_cons. split; [intros [b [k E]]; discriminate E|].
    eapply RunTail_Forall; [| | |exact Htl].
    + intros x [[c [t ->]]|[path [_ [d [p ->]]]]] [b [k E]]; discriminate E.
    + intros e [c [t ->]]. each_action ltac:(intros [b [k E]]; discriminate E).
    + intros e i parts [c [t ->]] _. split; simpl;
        each_action ltac:(intros [b [k E]]; discriminate E).
  - apply wrap64_id.
Qed.
End Resume.

Lemma resume_from_valid_checkpoint_witness :
  let cpFilePath := "BingWallpaper-2015-11-07.jpg.cp" in
  let fs : Files := <[cpFilePath := Sample.encUpload Sample.ucp]> ∅ in
  let r := @uploadFileWithCp Sample.package Sample.world Sample.digest
             Sample.jsonUpload "bucket" "turtr" "BingWallpaper-2015-11-07.jpg"
             102400 [] cpFilePath 1 [OnResults (mkUploadPart 5 "etag-5")] fs in
  exists tl,
    trace r =
      [ReadFile cpFilePath; Open "BingWallpaper-2015-11-07.jpg";
       publishProgress (newProgressEvent TransferStartedEvent 409600 482048);
       go_worker 1 (mkIMUR "bucket" "turtr" "3F79722737D1469980DACEDCA325BB52");
       go_scheduler [mkFileChunk 5 409600 72448]] ++ tl
    /\ Forall (fun a => ~ isInitiate a) (trace r).
Proof.
  intros cpFilePath fs r.
  destruct (@resume_from_valid_checkpoint Sample.package Sample.world
              Sample.digest Sample.jsonUpload "bucket" "turtr"
              "BingWallpaper-2015-11-07.jpg" cpFilePath 102400 1 []
              [OnResults (mkUploadPart 5 "etag-5")] fs Sample.ucp
              [Open "BingWallpaper-2015-11-07.jpg"])
    as [[tl [Htr _]] [Hno _]].
  - vm_compute. reflexivity.
  - vm_compute. reflexivity.
  - exists tl. split; [exact Htr | exact Hno].
Defined.

(** ** Saving the checkpoint *)

Section Dump.
Context `{World} `{Digest}.
Context `{Json uploadCheckpoint} `{Json copyCheckpoint}.

(** C3, as the code has it. [dump] marshals the record with the MD5 field
    blank, puts the base64 of the MD5 of that text in the field, marshals
    again and hands the text to one call of ioutil.WriteFile on the
    checkpoint path itself, with FilePermMode: no other file is written,
    nothing is synced or renamed. The file then holds the whole text, or is
    as it was (it could not be opened), or holds the first bytes of the text
    (the write stopped); in the last two cases dump returns the error. *)
Theorem dump_writes_checkpoint_in_place
    (cp bcp : uploadCheckpoint) (ccp bccp : copyCheckpoint)
    (filePath js cjs : string) (fs : Files) :
  sealed_upload cp = Some bcp -> json_Marshal bcp = Some js ->
  sealed_copy ccp = Some bccp -> json_Marshal bccp = Some cjs ->
  let outcome data :=
    match writeOutcome filePath data with
    | WriteOk =>
        (Val None, <[filePath := data]> fs, [WriteFile filePath data FilePermMode])
    | OpenFails e => (Val (Some e), fs, [WriteFile filePath data FilePermMode])
    | WriteFailsAfter n e =>
        (Val (Some e), <[filePath := String.substring 0 n data]> fs,
         [WriteFile filePath data FilePermMode])
    end in
  uploadCheckpoint_dump cp filePath fs = outcome js
  /\ copyCheckpoint_dump ccp filePath fs = outcome cjs.
Proof.
  unfold sealed_upload, sealed_copy. intros Hb Hjs Hcb Hcjs.
  unfold uploadCheckpoint_dump, copyCheckpoint_dump.
  destruct (json_Marshal (set_u_MD5 "" cp)) as [js1|]; [|discriminate].
  destruct (json_Marshal (set_c_MD5 "" ccp)) as [cjs1|]; [|discriminate].
  simpl in Hb, Hcb. injection Hb as <-. injection Hcb as <-.
  rewrite Hjs, Hcjs. unfold ioutil_WriteFile.
  split; [destruct (writeOutcome filePath js) | destruct (writeOutcome filePath cjs)];
    reflexivity.
Qed.

(** C4, as the code has it. For a part whose number is in range, the case of
    [results] of a checkpointed coordinator stores the token in the record,
    calls dump on that record and then publishes the Data event; what dump
    returns is dropped: the state of the loop after the case, and the event,
    are the same whether the save succeeded or not. *)
Theorem data_event_follows_dump
    (cpFilePath : string) (part : UploadPart) (todo : list copyPart)
    (su : LoopState uploadCheckpoint) (sc : LoopState copyCheckpoint)
    (fs : Files) (q : cpPart) (p : copyPart) :
  index (u_Parts (l_gathered su)) (PartNumber part - 1) = Some q ->
  index (c_CopyParts (l_gathered sc)) (PartNumber part - 1) <> None ->
  index (c_PartStat (l_gathered sc)) (PartNumber part - 1) <> None ->
  index todo (PartNumber part - 1) = Some p ->
  let i := Z.to_nat (PartNumber part - 1) in
  let ucp :=
    set_u_Parts (<[i := mkCpPart (Chunk q) part true]> (u_Parts (l_gathered su)))
      (l_gathered su) in
  let ccp :=
    mkCopyCheckpoint (c_Magic (l_gathered sc)) (c_MD5 (l_gathered sc))
      (c_SrcBucketName (l_gathered sc)) (c_SrcObjectKey (l_gathered sc))
      (c_DestBucketName (l_gathered sc)) (c_DestObjectKey (l_gathered sc))
      (c_CopyID (l_gathered sc)) (c_ObjStat (l_gathered sc))
      (c_Parts (l_gathered sc)) (<[i := part]> (c_CopyParts (l_gathered sc)))
      (<[i := true]> (c_PartStat (l_gathered sc))) in
  index (u_Parts ucp) (PartNumber part - 1) = Some (mkCpPart (Chunk q) part true)
  /\ index (c_CopyParts ccp) (PartNumber part - 1) = Some part
  /\ index (c_PartStat ccp) (PartNumber part - 1) = Some true
  /\ (let du := uploadCheckpoint_dump ucp cpFilePath fs in
      let completedBytes := add64 (l_completedBytes su) (fc_Size (Chunk q)) in
      uploadFileWithCp_results cpFilePath part su fs =
        (Val (mkLoop (l_completed su + 1) ucp completedBytes), files_after du,
         trace du
         ++ [publishProgress
               (newProgressEvent TransferDataEvent completedBytes
                  (st_Size (u_FileStat ucp)))]))
  /\ (let dc := copyCheckpoint_dump ccp cpFilePath fs in
      let completedBytes := add64 (l_completedBytes sc) (partBytes p) in
      copyFileWithCp_results cpFilePath todo part sc fs =
        (Val (mkLoop (l_completed sc + 1) ccp completedBytes), files_after dc,
         trace dc
         ++ [publishProgress
               (newProgressEvent TransferDataEvent completedBytes
                  (os_Size (c_ObjStat ccp)))])).
Proof.
  intros Hq Hcp Hps Hp i ucp ccp.
  destruct (index (c_CopyParts (l_gathered sc)) (PartNumber part - 1))
    as [cp0|] eqn:Hcp0; [clear Hcp | congruence].
  destruct (index (c_PartStat (l_gathered sc)) (PartNumber part - 1))
    as [ps0|] eqn:Hps0; [clear Hps | congruence].
  destruct (proj1 (index_Some _ _ _) Hq) as [Hn Hq'].
  destruct (proj1 (index_Some _ _ _) Hcp0) as [_ Hcp0'].
  destruct (proj1 (index_Some _ _ _) Hps0) as [_ Hps0'].
  fold i in Hq', Hcp0', Hps0'.
  assert (Hq2 : index (u_Parts ucp) (PartNumber part - 1)
                = Some (mkCpPart (Chunk q) part true)).
  { apply index_Some. split; [exact Hn|]. fold i.
    apply list_lookup_insert_eq. eapply lookup_lt_Some. exact Hq'. }
  split; [exact Hq2|]. split; [|split; [|split]].
  - apply index_Some. split; [exact Hn|]. fold i.
    apply list_lookup_insert_eq. eapply lookup_lt_Some. exact Hcp0'.
  - apply index_Some. split; [exact Hn|]. fold i.
    apply list_lookup_insert_eq. eapply lookup_lt_Some. exact Hps0'.
  - cbv zeta. unfold uploadFileWithCp_results, uploadCheckpoint_updatePart.
    unfold bind at 1. unfold bind at 1. rewrite at_index_run, Hq.
    unfold ret at 1. cbv beta iota. fold i. fold ucp.
    destruct (dump_result_upload ucp cpFilePath fs) as [e He].
    unfold bind at 1.
    destruct (uploadCheckpoint_dump ucp cpFilePath fs) as [[r1 fs1] t1].
    unfold result in He. simpl in He. subst r1.
    unfold bind at 1. rewrite at_index_run, Hq2. reflexivity.
  - cbv zeta. unfold copyFileWithCp_results, copyCheckpoint_update, store.
    rewrite Hcp0, Hps0. fold i. fold ccp.
    unfold bind at 1. unfold ret at 1.
    destruct (dump_result_copy ccp cpFilePath fs) as [e He].
    unfold bind at 1.
    destruct (copyCheckpoint_dump ccp cpFilePath fs) as [[r1 fs1] t1].
    unfold result in He. simpl in He. subst r1.
    unfold bind at 1. rewrite at_index_run, Hp. reflexivity.
Qed.
End Dump.

Lemma dump_writes_checkpoint_in_place_witness :
  @sealed_upload Sample.digest Sample.jsonUpload Sample.ucp0 = Some Sample.ucp
  /\ @sealed_copy Sample.digest Sample.jsonCopy Sample.ccp_second_done =
       Some (Sample.seal_copy Sample.ccp_second_done)
  /\ @uploadCheckpoint_dump Sample.package Sample.world Sample.digest
       Sample.jsonUpload Sample.ucp0 "upload.cp" ∅ =
     (Val None, <["upload.cp" := Sample.encUpload Sample.ucp]> ∅,
      [WriteFile "upload.cp" (Sample.encUpload Sample.ucp) 436]).
Proof.
  assert (H1 : @sealed_upload Sample.digest Sample.jsonUpload Sample.ucp0 =
               Some Sample.ucp) by reflexivity.
  assert (H2 : @sealed_copy Sample.digest Sample.jsonCopy Sample.ccp_second_done =
               Some (Sample.seal_copy Sample.ccp_second_done)) by reflexivity.
  split; [exact H1|]. split; [exact H2|].
  exact (proj1 (@dump_writes_checkpoint_in_place Sample.package Sample.world
                  Sample.digest Sample.jsonUpload Sample.jsonCopy
                  Sample.ucp0 Sample.ucp Sample.ccp_second_done
                  (Sample.seal_copy Sample.ccp_second_done) "upload.cp"
                  (Sample.encUpload Sample.ucp)
                  (Sample.encCopy (Sample.seal_copy Sample.ccp_second_done)) ∅
                  H1 eq_refl H2 eq_refl)).
Defined.

(** C3 as stated fails: dump makes one call, a write of the checkpoint file
    itself, which is no atomic replace; and when that write stops early the
    file on disk holds a part of the record. *)
Lemma dump_is_no_atomic_replace :
  let dump := @uploadCheckpoint_dump Sample.package Sample.world Sample.digest
                Sample.jsonUpload Sample.ucp0 in
  trace (dump "upload.cp" ∅) =
    [WriteFile "upload.cp" (Sample.encUpload Sample.ucp) 436]
  /\ (forall data, ~ AtomicReplace "upload.cp" data (trace (dump "upload.cp" ∅)))
  /\ result (dump "short.cp" ∅) = Val (Some "write: no space left on device")
  /\ files_after (dump "short.cp" ∅) !! "short.cp" = Some "FE8BB4EA-B".
Proof.
  intros dump.
  assert (Ht : trace (dump "upload.cp" ∅) =
               [WriteFile "upload.cp" (Sample.encUpload Sample.ucp) 436])
    by (vm_compute; reflexivity).
  split; [exact Ht|]. split; [|split].
  - intros data [tmp [perm [_ E]]]. rewrite Ht in E. discriminate E.
  - vm_compute. reflexivity.
  - vm_compute. reflexivity.
Qed.

Lemma data_event_follows_dump_witness :
  let part := mkUploadPart 5 "etag-5" in
  let su := mkLoop 0 Sample.ucp0 409600 in
  let sc := mkLoop 0 Sample.ccp_second_done 102400 in
  exists ucp fs' t,
    index (u_Parts ucp) (PartNumber part - 1) =
      Some (mkCpPart (mkFileChunk 5 409600 72448) part true)
    /\ @uploadFileWithCp_results Sample.package Sample.world Sample.digest
         Sample.jsonUpload "upload.cp" part su ∅ =
       (Val (mkLoop 1 ucp 482048), fs',
        t ++ [publishProgress (newProgressEvent TransferDataEvent 482048 482048)]).
Proof.
  intros part su sc.
  destruct (@data_event_follows_dump Sample.package Sample.world Sample.digest
              Sample.jsonUpload Sample.jsonCopy "upload.cp" part
              Sample.copyParts su sc ∅
              (mkCpPart (mkFileChunk 5 409600 72448) zeroUploadPart false)
              (mkCopyPart 5 409600 482047))
    as [Hu [_ [_ [Hrun _]]]].
  - reflexivity.
  - discriminate.
  - discriminate.
  - reflexivity.
  - eexists _, _, _. split; [exact Hu | exact Hrun].
Defined.

(** C4 as stated fails: with a checkpoint path that cannot be written every
    save fails, no checkpoint is on disk at the end, and the run publishes
    its Data events all the same, completes the upload and returns nil. *)
Lemma failed_save_does_not_stop_the_run :
  let r := @UploadFile Sample.package Sample.world Sample.digest
             Sample.jsonUpload "bucket" "turtr" "BingWallpaper-2015-11-07.jpg"
             102400 [Sample.Checkpoint true Sample.badCp] Sample.allResults ∅ in
  (forall data,
     @writeOutcome Sample.package Sample.world Sample.badCp data =
       OpenFails "open: no such file or directory")
  /\ result r = Val None
  /\ files_after r !! Sample.badCp = None
  /\ published (trace r) =
       [newProgressEvent TransferStartedEvent 0 482048;
        newProgressEvent TransferDataEvent 102400 482048;
        newProgressEvent TransferDataEvent 204800 482048;
        newProgressEvent TransferDataEvent 307200 482048;
        newProgressEvent TransferDataEvent 379648 482048;
        newProgressEvent TransferDataEvent 482048 482048;
        newProgressEvent TransferCompletedEvent 482048 482048].
Proof.
  intros r. split; [intros data; reflexivity|].
  split; [vm_compute; reflexivity|]. split; vm_compute; reflexivity.
Qed.

(** ** The slice of the parts to do *)

Lemma todoParts_range_pending parts partStat k dps :
  (length partStat + k <= length parts)%nat ->
  todoParts_range parts (Z.of_nat k) partStat dps =
    Some (dps ++ pendingParts (drop k parts) partStat).
Proof.
  revert k dps. induction partStat as [|ps partStat IH]; intros k dps Hlen.
  - simpl. destruct (drop k parts); rewrite app_nil_r; reflexivity.
  - simpl in Hlen. simpl todoParts_range.
    destruct (lookup_lt_is_Some_2 parts k ltac:(lia)) as [p Hp].
    rewrite (drop_S _ _ _ Hp). simpl pendingParts.
    replace (Z.of_nat k + 1) with (Z.of_nat (S k)) by lia.
    destruct ps; simpl.
    + apply IH. lia.
    + unfold index. destruct (Z.ltb_spec (Z.of_nat k) 0); [lia|].
      rewrite Nat2Z.id, Hp. rewrite IH by lia.
      rewrite <- app_assoc. reflexivity.
Qed.

(** The entry [j] of the slice of the parts to do is the part at an index
    [i >= j] of the plan, and [i = j] when no part up to [j] is done. *)
Lemma pendingParts_lookup parts partStat j p :
  pendingParts parts partStat !! j = Some p ->
  exists i, parts !! i = Some p /\ partStat !! i = Some false /\ (j <= i)%nat
            /\ (i = j <-> Forall (fun b => b = false) (take (S j) partStat)).
Proof.
  revert partStat j. induction parts as [|p0 parts IH]; intros partStat j.
  { simpl. discriminate. }
  destruct partStat as [|ps partStat]; [simpl; discriminate|].
  simpl pendingParts. destruct ps.
  - intros Hj. destruct (IH partStat j Hj) as [i [Hi [Hs [Hle _]]]].
    exists (S i). split; [exact Hi|]. split; [exact Hs|]. split; [lia|].
    split; [lia|]. simpl. intros HF. apply Forall_cons in HF as [E _].
    discriminate E.
  - destruct j as [|j].
    + intros [= <-]. exists 0%nat. repeat split; try reflexivity; try lia.
      intros _. simpl. rewrite take_0. apply Forall_cons. split; [reflexivity|].
      constructor.
    + simpl. intros Hj. destruct (IH partStat j Hj) as [i [Hi [Hs [Hle Hiff]]]].
      exists (S i). split; [exact Hi|]. split; [exact Hs|]. split; [lia|].
      split.
      * intros E. apply Forall_cons. split; [reflexivity|]. apply Hiff. lia.
      * intros HF. apply Forall_cons in HF as [_ HF]. f_equal. apply Hiff.
        exact HF.
Qed.

Lemma pendingParts_length parts partStat :
  (length (pendingParts parts partStat) <= length parts)%nat
  /\ (In true partStat -> length partStat = length parts ->
      length (pendingParts parts partStat) < length parts)%nat.
Proof.
  revert partStat. induction parts as [|p parts IH]; intros partStat.
  - simpl. split; [lia|]. destruct partStat; simpl; [intros []|discriminate].
  - destruct partStat as [|ps partStat]; simpl.
    { split; [lia | intros []]. }
    destruct (IH partStat) as [Hle Hlt]. destruct ps; simpl.
    + split; lia.
    + split; [lia|]. intros [E|Hin] Hlen; [discriminate E|].
      specialize (Hlt Hin ltac:(lia)). lia.
Qed.

Section TodoSlice.
Context `{World} `{Digest}.
Context `{Json uploadCheckpoint} `{Json copyCheckpoint}.

Lemma copyFileWithCp_results_bytes cpFilePath parts part s fs :
  match index parts (PartNumber part - 1) with
  | None => result (copyFileWithCp_results cpFilePath parts part s fs) = Panic
  | Some p =>
      forall s', result (copyFileWithCp_results cpFilePath parts part s fs) = Val s' ->
                 l_completedBytes s' = add64 (l_completedBytes s) (partBytes p)
  end.
Proof.
  remember (copyFileWithCp_results cpFilePath parts part s fs) as X eqn:EX.
  unfold copyFileWithCp_results, copyCheckpoint_update, bind in EX.
  destruct (store (c_CopyParts (l_gathered s)) (PartNumber part - 1) part)
    as [copyParts|].
  2: { subst X. destruct (index parts _); [discriminate | reflexivity]. }
  destruct (store (c_PartStat (l_gathered s)) (PartNumber part - 1) true)
    as [partStat|].
  2: { subst X. destruct (index parts _); [discriminate | reflexivity]. }
  unfold ret at 1 in EX. cbv beta iota in EX.
  set (ccp := mkCopyCheckpoint _ _ _ _ _ _ _ _ _ _ _) in EX.
  destruct (dump_result_copy ccp cpFilePath fs) as [e He].
  destruct (copyCheckpoint_dump ccp cpFilePath fs) as [[r1 fs1] t1].
  unfold result in He. simpl in He. subst r1.
  rewrite at_index_run in EX.
  destruct (index parts (PartNumber part - 1)) as [p|];
    simpl in EX; subst X; unfold result; simpl; [|reflexivity].
  intros s' [= <-]. reflexivity.
Qed.

Lemma uploadFileWithCp_results_bytes cpFilePath part s fs s' :
  result (uploadFileWithCp_results cpFilePath part s fs) = Val s' ->
  exists q, index (u_Parts (l_gathered s)) (PartNumber part - 1) = Some q
            /\ l_completedBytes s' = add64 (l_completedBytes s) (fc_Size (Chunk q)).
Proof.
  unfold uploadFileWithCp_results, uploadCheckpoint_updatePart.
  unfold bind at 1. unfold bind at 1. rewrite at_index_run.
  destruct (index (u_Parts (l_gathered s)) (PartNumber part - 1)) as [q|] eqn:Hq;
    [|discriminate].
  unfold ret at 1. cbv beta iota.
  set (ucp := set_u_Parts _ (l_gathered s)).
  assert (Hq2 : index (u_Parts ucp) (PartNumber part - 1)
                = Some (mkCpPart (Chunk q) part true)).
  { destruct (proj1 (index_Some _ _ _) Hq) as [Hn Hq'].
    apply index_Some. split; [exact Hn|].
    apply list_lookup_insert_eq. eapply lookup_lt_Some. exact Hq'. }
  destruct (dump_result_upload ucp cpFilePath fs) as [e He].
  unfold bind at 1.
  destruct (uploadCheckpoint_dump ucp cpFilePath fs) as [[r1 fs1] t1].
  unfold result in He. simpl in He. subst r1.
  unfold bind at 1. rewrite at_index_run, Hq2.
  unfold result. simpl. intros [= <-]. exists q. split; reflexivity.
Qed.

(** C2, as the code has it. The slice [parts] of copyFileWithCp holds the
    parts whose flag is false, so it is shorter than the plan as soon as a
    part is done. The case of [results] reads [parts[PartNumber-1]]: for a
    part number above the length of the slice (or below 1) the coordinator
    panics; for a number in range it adds the bytes of the entry it reads,
    which is a part numbered PartNumber or higher, and is the part that
    completed exactly when no part up to PartNumber is done. The upload
    coordinator reads the entry of the full plan. *)
Theorem todo_slice_is_indexed_by_part_number
    (cpFilePath : string) (ccp : copyCheckpoint) (part : UploadPart)
    (s : LoopState copyCheckpoint) (su : LoopState uploadCheckpoint)
    (fs : Files) :
  length (c_PartStat ccp) = length (c_Parts ccp) ->
  numbered (c_Parts ccp) ->
  let todo := pendingParts (c_Parts ccp) (c_PartStat ccp) in
  let n := PartNumber part in
  let r := copyFileWithCp_results cpFilePath todo part s fs in
  copyCheckpoint_todoParts ccp fs = (Val todo, fs, [])
  /\ (In true (c_PartStat ccp) -> len todo < len (c_Parts ccp))
  /\ (n < 1 \/ len todo < n -> result r = Panic)
  /\ (1 <= n <= len todo ->
      exists p,
        index todo (n - 1) = Some p /\ n <= cp_Number p
        /\ (cp_Number p = n <->
            Forall (fun b => b = false) (take (Z.to_nat n) (c_PartStat ccp)))
        /\ forall s', result r = Val s' ->
             l_completedBytes s' = add64 (l_completedBytes s) (partBytes p))
  /\ (forall s', result (uploadFileWithCp_results cpFilePath part su fs) = Val s' ->
      exists q,
        index (u_Parts (l_gathered su)) (n - 1) = Some q
        /\ l_completedBytes s' = add64 (l_completedBytes su) (fc_Size (Chunk q))).
Proof.
  intros Hlen Hnum todo n r.
  split; [|split; [|split; [|split]]].
  - unfold copyCheckpoint_todoParts.
    change 0 with (Z.of_nat 0).
    rewrite todoParts_range_pending by lia. reflexivity.
  - intros Hin. unfold len.
    destruct (pendingParts_length (c_Parts ccp) (c_PartStat ccp)) as [_ Hlt].
    specialize (Hlt Hin Hlen). fold todo in Hlt. lia.
  - intros Hout. subst r.
    pose proof (copyFileWithCp_results_bytes cpFilePath todo part s fs) as Hb.
    assert (Hnone : index todo (PartNumber part - 1) = None).
    { apply index_None. fold n. lia. }
    rewrite Hnone in Hb. exact Hb.
  - intros Hin.
    destruct (lookup_lt_is_Some_2 todo (Z.to_nat (n - 1))) as [p Hp].
    { unfold len in Hin. lia. }
    exists p.
    assert (Hidx : index todo (n - 1) = Some p).
    { apply index_Some. split; [lia | exact Hp]. }
    split; [exact Hidx|].
    destruct (pendingParts_lookup _ _ _ _ Hp) as [i [Hi [_ [Hle Hiff]]]].
    rewrite (Hnum i p Hi).
    replace (S (Z.to_nat (n - 1))) with (Z.to_nat n) in Hiff by lia.
    split; [lia|]. split.
    + rewrite <- Hiff. lia.
    + subst r.
      pose proof (copyFileWithCp_results_bytes cpFilePath todo part s fs) as Hb.
      fold n in Hb. rewrite Hidx in Hb. exact Hb.
  - intros s' Hs'. apply (uploadFileWithCp_results_bytes _ _ _ _ _ Hs').
Qed.
End TodoSlice.

Lemma sample_copyParts_numbered : numbered Sample.copyParts.
Proof.
  intros i p. do 5 (destruct i as [|i]; [intros [= <-]; reflexivity|]).
  discriminate.
Qed.

Lemma todo_slice_is_indexed_by_part_number_witness :
  let ccp := Sample.ccp_first_done in
  let todo := pendingParts (c_Parts ccp) (c_PartStat ccp) in
  length (c_PartStat ccp) = length (c_Parts ccp) /\ numbered (c_Parts ccp)
  /\ result (@copyFileWithCp_results Sample.package Sample.world Sample.digest
               Sample.jsonCopy "copy.cp" todo (mkUploadPart 5 "etag-5")
               (mkLoop 0 ccp 102400) ∅) = Panic
  /\ exists p, index todo (4 - 1) = Some p /\ 4 <= cp_Number p.
Proof.
  intros ccp todo.
  assert (Hlen : length (c_PartStat ccp) = length (c_Parts ccp)) by reflexivity.
  split; [exact Hlen|]. split; [exact sample_copyParts_numbered|].
  split.
  - destruct (@todo_slice_is_indexed_by_part_number Sample.package Sample.world
                Sample.digest Sample.jsonUpload Sample.jsonCopy "copy.cp" ccp
                (mkUploadPart 5 "etag-5") (mkLoop 0 ccp 102400)
                (mkLoop 0 Sample.ucp0 0) ∅ Hlen sample_copyParts_numbered)
      as [_ [_ [Hout _]]].
    apply Hout. right. vm_compute. reflexivity.
  - destruct (@todo_slice_is_indexed_by_part_number Sample.package Sample.world
                Sample.digest Sample.jsonUpload Sample.jsonCopy "copy.cp" ccp
                (mkUploadPart 4 "etag-4") (mkLoop 0 ccp 102400)
                (mkLoop 0 Sample.ucp0 0) ∅ Hlen sample_copyParts_numbered)
      as [_ [_ [_ [Hin _]]]].
    destruct Hin as [p [Hp [Hn _]]].
    + split; vm_compute; discriminate.
    + exists p. split; [exact Hp | exact Hn].
Defined.

(** C2 as stated fails where it says that an index in range reads a different
    part whenever the slice is not a prefix of the plan: with only part 2
    done the slice is parts 1, 3, 4, 5, no prefix of the plan, and for part 1
    the entry read is part 1 itself, whose 102400 bytes are added. *)
Lemma todo_entry_can_be_the_part_itself :
  let ccp := Sample.ccp_second_done in
  let todo := pendingParts (c_Parts ccp) (c_PartStat ccp) in
  let part := mkUploadPart 1 "etag-1" in
  todo = [mkCopyPart 1 0 102399; mkCopyPart 3 204800 307199;
          mkCopyPart 4 307200 409599; mkCopyPart 5 409600 482047]
  /\ ~ (exists rest, c_Parts ccp = todo ++ rest)
  /\ index todo (PartNumber part - 1) = Some (mkCopyPart 1 0 102399)
  /\ index (c_Parts ccp) (PartNumber part - 1) = Some (mkCopyPart 1 0 102399)
  /\ exists s' fs' t,
       @copyFileWithCp_results Sample.package Sample.world Sample.digest
         Sample.jsonCopy "copy.cp" todo part (mkLoop 0 ccp 102400) ∅ =
         (Val s', fs', t)
       /\ l_completedBytes s' = 102400 + 102400.
Proof.
  intros ccp todo part.
  split; [reflexivity|]. split; [|split; [reflexivity|split; [reflexivity|]]].
  - intros [rest E]. vm_compute in E. discriminate E.
  - eexists _, _, _. split; [vm_compute; reflexivity | reflexivity].
Qed.

(** ** Validating a saved checkpoint *)

Section Validate.
Context `{World} `{Digest}.
Context `{Json uploadCheckpoint} `{Json copyCheckpoint}.

Lemma sealed_upload_fields cp bcp js :
  sealed_upload cp = Some bcp ->
  json_Marshal (set_u_MD5 "" cp) = Some js ->
  u_Magic bcp = u_Magic cp /\ u_FileStat bcp = u_FileStat cp
  /\ set_u_MD5 "" bcp = set_u_MD5 "" cp
  /\ u_MD5 bcp = base64_EncodeToString (md5_Sum js).
Proof.
  unfold sealed_upload. intros Hb Hjs. rewrite Hjs in Hb. injection Hb as <-.
  repeat split; reflexivity.
Qed.

(** X13. The upload checkpoint round-trips: what dump wrote, read back as the
    record it encodes, validates against the file it was made for. *)
Lemma upload_checkpoint_round_trip
    (cp bcp : uploadCheckpoint) (filePath cpFilePath js : string) (fs : Files)
    (st : FileInfo) :
  u_Magic cp = uploadCpMagic ->
  sealed_upload cp = Some bcp -> json_Marshal bcp = Some js ->
  writeOutcome cpFilePath js = WriteOk ->
  json_Unmarshal js zeroUploadCheckpoint = (bcp, None) ->
  os_Open filePath = None -> fd_Stat filePath = inl st ->
  u_FileStat cp = mkCpStat (fi_Size st) (fi_ModTime st) "" ->
  let saved := uploadCheckpoint_dump cp cpFilePath fs in
  let loaded :=
    uploadCheckpoint_load zeroUploadCheckpoint cpFilePath (files_after saved) in
  result saved = Val None
  /\ result loaded = Val (bcp, None)
  /\ result (uploadCheckpoint_isValid bcp filePath (files_after loaded)) =
       Val (true, None).
Proof.
  intros Hmagic Hb Hjs Hw Hun Hopen Hstat Hfs saved loaded.
  assert (Hsaved : saved = (Val None, <[cpFilePath := js]> fs,
                            [WriteFile cpFilePath js FilePermMode])).
  { subst saved. unfold uploadCheckpoint_dump. unfold sealed_upload in Hb.
    destruct (json_Marshal (set_u_MD5 "" cp)) as [js1|]; [|discriminate].
    injection Hb as <-. rewrite Hjs. unfold ioutil_WriteFile. rewrite Hw.
    reflexivity. }
  assert (Hloaded : loaded = (Val (bcp, None), <[cpFilePath := js]> fs,
                              [ReadFile cpFilePath])).
  { subst loaded. rewrite Hsaved.
    change (files_after (Val None, <[cpFilePath := js]> fs,
                         [WriteFile cpFilePath js FilePermMode]))
      with (<[cpFilePath := js]> fs).
    unfold uploadCheckpoint_load, ioutil_ReadFile, bind, ret.
    unfold Files in *. rewrite lookup_insert_eq. rewrite Hun. reflexivity. }
  split; [rewrite Hsaved; reflexivity|]. split; [rewrite Hloaded; reflexivity|].
  unfold sealed_upload in Hb.
  destruct (json_Marshal (set_u_MD5 "" cp)) as [js1|] eqn:Hjs1; [|discriminate].
  injection Hb as <-.
  unfold uploadCheckpoint_isValid. simpl.
  unfold marshal_or_nil.
  change (set_u_MD5 "" (set_u_MD5 _ (set_u_MD5 "" cp))) with (set_u_MD5 "" cp).
  rewrite Hjs1. simpl. rewrite Hmagic. rewrite !String.eqb_refl. simpl.
  rewrite bind_emit, Hopen, Hstat. unfold calcFileMD5.
  rewrite Hfs. simpl. rewrite !Z.eqb_refl. reflexivity.
Qed.

Lemma copyCheckpoint_prepare_Magic cp0 srcBucket srcObjectKey destBucket
    destObjectKey partSize options fs cp fs' t :
  copyCheckpoint_prepare cp0 srcBucket srcObjectKey destBucket destObjectKey
    partSize options fs = (Val (cp, None), fs', t) ->
  c_Magic cp = copyCpMagic.
Proof.
  unfold copyCheckpoint_prepare, bucket_GetObjectDetailedMeta,
    bucket_InitiateMultipartUpload, bind, emit, ret. simpl.
  destruct (remote_Meta srcBucket srcObjectKey) as [meta|e]; [|discriminate].
  destruct (ContentLength meta) as [objectSize|e]; [|discriminate].
  destruct (getCopyParts srcBucket srcObjectKey partSize fs)
    as [[[[parts|e]| |] fs1] t1]; try discriminate.
  destruct (remote_Initiate destBucket destObjectKey options) as [imur|e];
    [|discriminate].
  intros [= <- _ _]. reflexivity.
Qed.

(** C1 on the copy checkpoint. The record the copy coordinator saves carries
    copyCpMagic (prepare sets it); saved by dump and read back as the record
    its text encodes, it does not validate: isValid compares the magic with
    that of a download checkpoint and returns false before it asks for the
    source object. *)
Theorem copy_checkpoint_fails_validation
    (cp bcp : copyCheckpoint) (cpFilePath js bucket objectKey : string)
    (fs : Files) :
  downloadCpMagic <> copyCpMagic ->
  c_Magic cp = copyCpMagic ->
  sealed_copy cp = Some bcp -> json_Marshal bcp = Some js ->
  writeOutcome cpFilePath js = WriteOk ->
  json_Unmarshal js zeroCopyCheckpoint = (bcp, None) ->
  let saved := copyCheckpoint_dump cp cpFilePath fs in
  let loaded :=
    copyCheckpoint_load zeroCopyCheckpoint cpFilePath (files_after saved) in
  result saved = Val None
  /\ result loaded = Val (bcp, None)
  /\ copyCheckpoint_isValid bcp bucket objectKey (files_after loaded) =
       (Val (false, None), files_after loaded, []).
Proof.
  intros Hdiff Hmagic Hb Hjs Hw Hun saved loaded.
  assert (Hsaved : saved = (Val None, <[cpFilePath := js]> fs,
                            [WriteFile cpFilePath js FilePermMode])).
  { subst saved. unfold copyCheckpoint_dump. unfold sealed_copy in Hb.
    destruct (json_Marshal (set_c_MD5 "" cp)) as [js1|]; [|discriminate].
    injection Hb as <-. rewrite Hjs. unfold ioutil_WriteFile. rewrite Hw.
    reflexivity. }
  assert (Hloaded : loaded = (Val (bcp, None), <[cpFilePath := js]> fs,
                              [ReadFile cpFilePath])).
  { subst loaded. rewrite Hsaved.
    change (files_after (Val None, <[cpFilePath := js]> fs,
                         [WriteFile cpFilePath js FilePermMode]))
      with (<[cpFilePath := js]> fs).
    unfold copyCheckpoint_load, ioutil_ReadFile, bind, ret.
    unfold Files in *. rewrite lookup_insert_eq. rewrite Hun. reflexivity. }
  split; [rewrite Hsaved; reflexivity|]. split; [rewrite Hloaded; reflexivity|].
  unfold sealed_copy in Hb.
  destruct (json_Marshal (set_c_MD5 "" cp)) as [js1|]; [|discriminate].
  injection Hb as <-.
  unfold copyCheckpoint_isValid. simpl. rewrite Hmagic.
  destruct (String.eqb_spec copyCpMagic downloadCpMagic) as [E|_];
    [congruence|]. reflexivity.
Qed.
End Validate.

Lemma copy_checkpoint_fails_validation_witness :
  let cp := Sample.ccp_second_done in
  let saved := @copyCheckpoint_dump Sample.package Sample.world Sample.digest
                 Sample.jsonCopy cp "tcrtr-copy.cp" ∅ in
  @downloadCpMagic Sample.package <> copyCpMagic
  /\ c_Magic cp = copyCpMagic
  /\ @copyCheckpoint_isValid Sample.package Sample.world Sample.digest
       Sample.jsonCopy (Sample.seal_copy cp) "src-bucket" "tcrtr"
       (files_after
          (@copyCheckpoint_load Sample.jsonCopy zeroCopyCheckpoint
             "tcrtr-copy.cp" (files_after saved))) =
     (Val (false, None),
      files_after
        (@copyCheckpoint_load Sample.jsonCopy zeroCopyCheckpoint
           "tcrtr-copy.cp" (files_after saved)), []).
Proof.
  intros cp saved.
  assert (Hd : @downloadCpMagic Sample.package <> copyCpMagic) by discriminate.
  split; [exact Hd|]. split; [reflexivity|].
  exact (proj2 (proj2
    (@copy_checkpoint_fails_validation Sample.package Sample.world
       Sample.digest Sample.jsonCopy cp (Sample.seal_copy cp) "tcrtr-copy.cp"
       (Sample.encCopy (Sample.seal_copy cp)) "src-bucket" "tcrtr" ∅
       Hd eq_refl eq_refl eq_refl eq_refl eq_refl))).
Defined.

(** ** The workers a run starts *)

Lemma workers_started_app t1 t2 :
  workers_started (t1 ++ t2) = workers_started t1 ++ workers_started t2.
Proof.
  induction t1 as [|a t1 IH]; [reflexivity|].
  destruct a; simpl; rewrite IH; reflexivity.
Qed.

Lemma workers_started_none t :
  Forall startsNoWorker t -> workers_started t = [].
Proof.
  induction 1 as [|a t Ha _ IH]; [reflexivity|].
  destruct a; simpl; try exact IH; destruct Ha.
Qed.

Lemma workers_started_pool go_w imur (ws : list Z) :
  isWorker go_w -> workers_started ((fun w => go_w w imur) <$> ws) = ws.
Proof.
  intros Hw. induction ws as [|w ws IH]; [reflexivity|].
  rewrite fmap_cons. destruct Hw as [-> | ->]; simpl; rewrite IH; reflexivity.
Qed.

Lemma RunShape_workers cp msgs go_w routines suffix ty bucket on_err on_ok r :
  isWorker go_w ->
  (forall imur e, isEvent TransferFailedEvent e ->
     Forall startsNoWorker (suffix imur e)) ->
  (forall imur, Forall startsNoWorker (on_err imur ++ on_ok)) ->
  RunShape cp msgs go_w routines suffix ty bucket on_err on_ok r ->
  workers_started (trace r) = []
  \/ workers_started (trace r) = seqZ 1 routines.
Proof.
  intros Hw Hsuf Hrest
    [[Hs _]|[t0 [e0 [imur [sched [tl [Ht0 [He [Hsc [Htr Htl]]]]]]]]]].
  - left. apply workers_started_none. eapply Forall_impl; [exact Hs|].
    intros x Hx. destruct x; try exact Logic.I; destruct Hx.
  - right. rewrite Htr, workers_started_app.
    rewrite (workers_started_none t0).
    2: { eapply Forall_impl; [exact Ht0|].
         intros x Hx. destruct x; try exact Logic.I; destruct Hx. }
    destruct He as [c0 [tot0 ->]]. simpl.
    rewrite workers_started_app, (workers_started_pool _ _ _ Hw).
    assert (Htl0 : workers_started (sched :: tl) = []).
    { apply workers_started_none. apply Forall_cons. split.
      - destruct Hsc as [[x ->]|[x ->]]; exact Logic.I.
      - eapply RunTail_Forall; [| | |exact Htl].
        + intros x [[c [t ->]]|[path [_ [d [p ->]]]]]; exact Logic.I.
        + apply Hsuf.
        + intros e i parts [c [t ->]] _.
          pose proof (Hrest imur) as HF. apply Forall_app in HF as [H1 H2].
          split; simpl; (apply Forall_cons; split; [exact Logic.I|]);
            (apply Forall_cons; split; [exact Logic.I|]); assumption. }
    rewrite Htl0, app_nil_r. reflexivity.
Qed.

Section Workers.
Context `{World} `{Digest}.
Context `{Json uploadCheckpoint} `{Json copyCheckpoint}.

(** C10. The worker count is the requested count clamped to 1..100, and 1
    when the option is absent or its lookup fails; the start loop of a
    coordinator launches that many workers, numbered from 1, and a run of
    UploadFile or CopyFile starts exactly these workers unless it ends before
    it starts any. *)
Theorem getRoutines_clamps
    (bucket objectKey filePath srcBucketName srcObjectKey destObjectKey : string)
    (partSize : Z) (options : list Option) (msgs : list Msg) (fs : Files) :
  let routines :=
    match findOption_routineNum options with
    | (Some n, None) => Z.max 1 (Z.min n 100)
    | _ => 1
    end in
  let up := UploadFile bucket objectKey filePath partSize options msgs fs in
  let cp := CopyFile bucket srcBucketName srcObjectKey destObjectKey partSize
              options msgs fs in
  getRoutines options = routines
  /\ 1 <= routines <= 100
  /\ len (seqZ 1 routines) = routines
  /\ (forall go_w imur fs',
        start_workers go_w (getRoutines options) imur fs' =
          (Val tt, fs', (fun w => go_w w imur) <$> seqZ 1 routines))
  /\ (workers_started (trace up) = []
      \/ workers_started (trace up) = seqZ 1 routines)
  /\ (workers_started (trace cp) = []
      \/ workers_started (trace cp) = seqZ 1 routines).
Proof.
  intros routines up cp.
  assert (Hr : getRoutines options = routines).
  { unfold getRoutines, routines.
    destruct (findOption_routineNum options) as [[n|] [e|]]; try reflexivity.
    destruct (Z.ltb_spec n 1); [lia|]. destruct (Z.gtb_spec n 100); lia. }
  assert (Hb : 1 <= routines <= 100).
  { unfold routines.
    destruct (findOption_routineNum options) as [[n|] [e|]]; lia. }
  split; [exact Hr|]. split; [exact Hb|]. split; [|split; [|split]].
  - unfold len. rewrite length_seqZ. lia.
  - intros go_w imur fs'. rewrite Hr. reflexivity.
  - subst up.
    destruct (UploadFile_cases bucket objectKey filePath partSize options msgs fs)
      as [[e He]|[[_ Heq]|[_ Heq]]].
    + left. rewrite He. reflexivity.
    + rewrite Heq, <- Hr.
      eapply RunShape_workers; [left; reflexivity | | |
                                apply uploadFileWithCp_shape].
      * intros imur e [c [t ->]]. each_action ltac:(exact Logic.I).
      * intros imur. simpl. each_action ltac:(exact Logic.I).
    + rewrite Heq, <- Hr.
      eapply RunShape_workers; [left; reflexivity | | | apply uploadFile_shape].
      * intros imur e [c [t ->]]. each_action ltac:(exact Logic.I).
      * intros imur. simpl. each_action ltac:(exact Logic.I).
  - subst cp.
    destruct (CopyFile_cases bucket srcBucketName srcObjectKey destObjectKey
                partSize options msgs fs) as [[e He]|[[_ Heq]|[_ Heq]]].
    + left. rewrite He. reflexivity.
    + rewrite Heq, <- Hr.
      eapply RunShape_workers; [right; reflexivity | | |
                                apply copyFileWithCp_shape].
      * intros imur e [c [t ->]]. each_action ltac:(exact Logic.I).
      * intros imur. simpl. each_action ltac:(exact Logic.I).
    + rewrite Heq, <- Hr.
      eapply RunShape_workers; [right; reflexivity | | | apply copyFile_shape].
      * intros imur e [c [t ->]]. each_action ltac:(exact Logic.I).
      * intros imur. simpl. each_action ltac:(exact Logic.I).
Qed.
End Workers.

(** The worker counts of upload_test.go and multicopy_test.go. *)
Example getRoutines_samples :
  @getRoutines Sample.package [Sample.Routines 0] = 1
  /\ @getRoutines Sample.package [Sample.Routines (-1)] = 1
  /\ @getRoutines Sample.package [] = 1
  /\ @getRoutines Sample.package [Sample.Routines 3] = 3
  /\ @getRoutines Sample.package [Sample.Routines 1000] = 100.
Proof. repeat split; reflexivity. Qed.

Lemma default_checkpoint_path_witness :
  MinPartSize <= 102400 <= MaxPartSize
  /\ @CopyFile Sample.package Sample.world Sample.digest Sample.jsonCopy
       "dest-bucket" "src-bucket" "tcrtr" "tcrtr-copy" 102400
       [Sample.Checkpoint true ""] [] =
     @copyFileWithCp Sample.package Sample.world Sample.digest Sample.jsonCopy
       "src-bucket" "tcrtr" "dest-bucket" "tcrtr-copy" 102400
       [Sample.Checkpoint true ""] "tcrtr-copy.cp" 1 [].
Proof.
  assert (Hs : MinPartSize <= 102400 <= MaxPartSize)
    by (split; vm_compute; discriminate).
  split; [exact Hs|].
  exact (proj1 (proj2
    (@default_checkpoint_path Sample.package Sample.world Sample.digest
       Sample.jsonUpload Sample.jsonCopy "dest-bucket" "turtr"
       "BingWallpaper-2015-11-07.jpg" "src-bucket" "tcrtr" "tcrtr-copy" 102400
       [Sample.Checkpoint true ""] [] Hs eq_refl))).
Defined.

(** C9 as stated fails for a destination key with a slash: the default
    checkpoint of CopyFile is named after the last element of the key, so the
    run reads [tcrtr-copy.cp], not the key with the suffix appended. *)
Lemma copy_checkpoint_path_drops_directories :
  let r := @CopyFile Sample.package Sample.world Sample.digest Sample.jsonCopy
             "dest-bucket" "src-bucket" "tcrtr" "backup/tcrtr-copy" 102400
             [Sample.Checkpoint true ""] Sample.allResults ∅ in
  @getCpConfig Sample.package [Sample.Checkpoint true ""]
    (filepath_Base "backup/tcrtr-copy") = (mkCpConfig true "tcrtr-copy.cp", None)
  /\ "tcrtr-copy.cp" <> "backup/tcrtr-copy" +:+ ".cp"
  /\ hd_error (trace r) = Some (ReadFile "tcrtr-copy.cp")
  /\ ~ In (ReadFile ("backup/tcrtr-copy" +:+ ".cp")) (trace r).
Proof.
  intros r. split; [reflexivity|]. split; [discriminate|].
  split; [vm_compute; reflexivity|].
  unfold not. vm_compute. intros Hin.
  repeat (destruct Hin as [Hin|Hin]; [discriminate Hin|]). exact Hin.
Qed.

(** The run of uploadFile without checkpoint publishes Started a second time
    where the other coordinators publish Completed. *)
Example uploadFile_publishes_started_twice :
  published
    (trace (@UploadFile Sample.package Sample.world Sample.digest
              Sample.jsonUpload "bucket" "turtr" "BingWallpaper-2015-11-07.jpg"
              102400 [Sample.Routines 3] Sample.allResults ∅)) =
    [newProgressEvent TransferStartedEvent 0 482048;
     newProgressEvent TransferDataEvent 102400 482048;
     newProgressEvent TransferDataEvent 204800 482048;
     newProgressEvent TransferDataEvent 307200 482048;
     newProgressEvent TransferDataEvent 379648 482048;
     newProgressEvent TransferDataEvent 482048 482048;
     newProgressEvent TransferStartedEvent 482048 482048].
Proof. vm_compute. reflexivity. Qed.

(** ** What a run does to the local files *)

Section KeepsRules.
Variable Q : Files -> list Action -> Files -> Prop.
Hypothesis Qnil : forall fs, Q fs [] fs.
Hypothesis Qapp : forall a t1 b t2 c, Q a t1 b -> Q b t2 c -> Q a (t1 ++ t2) c.

Lemma Keeps_ret {A} (a : A) : Keeps Q (ret a).
Proof. intros fs. apply Qnil. Qed.

Lemma Keeps_panic {A} : Keeps Q (@panic A).
Proof. intros fs. apply Qnil. Qed.

Lemma Keeps_block {A} : Keeps Q (@block A).
Proof. intros fs. apply Qnil. Qed.

Lemma Keeps_emit a : (forall fs, Q fs [a] fs) -> Keeps Q (emit a).
Proof. intros Ha fs. apply Ha. Qed.

Lemma Keeps_bind {A B} (m : Go A) (k : A -> Go B) :
  Keeps Q m -> (forall a, Keeps Q (k a)) -> Keeps Q (bind m k).
Proof.
  intros Hm Hk fs. specialize (Hm fs). unfold bind.
  destruct (m fs) as [[r fs1] t1]. unfold trace, files_after in Hm.
  simpl in Hm. destruct r as [a| |]; [|exact Hm..].
  specialize (Hk a fs1). destruct (k a fs1) as [[r2 fs2] t2].
  unfold trace, files_after in *. simpl in *. eapply Qapp; eassumption.
Qed.

Lemma Keeps_at_index {A} (s : list A) i : Keeps Q (at_index s i).
Proof.
  unfold at_index. destruct (index s i); [apply Keeps_ret | apply Keeps_panic].
Qed.

Lemma Keeps_start_workers go_w routines imur :
  (forall w fs, Q fs [go_w w imur] fs) ->
  Keeps Q (start_workers go_w routines imur).
Proof.
  intros Hw fs. unfold start_workers, trace, files_after. simpl.
  induction (seqZ 1 routines) as [|w ws IH]; [apply Qnil|].
  rewrite fmap_cons. apply (Qapp fs [_] fs); [apply Hw | exact IH].
Qed.

Lemma Keeps_select_loop {X} n
    (case_results : UploadPart -> LoopState X -> Go (LoopState X))
    (case_failed : error -> LoopState X -> Go unit) :
  (forall part s, Keeps Q (case_results part s)) ->
  (forall err s, Keeps Q (case_failed err s)) ->
  forall msgs s, Keeps Q (select_loop n case_results case_failed msgs s).
Proof.
  intros Hcr Hcf msgs. induction msgs as [|m msgs IH]; intros s; simpl.
  - destruct (l_completed s <? n); [apply Keeps_block | apply Keeps_ret].
  - destruct (l_completed s <? n); [|apply Keeps_ret].
    destruct m as [part|err].
    + apply Keeps_bind; [apply Hcr|]. intros s'.
      destruct (l_completed s' >=? n); [apply Keeps_ret | apply IH].
    + apply Keeps_bind; [apply Hcf|]. intros _. apply Keeps_ret.
Qed.

End KeepsRules.

(** One step of a proof of [Keeps] along the structure of the code. *)
Ltac keeps_step Qnil Qapp Qact :=
  first
    [ apply Keeps_ret; exact Qnil
    | apply Keeps_panic; exact Qnil
    | apply Keeps_block; exact Qnil
    | apply Keeps_at_index; exact Qnil
    | apply Keeps_emit; intros ?; apply Qact; exact I
    | apply Keeps_start_workers; [exact Qnil | exact Qapp |];
      intros ? ?; apply Qact; exact I
    | solve [auto]
    | apply Keeps_bind; [exact Qapp | | intros ?]
    | apply Keeps_select_loop; [exact Qnil | exact Qapp | intros ? ? | intros ? ?]
    | match goal with
      | |- Keeps _ (match ?x with _ => _ end) => destruct x
      | |- Keeps _ (if ?x then _ else _) => destruct x
      end ].

Section Frames.
Context `{World} `{Digest}.
Context `{Json uploadCheckpoint} `{Json copyCheckpoint}.
Variable Q : Files -> list Action -> Files -> Prop.
Hypothesis Qnil : forall fs, Q fs [] fs.
Hypothesis Qapp : forall a t1 b t2 c, Q a t1 b -> Q b t2 c -> Q a (t1 ++ t2) c.
Hypothesis Qact : forall a fs, noFileAction a -> Q fs [a] fs.

Lemma uploadFile_Keeps bucket objectKey filePath partSize options routines msgs :
  Keeps Q (uploadFile bucket objectKey filePath partSize options routines msgs).
Proof.
  unfold uploadFile, uploadFile_results, uploadFile_failed,
    bucket_InitiateMultipartUpload, bucket_CompleteMultipartUpload,
    bucket_AbortMultipartUpload.
  repeat keeps_step Qnil Qapp Qact.
Qed.

Lemma getCopyParts_Keeps bucket objectKey partSize :
  Keeps Q (getCopyParts bucket objectKey partSize).
Proof.
  unfold getCopyParts, bucket_GetObjectDetailedMeta.
  repeat keeps_step Qnil Qapp Qact.
Qed.

Lemma copyFile_Keeps bucket srcBucketName srcObjectKey destBucketName
    destObjectKey partSize options routines msgs :
  Keeps Q (copyFile bucket srcBucketName srcObjectKey destBucketName
             destObjectKey partSize options routines msgs).
Proof.
  pose proof getCopyParts_Keeps as Hg.
  unfold copyFile, copyFile_results, copyFile_failed,
    bucket_InitiateMultipartUpload, bucket_CompleteMultipartUpload,
    bucket_AbortMultipartUpload.
  repeat keeps_step Qnil Qapp Qact.
Qed.

Variable cpFilePath : string.
Hypothesis Qread : Keeps Q (ioutil_ReadFile cpFilePath).
Hypothesis Qwrite : forall data perm, Keeps Q (ioutil_WriteFile cpFilePath data perm).
Hypothesis Qremove : Keeps Q (os_Remove cpFilePath).

Lemma uploadFileWithCp_run_Keeps bucket objectKey routines msgs ucp :
  Keeps Q (uploadFileWithCp_run bucket objectKey cpFilePath routines msgs ucp).
Proof.
  unfold uploadFileWithCp_run, uploadFileWithCp_results, uploadFileWithCp_failed,
    uploadCheckpoint_updatePart, uploadCheckpoint_dump, complete,
    bucket_CompleteMultipartUpload.
  repeat keeps_step Qnil Qapp Qact.
Qed.

Lemma uploadFileWithCp_Keeps bucket objectKey filePath partSize options routines
    msgs :
  Keeps Q (uploadFileWithCp bucket objectKey filePath partSize options
             cpFilePath routines msgs).
Proof.
  pose proof uploadFileWithCp_run_Keeps as Hrun.
  unfold uploadFileWithCp, uploadCheckpoint_load, uploadCheckpoint_isValid,
    prepare, calcFileMD5, bucket_InitiateMultipartUpload.
  repeat keeps_step Qnil Qapp Qact.
Qed.

Lemma copyFileWithCp_run_Keeps destBucketName destObjectKey routines msgs ccp :
  Keeps Q (copyFileWithCp_run destBucketName destObjectKey cpFilePath routines
             msgs ccp).
Proof.
  unfold copyFileWithCp_run, copyFileWithCp_results, copyFileWithCp_failed,
    copyCheckpoint_update, copyCheckpoint_dump, copyCheckpoint_complete,
    copyCheckpoint_todoParts, copyCheckpoint_getCompletedBytes,
    bucket_CompleteMultipartUpload.
  repeat keeps_step Qnil Qapp Qact.
Qed.

Lemma copyFileWithCp_Keeps srcBucketName srcObjectKey destBucketName
    destObjectKey partSize options routines msgs :
  Keeps Q (copyFileWithCp srcBucketName srcObjectKey destBucketName
             destObjectKey partSize options cpFilePath routines msgs).
Proof.
  pose proof copyFileWithCp_run_Keeps as Hrun.
  pose proof getCopyParts_Keeps as Hg.
  unfold copyFileWithCp, copyCheckpoint_load, copyCheckpoint_isValid,
    copyCheckpoint_prepare, bucket_InitiateMultipartUpload,
    bucket_GetObjectDetailedMeta.
  repeat keeps_step Qnil Qapp Qact.
Qed.

End Frames.

Lemma sameOff_refl path fs : sameOff path fs fs.
Proof. intros p _. reflexivity. Qed.

Lemma sameOff_trans path a b c :
  sameOff path a b -> sameOff path b c -> sameOff path a c.
Proof. intros H1 H2 p Hp. rewrite (H2 p Hp). apply H1, Hp. Qed.

Lemma noFileAction_onlyFile path a : noFileAction a -> onlyFile path a.
Proof. destruct a; simpl; tauto. Qed.

Section CheckpointFile.
Context `{World} `{Digest}.
Context `{Json uploadCheckpoint} `{Json copyCheckpoint}.

Lemma replay_app t1 t2 fs : replay (t1 ++ t2) fs = replay t2 (replay t1 fs).
Proof. unfold replay. apply fold_left_app. Qed.

Lemma replay_noFileAction a fs : noFileAction a -> replay [a] fs = fs.
Proof. destruct a; simpl; tauto. Qed.

(** The local files after a run of a coordinator are those the file actions
    of its trace make of the files before it. *)
Lemma UploadFile_replay bucket objectKey filePath partSize options msgs fs :
  let r := UploadFile bucket objectKey filePath partSize options msgs fs in
  files_after r = replay (trace r) fs.
Proof.
  set (Q := fun (a : Files) t (b : Files) => b = replay t a).
  assert (Qnil : forall fs, Q fs [] fs) by reflexivity.
  assert (Qapp : forall a t1 b t2 c, Q a t1 b -> Q b t2 c -> Q a (t1 ++ t2) c).
  { unfold Q. intros a t1 b t2 c -> ->. symmetry. apply replay_app. }
  assert (Qact : forall a fs, noFileAction a -> Q fs [a] fs).
  { unfold Q. intros a fs' Ha. symmetry. apply replay_noFileAction, Ha. }
  intros r. subst r.
  destruct (UploadFile_cases bucket objectKey filePath partSize options msgs fs)
    as [[err E]|[[_ E]|[_ E]]]; rewrite E.
  - reflexivity.
  - apply (uploadFileWithCp_Keeps Q Qnil Qapp Qact).
    + intros fs'. unfold ioutil_ReadFile, Q. destruct (fs' !! _); reflexivity.
    + intros data perm fs'. unfold ioutil_WriteFile, Q, replay.
      destruct (writeOutcome _ data) eqn:Ew; unfold trace, files_after; simpl;
        rewrite Ew; reflexivity.
    + intros fs'. reflexivity.
  - apply (uploadFile_Keeps Q Qnil Qapp Qact).
Qed.

Lemma CopyFile_replay bucket srcBucketName srcObjectKey destObjectKey partSize
    options msgs fs :
  let r := CopyFile bucket srcBucketName srcObjectKey destObjectKey partSize
             options msgs fs in
  files_after r = replay (trace r) fs.
Proof.
  set (Q := fun (a : Files) t (b : Files) => b = replay t a).
  assert (Qnil : forall fs, Q fs [] fs) by reflexivity.
  assert (Qapp : forall a t1 b t2 c, Q a t1 b -> Q b t2 c -> Q a (t1 ++ t2) c).
  { unfold Q. intros a t1 b t2 c -> ->. symmetry. apply replay_app. }
  assert (Qact : forall a fs, noFileAction a -> Q fs [a] fs).
  { unfold Q. intros a fs' Ha. symmetry. apply replay_noFileAction, Ha. }
  intros r. subst r.
  destruct (CopyFile_cases bucket srcBucketName srcObjectKey destObjectKey
              partSize options msgs fs) as [[err E]|[[_ E]|[_ E]]]; rewrite E.
  - reflexivity.
  - apply (copyFileWithCp_Keeps Q Qnil Qapp Qact).
    + intros fs'. unfold ioutil_ReadFile, Q. destruct (fs' !! _); reflexivity.
    + intros data perm fs'. unfold ioutil_WriteFile, Q, replay.
      destruct (writeOutcome _ data) eqn:Ew; unfold trace, files_after; simpl;
        rewrite Ew; reflexivity.
    + intros fs'. reflexivity.
  - apply (copyFile_Keeps Q Qnil Qapp Qact).
Qed.

(** X1. Without a checkpoint, UploadFile and CopyFile leave the local files as
    they are: the file system after the run is the one before it, and the
    run loads no checkpoint and writes, syncs, renames and removes no file. *)
Theorem run_without_checkpoint_keeps_files
    (bucket objectKey filePath srcBucketName srcObjectKey destObjectKey : string)
    (partSize : Z) (options : list Option) (msgs : list Msg) (fs : Files) :
  IsEnable (getCpConfig options filePath).1 = false ->
  IsEnable (getCpConfig options (filepath_Base destObjectKey)).1 = false ->
  let up := UploadFile bucket objectKey filePath partSize options msgs fs in
  let cp := CopyFile bucket srcBucketName srcObjectKey destObjectKey partSize
              options msgs fs in
  files_after up = fs /\ Forall noFileAction (trace up)
  /\ files_after cp = fs /\ Forall noFileAction (trace cp).
Proof.
  intros Hup Hcp up cp.
  set (Q := fun (a : Files) t (b : Files) => Forall noFileAction t /\ b = a).
  assert (Qnil : forall fs, Q fs [] fs) by (split; [constructor | reflexivity]).
  assert (Qapp : forall a t1 b t2 c, Q a t1 b -> Q b t2 c -> Q a (t1 ++ t2) c).
  { unfold Q. intros a t1 b t2 c [Ht1 ->] [Ht2 ->].
    split; [apply Forall_app; split; assumption | reflexivity]. }
  assert (Qact : forall a fs, noFileAction a -> Q fs [a] fs).
  { intros a fs' Ha. split; [|reflexivity].
    apply Forall_cons; split; [exact Ha | constructor]. }
  assert (Hu : Q fs (trace up) (files_after up)).
  { subst up.
    destruct (UploadFile_cases bucket objectKey filePath partSize options msgs fs)
      as [[err E]|[[En _]|[_ E]]]; [| congruence |]; rewrite E.
    - apply Qnil.
    - apply (uploadFile_Keeps Q Qnil Qapp Qact). }
  assert (Hc : Q fs (trace cp) (files_after cp)).
  { subst cp.
    destruct (CopyFile_cases bucket srcBucketName srcObjectKey destObjectKey
                partSize options msgs fs) as [[err E]|[[En _]|[_ E]]];
      [| simpl in En; congruence |]; rewrite E.
    - apply Qnil.
    - apply (copyFile_Keeps Q Qnil Qapp Qact). }
  destruct Hu as [Hu1 Hu2], Hc as [Hc1 Hc2]. repeat split; auto.
Qed.

(** X2. The checkpoint file of the run is the only file UploadFile and CopyFile
    load, write or remove: every other file is after the run what it was
    before, and no file is synced or renamed. *)
Theorem run_touches_only_checkpoint_file
    (bucket objectKey filePath srcBucketName srcObjectKey destObjectKey : string)
    (partSize : Z) (options : list Option) (msgs : list Msg) (fs : Files) :
  let up := UploadFile bucket objectKey filePath partSize options msgs fs in
  let cp := CopyFile bucket srcBucketName srcObjectKey destObjectKey partSize
              options msgs fs in
  let upPath := FilePath (getCpConfig options filePath).1 in
  let cpPath := FilePath (getCpConfig options (filepath_Base destObjectKey)).1 in
  Forall (onlyFile upPath) (trace up)
  /\ (forall p, p <> upPath -> files_after up !! p = fs !! p)
  /\ Forall (onlyFile cpPath) (trace cp)
  /\ (forall p, p <> cpPath -> files_after cp !! p = fs !! p).
Proof.
  intros up cp upPath cpPath.
  set (Q := fun path (a : Files) t (b : Files) =>
              Forall (onlyFile path) t /\ sameOff path a b).
  assert (Qnil : forall path fs, Q path fs [] fs).
  { split; [constructor | apply sameOff_refl]. }
  assert (Qapp : forall path a t1 b t2 c,
             Q path a t1 b -> Q path b t2 c -> Q path a (t1 ++ t2) c).
  { unfold Q. intros path a t1 b t2 c [Ht1 R1] [Ht2 R2].
    split; [apply Forall_app; split; assumption | eapply sameOff_trans; eassumption]. }
  assert (Qact : forall path a fs, noFileAction a -> Q path fs [a] fs).
  { intros path a fs' Ha. split; [|apply sameOff_refl].
    apply Forall_cons; split; [apply noFileAction_onlyFile, Ha | constructor]. }
  assert (Qread : forall path, Keeps (Q path) (ioutil_ReadFile path)).
  { intros path fs'. unfold ioutil_ReadFile.
    destruct (fs' !! path); (split; [|apply sameOff_refl]);
      (apply Forall_cons; split; [reflexivity | constructor]). }
  assert (Qwrite : forall path data perm,
             Keeps (Q path) (ioutil_WriteFile path data perm)).
  { intros path data perm fs'. unfold ioutil_WriteFile.
    destruct (writeOutcome path data); (split;
      [apply Forall_cons; split; [reflexivity | constructor]|]);
      unfold files_after; simpl.
    - intros p Hp. unfold Files in *. apply lookup_insert_ne. congruence.
    - apply sameOff_refl.
    - intros p Hp. unfold Files in *. apply lookup_insert_ne. congruence. }
  assert (Qremove : forall path, Keeps (Q path) (os_Remove path)).
  { intros path fs'. unfold os_Remove. split.
    - apply Forall_cons; split; [reflexivity | constructor].
    - unfold files_after. simpl. intros p Hp. unfold Files in *.
      apply lookup_delete_ne. congruence. }
  assert (Hu : Q upPath fs (trace up) (files_after up)).
  { subst up.
    destruct (UploadFile_cases bucket objectKey filePath partSize options msgs fs)
      as [[err E]|[[_ E]|[_ E]]]; rewrite E.
    - apply Qnil.
    - apply (uploadFileWithCp_Keeps (Q upPath) (Qnil _) (Qapp _) (Qact _) _
               (Qread _) (Qwrite _) (Qremove _)).
    - apply (uploadFile_Keeps (Q upPath) (Qnil _) (Qapp _) (Qact _)). }
  assert (Hc : Q cpPath fs (trace cp) (files_after cp)).
  { subst cp.
    destruct (CopyFile_cases bucket srcBucketName srcObjectKey destObjectKey
                partSize options msgs fs) as [[err E]|[[_ E]|[_ E]]]; rewrite E.
    - apply Qnil.
    - apply (copyFileWithCp_Keeps (Q cpPath) (Qnil _) (Qapp _) (Qact _) _
               (Qread _) (Qwrite _) (Qremove _)).
    - apply (copyFile_Keeps (Q cpPath) (Qnil _) (Qapp _) (Qact _)). }
  destruct Hu as [Hu1 Hu2], Hc as [Hc1 Hc2]. repeat split; auto.
Qed.

End CheckpointFile.

Lemma run_without_checkpoint_keeps_files_witness :
  let fs : Files := <["notes.txt" := "keep"]> ∅ in
  files_after
    (@UploadFile Sample.package Sample.world Sample.digest Sample.jsonUpload
       "bucket" "turtr" "BingWallpaper-2015-11-07.jpg" 102400
       [Sample.Routines 3] Sample.allResults fs) = fs
  /\ files_after
       (@CopyFile Sample.package Sample.world Sample.digest Sample.jsonCopy
          "dest-bucket" "src-bucket" "tcrtr" "tcrtr-copy" 102400
          [Sample.Checkpoint false "copy.cp"] [OnFailed "ErrorHooker"] fs) = fs.
Proof.
  intros fs.
  destruct (@run_without_checkpoint_keeps_files Sample.package Sample.world
              Sample.digest Sample.jsonUpload Sample.jsonCopy
              "bucket" "turtr" "BingWallpaper-2015-11-07.jpg" "src-bucket"
              "tcrtr" "tcrtr-copy" 102400 [Sample.Routines 3]
              Sample.allResults fs) as [Hu _]; [reflexivity | reflexivity |].
  destruct (@run_without_checkpoint_keeps_files Sample.package Sample.world
              Sample.digest Sample.jsonUpload Sample.jsonCopy
              "dest-bucket" "turtr" "BingWallpaper-2015-11-07.jpg" "src-bucket"
              "tcrtr" "tcrtr-copy" 102400 [Sample.Checkpoint false "copy.cp"]
              [OnFailed "ErrorHooker"] fs) as (_ & _ & Hc & _);
    [reflexivity | reflexivity |].
  split; [exact Hu | exact Hc].
Defined.

Lemma RunShape_success cp msgs go_w routines suffix bucket on_err r :
  RunShape (Some cp) msgs go_w routines suffix TransferCompletedEvent bucket
    on_err [Remove cp] r ->
  result r = Val None ->
  exists t0 e call,
    isEvent TransferCompletedEvent e /\ isComplete call
    /\ trace r = t0 ++ [e; call; Remove cp].
Proof.
  intros [[_ Hne]|(t0 & e0 & imur & sched & tl & _ & _ & _ & Htr & Htl)] Hr;
    [contradiction|].
  rewrite Hr in Htl. inversion Htl as [| r' t1 tp Hd Hpost | |]; subst.
  destruct Hpost as (consumed & total & imur' & parts & _ & [[[err E] _]|[_ E]]);
    [discriminate|].
  exists (t0 ++ e0 :: ((fun w => go_w w imur) <$> seqZ 1 routines) ++ sched :: t1),
    (publishProgress (newProgressEvent TransferCompletedEvent consumed total)),
    (CompleteMultipartUpload bucket imur' parts).
  split; [eexists _, _; reflexivity|]. split; [eexists _, _, _; reflexivity|].
  rewrite Htr, E. simpl. rewrite <- !app_assoc. simpl.
  rewrite <- app_assoc. reflexivity.
Qed.

Section Success.
Context `{World} `{Digest}.
Context `{Json uploadCheckpoint} `{Json copyCheckpoint}.

(** X3. A run with a checkpoint that returns nil has published Completed, called
    CompleteMultipartUpload and then removed its checkpoint file, which is the
    last thing it does: no checkpoint file is left behind. *)
Theorem successful_run_removes_checkpoint
    (bucket objectKey filePath srcBucketName srcObjectKey destObjectKey : string)
    (partSize : Z) (options : list Option) (msgs : list Msg) (fs : Files)
    (r : Res (option error) * Files * list Action) (path : string) :
  (getCpConfig options filePath).1 = mkCpConfig true path
  /\ r = UploadFile bucket objectKey filePath partSize options msgs fs
  \/ (getCpConfig options (filepath_Base destObjectKey)).1 = mkCpConfig true path
     /\ r = CopyFile bucket srcBucketName srcObjectKey destObjectKey partSize
              options msgs fs ->
  result r = Val None ->
  files_after r !! path = None
  /\ exists t0 e call,
       isEvent TransferCompletedEvent e /\ isComplete call
       /\ trace r = t0 ++ [e; call; Remove path].
Proof.
  intros Hrun Hr.
  assert (Hshape : exists go_w suffix b on_err,
            RunShape (Some path) msgs go_w (getRoutines options) suffix
              TransferCompletedEvent b on_err [Remove path] r).
  { destruct Hrun as [[Hc ->]|[Hc ->]].
    - destruct (UploadFile_cases bucket objectKey filePath partSize options msgs fs)
        as [[err E]|[[_ E]|[En _]]].
      + rewrite E in Hr. discriminate.
      + rewrite E, Hc. simpl. eexists _, _, _, _. apply uploadFileWithCp_shape.
      + rewrite Hc in En. discriminate.
    - destruct (CopyFile_cases bucket srcBucketName srcObjectKey destObjectKey
                  partSize options msgs fs) as [[err E]|[[_ E]|[En _]]].
      + rewrite E in Hr. discriminate.
      + rewrite E, Hc. simpl. eexists _, _, _, _. apply copyFileWithCp_shape.
      + simpl in En. rewrite Hc in En. discriminate. }
  destruct Hshape as (go_w & suffix & b & on_err & Hshape).
  destruct (RunShape_success _ _ _ _ _ _ _ _ Hshape Hr) as (t0 & e & call & He & Hc & Ht).
  split; [|exists t0, e, call; auto].
  assert (Hfs : files_after r = replay (trace r) fs).
  { destruct Hrun as [[_ ->]|[_ ->]];
      [apply UploadFile_replay | apply CopyFile_replay]. }
  rewrite Hfs, Ht, replay_app.
  destruct He as (c1 & c2 & ->). destruct Hc as (b1 & i1 & p1 & ->).
  unfold replay. simpl. unfold Files. apply lookup_delete_eq.
Qed.

End Success.

Lemma successful_run_removes_checkpoint_witness :
  let fs : Files := <["upload.cp" := "stale"]> ∅ in
  let r := @UploadFile Sample.package Sample.world Sample.digest
             Sample.jsonUpload "bucket" "turtr" "BingWallpaper-2015-11-07.jpg"
             102400 [Sample.Checkpoint true "upload.cp"] Sample.allResults fs in
  result r = Val None /\ files_after r !! "upload.cp" = None.
Proof.
  intros fs r.
  assert (Hr : result r = Val None) by (vm_compute; reflexivity).
  split; [exact Hr|].
  apply (@successful_run_removes_checkpoint Sample.package Sample.world
           Sample.digest Sample.jsonUpload Sample.jsonCopy
           "bucket" "turtr" "BingWallpaper-2015-11-07.jpg" "" "" "" 102400
           [Sample.Checkpoint true "upload.cp"] Sample.allResults fs r
           "upload.cp").
  - left. split; reflexivity.
  - exact Hr.
Defined.

Lemma dataEvents_app t1 t2 : dataEvents (t1 ++ t2) = dataEvents t1 ++ dataEvents t2.
Proof. unfold dataEvents. rewrite published_app. apply List.filter_app. Qed.

Section Durable.
Context `{World} `{Digest}.
Context `{Json uploadCheckpoint} `{Json copyCheckpoint}.

(** The case of [results] of the checkpointed upload when the record can be
    marshalled and the file written: the record with the token stored is on
    disk when the Data event is published. *)
Lemma uploadFileWithCp_results_saved cpFilePath part s fs q :
  (forall data, writeOutcome cpFilePath data = WriteOk) ->
  (forall cp : uploadCheckpoint, is_Some (json_Marshal cp)) ->
  index (u_Parts (l_gathered s)) (PartNumber part - 1) = Some q ->
  exists bcp js e,
    sealed_upload (markPart (l_gathered s) part) = Some bcp
    /\ json_Marshal bcp = Some js
    /\ EventType e = TransferDataEvent
    /\ uploadFileWithCp_results cpFilePath part s fs =
         (Val (mkLoop (l_completed s + 1) (markPart (l_gathered s) part)
                 (add64 (l_completedBytes s) (fc_Size (Chunk q)))),
          <[cpFilePath := js]> fs,
          [WriteFile cpFilePath js FilePermMode; publishProgress e]).
Proof.
  intros Hw Hm Hq.
  assert (Hmark : markPart (l_gathered s) part =
            set_u_Parts (<[Z.to_nat (PartNumber part - 1) :=
                             mkCpPart (Chunk q) part true]> (u_Parts (l_gathered s)))
              (l_gathered s)).
  { unfold markPart. f_equal. apply index_Some in Hq as [_ Hq].
    apply list_eq. intros i.
    destruct (decide (i = Z.to_nat (PartNumber part - 1))) as [->|Hi].
    - rewrite list_lookup_alter_eq, Hq. simpl.
      symmetry. apply list_lookup_insert_eq. eapply lookup_lt_Some, Hq.
    - rewrite list_lookup_alter_ne, list_lookup_insert_ne by congruence.
      reflexivity. }
  set (ucp := markPart (l_gathered s) part) in *.
  destruct (Hm (set_u_MD5 "" ucp)) as [js0 Hjs0].
  set (bcp := set_u_MD5 (base64_EncodeToString (md5_Sum js0)) (set_u_MD5 "" ucp)).
  destruct (Hm bcp) as [js Hjs].
  exists bcp, js,
    (newProgressEvent TransferDataEvent
       (add64 (l_completedBytes s) (fc_Size (Chunk q))) (st_Size (u_FileStat ucp))).
  split; [unfold sealed_upload; rewrite Hjs0; reflexivity|].
  split; [exact Hjs|]. split; [reflexivity|].
  unfold uploadFileWithCp_results, uploadCheckpoint_updatePart.
  unfold bind at 1. unfold bind at 1. rewrite at_index_run, Hq.
  unfold ret at 1. cbv beta iota. rewrite <- Hmark.
  assert (Hd : uploadCheckpoint_dump ucp cpFilePath fs =
               (Val None, <[cpFilePath := js]> fs,
                [WriteFile cpFilePath js FilePermMode])).
  { unfold uploadCheckpoint_dump. rewrite Hjs0. fold bcp. rewrite Hjs.
    unfold ioutil_WriteFile. rewrite Hw. reflexivity. }
  assert (Hq2 : index (u_Parts ucp) (PartNumber part - 1)
                = Some (mkCpPart (Chunk q) part true)).
  { rewrite Hmark. simpl.
    destruct (proj1 (index_Some _ _ _) Hq) as [Hn Hq'].
    apply index_Some. split; [exact Hn|].
    apply list_lookup_insert_eq. eapply lookup_lt_Some. exact Hq'. }
  unfold bind at 1. rewrite Hd.
  unfold bind at 1. rewrite at_index_run, Hq2. reflexivity.
Qed.


Lemma uploadFileWithCp_results_out_of_range cpFilePath part s fs :
  index (u_Parts (l_gathered s)) (PartNumber part - 1) = None ->
  uploadFileWithCp_results cpFilePath part s fs = (Panic, fs, []).
Proof.
  intros Hq. unfold uploadFileWithCp_results, uploadCheckpoint_updatePart.
  unfold bind at 1. unfold bind at 1. rewrite at_index_run, Hq. reflexivity.
Qed.

(** X4. When the checkpoint file can be written and the record marshalled, the
    file holds, whenever the loop of the checkpointed upload stops, the record
    in which the tokens of the parts whose Data events were published are
    stored: these are the first parts of the messages, as many as Data
    events. Before the first of them the files are as they were. *)
Theorem saved_checkpoint_holds_reported_parts
    (cpFilePath : string) (n : Z) (msgs : list Msg)
    (s : LoopState uploadCheckpoint) (fs : Files) :
  (forall data, writeOutcome cpFilePath data = WriteOk) ->
  (forall cp : uploadCheckpoint, is_Some (json_Marshal cp)) ->
  let r := select_loop n (uploadFileWithCp_results cpFilePath)
             uploadFileWithCp_failed msgs s fs in
  exists ps rest,
    msgs = (OnResults <$> ps) ++ rest
    /\ length (dataEvents (trace r)) = length ps
    /\ (forall s', result r = Val (FellThrough s') ->
          l_gathered s' = markParts (l_gathered s) ps)
    /\ match ps with
       | [] => files_after r = fs
       | _ =>
           exists bcp js,
             sealed_upload (markParts (l_gathered s) ps) = Some bcp
             /\ json_Marshal bcp = Some js
             /\ files_after r !! cpFilePath = Some js
       end.
Proof.
  intros Hw Hm. revert s fs.
  induction msgs as [|m msgs IH]; intros s fs r; subst r.
  - exists [], []. simpl. split; [reflexivity|].
    destruct (l_completed s <? n).
    + split; [reflexivity|]. split; [intros s'; discriminate | reflexivity].
    + split; [reflexivity|].
      split; [intros s' [= <-]; reflexivity | reflexivity].
  - simpl. destruct (l_completed s <? n) eqn:Hlt.
    2:{ exists [], (m :: msgs). split; [reflexivity|]. split; [reflexivity|].
        split; [intros s' [= <-]; reflexivity | reflexivity]. }
    destruct m as [part|err].
    2:{ exists [], (OnFailed err :: msgs). split; [reflexivity|].
        split; [reflexivity|]. split; [intros s'; discriminate | reflexivity]. }
    destruct (index (u_Parts (l_gathered s)) (PartNumber part - 1)) as [q|] eqn:Hq.
    2:{ exists [], (OnResults part :: msgs). split; [reflexivity|].
        unfold bind. rewrite (uploadFileWithCp_results_out_of_range _ _ _ _ Hq).
        split; [reflexivity|]. split; [intros s'; discriminate | reflexivity]. }
    destruct (uploadFileWithCp_results_saved cpFilePath part s fs q Hw Hm Hq)
      as (bcp & js & e & Hbcp & Hjs & He & Hstep).
    rewrite (bind_Val _ _ _ _ _ _ Hstep).
    set (s1 := mkLoop (l_completed s + 1) (markPart (l_gathered s) part)
                 (add64 (l_completedBytes s) (fc_Size (Chunk q)))) in *.
    assert (Hdata : forall t,
              dataEvents (WriteFile cpFilePath js FilePermMode
                          :: publishProgress e :: t) = e :: dataEvents t).
    { intros t. unfold dataEvents. simpl. unfold isData at 1. rewrite He.
      reflexivity. }
    destruct (l_completed s1 >=? n) eqn:Hge.
    + exists [part], msgs. split; [reflexivity|].
      split; [unfold trace; simpl; rewrite Hdata; reflexivity|]. split.
      * intros s'. unfold result. simpl. intros [= <-]. reflexivity.
      * exists bcp, js. split; [exact Hbcp|]. split; [exact Hjs|].
        unfold files_after. simpl. unfold Files. apply lookup_insert_eq.
    + destruct (IH s1 (<[cpFilePath := js]> fs)) as (ps & rest & -> & Hlen & Hs' & Hfs).
      exists (part :: ps), rest. split; [reflexivity|].
      split; [unfold trace at 1; simpl; rewrite Hdata; simpl; rewrite Hlen;
              reflexivity|].
      split; [exact Hs'|].
      destruct ps as [|p ps].
      * exists bcp, js. split; [exact Hbcp|]. split; [exact Hjs|].
        simpl in Hfs. unfold files_after in *. simpl. rewrite Hfs.
        unfold Files. apply lookup_insert_eq.
      * exact Hfs.
Qed.

End Durable.

Lemma saved_checkpoint_holds_reported_parts_witness :
  let s := mkLoop 0 (markParts Sample.ucp0 []) 409600 in
  let r := select_loop 1
             (@uploadFileWithCp_results Sample.package Sample.world
                Sample.digest Sample.jsonUpload "upload.cp")
             uploadFileWithCp_failed
             [OnResults (mkUploadPart 5 "etag-5"); OnFailed "late"] s ∅ in
  exists ps rest,
    [OnResults (mkUploadPart 5 "etag-5"); OnFailed "late"] = (OnResults <$> ps) ++ rest
    /\ length (dataEvents (trace r)) = length ps.
Proof.
  intros s r.
  destruct (@saved_checkpoint_holds_reported_parts Sample.package Sample.world
              Sample.digest Sample.jsonUpload "upload.cp" 1
              [OnResults (mkUploadPart 5 "etag-5"); OnFailed "late"] s ∅)
    as (ps & rest & Hm & Hl & _).
  - intros data. reflexivity.
  - intros cp. eexists. reflexivity.
  - exists ps, rest. split; [exact Hm | exact Hl].
Defined.

(** ** The messages the loop reads *)

Lemma bind_congr {A B} (m m' : Go A) (k : A -> Go B) fs :
  m fs = m' fs -> bind m k fs = bind m' k fs.
Proof. intros E. unfold bind. rewrite E. reflexivity. Qed.

Lemma select_loop_results {X} n
    (case_results : UploadPart -> LoopState X -> Go (LoopState X))
    (case_failed : error -> LoopState X -> Go unit) part msgs s :
  select_loop n case_results case_failed (OnResults part :: msgs) s =
    if l_completed s <? n then
      s' <~ case_results part s ;;
      if l_completed s' >=? n then ret (FellThrough s')
      else select_loop n case_results case_failed msgs s'
    else ret (FellThrough s).
Proof. reflexivity. Qed.

Lemma select_loop_done {X} n
    (case_results : UploadPart -> LoopState X -> Go (LoopState X))
    (case_failed : error -> LoopState X -> Go unit) msgs s fs :
  (l_completed s <? n) = false ->
  select_loop n case_results case_failed msgs s fs = (Val (FellThrough s), fs, []).
Proof. intros E. destruct msgs; simpl; rewrite E; reflexivity. Qed.

(** Once the loop has counted [n] parts it reads no further message. *)
Lemma select_loop_reads_n {X} n
    (case_results : UploadPart -> LoopState X -> Go (LoopState X))
    (case_failed : error -> LoopState X -> Go unit) :
  (forall part s fs s', result (case_results part s fs) = Val s' ->
     l_completed s' = l_completed s + 1) ->
  forall ps rest rest' s fs,
    n <= l_completed s + len ps ->
    select_loop n case_results case_failed ((OnResults <$> ps) ++ rest) s fs =
    select_loop n case_results case_failed ((OnResults <$> ps) ++ rest') s fs.
Proof.
  intros Hstep ps. induction ps as [|p ps IH]; intros rest rest' s fs Hn.
  - unfold len in Hn. simpl in Hn.
    assert (E : (l_completed s <? n) = false) by (apply Z.ltb_ge; lia).
    destruct rest, rest'; simpl; rewrite E; reflexivity.
  - rewrite fmap_cons, <- !app_comm_cons, !select_loop_results.
    destruct (l_completed s <? n); [|reflexivity].
    unfold bind. specialize (Hstep p s fs).
    destruct (case_results p s fs) as [[[s'| |] fs1] t1]; try reflexivity.
    specialize (Hstep s' eq_refl).
    destruct (l_completed s' >=? n); [reflexivity|].
    rewrite (IH rest rest' s' fs1); [reflexivity|].
    unfold len in *. rewrite length_cons in Hn. lia.
Qed.

Section LateMessages.
Context `{World} `{Digest}.
Context `{Json uploadCheckpoint} `{Json copyCheckpoint}.

Lemma uploadFile_results_counts chunks part s fs s' :
  result (uploadFile_results chunks part s fs) = Val s' ->
  l_completed s' = l_completed s + 1.
Proof.
  unfold uploadFile_results.
  destruct (store (l_gathered s) (PartNumber part - 1) part); [|discriminate].
  unfold bind at 1. rewrite at_index_run.
  destruct (index chunks (PartNumber part - 1)); [|discriminate].
  unfold result. simpl. intros [= <-]. reflexivity.
Qed.

Lemma copyFile_results_counts parts totalBytes part s fs s' :
  result (copyFile_results parts totalBytes part s fs) = Val s' ->
  l_completed s' = l_completed s + 1.
Proof.
  unfold copyFile_results.
  destruct (store (l_gathered s) (PartNumber part - 1) part); [|discriminate].
  unfold bind at 1. rewrite at_index_run.
  destruct (index parts (PartNumber part - 1)); [|discriminate].
  unfold result. simpl. intros [= <-]. reflexivity.
Qed.

(** X5. In each of the four coordinators the loop stops reading its channels
    once it has counted as many parts as were scheduled: what the workers
    send after that, an error included, changes nothing in the run. *)
Theorem messages_after_last_part_are_dropped
    (n : Z) (ps : list UploadPart) (rest rest' : list Msg) (fs : Files)
    (bucket cpFilePath : string) (imur : InitiateMultipartUploadResult)
    (chunks : list FileChunk) (parts : list copyPart) (total : Z)
    (s : LoopState (list UploadPart))
    (su : LoopState uploadCheckpoint) (sc : LoopState copyCheckpoint) :
  let late := (OnResults <$> ps) ++ rest in
  let other := (OnResults <$> ps) ++ rest' in
  (n <= l_completed s + len ps ->
     select_loop n (uploadFile_results chunks)
       (uploadFile_failed bucket imur total) late s fs =
     select_loop n (uploadFile_results chunks)
       (uploadFile_failed bucket imur total) other s fs
     /\ select_loop n (copyFile_results parts total)
          (copyFile_failed bucket imur total) late s fs =
        select_loop n (copyFile_results parts total)
          (copyFile_failed bucket imur total) other s fs)
  /\ (n <= l_completed su + len ps ->
        select_loop n (uploadFileWithCp_results cpFilePath)
          uploadFileWithCp_failed late su fs =
        select_loop n (uploadFileWithCp_results cpFilePath)
          uploadFileWithCp_failed other su fs)
  /\ (n <= l_completed sc + len ps ->
        select_loop n (copyFileWithCp_results cpFilePath parts)
          copyFileWithCp_failed late sc fs =
        select_loop n (copyFileWithCp_results cpFilePath parts)
          copyFileWithCp_failed other sc fs).
Proof.
  intros late other. split; [|split]; intros Hn.
  - split; apply select_loop_reads_n; try exact Hn.
    + intros part s0 fs0 s'. apply uploadFile_results_counts.
    + intros part s0 fs0 s'. apply copyFile_results_counts.
  - apply select_loop_reads_n; [|exact Hn].
    intros part s0 fs0 s' Hs.
    apply (uploadFileWithCp_results_step cpFilePath part s0 fs0), Hs.
  - apply select_loop_reads_n; [|exact Hn].
    intros part s0 fs0 s' Hs.
    apply (copyFileWithCp_results_step cpFilePath parts part s0 fs0), Hs.
Qed.

End LateMessages.

Lemma messages_after_last_part_are_dropped_witness :
  let run msgs :=
    @UploadFile Sample.package Sample.world Sample.digest Sample.jsonUpload
      "bucket" "turtr" "BingWallpaper-2015-11-07.jpg" 102400
      [Sample.Routines 3] msgs ∅ in
  select_loop 5 (uploadFile_results Sample.chunks)
    (uploadFile_failed "bucket"
       (mkIMUR "bucket" "turtr" "3F79722737D1469980DACEDCA325BB52") 482048)
    (Sample.allResults ++ [OnFailed "late"])
    (mkLoop 0 (replicate 5 zeroUploadPart) 0) ∅ =
  select_loop 5 (uploadFile_results Sample.chunks)
    (uploadFile_failed "bucket"
       (mkIMUR "bucket" "turtr" "3F79722737D1469980DACEDCA325BB52") 482048)
    (Sample.allResults ++ [])
    (mkLoop 0 (replicate 5 zeroUploadPart) 0) ∅
  /\ result (run (Sample.allResults ++ [OnFailed "late"])) = Val None.
Proof.
  intros run. split; [|vm_compute; reflexivity].
  apply (@messages_after_last_part_are_dropped Sample.package Sample.world
           Sample.digest Sample.jsonUpload Sample.jsonCopy 5
           [mkUploadPart 2 "etag-2"; mkUploadPart 1 "etag-1";
            mkUploadPart 3 "etag-3"; mkUploadPart 5 "etag-5";
            mkUploadPart 4 "etag-4"]
           [OnFailed "late"] [] ∅ "bucket" "upload.cp"
           (mkIMUR "bucket" "turtr" "3F79722737D1469980DACEDCA325BB52")
           Sample.chunks [] 482048 (mkLoop 0 (replicate 5 zeroUploadPart) 0)
           (mkLoop 0 Sample.ucp0 0) (mkLoop 0 Sample.ccp_first_done 0)).
  vm_compute. discriminate.
Defined.

(** ** The tokens a run hands to CompleteMultipartUpload *)

Lemma sumZ_app l1 l2 : sumZ (l1 ++ l2) = sumZ l1 + sumZ l2.
Proof. induction l1 as [|x l1 IH]; simpl; [reflexivity | rewrite IH; lia]. Qed.

Lemma sumZ_Permutation l1 l2 : l1 ≡ₚ l2 -> sumZ l1 = sumZ l2.
Proof. induction 1; simpl; lia. Qed.

Lemma fold_add64_sum (l : list Z) b :
  fold_left add64 l (wrap64 b) = wrap64 (b + sumZ l).
Proof.
  revert b. induction l as [|x l IH]; intros b; simpl.
  - f_equal. lia.
  - unfold add64 at 2. rewrite wrap64_add_l, IH. f_equal. lia.
Qed.

Lemma length_fold_place ps g :
  length (fold_left place ps g) = length g.
Proof.
  revert g. induction ps as [|p ps IH]; intros g; simpl; [reflexivity|].
  rewrite IH. unfold place. apply length_insert.
Qed.

Lemma fold_place_other ps g i :
  (forall p, p ∈ ps -> Z.to_nat (PartNumber p - 1) <> i) ->
  fold_left place ps g !! i = g !! i.
Proof.
  revert g. induction ps as [|p ps IH]; intros g Hi; simpl; [reflexivity|].
  rewrite IH by (intros q Hq; apply Hi; right; exact Hq).
  unfold place. apply list_lookup_insert_ne. apply Hi. left.
Qed.

Lemma fold_place_lookup ps g p :
  NoDup (PartNumber <$> ps) ->
  Forall (fun q => 1 <= PartNumber q <= len g) ps ->
  p ∈ ps ->
  fold_left place ps g !! Z.to_nat (PartNumber p - 1) = Some p.
Proof.
  revert g. induction ps as [|q ps IH]; intros g Hnd Hr Hp.
  - inversion Hp.
  - rewrite fmap_cons in Hnd. apply NoDup_cons in Hnd as [Hq Hnd].
    apply Forall_cons in Hr as [Hrq Hr]. simpl.
    assert (Hlen : len (place g q) = len g).
    { unfold len, place. rewrite length_insert. reflexivity. }
    apply elem_of_cons in Hp as [->|Hp].
    + rewrite fold_place_other.
      * unfold place. apply list_lookup_insert_eq. unfold len in Hrq. lia.
      * intros p Hp E. apply Hq. apply list_elem_of_fmap. exists p.
        split; [|exact Hp].
        apply Forall_forall with (x := p) in Hr; [|exact Hp]. lia.
    + apply IH; [exact Hnd | | exact Hp].
      rewrite Hlen. exact Hr.
Qed.

Section PlanLoop.
Variable sizes : list Z.
Variable total n : Z.
Variable case_results :
  UploadPart -> LoopState (list UploadPart) -> Go (LoopState (list UploadPart)).
Variable case_failed : error -> LoopState (list UploadPart) -> Go unit.

Hypothesis Hstep : forall part s fs g sz,
  store (l_gathered s) (PartNumber part - 1) part = Some g ->
  index sizes (PartNumber part - 1) = Some sz ->
  case_results part s fs =
    (Val (mkLoop (l_completed s + 1) g (add64 (l_completedBytes s) sz)), fs,
     [publishProgress
        (newProgressEvent TransferDataEvent (add64 (l_completedBytes s) sz)
           total)]).

Lemma plan_loop ps rest s fs :
  length (l_gathered s) = length sizes ->
  Forall (fun p => 1 <= PartNumber p <= len sizes) ps ->
  l_completed s + len ps = n ->
  exists t,
    select_loop n case_results case_failed ((OnResults <$> ps) ++ rest) s fs =
      (Val (FellThrough
              (mkLoop n (fold_left place ps (l_gathered s))
                 (fold_left add64 (sizesOf sizes ps) (l_completedBytes s)))),
       fs, t)
    /\ Forall (isEvent TransferDataEvent) t.
Proof.
  revert s fs. induction ps as [|p ps IH]; intros s fs Hlen Hr Hn.
  - exists []. split; [|constructor].
    unfold len in Hn. simpl in Hn.
    assert (E : (l_completed s <? n) = false) by (apply Z.ltb_ge; lia).
    rewrite select_loop_done by exact E.
    destruct s as [c g b]. simpl in *. replace n with c by lia. reflexivity.
  - apply Forall_cons in Hr as [Hp Hr].
    unfold len in Hn. rewrite length_cons in Hn.
    rewrite fmap_cons, <- app_comm_cons, select_loop_results.
    assert (E : (l_completed s <? n) = true) by (apply Z.ltb_lt; lia).
    rewrite E.
    assert (Hg : exists x, l_gathered s !! Z.to_nat (PartNumber p - 1) = Some x).
    { apply lookup_lt_is_Some_2. rewrite Hlen. unfold len in Hp. lia. }
    destruct Hg as [x Hx].
    assert (Hsz : exists sz, sizes !! Z.to_nat (PartNumber p - 1) = Some sz).
    { apply lookup_lt_is_Some_2. unfold len in Hp. lia. }
    destruct Hsz as [sz Hsz].
    assert (Hst : store (l_gathered s) (PartNumber p - 1) p
                  = Some (place (l_gathered s) p)).
    { unfold store.
      rewrite (proj2 (index_Some (l_gathered s) (PartNumber p - 1) x));
        [reflexivity|].
      split; [lia | exact Hx]. }
    assert (Hix : index sizes (PartNumber p - 1) = Some sz).
    { apply index_Some. split; [lia | exact Hsz]. }
    rewrite (bind_Val _ _ _ _ _ _ (Hstep p s fs _ _ Hst Hix)).
    set (s1 := mkLoop (l_completed s + 1) (place (l_gathered s) p)
                 (add64 (l_completedBytes s) sz)).
    assert (Hsizes : fold_left add64 (sizesOf sizes (p :: ps)) (l_completedBytes s)
                     = fold_left add64 (sizesOf sizes ps) (l_completedBytes s1)).
    { unfold sizesOf. rewrite fmap_cons. simpl. rewrite Hsz. reflexivity. }
    destruct (IH s1 fs) as (t & Hloop & Ht).
    { simpl. unfold place. rewrite length_insert. exact Hlen. }
    { exact Hr. }
    { simpl. unfold len. lia. }
    exists (publishProgress
              (newProgressEvent TransferDataEvent (add64 (l_completedBytes s) sz)
                 total) :: t).
    split.
    2:{ apply Forall_cons. split; [eexists _, _; reflexivity | exact Ht]. }
    destruct (l_completed s1 >=? n) eqn:Hge.
    + assert (ps = []) as ->.
      { apply Z.geb_le in Hge. simpl in Hge. destruct ps; [reflexivity|].
        rewrite length_cons in Hn. lia. }
      assert (E1 : (l_completed s1 <? n) = false).
      { apply Z.ltb_ge. apply Z.geb_le in Hge. exact Hge. }
      rewrite select_loop_done in Hloop by exact E1.
      injection Hloop as Hs1 Ht0. subst t.
      unfold result, files_after, trace. simpl. rewrite Hsz. simpl.
      unfold s1. rewrite Hs1. reflexivity.
    + rewrite Hsizes, Hloop. reflexivity.
Qed.

End PlanLoop.

Lemma sizesOf_Permutation sizes ps :
  PartNumber <$> ps ≡ₚ seqZ 1 (len sizes) ->
  sumZ (sizesOf sizes ps) = sumZ sizes.
Proof.
  intros Hperm. unfold sizesOf.
  set (f := fun k : Z => default 0 (sizes !! Z.to_nat (k - 1))).
  transitivity (sumZ (f <$> (PartNumber <$> ps))).
  { rewrite <- list_fmap_compose. reflexivity. }
  rewrite (sumZ_Permutation _ (f <$> seqZ 1 (len sizes)))
    by (apply fmap_Permutation, Hperm).
  f_equal. apply list_eq. intros i. rewrite list_lookup_fmap.
  destruct (decide (i < length sizes)%nat) as [Hi|Hi].
  - rewrite lookup_seqZ_lt by (unfold len; lia). simpl. unfold f.
    replace (Z.to_nat (1 + Z.of_nat i - 1)) with i by lia.
    destruct (lookup_lt_is_Some_2 sizes i Hi) as [x Hx]. rewrite Hx. reflexivity.
  - rewrite lookup_seqZ_ge by (unfold len; lia). simpl.
    symmetry. apply lookup_ge_None. lia.
Qed.

(** The slice in which the tokens of [ps], one for each part number from 1
    to its length, were stored holds them in the order of their numbers. *)
Lemma fold_place_sorted ps g :
  PartNumber <$> ps ≡ₚ seqZ 1 (len g) ->
  PartNumber <$> fold_left place ps g = seqZ 1 (len g)
  /\ forall p, p ∈ fold_left place ps g <-> p ∈ ps.
Proof.
  intros Hperm.
  assert (Hnd : NoDup (PartNumber <$> ps)).
  { rewrite Hperm. apply NoDup_seqZ. }
  assert (Hr : Forall (fun q => 1 <= PartNumber q <= len g) ps).
  { apply Forall_forall. intros q Hq.
    assert (Hin : PartNumber q ∈ seqZ 1 (len g)).
    { rewrite <- Hperm. apply list_elem_of_fmap_2, Hq. }
    apply elem_of_seqZ in Hin. lia. }
  assert (Hat : forall i, (i < length g)%nat ->
            exists p, p ∈ ps /\ PartNumber p = 1 + Z.of_nat i
                      /\ fold_left place ps g !! i = Some p).
  { intros i Hi.
    assert (Hin : 1 + Z.of_nat i ∈ PartNumber <$> ps).
    { rewrite Hperm. apply elem_of_seqZ. unfold len. lia. }
    apply list_elem_of_fmap in Hin as (p & Hp & Hps).
    exists p. split; [exact Hps|]. split; [symmetry; exact Hp|].
    rewrite <- (fold_place_lookup ps g p Hnd Hr Hps). f_equal. lia. }
  split.
  - apply list_eq. intros i. rewrite list_lookup_fmap.
    destruct (decide (i < length g)%nat) as [Hi|Hi].
    + destruct (Hat i Hi) as (p & _ & Hp & ->). simpl.
      rewrite lookup_seqZ_lt by (unfold len; lia). rewrite Hp. reflexivity.
    + rewrite lookup_seqZ_ge by (unfold len; lia).
      rewrite (proj2 (lookup_ge_None _ _)); [reflexivity|].
      rewrite length_fold_place. lia.
  - intros p. split.
    + intros Hp. apply list_elem_of_lookup in Hp as [i Hi].
      assert (Hlt : (i < length g)%nat).
      { rewrite <- (length_fold_place ps g). eapply lookup_lt_Some, Hi. }
      destruct (Hat i Hlt) as (q & Hq & _ & Hq'). congruence.
    + intros Hp. eapply list_elem_of_lookup_2.
      apply (fold_place_lookup ps g p Hnd Hr Hp).
Qed.

Lemma getTotalBytes_sum chunks :
  getTotalBytes chunks = wrap64 (sumZ (fc_Size <$> chunks)).
Proof.
  unfold getTotalBytes.
  transitivity (fold_left add64 (fc_Size <$> chunks) (wrap64 0)).
  - change (wrap64 0) with 0. generalize 0.
    induction chunks as [|c chunks IH]; intros b; simpl; [reflexivity|].
    apply IH.
  - rewrite fold_add64_sum. reflexivity.
Qed.

Lemma getSrcObjectBytes_sum parts :
  getSrcObjectBytes parts = wrap64 (sumZ (partBytes <$> parts)).
Proof.
  unfold getSrcObjectBytes.
  transitivity (fold_left add64 (partBytes <$> parts) (wrap64 0)).
  - change (wrap64 0) with 0. generalize 0.
    induction parts as [|c parts IH]; intros b; simpl; [reflexivity|].
    apply IH.
  - rewrite fold_add64_sum. reflexivity.
Qed.

Section TokensInOrder.
Context `{World} `{Digest}.
Context `{Json uploadCheckpoint} `{Json copyCheckpoint}.

Lemma uploadFile_results_run chunks part s fs g sz :
  store (l_gathered s) (PartNumber part - 1) part = Some g ->
  index (fc_Size <$> chunks) (PartNumber part - 1) = Some sz ->
  uploadFile_results chunks part s fs =
    (Val (mkLoop (l_completed s + 1) g (add64 (l_completedBytes s) sz)), fs,
     [publishProgress
        (newProgressEvent TransferDataEvent (add64 (l_completedBytes s) sz)
           (getTotalBytes chunks))]).
Proof.
  intros Hg Hsz. unfold uploadFile_results. rewrite Hg.
  apply index_Some in Hsz as [Hn Hsz]. rewrite list_lookup_fmap in Hsz.
  destruct (chunks !! Z.to_nat (PartNumber part - 1)) as [c|] eqn:Hc;
    [|discriminate].
  injection Hsz as <-.
  unfold bind at 1. rewrite at_index_run.
  rewrite (proj2 (index_Some chunks (PartNumber part - 1) c) (conj Hn Hc)).
  reflexivity.
Qed.

Lemma copyFile_results_run parts total part s fs g sz :
  store (l_gathered s) (PartNumber part - 1) part = Some g ->
  index (partBytes <$> parts) (PartNumber part - 1) = Some sz ->
  copyFile_results parts total part s fs =
    (Val (mkLoop (l_completed s + 1) g (add64 (l_completedBytes s) sz)), fs,
     [publishProgress
        (newProgressEvent TransferDataEvent (add64 (l_completedBytes s) sz)
           total)]).
Proof.
  intros Hg Hsz. unfold copyFile_results. rewrite Hg.
  apply index_Some in Hsz as [Hn Hsz]. rewrite list_lookup_fmap in Hsz.
  destruct (parts !! Z.to_nat (PartNumber part - 1)) as [c|] eqn:Hc;
    [|discriminate].
  injection Hsz as <-.
  unfold bind at 1. rewrite at_index_run.
  rewrite (proj2 (index_Some parts (PartNumber part - 1) c) (conj Hn Hc)).
  reflexivity.
Qed.

(** X6. When the workers deliver one token for each part of the plan, in any
    order, uploadFile hands CompleteMultipartUpload exactly these tokens in
    the order of their part numbers, and the event it publishes before the
    call reports all the bytes of the file. *)
Theorem uploadFile_completes_with_tokens_in_part_order
    (bucket objectKey filePath : string) (partSize routines : Z)
    (options : list Option) (ps : list UploadPart) (rest : list Msg)
    (fs : Files) (chunks : list FileChunk)
    (imur : InitiateMultipartUploadResult) :
  SplitFileByPartSize filePath partSize = inl chunks ->
  remote_Initiate bucket objectKey options = inl imur ->
  PartNumber <$> ps ≡ₚ seqZ 1 (len chunks) ->
  let r := uploadFile bucket objectKey filePath partSize options routines
             ((OnResults <$> ps) ++ rest) fs in
  let total := getTotalBytes chunks in
  exists t0 parts tl,
    trace r =
      t0 ++ [publishProgress (newProgressEvent TransferStartedEvent total total);
             CompleteMultipartUpload bucket imur parts] ++ tl
    /\ PartNumber <$> parts = seqZ 1 (len chunks)
    /\ (forall p, p ∈ parts <-> p ∈ ps).
Proof.
  intros Hsplit Hinit Hperm r total. subst r.
  set (g0 := replicate (length chunks) zeroUploadPart).
  assert (Hg0 : len g0 = len chunks).
  { unfold len, g0. rewrite length_replicate. reflexivity. }
  assert (Hlenps : len ps = len chunks).
  { unfold len. f_equal.
    rewrite <- (length_fmap PartNumber ps), Hperm, length_seqZ.
    unfold len. lia. }
  assert (Hr : Forall (fun q => 1 <= PartNumber q <= len (fc_Size <$> chunks)) ps).
  { apply Forall_forall. intros q Hq.
    assert (Hin : PartNumber q ∈ seqZ 1 (len chunks)).
    { rewrite <- Hperm. apply list_elem_of_fmap_2, Hq. }
    apply elem_of_seqZ in Hin. unfold len in *. rewrite length_fmap. lia. }
  destruct (plan_loop (fc_Size <$> chunks) total (len chunks)
              (uploadFile_results chunks) (uploadFile_failed bucket imur total)
              (uploadFile_results_run chunks) ps rest (mkLoop 0 g0 0) fs)
    as (t & Hloop & Ht).
  { simpl. unfold g0. rewrite length_replicate, length_fmap. reflexivity. }
  { exact Hr. }
  { simpl. lia. }
  simpl in Hloop.
  assert (Hbytes : fold_left add64 (sizesOf (fc_Size <$> chunks) ps) 0 = total).
  { change 0 with (wrap64 0) at 1. rewrite fold_add64_sum.
    unfold total. rewrite getTotalBytes_sum. f_equal.
    rewrite sizesOf_Permutation; [lia|].
    unfold len. rewrite length_fmap. exact Hperm. }
  rewrite Hbytes in Hloop.
  destruct (fold_place_sorted ps g0) as [Hsorted Hmem].
  { rewrite Hg0. exact Hperm. }
  rewrite Hg0 in Hsorted.
  assert (Hi : bucket_InitiateMultipartUpload bucket objectKey options fs =
               (Val (inl imur), fs, [InitiateMultipartUpload bucket objectKey])).
  { unfold bucket_InitiateMultipartUpload. rewrite bind_emit, Hinit. reflexivity. }
  unfold uploadFile. rewrite Hsplit.
  rewrite (bind_Val _ _ _ _ _ _ Hi).
  rewrite bind_emit, bind_start_workers, bind_emit.
  fold total. fold g0.
  rewrite (bind_Val _ _ _ _ _ _ Hloop).
  rewrite bind_emit.
  assert (Hc : bucket_CompleteMultipartUpload bucket imur (fold_left place ps g0) fs =
               (Val (remote_Complete bucket imur (fold_left place ps g0)), fs,
                [CompleteMultipartUpload bucket imur (fold_left place ps g0)])).
  { unfold bucket_CompleteMultipartUpload. rewrite bind_emit. reflexivity. }
  simpl l_gathered. simpl l_completedBytes.
  rewrite (bind_Val _ _ _ _ _ _ Hc).
  exists ([InitiateMultipartUpload bucket objectKey;
           publishProgress (newProgressEvent TransferStartedEvent 0 total)]
          ++ ((fun w => go_worker w imur) <$> seqZ 1 routines)
          ++ go_scheduler chunks :: t),
    (fold_left place ps g0).
  eexists. split; [|split; [exact Hsorted | exact Hmem]].
  unfold trace. simpl. rewrite <- !app_assoc. simpl. reflexivity.
Qed.

(** X7. The same for copyFile: the tokens reach CompleteMultipartUpload in the
    order of their part numbers, after a Completed event that reports all
    the bytes of the source object. *)
Theorem copyFile_completes_with_tokens_in_part_order
    (bucket srcBucketName srcObjectKey destBucketName destObjectKey : string)
    (partSize routines : Z) (options : list Option) (ps : list UploadPart)
    (rest : list Msg) (fs : Files) (plan : list copyPart) (th : list Action)
    (imur : InitiateMultipartUploadResult) :
  getCopyParts srcBucketName srcObjectKey partSize fs = (Val (inl plan), fs, th) ->
  remote_Initiate destBucketName destObjectKey options = inl imur ->
  PartNumber <$> ps ≡ₚ seqZ 1 (len plan) ->
  let r := copyFile bucket srcBucketName srcObjectKey destBucketName
             destObjectKey partSize options routines
             ((OnResults <$> ps) ++ rest) fs in
  let total := getSrcObjectBytes plan in
  exists t0 parts tl,
    trace r =
      t0 ++ [publishProgress (newProgressEvent TransferCompletedEvent total total);
             CompleteMultipartUpload destBucketName imur parts] ++ tl
    /\ PartNumber <$> parts = seqZ 1 (len plan)
    /\ (forall p, p ∈ parts <-> p ∈ ps).
Proof.
  intros Hplan Hinit Hperm r total. subst r.
  set (g0 := replicate (length plan) zeroUploadPart).
  assert (Hg0 : len g0 = len plan).
  { unfold len, g0. rewrite length_replicate. reflexivity. }
  assert (Hlenps : len ps = len plan).
  { unfold len. f_equal.
    rewrite <- (length_fmap PartNumber ps), Hperm, length_seqZ.
    unfold len. lia. }
  assert (Hr : Forall (fun q => 1 <= PartNumber q <= len (partBytes <$> plan)) ps).
  { apply Forall_forall. intros q Hq.
    assert (Hin : PartNumber q ∈ seqZ 1 (len plan)).
    { rewrite <- Hperm. apply list_elem_of_fmap_2, Hq. }
    apply elem_of_seqZ in Hin. unfold len in *. rewrite length_fmap. lia. }
  destruct (plan_loop (partBytes <$> plan) total (len plan)
              (copyFile_results plan total)
              (copyFile_failed destBucketName imur total)
              (copyFile_results_run plan total) ps rest (mkLoop 0 g0 0) fs)
    as (t & Hloop & Ht).
  { simpl. unfold g0. rewrite length_replicate, length_fmap. reflexivity. }
  { exact Hr. }
  { simpl. lia. }
  simpl in Hloop.
  assert (Hbytes : fold_left add64 (sizesOf (partBytes <$> plan) ps) 0 = total).
  { change 0 with (wrap64 0) at 1. rewrite fold_add64_sum.
    unfold total. rewrite getSrcObjectBytes_sum. f_equal.
    rewrite sizesOf_Permutation; [lia|].
    unfold len. rewrite length_fmap. exact Hperm. }
  rewrite Hbytes in Hloop.
  destruct (fold_place_sorted ps g0) as [Hsorted Hmem].
  { rewrite Hg0. exact Hperm. }
  rewrite Hg0 in Hsorted.
  assert (Hi : bucket_InitiateMultipartUpload destBucketName destObjectKey
                 options fs =
               (Val (inl imur), fs,
                [InitiateMultipartUpload destBucketName destObjectKey])).
  { unfold bucket_InitiateMultipartUpload. rewrite bind_emit, Hinit. reflexivity. }
  unfold copyFile. cbv zeta.
  rewrite (bind_Val _ _ _ _ _ _ Hplan).
  rewrite (bind_Val _ _ _ _ _ _ Hi).
  rewrite bind_emit, bind_start_workers, bind_emit.
  fold total. fold g0.
  rewrite (bind_Val _ _ _ _ _ _ Hloop).
  rewrite bind_emit.
  assert (Hc : bucket_CompleteMultipartUpload destBucketName imur
                 (fold_left place ps g0) fs =
               (Val (remote_Complete destBucketName imur (fold_left place ps g0)),
                fs,
                [CompleteMultipartUpload destBucketName imur
                   (fold_left place ps g0)])).
  { unfold bucket_CompleteMultipartUpload. rewrite bind_emit. reflexivity. }
  simpl l_gathered. simpl l_completedBytes.
  rewrite (bind_Val _ _ _ _ _ _ Hc).
  exists (th ++ [InitiateMultipartUpload destBucketName destObjectKey;
                 publishProgress (newProgressEvent TransferStartedEvent 0 total)]
          ++ ((fun w => go_copyWorker w imur) <$> seqZ 1 routines)
          ++ go_copyScheduler plan :: t),
    (fold_left place ps g0).
  eexists. split; [|split; [exact Hsorted | exact Hmem]].
  unfold trace. cbn [snd]. rewrite <- !app_assoc.
  f_equal.
Qed.

End TokensInOrder.

Lemma uploadFile_completes_with_tokens_in_part_order_witness :
  exists t0 tl,
    trace
      (@uploadFile Sample.package Sample.world "bucket" "turtr"
         "BingWallpaper-2015-11-07.jpg" 102400 [Sample.Routines 3] 3
         ((OnResults <$>
             [mkUploadPart 2 "etag-2"; mkUploadPart 1 "etag-1";
              mkUploadPart 3 "etag-3"; mkUploadPart 5 "etag-5";
              mkUploadPart 4 "etag-4"]) ++ [OnFailed "late"]) ∅) =
    t0 ++ [publishProgress (newProgressEvent TransferStartedEvent 482048 482048);
           CompleteMultipartUpload "bucket"
             (mkIMUR "bucket" "turtr" "3F79722737D1469980DACEDCA325BB52")
             [mkUploadPart 1 "etag-1"; mkUploadPart 2 "etag-2";
              mkUploadPart 3 "etag-3"; mkUploadPart 4 "etag-4";
              mkUploadPart 5 "etag-5"]] ++ tl.
Proof.
  destruct (@uploadFile_completes_with_tokens_in_part_order Sample.package
              Sample.world "bucket" "turtr" "BingWallpaper-2015-11-07.jpg"
              102400 3 [Sample.Routines 3]
              [mkUploadPart 2 "etag-2"; mkUploadPart 1 "etag-1";
               mkUploadPart 3 "etag-3"; mkUploadPart 5 "etag-5";
               mkUploadPart 4 "etag-4"]
              [OnFailed "late"] ∅ Sample.chunks
              (mkIMUR "bucket" "turtr" "3F79722737D1469980DACEDCA325BB52"))
    as (t0 & parts & tl & Ht & _).
  - reflexivity.
  - reflexivity.
  - vm_compute. eapply perm_trans; [apply perm_swap|].
    do 3 apply perm_skip. apply perm_swap.
  - vm_compute. exists [InitiateMultipartUpload "bucket" "turtr";
      publishProgress (newProgressEvent TransferStartedEvent 0 482048);
      go_worker 1 (mkIMUR "bucket" "turtr" "3F79722737D1469980DACEDCA325BB52");
      go_worker 2 (mkIMUR "bucket" "turtr" "3F79722737D1469980DACEDCA325BB52");
      go_worker 3 (mkIMUR "bucket" "turtr" "3F79722737D1469980DACEDCA325BB52");
      go_scheduler Sample.chunks;
      publishProgress (newProgressEvent TransferDataEvent 102400 482048);
      publishProgress (newProgressEvent TransferDataEvent 204800 482048);
      publishProgress (newProgressEvent TransferDataEvent 307200 482048);
      publishProgress (newProgressEvent TransferDataEvent 379648 482048);
      publishProgress (newProgressEvent TransferDataEvent 482048 482048)], [].
    reflexivity.
Defined.

Lemma copyFile_completes_with_tokens_in_part_order_witness :
  exists t0 parts tl,
    trace
      (@copyFile Sample.package Sample.world "dest-bucket" "src-bucket" "tcrtr"
         "dest-bucket" "tcrtr-copy" 102400 [Sample.Routines 2] 2
         ((OnResults <$>
             [mkUploadPart 2 "etag-2"; mkUploadPart 1 "etag-1";
              mkUploadPart 3 "etag-3"; mkUploadPart 5 "etag-5";
              mkUploadPart 4 "etag-4"]) ++ []) ∅) =
    t0 ++ [publishProgress (newProgressEvent TransferCompletedEvent 482048 482048);
           CompleteMultipartUpload "dest-bucket"
             (mkIMUR "dest-bucket" "tcrtr-copy" "3F79722737D1469980DACEDCA325BB52")
             parts] ++ tl
    /\ PartNumber <$> parts = [1; 2; 3; 4; 5].
Proof.
  destruct (@copyFile_completes_with_tokens_in_part_order Sample.package
              Sample.world "dest-bucket" "src-bucket" "tcrtr" "dest-bucket"
              "tcrtr-copy" 102400 2 [Sample.Routines 2]
              [mkUploadPart 2 "etag-2"; mkUploadPart 1 "etag-1";
               mkUploadPart 3 "etag-3"; mkUploadPart 5 "etag-5";
               mkUploadPart 4 "etag-4"]
              [] ∅ Sample.copyParts [GetObjectDetailedMeta "src-bucket" "tcrtr"]
              (mkIMUR "dest-bucket" "tcrtr-copy" "3F79722737D1469980DACEDCA325BB52"))
    as (t0 & parts & tl & Ht & Hn & _).
  - vm_compute. reflexivity.
  - reflexivity.
  - vm_compute. eapply perm_trans; [apply perm_swap|].
    do 3 apply perm_skip. apply perm_swap.
  - exists t0, parts, tl. split; [exact Ht | exact Hn].
Defined.

(** ** The plan of a copy *)

Section CopyPlan.
Context `{World}.

Lemma getCopyParts_loop_plan objectSize partSize :
  1 <= partSize -> objectSize + partSize < 2 ^ 63 ->
  forall fuel i offset,
    0 <= offset -> objectSize - offset <= Z.of_nat fuel ->
    let count :=
      if offset <? objectSize
      then (objectSize - offset + partSize - 1) / partSize else 0 in
    exists parts,
      getCopyParts_loop fuel i offset objectSize partSize = Some parts
      /\ len parts = count
      /\ forall j, 0 <= j < count ->
           index parts j =
             Some (mkCopyPart (i + 1 + j) (offset + j * partSize)
                     (GetPartEnd (offset + j * partSize) objectSize partSize)).
Proof.
  intros Hps Hmax fuel.
  induction fuel as [|fuel IH]; intros i offset Hoff Hfuel count; subst count.
  - simpl. assert (E : (offset <? objectSize) = false) by (apply Z.ltb_ge; lia).
    rewrite E. exists []. split; [reflexivity|]. split; [reflexivity|]. lia.
  - simpl. destruct (offset <? objectSize) eqn:E.
    2:{ exists []. split; [reflexivity|]. split; [reflexivity|]. lia. }
    apply Z.ltb_lt in E.
    assert (Hadd : add64 offset partSize = offset + partSize).
    { apply wrap64_id. unfold int64_range. lia. }
    rewrite Hadd.
    destruct (IH (i + 1) (offset + partSize)) as (parts & Hloop & Hlen & Hidx);
      [lia | lia |].
    rewrite Hloop. simpl.
    assert (Hcount : (objectSize - offset + partSize - 1) / partSize =
                     1 + (if offset + partSize <? objectSize
                          then (objectSize - (offset + partSize) + partSize - 1)
                               / partSize
                          else 0)).
    { replace (objectSize - offset + partSize - 1)
        with ((objectSize - offset - 1) + 1 * partSize) by lia.
      rewrite Z.div_add by lia.
      destruct (offset + partSize <? objectSize) eqn:E2.
      - replace (objectSize - (offset + partSize) + partSize - 1)
          with (objectSize - offset - 1) by lia. lia.
      - apply Z.ltb_ge in E2. rewrite Z.div_small by lia. lia. }
    eexists. split; [reflexivity|]. split.
    + unfold len in *. rewrite length_cons, Hcount. lia.
    + intros j Hj. rewrite Hcount in Hj.
      destruct (decide (j = 0)) as [->|Hj0].
      * rewrite Z.mul_0_l, !Z.add_0_r. reflexivity.
      * assert (Hprev : index parts (j - 1) =
                  Some (mkCopyPart (i + 1 + 1 + (j - 1))
                          (offset + partSize + (j - 1) * partSize)
                          (GetPartEnd (offset + partSize + (j - 1) * partSize)
                             objectSize partSize))) by (apply Hidx; lia).
        apply index_Some in Hprev as [_ Hprev]. apply index_Some.
        split; [lia|].
        replace (Z.to_nat j) with (S (Z.to_nat (j - 1))) by lia.
        simpl. rewrite Hprev.
        replace (offset + partSize + (j - 1) * partSize)
          with (offset + j * partSize) by lia.
        replace (i + 1 + 1 + (j - 1)) with (i + 1 + j) by lia. reflexivity.
Qed.

(** X8. The plan getCopyParts makes of an object of [objectSize] bytes, for a
    part size of at least one byte that cannot carry the offsets past int64:
    as many parts as [partSize] goes into the size, rounded up, numbered from
    1, part [j+1] starting at [j * partSize]; none for an empty object. The
    loop ends. *)
Theorem getCopyParts_plans_every_part
    (bucket objectKey : string) (partSize objectSize : Z) (meta : Meta)
    (fs : Files) :
  remote_Meta bucket objectKey = inl meta ->
  ContentLength meta = inl objectSize ->
  1 <= partSize -> 0 <= objectSize -> objectSize + partSize < 2 ^ 63 ->
  let count := (objectSize + partSize - 1) / partSize in
  exists parts,
    getCopyParts bucket objectKey partSize fs =
      (Val (inl parts), fs, [GetObjectDetailedMeta bucket objectKey])
    /\ len parts = count
    /\ (objectSize = 0 -> parts = [])
    /\ numbered parts
    /\ forall j, 0 <= j < count ->
         index parts j =
           Some (mkCopyPart (j + 1) (j * partSize)
                   (GetPartEnd (j * partSize) objectSize partSize)).
Proof.
  intros Hmeta Hsize Hps Hos Hmax count.
  destruct (getCopyParts_loop_plan objectSize partSize Hps Hmax
              (Z.to_nat objectSize) 0 0) as (parts & Hloop & Hlen & Hidx);
    [lia | lia |].
  assert (Hcount : (if 0 <? objectSize
                    then (objectSize - 0 + partSize - 1) / partSize else 0)
                   = count).
  { subst count. destruct (0 <? objectSize) eqn:E.
    - f_equal. lia.
    - apply Z.ltb_ge in E. assert (objectSize = 0) as -> by lia.
      symmetry. apply Z.div_small. lia. }
  rewrite Hcount in Hlen, Hidx.
  exists parts. split.
  { unfold getCopyParts, bucket_GetObjectDetailedMeta.
    unfold bind at 1. unfold bind at 1. unfold emit, ret at 1.
    rewrite Hmeta, Hsize, Hloop. reflexivity. }
  split; [exact Hlen|]. split.
  { intros ->. subst count. simpl in Hlen.
    rewrite Z.div_small in Hlen by lia.
    destruct parts; [reflexivity | discriminate]. }
  split.
  - intros i p Hp.
    assert (Hi : 0 <= Z.of_nat i < count).
    { rewrite <- Hlen. unfold len. apply lookup_lt_Some in Hp. lia. }
    specialize (Hidx _ Hi). apply index_Some in Hidx as [_ Hidx].
    rewrite Nat2Z.id, Hp in Hidx. injection Hidx as ->. simpl. lia.
  - intros j Hj. rewrite (Hidx j Hj). rewrite !Z.add_0_l.
    replace (1 + j) with (j + 1) by lia. reflexivity.
Qed.

End CopyPlan.

Lemma getCopyParts_plans_every_part_witness :
  exists parts,
    @getCopyParts Sample.package Sample.world "src-bucket" "tcrtr" 102400 ∅ =
      (Val (inl parts), ∅, [GetObjectDetailedMeta "src-bucket" "tcrtr"])
    /\ len parts = 5.
Proof.
  destruct (@getCopyParts_plans_every_part Sample.package Sample.world
              "src-bucket" "tcrtr" 102400 482048
              (mkMeta (inl 482048) "Sat, 07 Nov 2015 09:00:00 GMT"
                 "2351E662233817A7AE974D8C5B0876DD-5") ∅)
    as (parts & Hrun & Hlen & _); try reflexivity; try lia.
  exists parts. split; [exact Hrun | exact Hlen].
Defined.

(** ** Runs that start a new multipart upload *)

Lemma pendingParts_fresh parts :
  pendingParts parts (replicate (length parts) false) = parts.
Proof. induction parts as [|p parts IH]; simpl; [reflexivity | rewrite IH; reflexivity]. Qed.

Lemma getCompletedBytes_range_fresh parts k n b :
  (k + length parts <= n)%nat ->
  getCompletedBytes_range (replicate n false) (Z.of_nat k) parts b = Some b.
Proof.
  revert k. induction parts as [|p parts IH]; intros k Hk; simpl; [reflexivity|].
  simpl in Hk.
  assert (E : index (replicate n false) (Z.of_nat k) = Some false).
  { apply index_Some. split; [lia|]. rewrite Nat2Z.id.
    apply lookup_replicate. split; [reflexivity | lia]. }
  rewrite E. replace (Z.of_nat k + 1) with (Z.of_nat (S k)) by lia.
  apply IH. lia.
Qed.

Section FreshStart.
Context `{World} `{Digest}.
Context `{Json uploadCheckpoint} `{Json copyCheckpoint}.

Lemma fresh_parts_pending (chunks : list FileChunk) :
  Chunk <$> List.filter (fun p => negb (IsCompleted p))
              ((fun part => mkCpPart part zeroUploadPart false) <$> chunks)
  = chunks.
Proof.
  induction chunks as [|c chunks IH]; [reflexivity|].
  rewrite fmap_cons. simpl. f_equal. exact IH.
Qed.

Lemma fresh_parts_done (chunks : list FileChunk) :
  List.filter IsCompleted
    ((fun part => mkCpPart part zeroUploadPart false) <$> chunks) = [].
Proof.
  induction chunks as [|c chunks IH]; [reflexivity|].
  rewrite fmap_cons. simpl. exact IH.
Qed.

(** X9. A checkpointed upload whose checkpoint does not validate starts afresh.
    When the record that [load] gives (the zero record when the file is
    missing) has another magic or a wrong MD5, or the local file has another
    size or modification time than the record says, the run initiates a new
    multipart upload, removes the checkpoint file, reports 0 bytes done in
    its Started event, gives its workers the new upload id and schedules
    every chunk of the file. *)
Theorem checkpointed_upload_starts_afresh
    (bucket objectKey filePath cpFilePath : string) (partSize routines : Z)
    (options : list Option) (msgs : list Msg) (fs : Files)
    (old : uploadCheckpoint) (err : option error) (st : FileInfo)
    (chunks : list FileChunk) (imur : InitiateMultipartUploadResult) :
  uploadCheckpoint_load zeroUploadCheckpoint cpFilePath fs =
    (Val (old, err), fs, [ReadFile cpFilePath]) ->
  u_Magic old <> uploadCpMagic
  \/ u_MD5 old <> base64_EncodeToString (md5_Sum (marshal_or_nil (set_u_MD5 "" old)))
  \/ st_Size (u_FileStat old) <> fi_Size st
  \/ st_LastModified (u_FileStat old) <> fi_ModTime st ->
  os_Open filePath = None -> fd_Stat filePath = inl st ->
  SplitFileByPartSize filePath partSize = inl chunks ->
  remote_Initiate bucket objectKey options = inl imur ->
  let r := uploadFileWithCp bucket objectKey filePath partSize options
             cpFilePath routines msgs fs in
  let session := mkIMUR bucket objectKey (imur_UploadID imur) in
  exists t0 tl,
    Forall (fun a => a = Remove cpFilePath \/ a = Open filePath) t0
    /\ trace r =
         ReadFile cpFilePath :: t0
         ++ [Open filePath; InitiateMultipartUpload bucket objectKey;
             Remove cpFilePath;
             publishProgress
               (newProgressEvent TransferStartedEvent 0 (fi_Size st))]
         ++ ((fun w => go_worker w session) <$> seqZ 1 routines)
         ++ go_scheduler chunks :: tl.
Proof.
  intros Hload Hbad Hopen Hstat Hsplit Hinit r session. subst r.
  set (ucp := mkUploadCheckpoint uploadCpMagic (u_MD5 old) filePath
                (mkCpStat (fi_Size st) (fi_ModTime st) "") objectKey
                (imur_UploadID imur)
                ((fun part => mkCpPart part zeroUploadPart false) <$> chunks)).
  assert (Hvalid : forall fs', exists tv,
            uploadCheckpoint_isValid old filePath fs' = (Val (false, None), fs', tv)
            /\ (tv = [] \/ tv = [Open filePath])).
  { intros fs'. unfold uploadCheckpoint_isValid.
    destruct (negb (String.eqb (u_Magic old) uploadCpMagic)
              || negb (String.eqb
                         (base64_EncodeToString
                            (md5_Sum (marshal_or_nil (set_u_MD5 "" old))))
                         (u_MD5 old))) eqn:E.
    - exists []. split; [reflexivity | left; reflexivity].
    - apply orb_false_elim in E as [E1 E2].
      apply negb_false_iff, String.eqb_eq in E1.
      apply negb_false_iff, String.eqb_eq in E2.
      exists [Open filePath]. split; [|right; reflexivity].
      rewrite bind_emit, Hopen, Hstat. unfold calcFileMD5.
      destruct Hbad as [Hb|[Hb|Hb]]; [congruence | congruence |].
      assert (E : negb (st_Size (u_FileStat old) =? fi_Size st)
                  || negb (st_LastModified (u_FileStat old) =? fi_ModTime st)
                  = true).
      { destruct Hb as [Hb|Hb]; apply Z.eqb_neq in Hb; rewrite Hb;
          [reflexivity | apply orb_true_r]. }
      rewrite E. reflexivity. }
  assert (Hprep : forall fs', prepare old objectKey filePath
                    partSize bucket options fs' =
                  (Val (ucp, None), fs',
                   [Open filePath; InitiateMultipartUpload bucket objectKey])).
  { intros fs'. unfold prepare. rewrite bind_emit, Hopen, Hstat.
    unfold calcFileMD5. rewrite Hsplit.
    unfold bucket_InitiateMultipartUpload.
    unfold bind at 1. unfold bind at 1. unfold emit, ret at 1. rewrite Hinit.
    reflexivity. }
  assert (Hbytes : uploadCheckpoint_getCompletedBytes ucp = 0).
  { rewrite uploadCheckpoint_getCompletedBytes_sum. unfold doneSizes, ucp. simpl.
    rewrite fresh_parts_done. reflexivity. }
  assert (Htodo : uploadCheckpoint_todoParts ucp = chunks).
  { rewrite uploadCheckpoint_todoParts_pending. unfold pendingChunks, ucp. simpl.
    apply fresh_parts_pending. }
  assert (Hrm : forall fs', os_Remove cpFilePath fs' =
                            (Val tt, delete cpFilePath fs', [Remove cpFilePath]))
    by reflexivity.
  assert (Hrest : forall fs1, exists tv tl,
            (tv = [] \/ tv = [Open filePath])
            /\ trace ((v <~ uploadCheckpoint_isValid old filePath ;;
                       match v with
                       | (true, None) =>
                           uploadFileWithCp_run bucket objectKey cpFilePath
                             routines msgs old
                       | _ =>
                           p <~ prepare old objectKey filePath partSize bucket
                                  options ;;
                           match p with
                           | (_, Some err) => ret (Some err)
                           | (ucp, None) =>
                               os_Remove cpFilePath ;;;
                               uploadFileWithCp_run bucket objectKey cpFilePath
                                 routines msgs ucp
                           end
                       end) fs1) =
                 tv ++ [Open filePath; InitiateMultipartUpload bucket objectKey;
                        Remove cpFilePath;
                        publishProgress
                          (newProgressEvent TransferStartedEvent 0 (fi_Size st))]
                 ++ ((fun w => go_worker w session) <$> seqZ 1 routines)
                 ++ go_scheduler chunks :: tl).
  { intros fs1. destruct (Hvalid fs1) as (tv & Hv & Htv).
    destruct (uploadFileWithCp_run_tail bucket objectKey cpFilePath routines
                msgs ucp (delete cpFilePath fs1)) as (tl & Htl & _).
    rewrite Hbytes, Htodo in Htl.
    exists tv, tl. split; [exact Htv|].
    rewrite (bind_Val _ _ _ _ _ _ Hv). cbv beta iota.
    rewrite (bind_Val _ _ _ _ _ _ (Hprep _)). cbv beta iota.
    rewrite (bind_Val _ _ _ _ _ _ (Hrm _)).
    unfold trace in *. cbn [snd]. rewrite Htl. reflexivity. }
  unfold uploadFileWithCp.
  rewrite (bind_Val _ _ _ _ _ _ Hload). cbv beta iota.
  destruct err as [e|].
  - rewrite (bind_Val _ _ _ _ _ _ (Hrm _)).
    destruct (Hrest (delete cpFilePath fs)) as (tv & tl & Htv & Htr).
    exists (Remove cpFilePath :: tv), tl. split.
    + apply Forall_cons. split; [left; reflexivity|].
      destruct Htv as [-> | ->]; [constructor|].
      apply Forall_cons. split; [right; reflexivity | constructor].
    + unfold trace in *. cbn [snd]. rewrite Htr. reflexivity.
  - rewrite bind_ret.
    destruct (Hrest fs) as (tv & tl & Htv & Htr).
    exists tv, tl. split.
    + destruct Htv as [-> | ->]; [constructor|].
      apply Forall_cons. split; [right; reflexivity | constructor].
    + unfold trace in *. cbn [snd]. rewrite Htr. reflexivity.
Qed.

(** X10. A checkpointed copy never resumes. Whatever record the checkpoint file
    gives, as long as its magic is not that of a download checkpoint (the
    records the copy saves carry copyCpMagic), the run asks for the source
    object anew, initiates a new multipart upload, removes the checkpoint
    file, reports 0 bytes done and schedules every part of the plan. *)
Theorem checkpointed_copy_never_resumes
    (srcBucketName srcObjectKey destBucketName destObjectKey cpFilePath : string)
    (partSize routines objectSize : Z) (options : list Option)
    (msgs : list Msg) (fs : Files) (ccp : copyCheckpoint) (err : option error)
    (meta : Meta) (plan : list copyPart)
    (imur : InitiateMultipartUploadResult) :
  copyCheckpoint_load zeroCopyCheckpoint cpFilePath fs =
    (Val (ccp, err), fs, [ReadFile cpFilePath]) ->
  c_Magic ccp <> downloadCpMagic ->
  remote_Meta srcBucketName srcObjectKey = inl meta ->
  ContentLength meta = inl objectSize ->
  getCopyParts_loop (Z.to_nat objectSize) 0 0 objectSize partSize = Some plan ->
  remote_Initiate destBucketName destObjectKey options = inl imur ->
  let r := copyFileWithCp srcBucketName srcObjectKey destBucketName
             destObjectKey partSize options cpFilePath routines msgs fs in
  let session := mkIMUR destBucketName destObjectKey (imur_UploadID imur) in
  exists tl,
    trace r =
      ReadFile cpFilePath
      :: match err with
         | Some _ => [Remove cpFilePath]
         | None => []
         end
      ++ [GetObjectDetailedMeta srcBucketName srcObjectKey;
          GetObjectDetailedMeta srcBucketName srcObjectKey;
          InitiateMultipartUpload destBucketName destObjectKey;
          Remove cpFilePath;
          publishProgress (newProgressEvent TransferStartedEvent 0 objectSize)]
      ++ ((fun w => go_copyWorker w session) <$> seqZ 1 routines)
      ++ go_copyScheduler plan :: tl.
Proof.
  intros Hload Hmagic Hmeta Hsize Hplan Hinit r session. subst r.
  set (n := length plan).
  set (new := mkCopyCheckpoint copyCpMagic (c_MD5 ccp) srcBucketName srcObjectKey
                destBucketName destObjectKey (imur_UploadID imur)
                (mkObjectStat objectSize (LastModified meta) (Etag meta))
                plan (replicate n zeroUploadPart) (replicate n false)).
  assert (Hvalid : forall fs', copyCheckpoint_isValid ccp srcBucketName
                                 srcObjectKey fs' = (Val (false, None), fs', [])).
  { intros fs'. unfold copyCheckpoint_isValid.
    destruct (String.eqb (c_Magic ccp) downloadCpMagic) eqn:E;
      [apply String.eqb_eq in E; contradiction | reflexivity]. }
  assert (Hhead : forall fs', bucket_GetObjectDetailedMeta srcBucketName
                                srcObjectKey fs' =
                  (Val (inl meta), fs',
                   [GetObjectDetailedMeta srcBucketName srcObjectKey])).
  { intros fs'. unfold bucket_GetObjectDetailedMeta. rewrite bind_emit, Hmeta.
    reflexivity. }
  assert (Hparts : forall fs', getCopyParts srcBucketName srcObjectKey partSize
                                 fs' =
                   (Val (inl plan), fs',
                    [GetObjectDetailedMeta srcBucketName srcObjectKey])).
  { intros fs'. unfold getCopyParts. rewrite (bind_Val _ _ _ _ _ _ (Hhead _)).
    rewrite Hsize, Hplan. reflexivity. }
  assert (Hi : forall fs', bucket_InitiateMultipartUpload destBucketName
                             destObjectKey options fs' =
               (Val (inl imur), fs',
                [InitiateMultipartUpload destBucketName destObjectKey])).
  { intros fs'. unfold bucket_InitiateMultipartUpload.
    rewrite bind_emit, Hinit. reflexivity. }
  assert (Hprep : forall fs', copyCheckpoint_prepare ccp srcBucketName
                    srcObjectKey destBucketName destObjectKey partSize options
                    fs' =
                  (Val (new, None), fs',
                   [GetObjectDetailedMeta srcBucketName srcObjectKey;
                    GetObjectDetailedMeta srcBucketName srcObjectKey;
                    InitiateMultipartUpload destBucketName destObjectKey])).
  { intros fs'. unfold copyCheckpoint_prepare.
    rewrite (bind_Val _ _ _ _ _ _ (Hhead _)). rewrite Hsize.
    rewrite (bind_Val _ _ _ _ _ _ (Hparts _)).
    rewrite (bind_Val _ _ _ _ _ _ (Hi _)). reflexivity. }
  assert (Hrm : forall fs', os_Remove cpFilePath fs' =
                            (Val tt, delete cpFilePath fs', [Remove cpFilePath]))
    by reflexivity.
  assert (Hrun : forall fs', exists tl,
            trace (copyFileWithCp_run destBucketName destObjectKey cpFilePath
                     routines msgs new fs') =
              publishProgress (newProgressEvent TransferStartedEvent 0 objectSize)
              :: ((fun w => go_copyWorker w session) <$> seqZ 1 routines)
              ++ go_copyScheduler plan :: tl).
  { intros fs'. unfold copyFileWithCp_run. cbv zeta.
    unfold copyCheckpoint_todoParts, copyCheckpoint_getCompletedBytes.
    simpl c_Parts. simpl c_PartStat.
    assert (Ht : todoParts_range plan 0 (replicate n false) [] = Some plan).
    { change 0 with (Z.of_nat 0).
      rewrite todoParts_range_pending
        by (rewrite length_replicate; unfold n; lia).
      rewrite drop_0. unfold n. rewrite pendingParts_fresh. reflexivity. }
    assert (Hb : getCompletedBytes_range (replicate n false) 0 plan 0 = Some 0).
    { change 0 with (Z.of_nat 0) at 1.
      apply getCompletedBytes_range_fresh. unfold n. lia. }
    rewrite Ht, Hb.
    rewrite !bind_ret, bind_emit, bind_start_workers, bind_emit.
    eexists. unfold trace. cbn [snd]. reflexivity. }
  unfold copyFileWithCp. cbv zeta.
  rewrite (bind_Val _ _ _ _ _ _ Hload). cbv beta iota.
  destruct err as [e|].
  - rewrite (bind_Val _ _ _ _ _ _ (Hrm _)).
    rewrite (bind_Val _ _ _ _ _ _ (Hvalid _)). cbv beta iota.
    rewrite (bind_Val _ _ _ _ _ _ (Hprep _)). cbv beta iota.
    rewrite (bind_Val _ _ _ _ _ _ (Hrm _)).
    destruct (Hrun (delete cpFilePath (delete cpFilePath fs))) as [tl Htl].
    exists tl. unfold trace in *. cbn [snd]. rewrite Htl. reflexivity.
  - rewrite bind_ret.
    rewrite (bind_Val _ _ _ _ _ _ (Hvalid _)). cbv beta iota.
    rewrite (bind_Val _ _ _ _ _ _ (Hprep _)). cbv beta iota.
    rewrite (bind_Val _ _ _ _ _ _ (Hrm _)).
    destruct (Hrun (delete cpFilePath fs)) as [tl Htl].
    exists tl. unfold trace in *. cbn [snd]. rewrite Htl. reflexivity.
Qed.

End FreshStart.

Lemma checkpointed_upload_starts_afresh_witness :
  exists t0 tl,
    trace
      (@uploadFileWithCp Sample.package Sample.world Sample.digest
         Sample.jsonUpload "bucket" "turtr" "BingWallpaper-2015-11-07.jpg"
         102400 [Sample.Checkpoint true "upload.cp"] "upload.cp" 1
         [OnFailed "ErrorHooker"] ∅) =
      ReadFile "upload.cp" :: t0
      ++ [Open "BingWallpaper-2015-11-07.jpg";
          InitiateMultipartUpload "bucket" "turtr"; Remove "upload.cp";
          publishProgress (newProgressEvent TransferStartedEvent 0 482048)]
      ++ ((fun w => go_worker w
                      (mkIMUR "bucket" "turtr" "3F79722737D1469980DACEDCA325BB52"))
            <$> seqZ 1 1)
      ++ go_scheduler Sample.chunks :: tl.
Proof.
  destruct (@checkpointed_upload_starts_afresh Sample.package
              Sample.world Sample.digest Sample.jsonUpload "bucket" "turtr"
              "BingWallpaper-2015-11-07.jpg" "upload.cp" 102400 1
              [Sample.Checkpoint true "upload.cp"] [OnFailed "ErrorHooker"] ∅
              zeroUploadCheckpoint (Some "open: no such file or directory")
              (mkFileInfo 482048 Sample.modTime) Sample.chunks
              (mkIMUR "bucket" "turtr" "3F79722737D1469980DACEDCA325BB52"))
    as (t0 & tl & _ & Htr); try reflexivity.
  - left. vm_compute. discriminate.
  - exists t0, tl. exact Htr.
Defined.

Lemma checkpointed_copy_never_resumes_witness :
  let fs : Files :=
    <["tcrtr-copy.cp" := Sample.encCopy (Sample.seal_copy Sample.ccp_second_done)]> ∅ in
  exists tl,
    trace
      (@copyFileWithCp Sample.package Sample.world Sample.digest Sample.jsonCopy
         "src-bucket" "tcrtr" "dest-bucket" "tcrtr-copy" 102400
         [Sample.Checkpoint true ""] "tcrtr-copy.cp" 1 Sample.allResults fs) =
      ReadFile "tcrtr-copy.cp"
      :: [GetObjectDetailedMeta "src-bucket" "tcrtr";
          GetObjectDetailedMeta "src-bucket" "tcrtr";
          InitiateMultipartUpload "dest-bucket" "tcrtr-copy";
          Remove "tcrtr-copy.cp";
          publishProgress (newProgressEvent TransferStartedEvent 0 482048)]
      ++ ((fun w => go_copyWorker w
                      (mkIMUR "dest-bucket" "tcrtr-copy"
                         "3F79722737D1469980DACEDCA325BB52")) <$> seqZ 1 1)
      ++ go_copyScheduler Sample.copyParts :: tl.
Proof.
  intros fs.
  apply (@checkpointed_copy_never_resumes Sample.package Sample.world
           Sample.digest Sample.jsonCopy "src-bucket" "tcrtr" "dest-bucket"
           "tcrtr-copy" "tcrtr-copy.cp" 102400 1 482048
           [Sample.Checkpoint true ""] Sample.allResults fs
           (Sample.seal_copy Sample.ccp_second_done) None
           (mkMeta (inl 482048) "Sat, 07 Nov 2015 09:00:00 GMT"
              "2351E662233817A7AE974D8C5B0876DD-5")
           Sample.copyParts
           (mkIMUR "dest-bucket" "tcrtr-copy" "3F79722737D1469980DACEDCA325BB52")).
  - vm_compute. reflexivity.
  - vm_compute. discriminate.
  - reflexivity.
  - reflexivity.
  - vm_compute. reflexivity.
  - reflexivity.
Defined.

(** ** Updating a checkpoint *)

Lemma markPart_insert cp part q :
  u_Parts cp !! Z.to_nat (PartNumber part - 1) = Some q ->
  markPart cp part =
    set_u_Parts (<[Z.to_nat (PartNumber part - 1) :=
                     mkCpPart (Chunk q) part true]> (u_Parts cp)) cp.
Proof.
  intros Hq. unfold markPart. f_equal. apply list_eq. intros i.
  destruct (decide (i = Z.to_nat (PartNumber part - 1))) as [->|Hi].
  - rewrite list_lookup_alter_eq, Hq. simpl.
    symmetry. apply list_lookup_insert_eq. eapply lookup_lt_Some, Hq.
  - rewrite list_lookup_alter_ne, list_lookup_insert_ne by congruence.
    reflexivity.
Qed.

Lemma doneSizes_markPart cp part q :
  u_Parts cp !! Z.to_nat (PartNumber part - 1) = Some q ->
  sumZ (doneSizes (markPart cp part)) =
    sumZ (doneSizes cp) + (if IsCompleted q then 0 else fc_Size (Chunk q)).
Proof.
  intros Hq. rewrite (markPart_insert cp part q Hq). unfold doneSizes. simpl.
  set (i := Z.to_nat (PartNumber part - 1)) in *.
  assert (Hi : (i < length (u_Parts cp))%nat) by (eapply lookup_lt_Some, Hq).
  rewrite insert_take_drop by exact Hi.
  rewrite <- (take_drop_middle (u_Parts cp) i q Hq) at 3.
  rewrite !List.filter_app, !fmap_app, !sumZ_app. simpl.
  destruct (IsCompleted q); unfold fmap; simpl; lia.
Qed.

Lemma filter_other_numbers n parts partStat :
  (forall j p, parts !! j = Some p -> n < cp_Number p) ->
  List.filter (fun p => negb (cp_Number p =? n)) (pendingParts parts partStat)
  = pendingParts parts partStat.
Proof.
  revert partStat.
  induction parts as [|p parts IH]; intros partStat Hnum; [reflexivity|].
  destruct partStat as [|b partStat]; [reflexivity|]. simpl.
  assert (Htail : forall j p0, parts !! j = Some p0 -> n < cp_Number p0).
  { intros j p0 Hp0. apply (Hnum (S j)). exact Hp0. }
  destruct b; [apply IH, Htail|].
  simpl. assert (Hp : n < cp_Number p) by (apply (Hnum 0%nat); reflexivity).
  assert (E : (cp_Number p =? n) = false) by (apply Z.eqb_neq; lia).
  rewrite E. simpl. f_equal. apply IH, Htail.
Qed.

Lemma pendingParts_mark k parts partStat i :
  (forall j p, parts !! j = Some p -> cp_Number p = k + Z.of_nat j + 1) ->
  length partStat = length parts -> (i < length parts)%nat ->
  pendingParts parts (<[i := true]> partStat) =
    List.filter (fun p => negb (cp_Number p =? k + Z.of_nat i + 1))
      (pendingParts parts partStat).
Proof.
  revert k partStat i.
  induction parts as [|p parts IH]; intros k partStat i Hnum Hlen Hi;
    [simpl in Hi; lia|].
  destruct partStat as [|b partStat]; [discriminate|].
  assert (Hp : cp_Number p = k + 1).
  { rewrite (Hnum 0%nat p eq_refl). lia. }
  assert (Htail : forall j p0, parts !! j = Some p0 ->
                    cp_Number p0 = (k + 1) + Z.of_nat j + 1).
  { intros j p0 Hp0. rewrite (Hnum (S j) p0 Hp0). lia. }
  destruct i as [|i]; simpl.
  - assert (Hrest : List.filter
                      (fun p0 => negb (cp_Number p0 =? k + Z.of_nat 0 + 1))
                      (pendingParts parts partStat) = pendingParts parts partStat).
    { apply filter_other_numbers. intros j p0 Hp0.
      rewrite (Htail j p0 Hp0). lia. }
    destruct b; simpl.
    + symmetry. exact Hrest.
    + assert (E : (cp_Number p =? k + Z.of_nat 0 + 1) = true)
        by (apply Z.eqb_eq; lia).
      rewrite E. simpl. symmetry. exact Hrest.
  - simpl in Hlen, Hi.
    rewrite (IH (k + 1) partStat i Htail) by lia.
    replace (k + 1 + Z.of_nat i + 1) with (k + Z.of_nat (S i) + 1) by lia.
    destruct b; simpl; [reflexivity|].
    assert (E : (cp_Number p =? k + Z.of_nat (S i) + 1) = false)
      by (apply Z.eqb_neq; lia).
    rewrite E. reflexivity.
Qed.

Section Updates.
Context `{World} `{Digest}.
Context `{Json uploadCheckpoint} `{Json copyCheckpoint}.

(** X11. [update] on a copy checkpoint whose three slices have the length of the
    plan: for a part number of the plan it stores the token, marks the part
    done and leaves the plan and the lengths as they are, and [todoParts]
    then lists what it listed before without the part of that number; for
    any other number it panics. *)
Theorem update_takes_part_off_todo
    (ccp : copyCheckpoint) (part : UploadPart) (fs : Files) :
  length (c_PartStat ccp) = length (c_Parts ccp) ->
  length (c_CopyParts ccp) = length (c_Parts ccp) ->
  numbered (c_Parts ccp) ->
  let n := PartNumber part in
  (1 <= n <= len (c_Parts ccp) ->
   exists ccp',
     copyCheckpoint_update ccp part fs = (Val ccp', fs, [])
     /\ c_Parts ccp' = c_Parts ccp
     /\ length (c_PartStat ccp') = length (c_Parts ccp)
     /\ length (c_CopyParts ccp') = length (c_Parts ccp)
     /\ index (c_CopyParts ccp') (n - 1) = Some part
     /\ index (c_PartStat ccp') (n - 1) = Some true
     /\ copyCheckpoint_todoParts ccp' fs =
          (Val (List.filter (fun p => negb (cp_Number p =? n))
                  (pendingParts (c_Parts ccp) (c_PartStat ccp))), fs, []))
  /\ (n < 1 \/ len (c_Parts ccp) < n ->
      result (copyCheckpoint_update ccp part fs) = Panic).
Proof.
  intros Hstat Htok Hnum n. split.
  - intros Hn. unfold len in Hn.
    assert (Hi : (Z.to_nat (n - 1) < length (c_Parts ccp))%nat) by lia.
    destruct (lookup_lt_is_Some_2 (c_CopyParts ccp) (Z.to_nat (n - 1)))
      as [t Ht]; [lia|].
    destruct (lookup_lt_is_Some_2 (c_PartStat ccp) (Z.to_nat (n - 1)))
      as [b Hb]; [lia|].
    assert (E1 : index (c_CopyParts ccp) (n - 1) = Some t)
      by (apply index_Some; split; [lia | exact Ht]).
    assert (E2 : index (c_PartStat ccp) (n - 1) = Some b)
      by (apply index_Some; split; [lia | exact Hb]).
    eexists. split.
    { unfold copyCheckpoint_update, store. fold n. rewrite E1, E2. reflexivity. }
    simpl. split; [reflexivity|].
    split; [rewrite length_insert; exact Hstat|].
    split; [rewrite length_insert; exact Htok|].
    split; [apply index_Some; split; [lia | apply list_lookup_insert_eq; lia]|].
    split; [apply index_Some; split; [lia | apply list_lookup_insert_eq; lia]|].
    unfold copyCheckpoint_todoParts. simpl.
    change 0 with (Z.of_nat 0) at 1.
    rewrite todoParts_range_pending by (rewrite length_insert; lia).
    rewrite drop_0. simpl.
    rewrite (pendingParts_mark 0 (c_Parts ccp) (c_PartStat ccp) (Z.to_nat (n - 1)));
      [| intros j p Hp; rewrite (Hnum j p Hp); lia | exact Hstat | exact Hi].
    replace (0 + Z.of_nat (Z.to_nat (n - 1)) + 1) with n by lia.
    reflexivity.
  - intros Hn. unfold result, copyCheckpoint_update, store. fold n.
    assert (E1 : index (c_CopyParts ccp) (n - 1) = None).
    { apply index_None. unfold len in *. lia. }
    rewrite E1. reflexivity.
Qed.

Lemma uploadFileWithCp_results_state cpFilePath part s fs q s' :
  index (u_Parts (l_gathered s)) (PartNumber part - 1) = Some q ->
  result (uploadFileWithCp_results cpFilePath part s fs) = Val s' ->
  s' = mkLoop (l_completed s + 1) (markPart (l_gathered s) part)
         (add64 (l_completedBytes s) (fc_Size (Chunk q))).
Proof.
  intros Hq.
  assert (Hq0 := proj1 (index_Some _ _ _) Hq). destruct Hq0 as [Hn Hq0].
  rewrite (markPart_insert _ _ _ Hq0).
  unfold uploadFileWithCp_results, uploadCheckpoint_updatePart.
  unfold bind at 1. unfold bind at 1. rewrite at_index_run, Hq.
  unfold ret at 1. cbv beta iota.
  set (ucp := set_u_Parts _ (l_gathered s)).
  assert (Hq2 : index (u_Parts ucp) (PartNumber part - 1)
                = Some (mkCpPart (Chunk q) part true)).
  { apply index_Some. split; [exact Hn|].
    apply list_lookup_insert_eq. eapply lookup_lt_Some. exact Hq0. }
  destruct (dump_result_upload ucp cpFilePath fs) as [e He].
  unfold bind at 1.
  destruct (uploadCheckpoint_dump ucp cpFilePath fs) as [[r1 fs1] t1].
  unfold result in He. simpl in He. subst r1.
  unfold bind at 1. rewrite at_index_run, Hq2.
  unfold result. simpl. intros [= <-]. reflexivity.
Qed.

(** X12. The bytes the checkpointed upload reports keep pace with the record:
    when the count of the loop is what [getCompletedBytes] gives for the
    record and a part not yet marked comes in, it is so again after the
    case of [results]; a token for a part already marked is counted a second
    time, while the record stays at the same bytes. *)
Theorem reported_bytes_follow_the_record
    (cpFilePath : string) (part : UploadPart) (s s' : LoopState uploadCheckpoint)
    (fs : Files) (q : cpPart) :
  l_completedBytes s = uploadCheckpoint_getCompletedBytes (l_gathered s) ->
  index (u_Parts (l_gathered s)) (PartNumber part - 1) = Some q ->
  result (uploadFileWithCp_results cpFilePath part s fs) = Val s' ->
  let recorded := uploadCheckpoint_getCompletedBytes (l_gathered s') in
  if IsCompleted q
  then recorded = uploadCheckpoint_getCompletedBytes (l_gathered s)
       /\ l_completedBytes s' = add64 recorded (fc_Size (Chunk q))
  else l_completedBytes s' = recorded.
Proof.
  intros Hinv Hq Hres recorded. subst recorded.
  rewrite (uploadFileWithCp_results_state _ _ _ _ _ _ Hq Hres). simpl.
  apply index_Some in Hq as [_ Hq].
  rewrite Hinv, !uploadCheckpoint_getCompletedBytes_sum.
  rewrite (doneSizes_markPart _ _ _ Hq).
  destruct (IsCompleted q).
  - rewrite Z.add_0_r. split; reflexivity.
  - unfold add64. apply wrap64_add_l.
Qed.

End Updates.

Lemma update_takes_part_off_todo_witness :
  exists ccp',
    @copyCheckpoint_update Sample.ccp_first_done (mkUploadPart 3 "etag-3") ∅ =
      (Val ccp', ∅, [])
    /\ copyCheckpoint_todoParts ccp' ∅ =
         (Val [mkCopyPart 2 102400 204799; mkCopyPart 4 307200 409599;
               mkCopyPart 5 409600 482047], ∅, []).
Proof.
  destruct (@update_takes_part_off_todo Sample.ccp_first_done
              (mkUploadPart 3 "etag-3") ∅ eq_refl eq_refl
              sample_copyParts_numbered) as [Hin _].
  destruct Hin as (ccp' & Hup & _ & _ & _ & _ & _ & Htodo).
  - vm_compute. split; discriminate.
  - exists ccp'. split; [exact Hup | exact Htodo].
Defined.

Lemma reported_bytes_follow_the_record_witness :
  let s := mkLoop 0 Sample.ucp0 409600 in
  let s' := mkLoop 1 (markPart Sample.ucp0 (mkUploadPart 5 "etag-5")) 482048 in
  l_completedBytes s' = uploadCheckpoint_getCompletedBytes (l_gathered s').
Proof.
  intros s s'.
  apply (@reported_bytes_follow_the_record Sample.package Sample.world
           Sample.digest Sample.jsonUpload "upload.cp" (mkUploadPart 5 "etag-5")
           s s' ∅ (mkCpPart (mkFileChunk 5 409600 72448) zeroUploadPart false)).
  - reflexivity.
  - reflexivity.
  - vm_compute. reflexivity.
Defined.

(** ** The tokens a checkpointed upload completes with *)

Lemma length_markParts cp ps :
  length (u_Parts (markParts cp ps)) = length (u_Parts cp).
Proof.
  unfold markParts. revert cp.
  induction ps as [|p ps IH]; intros cp; simpl; [reflexivity|].
  rewrite IH. unfold markPart. simpl. apply length_alter.
Qed.

Lemma markParts_fields cp ps :
  u_ObjectKey (markParts cp ps) = u_ObjectKey cp
  /\ u_UploadID (markParts cp ps) = u_UploadID cp
  /\ u_FileStat (markParts cp ps) = u_FileStat cp.
Proof.
  unfold markParts. revert cp.
  induction ps as [|p ps IH]; intros cp; simpl; [auto|].
  destruct (IH (markPart cp p)) as (-> & -> & ->). auto.
Qed.

Lemma markParts_other cp ps i :
  (forall p, p ∈ ps -> Z.to_nat (PartNumber p - 1) <> i) ->
  u_Parts (markParts cp ps) !! i = u_Parts cp !! i.
Proof.
  unfold markParts. revert cp.
  induction ps as [|p ps IH]; intros cp Hi; simpl; [reflexivity|].
  rewrite IH by (intros q Hq; apply Hi; right; exact Hq).
  unfold markPart. simpl. apply list_lookup_alter_ne. apply Hi. left.
Qed.

Lemma markParts_lookup cp ps p :
  NoDup (PartNumber <$> ps) ->
  Forall (fun q => 1 <= PartNumber q <= len (u_Parts cp)) ps ->
  p ∈ ps ->
  exists q, u_Parts cp !! Z.to_nat (PartNumber p - 1) = Some q
            /\ u_Parts (markParts cp ps) !! Z.to_nat (PartNumber p - 1)
               = Some (mkCpPart (Chunk q) p true).
Proof.
  revert cp. induction ps as [|x ps IH]; intros cp Hnd Hr Hp.
  - inversion Hp.
  - rewrite fmap_cons in Hnd. apply NoDup_cons in Hnd as [Hx Hnd].
    apply Forall_cons in Hr as [Hrx Hr].
    change (markParts cp (x :: ps)) with (markParts (markPart cp x) ps).
    assert (Hlen : len (u_Parts (markPart cp x)) = len (u_Parts cp)).
    { unfold len, markPart. simpl. rewrite length_alter. reflexivity. }
    apply elem_of_cons in Hp as [->|Hp].
    + destruct (lookup_lt_is_Some_2 (u_Parts cp) (Z.to_nat (PartNumber x - 1)))
        as [q Hq]; [unfold len in Hrx; lia|].
      exists q. split; [exact Hq|].
      rewrite markParts_other.
      * unfold markPart. simpl. rewrite list_lookup_alter_eq, Hq. reflexivity.
      * intros p Hp E. apply Hx. apply list_elem_of_fmap. exists p.
        split; [|exact Hp].
        apply Forall_forall with (x := p) in Hr; [|exact Hp]. lia.
    + destruct (IH (markPart cp x) Hnd) as (q & Hq & Hq'); [|exact Hp|].
      { rewrite Hlen. exact Hr. }
      assert (Hne : Z.to_nat (PartNumber x - 1) <> Z.to_nat (PartNumber p - 1)).
      { intros E. apply Hx. apply list_elem_of_fmap. exists p.
        split; [|exact Hp].
        apply Forall_forall with (x := p) in Hr; [|exact Hp]. lia. }
      unfold markPart in Hq at 1. simpl in Hq.
      rewrite list_lookup_alter_ne in Hq by exact Hne.
      exists q. split; [exact Hq | exact Hq'].
Qed.

Lemma uploadCheckpoint_allParts_map cp :
  uploadCheckpoint_allParts cp = Part <$> u_Parts cp.
Proof.
  unfold uploadCheckpoint_allParts.
  assert (G : forall l acc, fold_left (fun ps part => ps ++ [Part part]) l acc
                            = acc ++ (Part <$> l)).
  { induction l as [|x l IH]; intros acc; simpl.
    - rewrite app_nil_r. reflexivity.
    - rewrite IH, <- app_assoc. reflexivity. }
  apply G.
Qed.

Section ResumedTokens.
Context `{World} `{Digest}.
Context `{Json uploadCheckpoint} `{Json copyCheckpoint}.

Lemma uploadFileWithCp_results_runs cpFilePath part s fs q :
  index (u_Parts (l_gathered s)) (PartNumber part - 1) = Some q ->
  exists fs' t,
    uploadFileWithCp_results cpFilePath part s fs =
      (Val (mkLoop (l_completed s + 1) (markPart (l_gathered s) part)
              (add64 (l_completedBytes s) (fc_Size (Chunk q)))), fs', t).
Proof.
  intros Hq.
  pose proof (uploadFileWithCp_results_state cpFilePath part s fs q) as Hst.
  assert (Hv : exists s', result (uploadFileWithCp_results cpFilePath part s fs)
                          = Val s').
  { assert (Hq0 := proj1 (index_Some _ _ _) Hq). destruct Hq0 as [Hn Hq0].
    unfold uploadFileWithCp_results, uploadCheckpoint_updatePart.
    unfold bind at 1. unfold bind at 1. rewrite at_index_run, Hq.
    unfold ret at 1. cbv beta iota.
    set (ucp := set_u_Parts _ (l_gathered s)).
    assert (Hq2 : index (u_Parts ucp) (PartNumber part - 1)
                  = Some (mkCpPart (Chunk q) part true)).
    { apply index_Some. split; [exact Hn|].
      apply list_lookup_insert_eq. eapply lookup_lt_Some. exact Hq0. }
    destruct (dump_result_upload ucp cpFilePath fs) as [e He].
    unfold bind at 1.
    destruct (uploadCheckpoint_dump ucp cpFilePath fs) as [[r1 fs1] t1].
    unfold result in He. simpl in He. subst r1.
    unfold bind at 1. rewrite at_index_run, Hq2.
    eexists. reflexivity. }
  destruct Hv as [s' Hs'].
  specialize (Hst s' Hq Hs').
  destruct (uploadFileWithCp_results cpFilePath part s fs) as [[r fs'] t].
  unfold result in Hs'. simpl in Hs'. subst r. exists fs', t. rewrite Hst.
  reflexivity.
Qed.

Lemma checkpoint_loop cpFilePath n ps rest s fs :
  Forall (fun p => 1 <= PartNumber p <= len (u_Parts (l_gathered s))) ps ->
  l_completed s + len ps = n ->
  exists b fs' t,
    select_loop n (uploadFileWithCp_results cpFilePath) uploadFileWithCp_failed
      ((OnResults <$> ps) ++ rest) s fs =
      (Val (FellThrough (mkLoop n (markParts (l_gathered s) ps) b)), fs', t).
Proof.
  revert s fs. induction ps as [|p ps IH]; intros s fs Hr Hn.
  - unfold len in Hn. simpl in Hn.
    assert (E : (l_completed s <? n) = false) by (apply Z.ltb_ge; lia).
    rewrite select_loop_done by exact E.
    destruct s as [c g b]. simpl in *. exists b, fs, [].
    replace n with c by lia. reflexivity.
  - apply Forall_cons in Hr as [Hp Hr].
    unfold len in Hn. rewrite length_cons in Hn.
    rewrite fmap_cons, <- app_comm_cons, select_loop_results.
    assert (E : (l_completed s <? n) = true) by (apply Z.ltb_lt; lia).
    rewrite E.
    destruct (lookup_lt_is_Some_2 (u_Parts (l_gathered s))
                (Z.to_nat (PartNumber p - 1))) as [q Hq];
      [unfold len in Hp; lia|].
    assert (Hix : index (u_Parts (l_gathered s)) (PartNumber p - 1) = Some q)
      by (apply index_Some; split; [lia | exact Hq]).
    destruct (uploadFileWithCp_results_runs cpFilePath p s fs q Hix)
      as (fs1 & t1 & Hstep).
    rewrite (bind_Val _ _ _ _ _ _ Hstep).
    set (s1 := mkLoop (l_completed s + 1) (markPart (l_gathered s) p)
                 (add64 (l_completedBytes s) (fc_Size (Chunk q)))).
    destruct (IH s1 fs1) as (b & fs' & t & Hloop).
    { simpl. unfold markPart. simpl. unfold len. rewrite length_alter. exact Hr. }
    { simpl. unfold len. lia. }
    destruct (l_completed s1 >=? n) eqn:Hge.
    + assert (ps = []) as ->.
      { apply Z.geb_le in Hge. simpl in Hge. destruct ps; [reflexivity|].
        rewrite length_cons in Hn. lia. }
      exists (l_completedBytes s1), fs1, t1.
      unfold result, files_after, trace. simpl. rewrite app_nil_r.
      replace n with (l_completed s + 1) by (simpl in Hn; lia). reflexivity.
    + rewrite Hloop. exists b, fs', (t1 ++ t). reflexivity.
Qed.

(** X14. When a token comes in for each part still to do, the checkpointed upload
    calls CompleteMultipartUpload with one token for each part of the plan,
    in the order of the plan: the token that came in for the parts of this
    run, the token stored in the checkpoint for the others. The call names
    the object key and the upload id stored in the checkpoint, while the
    workers were given the object key of this call of UploadFile. *)
Theorem resumed_upload_completes_with_stored_and_new_tokens
    (bucket objectKey cpFilePath : string) (routines : Z)
    (ps : list UploadPart) (rest : list Msg) (ucp : uploadCheckpoint)
    (fs : Files) :
  NoDup (PartNumber <$> ps) ->
  Forall (fun p => 1 <= PartNumber p <= len (u_Parts ucp)) ps ->
  len ps = len (uploadCheckpoint_todoParts ucp) ->
  let r := uploadFileWithCp_run bucket objectKey cpFilePath routines
             ((OnResults <$> ps) ++ rest) ucp fs in
  exists e0 t0 e parts tl,
    trace r =
      publishProgress e0
      :: ((fun w => go_worker w (mkIMUR bucket objectKey (u_UploadID ucp)))
            <$> seqZ 1 routines)
      ++ go_scheduler (uploadCheckpoint_todoParts ucp) :: t0
      ++ [publishProgress e;
          CompleteMultipartUpload bucket
            (mkIMUR bucket (u_ObjectKey ucp) (u_UploadID ucp)) parts]
      ++ tl
    /\ EventType e0 = TransferStartedEvent
    /\ EventType e = TransferCompletedEvent
    /\ length parts = length (u_Parts ucp)
    /\ (forall p, p ∈ ps -> parts !! Z.to_nat (PartNumber p - 1) = Some p)
    /\ (forall i, (forall p, p ∈ ps -> Z.to_nat (PartNumber p - 1) <> i) ->
          parts !! i = Part <$> u_Parts ucp !! i).
Proof.
  intros Hnd Hr Hlen r. subst r.
  set (b0 := uploadCheckpoint_getCompletedBytes ucp).
  destruct (checkpoint_loop cpFilePath (len (uploadCheckpoint_todoParts ucp))
              ps rest (mkLoop 0 ucp b0) fs) as (b & fs' & t & Hloop).
  { exact Hr. }
  { simpl. lia. }
  simpl in Hloop.
  set (final := markParts ucp ps) in *.
  destruct (markParts_fields ucp ps) as (Hkey & Hid & Hstat).
  fold final in Hkey, Hid, Hstat.
  assert (Hc : forall fs1, exists tl,
            trace (complete final bucket (uploadCheckpoint_allParts final)
                     cpFilePath fs1) =
            CompleteMultipartUpload bucket
              (mkIMUR bucket (u_ObjectKey ucp) (u_UploadID ucp))
              (uploadCheckpoint_allParts final) :: tl).
  { intros fs1. unfold complete, bucket_CompleteMultipartUpload.
    rewrite Hkey, Hid.
    unfold bind at 1. unfold bind at 1. unfold emit, ret at 1.
    cbv beta iota. unfold trace.
    destruct (remote_Complete _ _ _); simpl; eexists; reflexivity. }
  destruct (Hc fs') as [tl Htl].
  unfold uploadFileWithCp_run. cbv zeta. fold b0.
  rewrite bind_emit, bind_start_workers, bind_emit.
  rewrite (bind_Val _ _ _ _ _ _ Hloop). simpl l_gathered. simpl l_completedBytes.
  rewrite bind_emit.
  exists (newProgressEvent TransferStartedEvent b0 (st_Size (u_FileStat ucp))),
    t, (newProgressEvent TransferCompletedEvent b (st_Size (u_FileStat final))),
    (uploadCheckpoint_allParts final), tl.
  split.
  { unfold trace in *. cbn [snd]. rewrite Htl. reflexivity. }
  split; [reflexivity|]. split; [reflexivity|].
  rewrite uploadCheckpoint_allParts_map.
  split; [rewrite length_fmap; apply length_markParts|]. split.
  - intros p Hp. rewrite list_lookup_fmap. unfold final.
    destruct (markParts_lookup ucp ps p Hnd Hr Hp) as (q & _ & ->). reflexivity.
  - intros i Hi. rewrite !list_lookup_fmap. unfold final.
    rewrite markParts_other by exact Hi. reflexivity.
Qed.

End ResumedTokens.

Lemma resumed_upload_completes_with_stored_and_new_tokens_witness :
  let r := @uploadFileWithCp_run Sample.package Sample.world Sample.digest
             Sample.jsonUpload "bucket" "other-key" "upload.cp" 1
             ((OnResults <$> [mkUploadPart 5 "etag-5"]) ++ []) Sample.ucp0 ∅ in
  exists t0 parts tl,
    trace r =
      t0 ++ [CompleteMultipartUpload "bucket"
               (mkIMUR "bucket" "turtr" "3F79722737D1469980DACEDCA325BB52")
               parts] ++ tl
    /\ parts !! 4%nat = Some (mkUploadPart 5 "etag-5")
    /\ parts !! 0%nat = Some (mkUploadPart 1 "etag-1").
Proof.
  intros r.
  destruct (@resumed_upload_completes_with_stored_and_new_tokens Sample.package
              Sample.world Sample.digest Sample.jsonUpload "bucket" "other-key"
              "upload.cp" 1 [mkUploadPart 5 "etag-5"] [] Sample.ucp0 ∅)
    as (e0 & t0 & e & parts & tl & Htr & _ & _ & _ & Hnew & Hold).
  - apply NoDup_singleton.
  - apply Forall_cons. split; [vm_compute; split; discriminate | constructor].
  - reflexivity.
  - exists (publishProgress e0
            :: ((fun w => go_worker w
                            (mkIMUR "bucket" "other-key"
                               "3F79722737D1469980DACEDCA325BB52")) <$> seqZ 1 1)
            ++ go_scheduler (uploadCheckpoint_todoParts Sample.ucp0) :: t0
            ++ [publishProgress e]), parts, tl.
    split; [|split].
    + subst r. rewrite Htr. simpl. rewrite <- !app_assoc. reflexivity.
    + apply (Hnew (mkUploadPart 5 "etag-5")). left.
    + rewrite (Hold 0%nat); [reflexivity|].
      intros p Hp. apply list_elem_of_singleton in Hp as ->. vm_compute. lia.
Defined.

(** ** Runs that cannot read their source *)

Section NoSource.
Context `{World} `{Digest}.
Context `{Json uploadCheckpoint} `{Json copyCheckpoint}.

(** X15. When the local file cannot be opened or split, UploadFile returns an
    error; when the headers of the source object cannot be fetched, CopyFile
    returns an error. In both cases nothing was started: the run made no
    call of InitiateMultipartUpload, published no event and launched no
    worker. *)
Theorem unreadable_source_starts_no_upload
    (bucket objectKey filePath srcBucketName srcObjectKey destObjectKey : string)
    (partSize : Z) (options : list Option) (msgs : list Msg) (fs : Files)
    (eo es em : error) :
  os_Open filePath = Some eo ->
  SplitFileByPartSize filePath partSize = inr es ->
  remote_Meta srcBucketName srcObjectKey = inr em ->
  let up := UploadFile bucket objectKey filePath partSize options msgs fs in
  let cp := CopyFile bucket srcBucketName srcObjectKey destObjectKey partSize
              options msgs fs in
  (exists e, result up = Val (Some e))
  /\ Forall (fun a => isSetupStep a /\ ~ isInitiate a) (trace up)
  /\ (exists e, result cp = Val (Some e))
  /\ Forall (fun a => isSetupStep a /\ ~ isInitiate a) (trace cp).
Proof.
  intros Hopen Hsplit Hmeta up cp.
  assert (Hstep : forall a, (exists p, a = ReadFile p \/ a = Remove p \/ a = Open p)
                            \/ (exists b k, a = GetObjectDetailedMeta b k) ->
                            isSetupStep a /\ ~ isInitiate a).
  { intros a [[p [-> | [-> | ->]]] | (b & k & ->)];
      (split; [exact I | intros (b' & k' & E); discriminate]). }
  assert (Hrm : forall (e : option error) path fs1, exists fs2 t,
            (match e with
             | Some _ => os_Remove path
             | None => ret tt
             end) fs1 = (Val tt, fs2, t)
            /\ Forall (fun a => isSetupStep a /\ ~ isInitiate a) t).
  { intros [e|] path fs1.
    - eexists _, _. split; [reflexivity|].
      apply Forall_cons. split; [|constructor].
      apply Hstep. left. exists path. auto.
    - eexists _, _. split; [reflexivity | constructor]. }
  assert (Hup : (exists e, result up = Val (Some e))
                /\ Forall (fun a => isSetupStep a /\ ~ isInitiate a) (trace up)).
  { subst up.
    destruct (UploadFile_cases bucket objectKey filePath partSize options msgs fs)
      as [[err E]|[[_ E]|[_ E]]]; rewrite E.
    - split; [exists err; reflexivity | constructor].
    - set (path := FilePath (getCpConfig options filePath).1).
      unfold uploadFileWithCp.
      destruct (uploadCheckpoint_load_run zeroUploadCheckpoint path fs)
        as [[ucp lerr] Hload].
      rewrite (bind_Val _ _ _ _ _ _ Hload). cbv beta iota.
      destruct (Hrm lerr path fs) as (fs2 & trm & Hrm' & Htrm).
      rewrite (bind_Val _ _ _ _ _ _ Hrm').
      assert (Hv : exists v tv,
                uploadCheckpoint_isValid ucp filePath fs2 = (Val v, fs2, tv)
                /\ v <> (true, None)
                /\ Forall (fun a => isSetupStep a /\ ~ isInitiate a) tv).
      { unfold uploadCheckpoint_isValid.
        destruct (negb (String.eqb (u_Magic ucp) uploadCpMagic) || _).
        - eexists _, _. split; [reflexivity|]. split; [discriminate | constructor].
        - rewrite bind_emit, Hopen. eexists _, _. split; [reflexivity|].
          split; [discriminate|].
          apply Forall_cons. split; [|constructor].
          apply Hstep. left. exists filePath. auto. }
      destruct Hv as (v & tv & Hv & Hne & Htv).
      rewrite (bind_Val _ _ _ _ _ _ Hv).
      assert (Hp : exists p,
                prepare ucp objectKey filePath partSize bucket options fs2 =
                  (Val (p, Some eo), fs2, [Open filePath])).
      { unfold prepare. rewrite bind_emit, Hopen. eexists. reflexivity. }
      destruct Hp as [p Hp].
      assert (Hrest : (p0 <~ prepare ucp objectKey filePath partSize bucket options ;;
                       match p0 with
                       | (_, Some err) => ret (Some err)
                       | (ucp0, None) =>
                           os_Remove path ;;;
                           uploadFileWithCp_run bucket objectKey path
                             (getRoutines options) msgs ucp0
                       end) fs2 = (Val (Some eo), fs2, [Open filePath])).
      { rewrite (bind_Val _ _ _ _ _ _ Hp). reflexivity. }
      assert (Hmatch : match v with
                       | (true, None) =>
                           uploadFileWithCp_run bucket objectKey path
                             (getRoutines options) msgs ucp
                       | _ =>
                           p0 <~ prepare ucp objectKey filePath partSize bucket
                                   options ;;
                           match p0 with
                           | (_, Some err) => ret (Some err)
                           | (ucp0, None) =>
                               os_Remove path ;;;
                               uploadFileWithCp_run bucket objectKey path
                                 (getRoutines options) msgs ucp0
                           end
                       end fs2 = (Val (Some eo), fs2, [Open filePath])).
      { destruct v as [[|] [e|]]; try exact Hrest. congruence. }
      rewrite Hmatch. unfold result, trace. simpl.
      split; [exists eo; reflexivity|].
      apply Forall_cons. split; [apply Hstep; left; exists path; auto|].
      apply Forall_app. split; [exact Htrm|].
      apply Forall_app. split; [exact Htv|].
      apply Forall_cons. split; [|constructor].
      apply Hstep. left. exists filePath. auto.
    - unfold uploadFile. rewrite Hsplit.
      split; [exists es; reflexivity | constructor]. }
  assert (Hhead : forall fs1, bucket_GetObjectDetailedMeta srcBucketName
                                srcObjectKey fs1 =
                  (Val (inr em), fs1,
                   [GetObjectDetailedMeta srcBucketName srcObjectKey])).
  { intros fs1. unfold bucket_GetObjectDetailedMeta. rewrite bind_emit, Hmeta.
    reflexivity. }
  assert (Hcp : (exists e, result cp = Val (Some e))
                /\ Forall (fun a => isSetupStep a /\ ~ isInitiate a) (trace cp)).
  { subst cp.
    destruct (CopyFile_cases bucket srcBucketName srcObjectKey destObjectKey
                partSize options msgs fs) as [[err E]|[[_ E]|[_ E]]]; rewrite E.
    - split; [exists err; reflexivity | constructor].
    - set (path := FilePath (getCpConfig options (filepath_Base destObjectKey)).1).
      unfold copyFileWithCp. cbv zeta.
      destruct (copyCheckpoint_load_run zeroCopyCheckpoint path fs)
        as [[ccp lerr] Hload].
      rewrite (bind_Val _ _ _ _ _ _ Hload). cbv beta iota.
      destruct (Hrm lerr path fs) as (fs2 & trm & Hrm' & Htrm).
      rewrite (bind_Val _ _ _ _ _ _ Hrm').
      assert (Hv : exists v tv,
                copyCheckpoint_isValid ccp srcBucketName srcObjectKey fs2 =
                  (Val v, fs2, tv)
                /\ v <> (true, None)
                /\ Forall (fun a => isSetupStep a /\ ~ isInitiate a) tv).
      { unfold copyCheckpoint_isValid.
        destruct (negb (String.eqb (c_Magic ccp) downloadCpMagic) || _).
        - eexists _, _. split; [reflexivity|]. split; [discriminate | constructor].
        - rewrite (bind_Val _ _ _ _ _ _ (Hhead _)).
          eexists _, _. split; [reflexivity|]. split; [discriminate|].
          apply Forall_cons. split; [|constructor].
          apply Hstep. right. eexists _, _. reflexivity. }
      destruct Hv as (v & tv & Hv & Hne & Htv).
      rewrite (bind_Val _ _ _ _ _ _ Hv).
      assert (Hp : exists p,
                copyCheckpoint_prepare ccp srcBucketName srcObjectKey bucket
                  destObjectKey partSize options fs2 =
                  (Val (p, Some em), fs2,
                   [GetObjectDetailedMeta srcBucketName srcObjectKey])).
      { unfold copyCheckpoint_prepare.
        rewrite (bind_Val _ _ _ _ _ _ (Hhead _)). eexists. reflexivity. }
      destruct Hp as [p Hp].
      assert (Hrest : (p0 <~ copyCheckpoint_prepare ccp srcBucketName
                               srcObjectKey bucket destObjectKey partSize
                               options ;;
                       match p0 with
                       | (_, Some err) => ret (Some err)
                       | (ccp0, None) =>
                           os_Remove path ;;;
                           copyFileWithCp_run bucket destObjectKey path
                             (getRoutines options) msgs ccp0
                       end) fs2 =
                      (Val (Some em), fs2,
                       [GetObjectDetailedMeta srcBucketName srcObjectKey])).
      { rewrite (bind_Val _ _ _ _ _ _ Hp). reflexivity. }
      assert (Hmatch : match v with
                       | (true, None) =>
                           copyFileWithCp_run bucket destObjectKey path
                             (getRoutines options) msgs ccp
                       | _ =>
                           p0 <~ copyCheckpoint_prepare ccp srcBucketName
                                   srcObjectKey bucket destObjectKey partSize
                                   options ;;
                           match p0 with
                           | (_, Some err) => ret (Some err)
                           | (ccp0, None) =>
                               os_Remove path ;;;
                               copyFileWithCp_run bucket destObjectKey path
                                 (getRoutines options) msgs ccp0
                           end
                       end fs2 =
                       (Val (Some em), fs2,
                        [GetObjectDetailedMeta srcBucketName srcObjectKey])).
      { destruct v as [[|] [e|]]; try exact Hrest. congruence. }
      rewrite Hmatch. unfold result, trace. simpl.
      split; [exists em; reflexivity|].
      apply Forall_cons. split; [apply Hstep; left; exists path; auto|].
      apply Forall_app. split; [exact Htrm|].
      apply Forall_app. split; [exact Htv|].
      apply Forall_cons. split; [|constructor].
      apply Hstep. right. eexists _, _. reflexivity.
    - assert (Hg : getCopyParts srcBucketName srcObjectKey partSize fs =
                   (Val (inr em), fs,
                    [GetObjectDetailedMeta srcBucketName srcObjectKey])).
      { unfold getCopyParts. rewrite (bind_Val _ _ _ _ _ _ (Hhead _)).
        reflexivity. }
      unfold copyFile. cbv zeta. rewrite (bind_Val _ _ _ _ _ _ Hg).
      unfold ret, result, trace. simpl.
      split; [exists em; reflexivity|].
      apply Forall_cons. split; [|constructor].
      apply Hstep. right. eexists _, _. reflexivity. }
  destruct Hup as [Hu1 Hu2], Hcp as [Hc1 Hc2]. auto.
Qed.

End NoSource.

Lemma unreadable_source_starts_no_upload_witness :
  let up := @UploadFile Sample.package unreadable Sample.digest
              Sample.jsonUpload "bucket" "turtr" "BingWallpaper-2015-11-07.jpg"
              102400 [Sample.Checkpoint true "upload.cp"] Sample.allResults ∅ in
  let cp := @CopyFile Sample.package unreadable Sample.digest Sample.jsonCopy
              "dest-bucket" "src-bucket" "tcrtr" "tcrtr-copy" 102400
              [Sample.Routines 2] Sample.allResults ∅ in
  (exists e, result up = Val (Some e)) /\ (exists e, result cp = Val (Some e)).
Proof.
  intros up cp.
  destruct (@unreadable_source_starts_no_upload Sample.package unreadable
              Sample.digest Sample.jsonUpload Sample.jsonCopy "bucket" "turtr"
              "BingWallpaper-2015-11-07.jpg" "src-bucket" "tcrtr" "tcrtr-copy"
              102400 [Sample.Checkpoint true "upload.cp"] Sample.allResults ∅
              "open: permission denied" "open: permission denied"
              "oss: service returned error: StatusCode=404")
    as (Hu & _); [reflexivity | reflexivity | reflexivity |].
  destruct (@unreadable_source_starts_no_upload Sample.package unreadable
              Sample.digest Sample.jsonUpload Sample.jsonCopy "dest-bucket"
              "turtr" "BingWallpaper-2015-11-07.jpg" "src-bucket" "tcrtr"
              "tcrtr-copy" 102400 [Sample.Routines 2] Sample.allResults ∅
              "open: permission denied" "open: permission denied"
              "oss: service returned error: StatusCode=404")
    as (_ & _ & Hc & _); [reflexivity | reflexivity | reflexivity |].
  split; [exact Hu | exact Hc].
Defined.

(** ** The default checkpoint path of a copy *)

Lemma takeElement_free cs :
  Forall (fun c => isPathSeparator c = false) (takeElement cs).
Proof.
  induction cs as [|c cs IH]; simpl; [constructor|].
  destruct (isPathSeparator c) eqn:E; [constructor|].
  apply Forall_cons. split; [exact E | exact IH].
Qed.

Lemma dropSeparators_all cs :
  Forall (fun c => isPathSeparator c = true) cs -> dropSeparators cs = [].
Proof.
  induction 1 as [|c cs Hc _ IH]; simpl; [reflexivity|]. rewrite Hc. exact IH.
Qed.

Lemma list_ascii_of_string_nonempty cs :
  cs <> [] -> string_of_list_ascii cs <> "".
Proof. destruct cs; [congruence | discriminate]. Qed.

(** X16. The base name CopyFile derives its default checkpoint path from is never
    empty and names no directory: it is [.] for the empty key, [/] for a key
    made of slashes only, and otherwise a name without a slash, which
    [filepath.Base] maps to itself. *)
Theorem checkpoint_base_name_has_no_directory (destObjectKey : string) :
  let base := filepath_Base destObjectKey in
  base <> ""
  /\ (destObjectKey = "" -> base = ".")
  /\ (destObjectKey <> "" -> allSeparators destObjectKey -> base = "/")
  /\ (base = "/" \/ noSeparator base)
  /\ filepath_Base base = base.
Proof.
  intros base. subst base. unfold filepath_Base.
  destruct (String.eqb destObjectKey "") eqn:E.
  { apply String.eqb_eq in E. subst.
    split; [discriminate|]. split; [reflexivity|]. split; [congruence|].
    split; [right; repeat constructor | reflexivity]. }
  apply String.eqb_neq in E.
  set (stripped := dropSeparators (rev (list_ascii_of_string destObjectKey))).
  destruct (rev (takeElement stripped)) as [|c cs] eqn:Hel.
  { split; [discriminate|]. split; [congruence|]. split; [reflexivity|].
    split; [left; reflexivity | reflexivity]. }
  assert (Hfree : Forall (fun c => isPathSeparator c = false) (c :: cs)).
  { rewrite <- Hel. apply Forall_rev, takeElement_free. }
  set (name := string_of_list_ascii (c :: cs)).
  assert (Hno : noSeparator name).
  { unfold noSeparator, name. rewrite list_ascii_of_string_of_list_ascii.
    exact Hfree. }
  assert (Hne : name <> "") by (apply list_ascii_of_string_nonempty; discriminate).
  split; [exact Hne|]. split; [congruence|]. split.
  { intros _ Hall. exfalso.
    assert (Hs : stripped = []).
    { unfold stripped. apply dropSeparators_all, Forall_rev, Hall. }
    rewrite Hs in Hel. discriminate. }
  split; [right; exact Hno|].
  apply (filepath_Base_plain name Hne Hno).
Qed.

Lemma upload_checkpoint_round_trip_witness :
  let saved := @uploadCheckpoint_dump Sample.package Sample.world Sample.digest
                 Sample.jsonUpload Sample.ucp0 "upload.cp" ∅ in
  let loaded := @uploadCheckpoint_load Sample.jsonUpload zeroUploadCheckpoint
                  "upload.cp" (files_after saved) in
  result saved = Val None
  /\ result loaded = Val (Sample.ucp, None)
  /\ result (@uploadCheckpoint_isValid Sample.package Sample.world Sample.digest
               Sample.jsonUpload Sample.ucp "BingWallpaper-2015-11-07.jpg"
               (files_after loaded)) = Val (true, None).
Proof.
  apply (@upload_checkpoint_round_trip Sample.package Sample.world Sample.digest
           Sample.jsonUpload Sample.ucp0 Sample.ucp
           "BingWallpaper-2015-11-07.jpg" "upload.cp"
           (Sample.encUpload Sample.ucp) ∅ (mkFileInfo 482048 Sample.modTime));
    reflexivity.
Defined.

(** ** What the workers send *)

Section WorkerMessages.
Context `{World} `{!Conn}.

Lemma UploadPartFromFile_number imur filePath startPosition partSize partNumber
    part :
  UploadPartFromFile imur filePath startPosition partSize partNumber
    = (part, None) ->
  PartNumber part = partNumber.
Proof.
  unfold UploadPartFromFile, DoUploadPart.
  destruct (os_Open filePath); [discriminate|].
  destruct (do_UploadPart _ _ _ _ _ _) as [resp|err]; [|discriminate].
  destruct IsEnableCRC; [destruct (checkCRC resp _); [discriminate|]|];
    intros [= <-]; reflexivity.
Qed.

Lemma UploadPartCopy_number imur srcBucketName srcObjectKey startPosition
    partSize partNumber options part :
  UploadPartCopy imur srcBucketName srcObjectKey startPosition partSize
    partNumber options = (part, None) ->
  PartNumber part = partNumber.
Proof.
  unfold UploadPartCopy.
  destruct (do_UploadPartCopy _ _ _ _ _ _ _ _) as [resp|err]; [|discriminate].
  destruct (xmlUnmarshal_ETag resp); [|discriminate].
  intros [= <-]. reflexivity.
Qed.

(** X17. A worker sends the tokens of the chunks it took, in the order it took
    them, each with the number of its chunk, and then nothing more or one
    error, after which it takes no further chunk. *)
Theorem worker_sends_tokens_then_at_most_one_error
    (id : Z) (imur : InitiateMultipartUploadResult)
    (filePath srcBucketName srcObjectKey : string) (options : list Option)
    (die : nat -> bool) (k : nat) (chunks : list FileChunk)
    (parts : list copyPart) :
  (exists ps tail,
     worker id imur filePath die k chunks = (OnResults <$> ps) ++ tail
     /\ (tail = [] \/ exists err, tail = [OnFailed err])
     /\ PartNumber <$> ps = fc_Number <$> take (length ps) chunks)
  /\ (exists ps tail,
        copyWorker id imur srcBucketName srcObjectKey options die k parts =
          (OnResults <$> ps) ++ tail
        /\ (tail = [] \/ exists err, tail = [OnFailed err])
        /\ PartNumber <$> ps = cp_Number <$> take (length ps) parts).
Proof.
  split.
  - revert k. induction chunks as [|chunk chunks IH]; intros k; simpl.
    + exists [], []. auto.
    + destruct (uploadPartHooker id chunk) as [err|].
      { exists [], [OnFailed err]. split; [reflexivity|]. split; [right; eauto|].
        reflexivity. }
      destruct (UploadPartFromFile imur filePath (fc_Offset chunk)
                  (fc_Size chunk) (fc_Number chunk)) as [part [err|]] eqn:Hup.
      { exists [], [OnFailed err]. split; [reflexivity|]. split; [right; eauto|].
        reflexivity. }
      destruct (die k).
      { exists [], []. auto. }
      destruct (IH (S k)) as (ps & tail & Hw & Htail & Hnum).
      exists (part :: ps), tail. split; [rewrite Hw; reflexivity|].
      split; [exact Htail|]. simpl.
      f_equal; [apply (UploadPartFromFile_number _ _ _ _ _ _ Hup) | exact Hnum].
  - revert k. induction parts as [|chunk parts IH]; intros k; simpl.
    + exists [], []. auto.
    + destruct (copyPartHooker chunk) as [err|].
      { exists [], [OnFailed err]. split; [reflexivity|]. split; [right; eauto|].
        reflexivity. }
      destruct (UploadPartCopy imur srcBucketName srcObjectKey (cp_Start chunk)
                  (add64 (sub64 (cp_End chunk) (cp_Start chunk)) 1)
                  (cp_Number chunk) options) as [part [err|]] eqn:Hup.
      { exists [], [OnFailed err]. split; [reflexivity|]. split; [right; eauto|].
        reflexivity. }
      destruct (die k).
      { exists [], []. auto. }
      destruct (IH (S k)) as (ps & tail & Hw & Htail & Hnum).
      exists (part :: ps), tail. split; [rewrite Hw; reflexivity|].
      split; [exact Htail|]. simpl.
      f_equal; [apply (UploadPartCopy_number _ _ _ _ _ _ _ _ Hup) | exact Hnum].
Qed.

Lemma copyWorker_tokens id imur srcBucketName srcObjectKey options die k jobs
    part :
  In part (tokens (copyWorker id imur srcBucketName srcObjectKey options die k
                     jobs)) ->
  exists chunk, In chunk jobs /\ PartNumber part = cp_Number chunk.
Proof.
  revert k. induction jobs as [|chunk jobs IH]; intros k; simpl; [tauto|].
  destruct (copyPartHooker chunk) as [err|]; [simpl; tauto|].
  destruct (UploadPartCopy imur srcBucketName srcObjectKey (cp_Start chunk)
              (add64 (sub64 (cp_End chunk) (cp_Start chunk)) 1)
              (cp_Number chunk) options) as [p [err|]] eqn:Hup; [simpl; tauto|].
  destruct (die k); [simpl; tauto|]. simpl. intros [<-|Hin].
  - exists chunk. split; [left; reflexivity|].
    apply (UploadPartCopy_number _ _ _ _ _ _ _ _ Hup).
  - destruct (IH (S k) Hin) as (c & Hc & Hn). exists c. auto.
Qed.

(** X18. Every token a copy worker delivers for a part of the plan indexes that
    very part in the coordinator: with the parts numbered from 1, as
    getCopyParts numbers them, the case of [results] of copyFile finds the
    part at [PartNumber-1], stores the token there and adds the bytes of the
    part the worker copied; it does not panic. *)
Theorem copy_worker_tokens_index_the_plan
    (id : Z) (imur : InitiateMultipartUploadResult)
    (srcBucketName srcObjectKey : string) (options : list Option)
    (die : nat -> bool) (k : nat) (plan jobs : list copyPart) (total : Z)
    (part : UploadPart) (s : LoopState (list UploadPart)) (fs : Files) :
  numbered plan ->
  Forall (fun chunk => In chunk plan) jobs ->
  length (l_gathered s) = length plan ->
  In part (tokens (copyWorker id imur srcBucketName srcObjectKey options die k
                     jobs)) ->
  exists chunk,
    In chunk jobs /\ cp_Number chunk = PartNumber part
    /\ index plan (PartNumber part - 1) = Some chunk
    /\ copyFile_results plan total part s fs =
         (Val (mkLoop (l_completed s + 1) (place (l_gathered s) part)
                 (add64 (l_completedBytes s) (partBytes chunk))), fs,
          [publishProgress
             (newProgressEvent TransferDataEvent
                (add64 (l_completedBytes s) (partBytes chunk)) total)]).
Proof.
  intros Hnum Hjobs Hlen Hin.
  destruct (copyWorker_tokens _ _ _ _ _ _ _ _ _ Hin) as (chunk & Hc & Hn).
  exists chunk. split; [exact Hc|]. split; [symmetry; exact Hn|].
  assert (Hplan : In chunk plan).
  { apply (proj1 (Forall_forall _ _) Hjobs), list_elem_of_In, Hc. }
  apply list_elem_of_In, list_elem_of_lookup in Hplan as [i Hi].
  assert (Hno : cp_Number chunk = Z.of_nat i + 1) by (apply (Hnum i), Hi).
  assert (Hidx : index plan (PartNumber part - 1) = Some chunk).
  { apply index_Some. split; [lia|].
    replace (Z.to_nat (PartNumber part - 1)) with i by lia. exact Hi. }
  split; [exact Hidx|].
  apply copyFile_results_run.
  - unfold store.
    destruct (lookup_lt_is_Some_2 (l_gathered s) i) as [x Hx];
      [rewrite Hlen; eapply lookup_lt_Some, Hi|].
    rewrite (proj2 (index_Some (l_gathered s) (PartNumber part - 1) x));
      [reflexivity|].
    split; [lia|]. replace (Z.to_nat (PartNumber part - 1)) with i by lia.
    exact Hx.
  - apply index_Some in Hidx as [Hge Hidx]. apply index_Some.
    split; [exact Hge|]. rewrite list_lookup_fmap, Hidx. reflexivity.
Qed.

End WorkerMessages.

Lemma copy_worker_tokens_index_the_plan_witness :
  let jobs := [mkCopyPart 2 102400 204799; mkCopyPart 3 204800 307199;
               mkCopyPart 4 307200 409599] in
  let imur := mkIMUR "dest-bucket" "tcrtr-copy" "3F79722737D1469980DACEDCA325BB52" in
  @copyWorker Sample.package sampleConn 1 imur "src-bucket" "tcrtr" []
    (fun _ => false) 0 jobs =
    [OnResults (mkUploadPart 2 "etag-2"); OnResults (mkUploadPart 3 "etag-3");
     OnFailed "ErrorHooker"]
  /\ exists chunk,
       index Sample.copyParts (3 - 1) = Some chunk /\ cp_Number chunk = 3.
Proof.
  intros jobs imur. split; [vm_compute; reflexivity|].
  destruct (@copy_worker_tokens_index_the_plan Sample.package sampleConn
              1 imur "src-bucket" "tcrtr" [] (fun _ => false) 0%nat
              Sample.copyParts jobs 482048 (mkUploadPart 3 "etag-3")
              (mkLoop 0 (replicate 5 zeroUploadPart) 0) ∅)
    as (chunk & _ & Hn & Hidx & _).
  - exact sample_copyParts_numbered.
  - repeat (apply Forall_cons; split;
              [vm_compute; repeat (first [left; reflexivity | right])|]).
    constructor.
  - reflexivity.
  - vm_compute. right. left. reflexivity.
  - exists chunk. split; [exact Hidx | exact Hn].
Defined.
